(** * Clawdaunt desktop: process supervision, reverse proxy, health and presence

    A shallow embedding of [src/main.ts].  The Electron main process is a
    single-threaded event loop over module-level mutable variables.  Here
    the variables are the fields of one [World] record, every handler of the
    source is a function on worlds, and the event loop is a step function
    that dispatches one event (an HTTP request, a timer, a child-process
    event, an IPC call) to its handler.  Asynchronous operations ([await],
    callbacks, [setTimeout]) are split at the suspension point: the first
    half records what is in flight, the completion is an event of its own. *)

From stdpp Require Import gmap strings list fin_maps pretty.
From Stdlib Require Import ZArith Lia Ascii.

Local Open Scope string_scope.
Local Open Scope list_scope.
Local Open Scope Z_scope.

(** ** JavaScript values that cross the JSON boundary *)

Module Js.

(** A parsed JSON field.  [JOther] stands for arrays and objects, which
    this program only ever tests for truthiness or compares with [===]
    against string literals. *)
Inductive JsVal :=
| JUndefined
| JNull
| JBool (b : bool)
| JNum (n : Z)
| JStr (s : string)
| JOther.

(** [!!v] *)
Definition truthy (v : JsVal) : bool :=
  match v with
  | JUndefined | JNull => false
  | JBool b => b
  | JNum n => negb (n =? 0)
  | JStr s => negb (String.eqb s "")
  | JOther => true
  end.

(** [v ?? d] *)
Definition nullish_or (v d : JsVal) : JsVal :=
  match v with
  | JUndefined | JNull => d
  | _ => v
  end.

(** [v === "lit"] *)
Definition is_str (v : JsVal) (lit : string) : bool :=
  match v with
  | JStr s => String.eqb s lit
  | _ => false
  end.

(** [a === b]; two arrays or objects that crossed a serialisation boundary
    are never the same reference. *)
Definition strictEq (a b : JsVal) : bool :=
  match a, b with
  | JUndefined, JUndefined | JNull, JNull => true
  | JBool x, JBool y => Bool.eqb x y
  | JNum x, JNum y => Z.eqb x y
  | JStr x, JStr y => String.eqb x y
  | _, _ => false
  end.

(** [v !== undefined] *)
Definition defined (v : JsVal) : bool :=
  match v with
  | JUndefined => false
  | _ => true
  end.

End Js.
Export Js.

(** ** Data model *)

Definition CLAWDAUNT_PROTOCOL_VERSION : Z := 1.

Module Workspace.
Record t := mk {
  id : string;
  name : string;
  paths : list string;
  protected : list string
}.
End Workspace.

Record Config := mkConfig {
  port : Z;
  password : string;
  workspaces : list Workspace.t;
  activeWorkspaceId : option string;
  aiSource : JsVal;
  apiKey : JsVal;
  apiProvider : JsVal
}.

(** What [~/.clawdaunt/config.json] holds: nothing, the old [repos[]]
    format (no [workspaces] array; [port] and [password] may be absent), or
    a configuration object whose three AI fields may be absent. *)
Inductive ConfigFile :=
| NoFile
| LegacyFile (rport : option Z) (rpassword : option string)
             (repos : list string) (raiSource rapiKey rapiProvider : JsVal)
| ConfigJson (raw : Config).

(** What [generateOpenClawConfig] writes to [~/.openclaw/openclaw.json]. *)
Record OpenClawConfig := mkOpenClaw {
  oc_port : Z;
  oc_token : string;
  oc_primary : string;
  oc_cliBackends : list (string * string)
}.

Inductive Health := healthy | checking | down.

(** The arguments of [send(channel, data)]. *)
Inductive Payload :=
| PTrue
| PText (s : string)
| PHealth (h : Health)
| PConfig (c : Config)
| PNoSessions.

Record Sent := mkSent { channel : string; payload : Payload }.

(** ** The runtime: timers, child processes, closures *)

Inductive TimerKind :=
| PresencePoll                       (* setInterval(..., 2000) *)
| HealthPoll                         (* setInterval(..., 10000) *)
| RestartTunnel                      (* setTimeout(() => startTunnel(), delay) *)
| WaitForDns (poll : nat)            (* setTimeout(waitForDns, 1000) *)
| GatewaySettle (gport : Z) (token : string).  (* setTimeout(..., 2000) in startServer *)

(** A live timer: what it runs, when it is next due, and its period when it
    is an interval. *)
Record Timer := mkTimer { t_kind : TimerKind; t_due : Z; t_every : option Z }.

Inductive ProcKind :=
| Gateway (cwd : string) (env : list (string * JsVal))
| Tunnel (proxyPort : Z)
| Caffeinate.

(** A live child process; [p_signalled] records that [kill()] was called on
    it.  The process leaves the table when its [exit] event is delivered. *)
Record Proc := mkProc { p_kind : ProcKind; p_bin : string; p_signalled : bool }.

(** The closure variables of one [startTunnel] call. *)
Record TunnelClosure := mkTunnelClosure { urlFound : bool; rateLimited : bool }.

(** The closure variables of one DNS poll inside [onData]. *)
Record DnsPoll := mkDnsPoll { tunnelUrl : string; hostname : string; dnsStart : Z }.

(** The closure of the proxy's request handler. *)
Record ProxyClosure := mkProxy { targetPort : Z; expectedAuth : string }.

(** Instrumentation, not source state: the order in which the supervisor
    entry points were entered. *)
Inductive Call :=
| CallStartTunnel
| CallStartServer
| CallStopServer (resetClient : bool).

(** ** The world: the module-level variables of [main.ts], the runtime's
    tables, and the environment *)

Record World := mkWorld {
  gatewayProc : option nat;
  cloudflaredProc : option nat;
  setupHttpServer : option (Z * string);
  proxyServer : option ProxyClosure;
  intentionallyStopping : bool;
  tunnelRestarting : bool;
  currentTunnelURL : string;
  tunnelHealthInterval : option nat;
  tunnelHealthStatus : Health;
  lastClientHeartbeat : Z;
  clientPresenceInterval : option nat;
  clientConnectedState : bool;
  clientAwayState : bool;
  caffeinateProc : option nat;
  clock : Z;
  nextHandle : nat;
  timers : gmap nat Timer;
  procs : gmap nat Proc;
  tunnelClosures : gmap nat TunnelClosure;
  monitorFailCount : gmap nat nat;
  probes : gmap nat nat;
  dnsPolls : gmap nat DnsPoll;
  dnsQueries : gmap nat nat;
  dialogs : gmap nat (Config * string);
  sent : list Sent;
  calls : list Call;
  configFile : ConfigFile;
  openclawFile : option OpenClawConfig;
  binaries : string -> option string;
  entropy : nat -> string;
  entropyUsed : nat
}.

Definition set_gatewayProc (v : option nat) (w : World) : World :=
  mkWorld v (cloudflaredProc w) (setupHttpServer w) (proxyServer w) (intentionallyStopping w) (tunnelRestarting w) (currentTunnelURL w) (tunnelHealthInterval w) (tunnelHealthStatus w) (lastClientHeartbeat w) (clientPresenceInterval w) (clientConnectedState w) (clientAwayState w) (caffeinateProc w) (clock w) (nextHandle w) (timers w) (procs w) (tunnelClosures w) (monitorFailCount w) (probes w) (dnsPolls w) (dnsQueries w) (dialogs w) (sent w) (calls w) (configFile w) (openclawFile w) (binaries w) (entropy w) (entropyUsed w).
Definition set_cloudflaredProc (v : option nat) (w : World) : World :=
  mkWorld (gatewayProc w) v (setupHttpServer w) (proxyServer w) (intentionallyStopping w) (tunnelRestarting w) (currentTunnelURL w) (tunnelHealthInterval w) (tunnelHealthStatus w) (lastClientHeartbeat w) (clientPresenceInterval w) (clientConnectedState w) (clientAwayState w) (caffeinateProc w) (clock w) (nextHandle w) (timers w) (procs w) (tunnelClosures w) (monitorFailCount w) (probes w) (dnsPolls w) (dnsQueries w) (dialogs w) (sent w) (calls w) (configFile w) (openclawFile w) (binaries w) (entropy w) (entropyUsed w).
Definition set_setupHttpServer (v : option (Z * string)) (w : World) : World :=
  mkWorld (gatewayProc w) (cloudflaredProc w) v (proxyServer w) (intentionallyStopping w) (tunnelRestarting w) (currentTunnelURL w) (tunnelHealthInterval w) (tunnelHealthStatus w) (lastClientHeartbeat w) (clientPresenceInterval w) (clientConnectedState w) (clientAwayState w) (caffeinateProc w) (clock w) (nextHandle w) (timers w) (procs w) (tunnelClosures w) (monitorFailCount w) (probes w) (dnsPolls w) (dnsQueries w) (dialogs w) (sent w) (calls w) (configFile w) (openclawFile w) (binaries w) (entropy w) (entropyUsed w).
Definition set_proxyServer (v : option ProxyClosure) (w : World) : World :=
  mkWorld (gatewayProc w) (cloudflaredProc w) (setupHttpServer w) v (intentionallyStopping w) (tunnelRestarting w) (currentTunnelURL w) (tunnelHealthInterval w) (tunnelHealthStatus w) (lastClientHeartbeat w) (clientPresenceInterval w) (clientConnectedState w) (clientAwayState w) (caffeinateProc w) (clock w) (nextHandle w) (timers w) (procs w) (tunnelClosures w) (monitorFailCount w) (probes w) (dnsPolls w) (dnsQueries w) (dialogs w) (sent w) (calls w) (configFile w) (openclawFile w) (binaries w) (entropy w) (entropyUsed w).
Definition set_intentionallyStopping (v : bool) (w : World) : World :=
  mkWorld (gatewayProc w) (cloudflaredProc w) (setupHttpServer w) (proxyServer w) v (tunnelRestarting w) (currentTunnelURL w) (tunnelHealthInterval w) (tunnelHealthStatus w) (lastClientHeartbeat w) (clientPresenceInterval w) (clientConnectedState w) (clientAwayState w) (caffeinateProc w) (clock w) (nextHandle w) (timers w) (procs w) (tunnelClosures w) (monitorFailCount w) (probes w) (dnsPolls w) (dnsQueries w) (dialogs w) (sent w) (calls w) (configFile w) (openclawFile w) (binaries w) (entropy w) (entropyUsed w).
Definition set_tunnelRestarting (v : bool) (w : World) : World :=
  mkWorld (gatewayProc w) (cloudflaredProc w) (setupHttpServer w) (proxyServer w) (intentionallyStopping w) v (currentTunnelURL w) (tunnelHealthInterval w) (tunnelHealthStatus w) (lastClientHeartbeat w) (clientPresenceInterval w) (clientConnectedState w) (clientAwayState w) (caffeinateProc w) (clock w) (nextHandle w) (timers w) (procs w) (tunnelClosures w) (monitorFailCount w) (probes w) (dnsPolls w) (dnsQueries w) (dialogs w) (sent w) (calls w) (configFile w) (openclawFile w) (binaries w) (entropy w) (entropyUsed w).
Definition set_currentTunnelURL (v : string) (w : World) : World :=
  mkWorld (gatewayProc w) (cloudflaredProc w) (setupHttpServer w) (proxyServer w) (intentionallyStopping w) (tunnelRestarting w) v (tunnelHealthInterval w) (tunnelHealthStatus w) (lastClientHeartbeat w) (clientPresenceInterval w) (clientConnectedState w) (clientAwayState w) (caffeinateProc w) (clock w) (nextHandle w) (timers w) (procs w) (tunnelClosures w) (monitorFailCount w) (probes w) (dnsPolls w) (dnsQueries w) (dialogs w) (sent w) (calls w) (configFile w) (openclawFile w) (binaries w) (entropy w) (entropyUsed w).
Definition set_tunnelHealthInterval (v : option nat) (w : World) : World :=
  mkWorld (gatewayProc w) (cloudflaredProc w) (setupHttpServer w) (proxyServer w) (intentionallyStopping w) (tunnelRestarting w) (currentTunnelURL w) v (tunnelHealthStatus w) (lastClientHeartbeat w) (clientPresenceInterval w) (clientConnectedState w) (clientAwayState w) (caffeinateProc w) (clock w) (nextHandle w) (timers w) (procs w) (tunnelClosures w) (monitorFailCount w) (probes w) (dnsPolls w) (dnsQueries w) (dialogs w) (sent w) (calls w) (configFile w) (openclawFile w) (binaries w) (entropy w) (entropyUsed w).
Definition set_tunnelHealthStatus (v : Health) (w : World) : World :=
  mkWorld (gatewayProc w) (cloudflaredProc w) (setupHttpServer w) (proxyServer w) (intentionallyStopping w) (tunnelRestarting w) (currentTunnelURL w) (tunnelHealthInterval w) v (lastClientHeartbeat w) (clientPresenceInterval w) (clientConnectedState w) (clientAwayState w) (caffeinateProc w) (clock w) (nextHandle w) (timers w) (procs w) (tunnelClosures w) (monitorFailCount w) (probes w) (dnsPolls w) (dnsQueries w) (dialogs w) (sent w) (calls w) (configFile w) (openclawFile w) (binaries w) (entropy w) (entropyUsed w).
Definition set_lastClientHeartbeat (v : Z) (w : World) : World :=
  mkWorld (gatewayProc w) (cloudflaredProc w) (setupHttpServer w) (proxyServer w) (intentionallyStopping w) (tunnelRestarting w) (currentTunnelURL w) (tunnelHealthInterval w) (tunnelHealthStatus w) v (clientPresenceInterval w) (clientConnectedState w) (clientAwayState w) (caffeinateProc w) (clock w) (nextHandle w) (timers w) (procs w) (tunnelClosures w) (monitorFailCount w) (probes w) (dnsPolls w) (dnsQueries w) (dialogs w) (sent w) (calls w) (configFile w) (openclawFile w) (binaries w) (entropy w) (entropyUsed w).
Definition set_clientPresenceInterval (v : option nat) (w : World) : World :=
  mkWorld (gatewayProc w) (cloudflaredProc w) (setupHttpServer w) (proxyServer w) (intentionallyStopping w) (tunnelRestarting w) (currentTunnelURL w) (tunnelHealthInterval w) (tunnelHealthStatus w) (lastClientHeartbeat w) v (clientConnectedState w) (clientAwayState w) (caffeinateProc w) (clock w) (nextHandle w) (timers w) (procs w) (tunnelClosures w) (monitorFailCount w) (probes w) (dnsPolls w) (dnsQueries w) (dialogs w) (sent w) (calls w) (configFile w) (openclawFile w) (binaries w) (entropy w) (entropyUsed w).
Definition set_clientConnectedState (v : bool) (w : World) : World :=
  mkWorld (gatewayProc w) (cloudflaredProc w) (setupHttpServer w) (proxyServer w) (intentionallyStopping w) (tunnelRestarting w) (currentTunnelURL w) (tunnelHealthInterval w) (tunnelHealthStatus w) (lastClientHeartbeat w) (clientPresenceInterval w) v (clientAwayState w) (caffeinateProc w) (clock w) (nextHandle w) (timers w) (procs w) (tunnelClosures w) (monitorFailCount w) (probes w) (dnsPolls w) (dnsQueries w) (dialogs w) (sent w) (calls w) (configFile w) (openclawFile w) (binaries w) (entropy w) (entropyUsed w).
Definition set_clientAwayState (v : bool) (w : World) : World :=
  mkWorld (gatewayProc w) (cloudflaredProc w) (setupHttpServer w) (proxyServer w) (intentionallyStopping w) (tunnelRestarting w) (currentTunnelURL w) (tunnelHealthInterval w) (tunnelHealthStatus w) (lastClientHeartbeat w) (clientPresenceInterval w) (clientConnectedState w) v (caffeinateProc w) (clock w) (nextHandle w) (timers w) (procs w) (tunnelClosures w) (monitorFailCount w) (probes w) (dnsPolls w) (dnsQueries w) (dialogs w) (sent w) (calls w) (configFile w) (openclawFile w) (binaries w) (entropy w) (entropyUsed w).
Definition set_caffeinateProc (v : option nat) (w : World) : World :=
  mkWorld (gatewayProc w) (cloudflaredProc w) (setupHttpServer w) (proxyServer w) (intentionallyStopping w) (tunnelRestarting w) (currentTunnelURL w) (tunnelHealthInterval w) (tunnelHealthStatus w) (lastClientHeartbeat w) (clientPresenceInterval w) (clientConnectedState w) (clientAwayState w) v (clock w) (nextHandle w) (timers w) (procs w) (tunnelClosures w) (monitorFailCount w) (probes w) (dnsPolls w) (dnsQueries w) (dialogs w) (sent w) (calls w) (configFile w) (openclawFile w) (binaries w) (entropy w) (entropyUsed w).
Definition set_clock (v : Z) (w : World) : World :=
  mkWorld (gatewayProc w) (cloudflaredProc w) (setupHttpServer w) (proxyServer w) (intentionallyStopping w) (tunnelRestarting w) (currentTunnelURL w) (tunnelHealthInterval w) (tunnelHealthStatus w) (lastClientHeartbeat w) (clientPresenceInterval w) (clientConnectedState w) (clientAwayState w) (caffeinateProc w) v (nextHandle w) (timers w) (procs w) (tunnelClosures w) (monitorFailCount w) (probes w) (dnsPolls w) (dnsQueries w) (dialogs w) (sent w) (calls w) (configFile w) (openclawFile w) (binaries w) (entropy w) (entropyUsed w).
Definition set_nextHandle (v : nat) (w : World) : World :=
  mkWorld (gatewayProc w) (cloudflaredProc w) (setupHttpServer w) (proxyServer w) (intentionallyStopping w) (tunnelRestarting w) (currentTunnelURL w) (tunnelHealthInterval w) (tunnelHealthStatus w) (lastClientHeartbeat w) (clientPresenceInterval w) (clientConnectedState w) (clientAwayState w) (caffeinateProc w) (clock w) v (timers w) (procs w) (tunnelClosures w) (monitorFailCount w) (probes w) (dnsPolls w) (dnsQueries w) (dialogs w) (sent w) (calls w) (configFile w) (openclawFile w) (binaries w) (entropy w) (entropyUsed w).
Definition set_timers (v : gmap nat Timer) (w : World) : World :=
  mkWorld (gatewayProc w) (cloudflaredProc w) (setupHttpServer w) (proxyServer w) (intentionallyStopping w) (tunnelRestarting w) (currentTunnelURL w) (tunnelHealthInterval w) (tunnelHealthStatus w) (lastClientHeartbeat w) (clientPresenceInterval w) (clientConnectedState w) (clientAwayState w) (caffeinateProc w) (clock w) (nextHandle w) v (procs w) (tunnelClosures w) (monitorFailCount w) (probes w) (dnsPolls w) (dnsQueries w) (dialogs w) (sent w) (calls w) (configFile w) (openclawFile w) (binaries w) (entropy w) (entropyUsed w).
Definition set_procs (v : gmap nat Proc) (w : World) : World :=
  mkWorld (gatewayProc w) (cloudflaredProc w) (setupHttpServer w) (proxyServer w) (intentionallyStopping w) (tunnelRestarting w) (currentTunnelURL w) (tunnelHealthInterval w) (tunnelHealthStatus w) (lastClientHeartbeat w) (clientPresenceInterval w) (clientConnectedState w) (clientAwayState w) (caffeinateProc w) (clock w) (nextHandle w) (timers w) v (tunnelClosures w) (monitorFailCount w) (probes w) (dnsPolls w) (dnsQueries w) (dialogs w) (sent w) (calls w) (configFile w) (openclawFile w) (binaries w) (entropy w) (entropyUsed w).
Definition set_tunnelClosures (v : gmap nat TunnelClosure) (w : World) : World :=
  mkWorld (gatewayProc w) (cloudflaredProc w) (setupHttpServer w) (proxyServer w) (intentionallyStopping w) (tunnelRestarting w) (currentTunnelURL w) (tunnelHealthInterval w) (tunnelHealthStatus w) (lastClientHeartbeat w) (clientPresenceInterval w) (clientConnectedState w) (clientAwayState w) (caffeinateProc w) (clock w) (nextHandle w) (timers w) (procs w) v (monitorFailCount w) (probes w) (dnsPolls w) (dnsQueries w) (dialogs w) (sent w) (calls w) (configFile w) (openclawFile w) (binaries w) (entropy w) (entropyUsed w).
Definition set_monitorFailCount (v : gmap nat nat) (w : World) : World :=
  mkWorld (gatewayProc w) (cloudflaredProc w) (setupHttpServer w) (proxyServer w) (intentionallyStopping w) (tunnelRestarting w) (currentTunnelURL w) (tunnelHealthInterval w) (tunnelHealthStatus w) (lastClientHeartbeat w) (clientPresenceInterval w) (clientConnectedState w) (clientAwayState w) (caffeinateProc w) (clock w) (nextHandle w) (timers w) (procs w) (tunnelClosures w) v (probes w) (dnsPolls w) (dnsQueries w) (dialogs w) (sent w) (calls w) (configFile w) (openclawFile w) (binaries w) (entropy w) (entropyUsed w).
Definition set_probes (v : gmap nat nat) (w : World) : World :=
  mkWorld (gatewayProc w) (cloudflaredProc w) (setupHttpServer w) (proxyServer w) (intentionallyStopping w) (tunnelRestarting w) (currentTunnelURL w) (tunnelHealthInterval w) (tunnelHealthStatus w) (lastClientHeartbeat w) (clientPresenceInterval w) (clientConnectedState w) (clientAwayState w) (caffeinateProc w) (clock w) (nextHandle w) (timers w) (procs w) (tunnelClosures w) (monitorFailCount w) v (dnsPolls w) (dnsQueries w) (dialogs w) (sent w) (calls w) (configFile w) (openclawFile w) (binaries w) (entropy w) (entropyUsed w).
Definition set_dnsPolls (v : gmap nat DnsPoll) (w : World) : World :=
  mkWorld (gatewayProc w) (cloudflaredProc w) (setupHttpServer w) (proxyServer w) (intentionallyStopping w) (tunnelRestarting w) (currentTunnelURL w) (tunnelHealthInterval w) (tunnelHealthStatus w) (lastClientHeartbeat w) (clientPresenceInterval w) (clientConnectedState w) (clientAwayState w) (caffeinateProc w) (clock w) (nextHandle w) (timers w) (procs w) (tunnelClosures w) (monitorFailCount w) (probes w) v (dnsQueries w) (dialogs w) (sent w) (calls w) (configFile w) (openclawFile w) (binaries w) (entropy w) (entropyUsed w).
Definition set_dnsQueries (v : gmap nat nat) (w : World) : World :=
  mkWorld (gatewayProc w) (cloudflaredProc w) (setupHttpServer w) (proxyServer w) (intentionallyStopping w) (tunnelRestarting w) (currentTunnelURL w) (tunnelHealthInterval w) (tunnelHealthStatus w) (lastClientHeartbeat w) (clientPresenceInterval w) (clientConnectedState w) (clientAwayState w) (caffeinateProc w) (clock w) (nextHandle w) (timers w) (procs w) (tunnelClosures w) (monitorFailCount w) (probes w) (dnsPolls w) v (dialogs w) (sent w) (calls w) (configFile w) (openclawFile w) (binaries w) (entropy w) (entropyUsed w).
Definition set_dialogs (v : gmap nat (Config * string)) (w : World) : World :=
  mkWorld (gatewayProc w) (cloudflaredProc w) (setupHttpServer w) (proxyServer w) (intentionallyStopping w) (tunnelRestarting w) (currentTunnelURL w) (tunnelHealthInterval w) (tunnelHealthStatus w) (lastClientHeartbeat w) (clientPresenceInterval w) (clientConnectedState w) (clientAwayState w) (caffeinateProc w) (clock w) (nextHandle w) (timers w) (procs w) (tunnelClosures w) (monitorFailCount w) (probes w) (dnsPolls w) (dnsQueries w) v (sent w) (calls w) (configFile w) (openclawFile w) (binaries w) (entropy w) (entropyUsed w).
Definition set_sent (v : list Sent) (w : World) : World :=
  mkWorld (gatewayProc w) (cloudflaredProc w) (setupHttpServer w) (proxyServer w) (intentionallyStopping w) (tunnelRestarting w) (currentTunnelURL w) (tunnelHealthInterval w) (tunnelHealthStatus w) (lastClientHeartbeat w) (clientPresenceInterval w) (clientConnectedState w) (clientAwayState w) (caffeinateProc w) (clock w) (nextHandle w) (timers w) (procs w) (tunnelClosures w) (monitorFailCount w) (probes w) (dnsPolls w) (dnsQueries w) (dialogs w) v (calls w) (configFile w) (openclawFile w) (binaries w) (entropy w) (entropyUsed w).
Definition set_calls (v : list Call) (w : World) : World :=
  mkWorld (gatewayProc w) (cloudflaredProc w) (setupHttpServer w) (proxyServer w) (intentionallyStopping w) (tunnelRestarting w) (currentTunnelURL w) (tunnelHealthInterval w) (tunnelHealthStatus w) (lastClientHeartbeat w) (clientPresenceInterval w) (clientConnectedState w) (clientAwayState w) (caffeinateProc w) (clock w) (nextHandle w) (timers w) (procs w) (tunnelClosures w) (monitorFailCount w) (probes w) (dnsPolls w) (dnsQueries w) (dialogs w) (sent w) v (configFile w) (openclawFile w) (binaries w) (entropy w) (entropyUsed w).
Definition set_configFile (v : ConfigFile) (w : World) : World :=
  mkWorld (gatewayProc w) (cloudflaredProc w) (setupHttpServer w) (proxyServer w) (intentionallyStopping w) (tunnelRestarting w) (currentTunnelURL w) (tunnelHealthInterval w) (tunnelHealthStatus w) (lastClientHeartbeat w) (clientPresenceInterval w) (clientConnectedState w) (clientAwayState w) (caffeinateProc w) (clock w) (nextHandle w) (timers w) (procs w) (tunnelClosures w) (monitorFailCount w) (probes w) (dnsPolls w) (dnsQueries w) (dialogs w) (sent w) (calls w) v (openclawFile w) (binaries w) (entropy w) (entropyUsed w).
Definition set_openclawFile (v : option OpenClawConfig) (w : World) : World :=
  mkWorld (gatewayProc w) (cloudflaredProc w) (setupHttpServer w) (proxyServer w) (intentionallyStopping w) (tunnelRestarting w) (currentTunnelURL w) (tunnelHealthInterval w) (tunnelHealthStatus w) (lastClientHeartbeat w) (clientPresenceInterval w) (clientConnectedState w) (clientAwayState w) (caffeinateProc w) (clock w) (nextHandle w) (timers w) (procs w) (tunnelClosures w) (monitorFailCount w) (probes w) (dnsPolls w) (dnsQueries w) (dialogs w) (sent w) (calls w) (configFile w) v (binaries w) (entropy w) (entropyUsed w).
Definition set_binaries (v : string -> option string) (w : World) : World :=
  mkWorld (gatewayProc w) (cloudflaredProc w) (setupHttpServer w) (proxyServer w) (intentionallyStopping w) (tunnelRestarting w) (currentTunnelURL w) (tunnelHealthInterval w) (tunnelHealthStatus w) (lastClientHeartbeat w) (clientPresenceInterval w) (clientConnectedState w) (clientAwayState w) (caffeinateProc w) (clock w) (nextHandle w) (timers w) (procs w) (tunnelClosures w) (monitorFailCount w) (probes w) (dnsPolls w) (dnsQueries w) (dialogs w) (sent w) (calls w) (configFile w) (openclawFile w) v (entropy w) (entropyUsed w).
Definition set_entropy (v : nat -> string) (w : World) : World :=
  mkWorld (gatewayProc w) (cloudflaredProc w) (setupHttpServer w) (proxyServer w) (intentionallyStopping w) (tunnelRestarting w) (currentTunnelURL w) (tunnelHealthInterval w) (tunnelHealthStatus w) (lastClientHeartbeat w) (clientPresenceInterval w) (clientConnectedState w) (clientAwayState w) (caffeinateProc w) (clock w) (nextHandle w) (timers w) (procs w) (tunnelClosures w) (monitorFailCount w) (probes w) (dnsPolls w) (dnsQueries w) (dialogs w) (sent w) (calls w) (configFile w) (openclawFile w) (binaries w) v (entropyUsed w).
Definition set_entropyUsed (v : nat) (w : World) : World :=
  mkWorld (gatewayProc w) (cloudflaredProc w) (setupHttpServer w) (proxyServer w) (intentionallyStopping w) (tunnelRestarting w) (currentTunnelURL w) (tunnelHealthInterval w) (tunnelHealthStatus w) (lastClientHeartbeat w) (clientPresenceInterval w) (clientConnectedState w) (clientAwayState w) (caffeinateProc w) (clock w) (nextHandle w) (timers w) (procs w) (tunnelClosures w) (monitorFailCount w) (probes w) (dnsPolls w) (dnsQueries w) (dialogs w) (sent w) (calls w) (configFile w) (openclawFile w) (binaries w) (entropy w) v.

(** ** Runtime primitives *)

(** [send(channel, data)]: the log keeps the calls in the order made. *)
Definition send (ch : string) (d : Payload) (w : World) : World :=
  set_sent (sent w ++ [mkSent ch d])%list w.

Definition enter (c : Call) (w : World) : World :=
  set_calls (calls w ++ [c])%list w.

(** Handles (timer ids, process ids, ids of pending answers) are drawn from
    one counter; [fresh] consumes the current one. *)
Definition fresh (w : World) : World :=
  set_nextHandle (S (nextHandle w)) w.

(** Enter a timer under the current handle. *)
Definition arm (k : TimerKind) (delay : Z) (every : option Z) (w : World) : World :=
  set_timers (<[nextHandle w := mkTimer k (clock w + delay) every]> (timers w)) (fresh w).

(** [setTimeout(k, delay)] *)
Definition setTimeout (k : TimerKind) (delay : Z) (w : World) : nat * World :=
  (nextHandle w, arm k delay None w).

(** [setInterval(k, period)] *)
Definition setInterval (k : TimerKind) (period : Z) (w : World) : nat * World :=
  (nextHandle w, arm k period (Some period) w).

(** An interval that fired at [clock w] is due again one period later. *)
Definition rearm (h : nat) (k : TimerKind) (period : Z) (w : World) : World :=
  set_timers (<[h := mkTimer k (clock w + period) (Some period)]> (timers w)) w.

(** [clearInterval(h)] / [clearTimeout(h)] *)
Definition clearTimer (h : nat) (w : World) : World :=
  set_timers (delete h (timers w)) w.

(** Enter a child process under the current handle. *)
Definition launch (k : ProcKind) (bin : string) (w : World) : World :=
  set_procs (<[nextHandle w := mkProc k bin false]> (procs w)) (fresh w).

(** [spawn(bin, ...)] *)
Definition spawn (k : ProcKind) (bin : string) (w : World) : nat * World :=
  (nextHandle w, launch k bin w).

(** The process [pid] has exited. *)
Definition reap (pid : nat) (w : World) : World :=
  set_procs (delete pid (procs w)) w.

(** [proc?.kill()]: sends the signal; the [exit] event comes in a later turn
    of the loop. *)
Definition kill (p : option nat) (w : World) : World :=
  match p with
  | None => w
  | Some pid =>
      set_procs (alter (fun pr => mkProc (p_kind pr) (p_bin pr) true) pid (procs w)) w
  end.

(** [randomBytes(n).toString(...)]: the next string of the entropy source. *)
Definition randomBytes (w : World) : string * World :=
  (entropy w (entropyUsed w), set_entropyUsed (S (entropyUsed w)) w).

(** [findBinary(name)]: the bundled directory and the search path are the
    environment's lookup function. *)
Definition findBinary (nm : string) (w : World) : option string :=
  binaries w nm.

(** ** ConfigStore *)

(** [path.basename] for paths with at most one trailing separator. *)
Fixpoint basename_from (acc s : string) : string :=
  match s with
  | EmptyString => acc
  | String c r =>
      if Ascii.eqb c "/"%char
      then basename_from (match r with EmptyString => acc | _ => EmptyString end) r
      else basename_from (acc +:+ String c EmptyString) r
  end.

Definition basename (s : string) : string := basename_from EmptyString s.

Definition saveConfig (config : Config) (w : World) : World :=
  set_configFile (ConfigJson config) w.

(** The [map] over [raw.repos] of the migration branch. *)
Fixpoint migrateRepos (repos : list string) (w : World) : list Workspace.t * World :=
  match repos with
  | [] => ([], w)
  | r :: rest =>
      let '(i, w) := randomBytes w in
      let '(wss, w) := migrateRepos rest w in
      (Workspace.mk i (basename r) [r] [] :: wss, w)
  end.

(** "Ensure new fields exist on old configs": the three [if (!raw.x)]
    defaults of [loadConfig]. *)
Definition ensureNewFields (raw : Config) : Config :=
  mkConfig (port raw) (password raw) (workspaces raw) (activeWorkspaceId raw)
           (if truthy (aiSource raw) then aiSource raw else JStr "claude-cli")
           (if truthy (apiKey raw) then apiKey raw else JStr "")
           (if truthy (apiProvider raw) then apiProvider raw else JStr "anthropic").

Definition loadConfig (w : World) : Config * World :=
  match configFile w with
  | NoFile =>
      let '(pw, w) := randomBytes w in
      let config := mkConfig 4096 pw [] None (JStr "claude-cli") (JStr "") (JStr "anthropic") in
      (config, set_configFile (ConfigJson config) w)
  | LegacyFile rport rpassword repos raiSource rapiKey rapiProvider =>
      (* Migrate from old repos[] format *)
      let '(wss, w) := migrateRepos repos w in
      let '(pw, w) := match rpassword with
                      | Some s => (s, w)
                      | None => randomBytes w
                      end in
      let config :=
        mkConfig (default 4096 rport) pw wss
                 (match wss with ws :: _ => Some (Workspace.id ws) | [] => None end)
                 (nullish_or raiSource (JStr "claude-cli"))
                 (nullish_or rapiKey (JStr ""))
                 (nullish_or rapiProvider (JStr "anthropic")) in
      (config, saveConfig config w)
  | ConfigJson raw => (ensureNewFields raw, w)
  end.

(** ** OpenClaw config generation *)

Definition generateOpenClawConfig (config : Config) (w : World) : World :=
  let cliBackends :=
    (match findBinary "claude" w with
     | Some b => [("claude-cli", b)]
     | None => []
     end ++
     match findBinary "codex" w with
     | Some b => [("codex-cli", b)]
     | None => []
     end)%list in
  let primary :=
    if is_str (aiSource config) "claude-cli" then "claude-cli/opus-4.6"
    else if is_str (aiSource config) "codex-cli" then "codex-cli/gpt-5.3-codex"
    else if is_str (aiSource config) "api-key" then
      (if is_str (apiProvider config) "openai"
       then "openai/gpt-4o"
       else "anthropic/claude-sonnet-4-20250514")
    else "claude-cli/opus-4.6" in
  set_openclawFile
    (Some (mkOpenClaw (port config) (password config) primary cliBackends)) w.

(** ** Client presence monitoring *)

Definition CLIENT_AWAY_TIMEOUT : Z := 30000.
Definition CLIENT_DISCONNECT_TIMEOUT : Z := 120000.

Definition startClientPresenceMonitor (w : World) : World :=
  let w := match clientPresenceInterval w with
           | Some h => clearTimer h w
           | None => w
           end in
  let '(h, w) := setInterval PresencePoll 2000 w in
  set_clientPresenceInterval (Some h) w.

(** The body of the presence interval; [Date.now()] is [clock w]. *)
Definition presenceTick (w : World) : World :=
  if negb (clientConnectedState w) || (lastClientHeartbeat w <=? 0) then w
  else
    let elapsed := clock w - lastClientHeartbeat w in
    if elapsed >? CLIENT_DISCONNECT_TIMEOUT then
      (* 2 minutes with no heartbeat: truly disconnected *)
      let w := set_clientConnectedState false w in
      let w := set_clientAwayState false w in
      let w := set_lastClientHeartbeat 0 w in
      send "client-disconnected" PTrue w
    else if (elapsed >? CLIENT_AWAY_TIMEOUT) && negb (clientAwayState w) then
      (* 30s: phone is probably sleeping, fire once *)
      let w := set_clientAwayState true w in
      send "client-away" PTrue w
    else w.

Definition stopClientPresenceMonitor (w : World) : World :=
  match clientPresenceInterval w with
  | Some h => set_clientPresenceInterval None (clearTimer h w)
  | None => w
  end.

(** ** Tunnel process and tunnel health *)

(** Assign [failCount] in the closure of monitor [m]. *)
Definition setFailCount (m n : nat) (w : World) : World :=
  set_monitorFailCount (<[m := n]> (monitorFailCount w)) w.

Definition setTunnelHealth (status : Health) (w : World) : World :=
  let w := set_tunnelHealthStatus status w in
  send "tunnel-health" (PHealth status) w.

Definition startTunnelHealthMonitor (w : World) : World :=
  let w := match tunnelHealthInterval w with
           | Some h => clearTimer h w
           | None => w
           end in
  (* let failCount = 0: bound under the handle of the interval made below *)
  let w := setFailCount (nextHandle w) 0%nat w in
  let w := setTunnelHealth healthy w in
  let '(h, w) := setInterval HealthPoll 10000 w in
  set_tunnelHealthInterval (Some h) w.

(** Bind the closure variables of the tunnel process [pid]. *)
Definition closure (pid : nat) (c : TunnelClosure) (w : World) : World :=
  set_tunnelClosures (<[pid := c]> (tunnelClosures w)) w.

Definition CLOUDFLARED_NOT_FOUND : string :=
  "cloudflared not found. Install with: brew install cloudflare/cloudflare/cloudflared".

Definition startTunnel (w : World) : World :=
  let w := enter CallStartTunnel w in
  let '(config, w) := loadConfig w in
  match findBinary "cloudflared" w with
  | None => send "error" (PText CLOUDFLARED_NOT_FOUND) w
  | Some cloudflaredBin =>
      let proxyPort := port config + 1 in
      let '(pid, w) := spawn (Tunnel proxyPort) cloudflaredBin w in
      let w := set_cloudflaredProc (Some pid) w in
      (* let urlFound = false; let rateLimited = false; the handlers below
         are the events TunnelData, TunnelError and TunnelExit of pid *)
      closure pid (mkTunnelClosure false false) w
  end.

(** [verifyTunnelReachable] is awaited by monitor [m]. *)
Definition probe (m : nat) (w : World) : World :=
  set_probes (<[nextHandle w := m]> (probes w)) (fresh w).

Definition is_healthy (h : Health) : bool :=
  match h with healthy => true | _ => false end.

(** The health interval body up to its [await]: a probe for monitor [m] is
    in flight afterwards.  [verifyTunnelReachable] loads the config for the
    credential it sends. *)
Definition healthTick (m : nat) (w : World) : World :=
  if String.eqb (currentTunnelURL w) "" || intentionallyStopping w then w
  else
    let '(_, w) := loadConfig w in
    probe m w.

(** The rest of the interval body, run when the probe answers [ok]. *)
Definition healthTickResume (m : nat) (ok : bool) (w : World) : World :=
  let failCount := default 0%nat (monitorFailCount w !! m) in
  let setFail := setFailCount m in
  if ok then
    let w := setFail 0%nat w in
    if negb (is_healthy (tunnelHealthStatus w)) then setTunnelHealth healthy w else w
  else
    let failCount := S failCount in
    let w := setFail failCount w in
    let w := if Nat.eqb failCount 1 then setTunnelHealth checking w else w in
    if Nat.leb 3 failCount then
      let w := setFail 0%nat w in
      let w := setTunnelHealth down w in
      let w := set_currentTunnelURL "" w in
      let w := send "tunnel-url" (PText "") w in
      (* Flag prevents the exit handler from also calling startTunnel *)
      let w := set_tunnelRestarting true w in
      let w := kill (cloudflaredProc w) w in
      let w := set_cloudflaredProc None w in
      startTunnel w
    else w.

(** *** Scanning the tunnel's output *)

(** [s] without the prefix [p], when it starts with it. *)
Fixpoint stripPrefix (p s : string) : option string :=
  match p, s with
  | EmptyString, _ => Some s
  | String a p', String b s' => if Ascii.eqb a b then stripPrefix p' s' else None
  | String _ _, EmptyString => None
  end.

(** [text.includes(needle)] *)
Fixpoint includes (needle text : string) : bool :=
  match stripPrefix needle text with
  | Some _ => true
  | None =>
      match text with
      | EmptyString => false
      | String _ rest => includes needle rest
      end
  end.

(** The character class [[a-zA-Z0-9-]]. *)
Definition hostChar (c : ascii) : bool :=
  let n := nat_of_ascii c in
  (Nat.leb 97 n && Nat.leb n 122) || (Nat.leb 65 n && Nat.leb n 90)
  || (Nat.leb 48 n && Nat.leb n 57) || Nat.eqb n 45.

(** The longest run of [hostChar] at the head of [s], and what follows. *)
Fixpoint spanHost (s : string) : string * string :=
  match s with
  | String c r =>
      if hostChar c
      then let '(run, rest) := spanHost r in (String c run, rest)
      else (EmptyString, s)
  | EmptyString => (EmptyString, EmptyString)
  end.

(** A match of [/https:\/\/[a-zA-Z0-9-]+\.trycloudflare\.com/] that starts
    at the head of [s]: the label.  The class excludes the dot, so the
    label is the longest run. *)
Definition tunnelUrlHere (s : string) : option string :=
  match stripPrefix "https://" s with
  | None => None
  | Some r =>
      let '(label, rest) := spanHost r in
      match label, stripPrefix ".trycloudflare.com" rest with
      | String _ _, Some _ => Some label
      | _, _ => None
      end
  end.

(** [text.match(...)]: the leftmost match. *)
Fixpoint matchTunnelLabel (text : string) : option string :=
  match tunnelUrlHere text with
  | Some l => Some l
  | None =>
      match text with
      | EmptyString => None
      | String _ rest => matchTunnelLabel rest
      end
  end.

Definition lowerChar (c : ascii) : ascii :=
  let n := nat_of_ascii c in
  if Nat.leb 65 n && Nat.leb n 90 then ascii_of_nat (n + 32) else c.

Fixpoint toLower (s : string) : string :=
  match s with
  | EmptyString => EmptyString
  | String c r => String (lowerChar c) (toLower r)
  end.

(** *** The tunnel supervisor's handlers *)

(** [resolver.resolve4(hostname, cb)] for poll [poll] is under way. *)
Definition resolve4 (poll : nat) (w : World) : World :=
  set_dnsQueries (<[nextHandle w := poll]> (dnsQueries w)) (fresh w).

(** The closure of a new DNS poll, under the current handle. *)
Definition newPoll (p : DnsPoll) (w : World) : World :=
  set_dnsPolls (<[nextHandle w := p]> (dnsPolls w)) (fresh w).

(** [waitForDns] up to the call of [resolver.resolve4]: afterwards a query
    of poll [poll] is in flight. *)
Definition waitForDns (poll : nat) (w : World) : World :=
  match dnsPolls w !! poll with
  | None => w
  | Some p =>
      if intentionallyStopping w then w
      else if clock w - dnsStart p >? 30000 then
        (* DNS never resolved: kill and let the exit handler retry *)
        kill (cloudflaredProc w) w
      else resolve4 poll w
  end.

(** The callback of [resolver.resolve4]. *)
Definition dnsCallback (poll : nat) (err : bool) (w : World) : World :=
  match dnsPolls w !! poll with
  | None => w
  | Some p =>
      if err then snd (setTimeout (WaitForDns poll) 1000 w)
      else
        let w := set_currentTunnelURL (tunnelUrl p) w in
        let w := send "tunnel-url" (PText (tunnelUrl p)) w in
        startTunnelHealthMonitor w
  end.

(** [onData] of the tunnel process [pid], for stdout and stderr alike. *)
Definition onData (pid : nat) (text : string) (w : World) : World :=
  match tunnelClosures w !! pid with
  | None => w
  | Some cl =>
      if urlFound cl then w
      else if includes "429" text || includes "Too Many Requests" text then
        let w := closure pid (mkTunnelClosure (urlFound cl) true) w in
        send "error"
          (PText "Cloudflare rate limit hit. Please wait a few minutes and retry.") w
      else
        match matchTunnelLabel text with
        | None => w
        | Some label =>
            let w := closure pid (mkTunnelClosure true (rateLimited cl)) w in
            let host := label +:+ ".trycloudflare.com" in
            let poll := nextHandle w in
            let w := newPoll (mkDnsPoll ("https://" +:+ host) (toLower host) (clock w)) w in
            waitForDns poll w
        end
  end.

(** [cloudflaredProc.on('error')] *)
Definition tunnelError (msg : string) (w : World) : World :=
  send "error" (PText ("cloudflared error: " +:+ msg)) w.

(** [cloudflaredProc.on('exit')] of the tunnel process [pid]. *)
Definition tunnelExit (pid : nat) (w : World) : World :=
  if intentionallyStopping w then w
  else if tunnelRestarting w then
    (* Health monitor already killed us and called startTunnel *)
    set_tunnelRestarting false w
  else
    let w := set_currentTunnelURL "" w in
    let w := send "tunnel-url" (PText "") w in
    (* If rate limited, wait longer before retrying (60s instead of 2s) *)
    let delay :=
      if default false (rateLimited <$> tunnelClosures w !! pid) then 60000 else 2000 in
    snd (setTimeout RestartTunnel delay w).

(** ** OpenClaw gateway *)

(** [closeGatewayWs]: [connectGatewayWs] returns before it opens a socket
    or arms the retry timer, so both stay [null] and the session roster
    stays empty; what is left is the roster broadcast. *)
Definition closeGatewayWs (w : World) : World :=
  send "sessions-updated" PNoSessions w.

Definition connectGatewayWs (gport : Z) (token : string) (w : World) : World :=
  closeGatewayWs w.

Definition CLEAR_SCREEN : string := String (ascii_of_nat 27) "[2J".

(** [config.workspaces.find((w) => w.id === config.activeWorkspaceId)] *)
Definition findWorkspace (i : string) (wss : list Workspace.t) : option Workspace.t :=
  List.find (fun ws => String.eqb (Workspace.id ws) i) wss.

Definition activeWorkspace (config : Config) : option Workspace.t :=
  match activeWorkspaceId config with
  | Some i => findWorkspace i (workspaces config)
  | None => None
  end.

Definition startServer (w : World) : World :=
  let w := enter CallStartServer w in
  let '(config, w) := loadConfig w in
  let w := set_intentionallyStopping false w in
  match findBinary "openclaw" w with
  | None => send "error" (PText "openclaw not found. Install with: brew install openclaw-cli") w
  | Some openclawBin =>
      match activeWorkspace config ≫= (λ ws, head (Workspace.paths ws)) with
      | None =>
          send "error" (PText "No active workspace configured. Create a workspace first.") w
      | Some cwd =>
          (* Generate openclaw.json with the user's AI source settings *)
          let w := generateOpenClawConfig config w in
          let w := send "gateway-log" (PText CLEAR_SCREEN) w in
          let w := send "status" (PText "starting") w in
          let env := [("OPENCLAW_GATEWAY_TOKEN", JStr (password config))] in
          (* Pass API key as env var if using direct API key mode *)
          let env :=
            if is_str (aiSource config) "api-key" && truthy (apiKey config) then
              if is_str (apiProvider config) "anthropic"
              then env ++ [("ANTHROPIC_API_KEY", apiKey config)]
              else if is_str (apiProvider config) "openai"
              then env ++ [("OPENAI_API_KEY", apiKey config)]
              else env
            else env in
          let '(pid, w) := spawn (Gateway cwd env) openclawBin w in
          let w := set_gatewayProc (Some pid) w in
          (* the handlers are the events GatewayData, GatewayError and
             GatewayExit of pid; the gateway takes a moment to bind the port *)
          snd (setTimeout (GatewaySettle (port config) (password config)) 2000 w)
      end
  end.

(** The settle timeout set by [startServer]. *)
Definition gatewaySettle (gport : Z) (token : string) (w : World) : World :=
  match gatewayProc w with
  | Some _ =>
      if negb (intentionallyStopping w) then
        let w := send "status" (PText "running") w in
        connectGatewayWs gport token w
      else w
  | None => w
  end.

(** [forwardLog], on the chunk with its colour codes already stripped. *)
Definition forwardLog (clean : string) (w : World) : World :=
  send "gateway-log" (PText clean) w.

(** [gatewayProc.on('error')] *)
Definition gatewayError (msg : string) (w : World) : World :=
  let w := send "status" (PText "error") w in
  send "error" (PText ("openclaw error: " +:+ msg)) w.

Definition is_zero (code : option Z) : bool :=
  match code with Some 0 => true | _ => false end.

Definition showCode (code : option Z) : string :=
  match code with Some c => pretty c | None => "null" end.

(** [gatewayProc.on('exit')]; [code] is [null] for a process ended by a
    signal. *)
Definition gatewayExit (code : option Z) (w : World) : World :=
  if negb (intentionallyStopping w) then
    let w := send "status" (PText (if is_zero code then "stopped" else "error")) w in
    let w := if negb (is_zero code)
             then send "error" (PText ("openclaw exited with code " +:+ showCode code)) w
             else w in
    let w := set_clientConnectedState false w in
    let w := set_clientAwayState false w in
    let w := set_lastClientHeartbeat 0 w in
    let w := stopClientPresenceMonitor w in
    send "client-disconnected" PTrue w
  else w.

Definition stopServer (resetClient : bool) (w : World) : World :=
  let w := enter (CallStopServer resetClient) w in
  let w := set_intentionallyStopping true w in
  let w := closeGatewayWs w in
  let w := kill (gatewayProc w) w in
  let w := set_gatewayProc None w in
  let w := send "status" (PText "stopped") w in
  if resetClient then
    let w := set_clientConnectedState false w in
    let w := set_clientAwayState false w in
    let w := set_lastClientHeartbeat 0 w in
    let w := stopClientPresenceMonitor w in
    send "client-disconnected" PTrue w
  else w.

(** ** Setup server and proxy listener *)

Definition startSetupServer (w : World) : World :=
  let '(config, w) := loadConfig w in
  set_setupHttpServer (Some (port config, "Bearer " +:+ password config)) w.

Definition stopSetupServer (w : World) : World :=
  set_setupHttpServer None w.

Definition stopProxyServer (w : World) : World :=
  set_proxyServer None w.

Definition stopAll (w : World) : World :=
  let w := set_intentionallyStopping true w in
  let w := match tunnelHealthInterval w with
           | Some h => set_tunnelHealthInterval None (clearTimer h w)
           | None => w
           end in
  let w := closeGatewayWs w in
  let w := stopClientPresenceMonitor w in
  let w := stopProxyServer w in
  let w := stopSetupServer w in
  let w := kill (caffeinateProc w) w in
  let w := set_caffeinateProc None w in
  let w := kill (cloudflaredProc w) w in
  let w := set_cloudflaredProc None w in
  let w := kill (gatewayProc w) w in
  let w := set_gatewayProc None w in
  let w := set_clientConnectedState false w in
  let w := set_clientAwayState false w in
  let w := set_lastClientHeartbeat 0 w in
  let w := send "status" (PText "stopped") w in
  let w := set_currentTunnelURL "" w in
  send "tunnel-url" (PText "") w.

(** ** Reverse proxy *)

(** The body of a request once it has been received and passed through
    [JSON.parse]: [Malformed] when parsing throws or yields [null] (the
    destructuring in the handlers then throws), otherwise its fields. *)
Inductive ReqBody :=
| Malformed
| Fields (f : gmap string JsVal).

Record Request := mkRequest {
  method : string;
  url : string;
  authorization : option string;
  body : ReqBody
}.

Definition WorkspaceSummary : Type := string * string * option string.

Inductive Reply :=
| NoBody
| ErrorBody (msg : string)                         (* { error: msg } *)
| OkBody                                           (* { status: 'ok' } *)
| HealthBody (protocolVersion : Z)
| AiConfigBody (protocolVersion : option Z) (r_aiSource r_apiProvider : JsVal)
               (hasApiKey : bool) (claude codex openclaw : bool)
               (r_workspaces : list WorkspaceSummary) (r_active : option string)
| WorkspacesBody (r_workspaces : list WorkspaceSummary) (r_active : option string).

(** What the listener does with a request. *)
Inductive Outcome :=
| Respond (status : Z) (r : Reply)
| History (sessionKey : string)   (* answered from the CLI session files *)
| SessionsList (bin : string)     (* answered from [openclaw gateway call sessions.list] *)
| Forward (backend : Z)           (* http.request to 127.0.0.1:backend, answer relayed *)
| Splice (backend : Z).           (* raw connection to 127.0.0.1:backend, piped both ways *)

(** [req.headers.authorization !== expectedAuth] *)
Definition unauthorized (expected : string) (r : Request) : bool :=
  match authorization r with
  | Some a => negb (String.eqb a expected)
  | None => true
  end.

Definition Unauthorized : Outcome := Respond 401 (ErrorBody "Unauthorized").

Definition field (f : gmap string JsVal) (k : string) : JsVal :=
  default JUndefined (f !! k).

Definition summaries (cfg : Config) : list WorkspaceSummary :=
  map (fun ws => (Workspace.id ws, Workspace.name ws, head (Workspace.paths ws)))
      (workspaces cfg).

Definition has (nm : string) (w : World) : bool :=
  match findBinary nm w with Some _ => true | None => false end.

Definition with_ai (a k p : JsVal) (c : Config) : Config :=
  mkConfig (port c) (password c) (workspaces c) (activeWorkspaceId c) a k p.

Definition with_active (i : option string) (c : Config) : Config :=
  mkConfig (port c) (password c) (workspaces c) i (aiSource c) (apiKey c) (apiProvider c).

Definition with_workspaces (wss : list Workspace.t) (c : Config) : Config :=
  mkConfig (port c) (password c) wss (activeWorkspaceId c)
           (aiSource c) (apiKey c) (apiProvider c).

(** [/^\/v1\/sessions\/([^/]+)\/history/]: the captured segment. *)
Fixpoint spanSegment (s : string) : string * string :=
  match s with
  | String c r =>
      if Ascii.eqb c "/"%char then (EmptyString, s)
      else let '(seg, rest) := spanSegment r in (String c seg, rest)
  | EmptyString => (EmptyString, EmptyString)
  end.

Definition historyMatch (u : string) : option string :=
  match stripPrefix "/v1/sessions/" u with
  | None => None
  | Some r =>
      let '(seg, rest) := spanSegment r in
      match seg, stripPrefix "/history" rest with
      | String _ _, Some _ => Some seg
      | _, _ => None
      end
  end.

(** The [end] handler of [POST /global/ai-config]. *)
Definition postAiConfig (b : ReqBody) (w : World) : Outcome * World :=
  match b with
  | Malformed => (Respond 400 (ErrorBody "Invalid JSON body"), w)
  | Fields f =>
      let a := field f "aiSource" in
      let k := field f "apiKey" in
      let p := field f "apiProvider" in
      if negb (truthy a)
         || negb (is_str a "claude-cli" || is_str a "codex-cli" || is_str a "api-key")
      then (Respond 400 (ErrorBody "Invalid aiSource"), w)
      else
        let '(cfg, w) := loadConfig w in
        let cfg := with_ai a
                     (if defined k then k else apiKey cfg)
                     (if defined p then p else apiProvider cfg) cfg in
        let w := saveConfig cfg w in
        (* Restart server with new config *)
        let w := stopServer false w in
        let w := generateOpenClawConfig cfg w in
        let w := startServer w in
        (* Notify desktop UI of config change *)
        let w := send "config-changed" (PConfig cfg) w in
        (Respond 200
           (AiConfigBody None (aiSource cfg) (apiProvider cfg) (truthy (apiKey cfg))
              (has "claude" w) (has "codex" w) (has "openclaw" w)
              (summaries cfg) (activeWorkspaceId cfg)), w)
  end.

(** The [end] handler of [POST /global/workspaces/active]. *)
Definition postActiveWorkspace (b : ReqBody) (w : World) : Outcome * World :=
  match b with
  | Malformed => (Respond 400 (ErrorBody "Invalid JSON body"), w)
  | Fields f =>
      let '(cfg, w) := loadConfig w in
      match field f "workspaceId" with
      | JStr i =>
          match findWorkspace i (workspaces cfg) with
          | None => (Respond 404 (ErrorBody "Workspace not found"), w)
          | Some _ =>
              let cfg := with_active (Some i) cfg in
              let w := saveConfig cfg w in
              let w := stopServer false w in
              let w := startServer w in
              let w := send "config-changed" (PConfig cfg) w in
              (Respond 200 (WorkspacesBody (summaries cfg) (activeWorkspaceId cfg)), w)
          end
      | _ => (Respond 404 (ErrorBody "Workspace not found"), w)
      end
  end.

(** The request listener made by [startProxyServer]. *)
Definition proxyRequest (px : ProxyClosure) (r : Request) (w : World) : Outcome * World :=
  (* CORS preflight *)
  if String.eqb (method r) "OPTIONS" then (Respond 204 NoBody, w)
  (* Handle heartbeat locally: only /heartbeat counts as phone presence *)
  else if String.eqb (url r) "/heartbeat" && String.eqb (method r) "POST" then
    if unauthorized (expectedAuth px) r then (Unauthorized, w)
    else
      let w := set_lastClientHeartbeat (clock w) w in
      let w := if negb (clientConnectedState w)
               then startClientPresenceMonitor (set_clientConnectedState true w)
               else w in
      let w := set_clientAwayState false w in
      let w := send "client-connected" PTrue w in
      (Respond 200 OkBody, w)
  else if String.eqb (url r) "/global/ai-config" && String.eqb (method r) "GET" then
    if unauthorized (expectedAuth px) r then (Unauthorized, w)
    else
      let '(cfg, w) := loadConfig w in
      (Respond 200
         (AiConfigBody (Some CLAWDAUNT_PROTOCOL_VERSION) (aiSource cfg) (apiProvider cfg)
            (truthy (apiKey cfg)) (has "claude" w) (has "codex" w) (has "openclaw" w)
            (summaries cfg) (activeWorkspaceId cfg)), w)
  else if String.eqb (url r) "/global/ai-config" && String.eqb (method r) "POST" then
    if unauthorized (expectedAuth px) r then (Unauthorized, w)
    else postAiConfig (body r) w
  else if String.eqb (url r) "/global/workspaces" && String.eqb (method r) "GET" then
    if unauthorized (expectedAuth px) r then (Unauthorized, w)
    else
      let '(cfg, w) := loadConfig w in
      (Respond 200 (WorkspacesBody (summaries cfg) (activeWorkspaceId cfg)), w)
  else if String.eqb (url r) "/global/workspaces/active" && String.eqb (method r) "POST" then
    if unauthorized (expectedAuth px) r then (Unauthorized, w)
    else postActiveWorkspace (body r) w
  else
    match historyMatch (url r), String.eqb (method r) "GET" with
    | Some key, true =>
        if unauthorized (expectedAuth px) r then (Unauthorized, w)
        else (History key, w)
    | _, _ =>
        if String.eqb (url r) "/v1/sessions" && String.eqb (method r) "GET" then
          if unauthorized (expectedAuth px) r then (Unauthorized, w)
          else
            match findBinary "openclaw" w with
            | None => (Respond 500 (ErrorBody "openclaw binary not found"), w)
            | Some openclawBin => (SessionsList openclawBin, w)
            end
        else
          (* Proxy everything else to the target port *)
          (Forward (targetPort px), w)
    end.

(** The [upgrade] listener made by [startProxyServer].  Node emits
    [upgrade] instead of [request] for such a request, so the request
    listener above never sees it. *)
Definition proxyUpgrade (px : ProxyClosure) (r : Request) (w : World) : Outcome * World :=
  (Splice (targetPort px), w).

Definition startProxyServer (target listen : Z) (w : World) : World :=
  let '(config, w) := loadConfig w in
  set_proxyServer (Some (mkProxy target ("Bearer " +:+ password config))) w.

(** The request listener made by [startSetupServer]. *)
Definition setupRequest (expected : string) (r : Request) : Outcome :=
  if String.eqb (method r) "OPTIONS" then Respond 204 NoBody
  else if unauthorized expected r then Unauthorized
  else if String.eqb (url r) "/global/health" && String.eqb (method r) "GET"
  then Respond 200 (HealthBody CLAWDAUNT_PROTOCOL_VERSION)
  else Respond 404 NoBody.

(** ** IPC handlers, power events and start-up *)

(** The handlers that write state.  [tunnel:url], [tunnel:health],
    [sessions:list] and [cli:detect] only read it and are left out, as is
    [activate], which only opens a window. *)

Inductive IpcCall :=
| ConfigLoad
| ServerStart
| ServerStop
| SetAiSource (a k p : JsVal)
| WorkspaceCreate (picked : option string)   (* first path of the dialog, [None] when cancelled *)
| WorkspaceRename (i newName : string)
| WorkspaceDelete (i : string)
| WorkspaceSetActive (i : string)
| AddProtectedOpen (i : string)              (* up to the [await] of the dialog *)
| AddProtectedClose (dialog : nat) (picked : list string)  (* empty when cancelled *)
| RemoveProtected (i protectedPath : string).

(** [!config.activeWorkspaceId] *)
Definition noActive (c : Config) : bool :=
  match activeWorkspaceId c with
  | None => true
  | Some i => String.eqb i ""
  end.

(** Apply [f] to the first workspace with id [i]: the effect of mutating
    the object that [find] returned. *)
Fixpoint updateWorkspace (i : string) (f : Workspace.t -> Workspace.t)
         (wss : list Workspace.t) : list Workspace.t :=
  match wss with
  | [] => []
  | ws :: rest =>
      if String.eqb (Workspace.id ws) i then f ws :: rest
      else ws :: updateWorkspace i f rest
  end.

Definition includesPath (x : string) (l : list string) : bool :=
  existsb (String.eqb x) l.

Definition ipcSetAiSource (a k p : JsVal) (w : World) : World :=
  let '(config, w) := loadConfig w in
  let changed :=
    negb (strictEq (aiSource config) a)
    || (defined k && negb (strictEq (apiKey config) k))
    || (defined p && negb (strictEq (apiProvider config) p)) in
  let config := with_ai a
                  (if defined k then k else apiKey config)
                  (if defined p then p else apiProvider config) config in
  let w := saveConfig config w in
  if changed then
    (* Only restart when the config actually changed *)
    let w := stopServer false w in
    let w := generateOpenClawConfig config w in
    startServer w
  else w.

Definition ipcWorkspaceCreate (picked : option string) (w : World) : World :=
  match picked with
  | None => snd (loadConfig w)
  | Some dirPath =>
      let '(config, w) := loadConfig w in
      (* Don't add duplicate *)
      if existsb (fun ws => includesPath dirPath (Workspace.paths ws)) (workspaces config)
      then w
      else
        let '(i, w) := randomBytes w in
        let ws := Workspace.mk i (basename dirPath) [dirPath] [] in
        let wasEmpty := match workspaces config with [] => true | _ => false end in
        let config := with_workspaces (workspaces config ++ [ws]) config in
        (* Auto-activate first workspace *)
        let config := if noActive config then with_active (Some i) config else config in
        let w := saveConfig config w in
        (* Auto-start server when first workspace is added *)
        if wasEmpty then
          let config := with_active (Some i) config in
          let w := saveConfig config w in
          let w := stopSetupServer w in
          startServer w
        else w
  end.

Definition ipcWorkspaceRename (i newName : string) (w : World) : World :=
  let '(config, w) := loadConfig w in
  match findWorkspace i (workspaces config) with
  | Some _ =>
      let rename ws := Workspace.mk (Workspace.id ws) newName (Workspace.paths ws)
                                    (Workspace.protected ws) in
      saveConfig (with_workspaces (updateWorkspace i rename (workspaces config)) config) w
  | None => w
  end.

Definition ipcWorkspaceDelete (i : string) (w : World) : World :=
  let '(config, w) := loadConfig w in
  let config :=
    with_workspaces
      (List.filter (fun ws => negb (String.eqb (Workspace.id ws) i)) (workspaces config)) config in
  let '(config, w) :=
    match activeWorkspaceId config with
    | Some a =>
        if String.eqb a i then
          let config := with_active (Workspace.id <$> head (workspaces config)) config in
          let w := stopServer (noActive config) w in
          if negb (noActive config)
          then (config, startServer (saveConfig config w))
          else (config, w)
        else (config, w)
    | None => (config, w)
    end in
  saveConfig config w.

Definition ipcWorkspaceSetActive (i : string) (w : World) : World :=
  let '(config, w) := loadConfig w in
  match findWorkspace i (workspaces config) with
  | None => w
  | Some _ =>
      let config := with_active (Some i) config in
      let w := saveConfig config w in
      let w := stopServer false w in
      startServer w
  end.

(** The file dialog of [workspace:add-protected] is open; [config] and the
    workspace id are what the handler holds across its [await]. *)
Definition openDialog (config : Config) (i : string) (w : World) : World :=
  set_dialogs (<[nextHandle w := (config, i)]> (dialogs w)) (fresh w).

Definition ipcAddProtectedOpen (i : string) (w : World) : World :=
  let '(config, w) := loadConfig w in
  match findWorkspace i (workspaces config) with
  | None => w
  | Some _ =>
      openDialog config i w
  end.

Definition ipcAddProtectedClose (config : Config) (i : string) (picked : list string)
           (w : World) : World :=
  match picked with
  | [] => w
  | _ =>
      let protect ws :=
        let newPaths :=
          List.filter (fun p => negb (includesPath p (Workspace.protected ws))) picked in
        Workspace.mk (Workspace.id ws) (Workspace.name ws) (Workspace.paths ws)
                     (Workspace.protected ws ++ newPaths) in
      saveConfig (with_workspaces (updateWorkspace i protect (workspaces config)) config) w
  end.

Definition ipcRemoveProtected (i protectedPath : string) (w : World) : World :=
  let '(config, w) := loadConfig w in
  match findWorkspace i (workspaces config) with
  | None => w
  | Some _ =>
      let unprotect ws :=
        Workspace.mk (Workspace.id ws) (Workspace.name ws) (Workspace.paths ws)
          (List.filter (fun p => negb (String.eqb p protectedPath)) (Workspace.protected ws)) in
      saveConfig (with_workspaces (updateWorkspace i unprotect (workspaces config)) config) w
  end.

(** [powerMonitor.on('suspend')] and [powerMonitor.on('resume')] *)
Definition onSuspend (w : World) : World := stopClientPresenceMonitor w.

Definition onResume (w : World) : World :=
  if clientConnectedState w then
    let w := set_lastClientHeartbeat (clock w) w in
    startClientPresenceMonitor w
  else w.

(** [app.on('ready')] *)
Definition appReady (w : World) : World :=
  let '(pid, w) := spawn Caffeinate "caffeinate" w in
  let w := set_caffeinateProc (Some pid) w in
  let '(config, w) := loadConfig w in
  (* Start proxy before tunnel: cloudflared points to the proxy port *)
  let w := startProxyServer (port config) (port config + 1) w in
  let w := startTunnel w in
  match workspaces config with
  | _ :: _ => if negb (noActive config) then startServer w else startSetupServer w
  | [] => startSetupServer w
  end.

(** The variables as [main.ts] initialises them, in an environment given
    by the config file, the installed binaries, the entropy source and the
    time of start. *)
Definition initial (file : ConfigFile) (bins : string -> option string)
           (ent : nat -> string) (t0 : Z) : World :=
  {| gatewayProc := None; cloudflaredProc := None; setupHttpServer := None;
     proxyServer := None; intentionallyStopping := false; tunnelRestarting := false;
     currentTunnelURL := ""; tunnelHealthInterval := None;
     tunnelHealthStatus := checking; lastClientHeartbeat := 0;
     clientPresenceInterval := None; clientConnectedState := false;
     clientAwayState := false; caffeinateProc := None;
     clock := t0; nextHandle := 0%nat; timers := ∅; procs := ∅;
     tunnelClosures := ∅; monitorFailCount := ∅; probes := ∅; dnsPolls := ∅;
     dnsQueries := ∅; dialogs := ∅; sent := []; calls := [];
     configFile := file; openclawFile := None; binaries := bins;
     entropy := ent; entropyUsed := 0%nat |}.

(** ** The event loop *)

(** A request is one event: its body has been received when its handler
    runs.  Every other asynchronous operation is two events, the one that
    starts it and the one that answers it. *)

Inductive Event :=
| Http (r : Request)                         (* a request, body received *)
| Upgrade (r : Request)                      (* a connection-upgrade request *)
| TimerFires (h : nat)
| ProbeAnswers (q : nat) (ok : bool)         (* verifyTunnelReachable resolves *)
| DnsAnswers (q : nat) (err : bool)          (* the resolve4 callback *)
| TunnelData (pid : nat) (text : string)
| TunnelError (pid : nat) (msg : string)
| TunnelExit (pid : nat)
| GatewayData (pid : nat) (clean : string)
| GatewayError (pid : nat) (msg : string)
| GatewayExit (pid : nat) (code : option Z)
| CaffeinateError
| Ipc (c : IpcCall)
| Suspend
| Resume
| Quit.                                      (* window-all-closed / before-quit *)

Definition isTunnel (p : Proc) : bool :=
  match p_kind p with Tunnel _ => true | _ => false end.

Definition isGateway (p : Proc) : bool :=
  match p_kind p with Gateway _ _ => true | _ => false end.

(** An awaited answer has arrived: it is no longer pending. *)
Definition answered (q : nat) (w : World) : World :=
  set_probes (delete q (probes w)) w.

Definition resolved (q : nat) (w : World) : World :=
  set_dnsQueries (delete q (dnsQueries w)) w.

Definition closed (d : nat) (w : World) : World :=
  set_dialogs (delete d (dialogs w)) w.

Definition ipc (c : IpcCall) (w : World) : option World :=
  match c with
  | ConfigLoad => Some (snd (loadConfig w))
  | ServerStart => Some (startServer w)
  | ServerStop => Some (stopServer true w)
  | SetAiSource a k p => Some (ipcSetAiSource a k p w)
  | WorkspaceCreate picked => Some (ipcWorkspaceCreate picked w)
  | WorkspaceRename i newName => Some (ipcWorkspaceRename i newName w)
  | WorkspaceDelete i => Some (ipcWorkspaceDelete i w)
  | WorkspaceSetActive i => Some (ipcWorkspaceSetActive i w)
  | AddProtectedOpen i => Some (ipcAddProtectedOpen i w)
  | AddProtectedClose d picked =>
      match dialogs w !! d with
      | Some (config, i) =>
          Some (ipcAddProtectedClose config i picked (closed d w))
      | None => None
      end
  | RemoveProtected i pp => Some (ipcRemoveProtected i pp w)
  end.

(** What a fired timer runs. *)
Definition timerBody (h : nat) (k : TimerKind) (w : World) : World :=
  match k with
  | PresencePoll => presenceTick w
  | HealthPoll => healthTick h w
  | RestartTunnel => startTunnel w
  | WaitForDns poll => waitForDns poll w
  | GatewaySettle gport token => gatewaySettle gport token w
  end.

(** One turn of the loop at time [now]: [None] when the event cannot occur
    in this world (time running backwards, a timer that is not live or not
    yet due, an answer to a question never asked, an event of a process
    that is gone, a request with no listener). *)
Definition step (now : Z) (e : Event) (w : World) : option World :=
  if now <? clock w then None
  else
    let w := set_clock now w in
    match e with
    | Http r =>
        match proxyServer w with
        | Some px => Some (snd (proxyRequest px r w))
        | None => None
        end
    | Upgrade r =>
        match proxyServer w with
        | Some px => Some (snd (proxyUpgrade px r w))
        | None => None
        end
    | TimerFires h =>
        match timers w !! h with
        | Some t =>
            if now <? t_due t then None
            else
              let w := match t_every t with
                       | Some period => rearm h (t_kind t) period w
                       | None => clearTimer h w
                       end in
              Some (timerBody h (t_kind t) w)
        | None => None
        end
    | ProbeAnswers q ok =>
        match probes w !! q with
        | Some m => Some (healthTickResume m ok (answered q w))
        | None => None
        end
    | DnsAnswers q err =>
        match dnsQueries w !! q with
        | Some poll => Some (dnsCallback poll err (resolved q w))
        | None => None
        end
    | TunnelData pid text =>
        match procs w !! pid with
        | Some p => if isTunnel p then Some (onData pid text w) else None
        | None => None
        end
    | TunnelError pid msg =>
        match procs w !! pid with
        | Some p => if isTunnel p then Some (tunnelError msg w) else None
        | None => None
        end
    | TunnelExit pid =>
        match procs w !! pid with
        | Some p =>
            if isTunnel p
            then Some (tunnelExit pid (reap pid w))
            else None
        | None => None
        end
    | GatewayData pid clean =>
        match procs w !! pid with
        | Some p => if isGateway p then Some (forwardLog clean w) else None
        | None => None
        end
    | GatewayError pid msg =>
        match procs w !! pid with
        | Some p => if isGateway p then Some (gatewayError msg w) else None
        | None => None
        end
    | GatewayExit pid code =>
        match procs w !! pid with
        | Some p =>
            if isGateway p
            then Some (gatewayExit code (reap pid w))
            else None
        | None => None
        end
    | CaffeinateError => Some (set_caffeinateProc None w)
    | Ipc c => ipc c w
    | Suspend => Some (onSuspend w)
    | Resume => Some (onResume w)
    | Quit => Some (stopAll w)
    end.

(** A schedule of events, run in order. *)
Fixpoint run (evs : list (Z * Event)) (w : World) : option World :=
  match evs with
  | [] => Some w
  | (now, e) :: rest =>
      match step now e w with
      | Some w' => run rest w'
      | None => None
      end
  end.

(** The worlds the application can be in: start-up, then any schedule. *)
Inductive reachable : World -> Prop :=
| reach_ready file bins ent t0 :
    reachable (appReady (initial file bins ent t0))
| reach_step w now e w' :
    reachable w -> step now e w = Some w' -> reachable w'.

(** ** Vocabulary of the properties *)

(** The routes the proxy terminates itself. *)
Definition controlEndpoint (r : Request) : bool :=
  (String.eqb (url r) "/heartbeat" && String.eqb (method r) "POST")
  || (String.eqb (url r) "/global/ai-config"
      && (String.eqb (method r) "GET" || String.eqb (method r) "POST"))
  || (String.eqb (url r) "/global/workspaces" && String.eqb (method r) "GET")
  || (String.eqb (url r) "/global/workspaces/active" && String.eqb (method r) "POST")
  || (match historyMatch (url r) with Some _ => true | None => false end
      && String.eqb (method r) "GET")
  || (String.eqb (url r) "/v1/sessions" && String.eqb (method r) "GET").

(** How often [c] was entered. *)
Definition sameCall (c c' : Call) : bool :=
  match c, c' with
  | CallStartTunnel, CallStartTunnel => true
  | CallStartServer, CallStartServer => true
  | CallStopServer a, CallStopServer b => Bool.eqb a b
  | _, _ => false
  end.

Definition entered (c : Call) (w : World) : nat :=
  length (List.filter (sameCall c) (calls w)).

(** How often [send(ch, d)] was called. *)
Definition sameSent (a b : Sent) : bool :=
  String.eqb (channel a) (channel b)
  && match payload a, payload b with
     | PTrue, PTrue | PNoSessions, PNoSessions => true
     | PText x, PText y => String.eqb x y
     | PHealth x, PHealth y =>
         match x, y with
         | healthy, healthy | checking, checking | down, down => true
         | _, _ => false
         end
     | _, _ => false
     end.

Definition emitted (ch : string) (d : Payload) (w : World) : nat :=
  length (List.filter (sameSent (mkSent ch d)) (sent w)).


(** The world after the restart that follows a stored configuration
    change. *)
Definition restarted (stored : Config) (w0 : World) : World :=
  send "config-changed" (PConfig stored)
    (startServer (generateOpenClawConfig stored
       (stopServer false (saveConfig stored w0)))).

(** ** Invariants *)

(** The presence invariant: away implies connected, and the only presence
    interval the runtime holds is the one [clientPresenceInterval] names. *)
Definition presenceInv (w : World) : Prop :=
  (clientAwayState w = true -> clientConnectedState w = true)
  ∧ (forall h t, timers w !! h = Some t -> t_kind t = PresencePoll ->
                 clientPresenceInterval w = Some h).

(** Timers that can lead to [startTunnel]. *)
Definition tunnelTimer (k : TimerKind) : bool :=
  match k with
  | RestartTunnel | WaitForDns _ => true
  | _ => false
  end.

(** Nothing of the tunnel supervisor is pending: no tunnel process lives, no
    URL is published, no probe or DNS query is in flight, no retry timer is
    armed; [n] counts the entries into [startTunnel] so far. *)
Definition tunnelQuiet (n : nat) (w : World) : Prop :=
  currentTunnelURL w = ""
  ∧ probes w = ∅
  ∧ dnsQueries w = ∅
  ∧ (forall h t, timers w !! h = Some t -> tunnelTimer (t_kind t) = false)
  ∧ (forall pid p, procs w !! pid = Some p -> isTunnel p = false)
  ∧ entered CallStartTunnel w = n.

(** No presence interval exists: the variable is [null] and the timer
    table holds none. *)
Definition presenceStopped (w : World) : Prop :=
  clientPresenceInterval w = None
  ∧ forall h t, timers w !! h = Some t -> t_kind t ≠ PresencePoll.

(** The delay [tunnelExit] chooses for the process [pid]. *)
Definition retryDelay (pid : nat) (w : World) : Z :=
  if default false (rateLimited <$> tunnelClosures w !! pid) then 60000 else 2000.

(** The presence interval [h] fires [n] times, [d], [d + 2000], ... *)
Fixpoint ticks (h : nat) (d : Z) (n : nat) : list (Z * Event) :=
  match n with
  | O => []
  | S n' => (d, TimerFires h) :: ticks h (d + 2000) n'
  end.

(** The presence interval [h] is live and can fire at time [d]. *)
Definition armed (h : nat) (d : Z) (w : World) : Prop :=
  clock w <= d
  ∧ exists due, timers w !! h = Some (mkTimer PresencePoll due (Some 2000)) ∧ due <= d.

Definition AWAY : Sent := mkSent "client-away" PTrue.
Definition DISCONNECTED : Sent := mkSent "client-disconnected" PTrue.

(** The health monitor [m] watches a published URL served by the live
    tunnel process [p], with [k] failed checks counted so far. *)
Definition monitoring (m p k : nat) (w : World) : Prop :=
  currentTunnelURL w ≠ ""
  ∧ intentionallyStopping w = false
  ∧ cloudflaredProc w = Some p
  ∧ (exists pr, procs w !! p = Some pr ∧ isTunnel pr = true)
  ∧ (p < nextHandle w)%nat
  ∧ default 0%nat (monitorFailCount w !! m) = k.

(** The health interval [m] is live and can fire at time [t]. *)
Definition healthArmed (m : nat) (t : Z) (w : World) : Prop :=
  clock w <= t
  ∧ exists due, timers w !! m = Some (mkTimer HealthPoll due (Some 10000)) ∧ due <= t.

(** One check of monitor [m] that fails: the interval fires at [t], the
    probe it sends (pending under handle [q]) is answered "unreachable" at
    [a]. *)
Definition failedCheck (m q : nat) (t a : Z) : list (Z * Event) :=
  [(t, TimerFires m); (a, ProbeAnswers q false)].

Definition URL_CLEARED : Sent := mkSent "tunnel-url" (PText "").

(** ** The DNS poll of one tunnel URL *)

(** A poll whose every resolution fails: the query pending under [q] is
    answered with an error at [a], the retry timer this arms (under the
    next handle) fires at [f] and asks again (under the handle after
    that), and so on. *)
Fixpoint failingPoll (q : nat) (rounds : list (Z * Z)) : list (Z * Event) :=
  match rounds with
  | [] => []
  | (a, f) :: rest =>
      (a, DnsAnswers q true) :: (f, TimerFires (S q)) :: failingPoll (S (S q)) rest
  end.

(** The rounds are in time order from [now] on; a retry fires at least 1 s
    after the failure that armed it; all retries but the last fire within
    30 s of [start], the last one later. *)
Fixpoint givesUp (start now : Z) (rounds : list (Z * Z)) : Prop :=
  match rounds with
  | [] => False
  | (a, f) :: rest =>
      now <= a ∧ a + 1000 <= f
      ∧ match rest with
        | [] => 30000 < f - start
        | _ :: _ => f - start <= 30000 ∧ givesUp start f rest
        end
  end.

(** Poll [poll] for the URL of the live tunnel process [pid] is waiting for
    the answer to query [q], the latest handle drawn; no deliberate stop is
    in progress. *)
Definition polling (poll q pid : nat) (p : DnsPoll) (w : World) : Prop :=
  dnsPolls w !! poll = Some p
  ∧ dnsQueries w !! q = Some poll
  ∧ nextHandle w = S q
  ∧ intentionallyStopping w = false
  ∧ cloudflaredProc w = Some pid
  ∧ (exists pr, procs w !! pid = Some pr).

(** Whatever of poll [poll] is pending in [w'] was already pending in [w]:
    queries in flight other than [q], and retry timers. *)
Definition nothingNewPending (poll q : nat) (w w' : World) : Prop :=
  (forall q', dnsQueries w' !! q' = Some poll -> q' ≠ q ∧ dnsQueries w !! q' = Some poll)
  ∧ (forall h t, timers w' !! h = Some t -> t_kind t = WaitForDns poll ->
                 timers w !! h = Some t).

(** The closure of the poll that [onData] starts for the label it matched. *)
Definition pollFor (label : string) (now : Z) : DnsPoll :=
  let host := label +:+ ".trycloudflare.com" in
  mkDnsPoll ("https://" +:+ host) (toLower host) now.

Definition PUBLISHED (u : string) : list Sent :=
  [mkSent "tunnel-url" (PText u); mkSent "tunnel-health" (PHealth healthy)].

(** The client-presence state: the two flags, the last heartbeat and the
    handle of the running poll. *)
Definition presence (w : World) : bool * bool * Z * option nat :=
  (clientConnectedState w, clientAwayState w, lastClientHeartbeat w,
   clientPresenceInterval w).

(** ** A concrete installation *)

(** One workspace, the tunnel and gateway binaries installed, started at
    time 1000. *)
Module Demo.

(** A line of tunnel output that carries the public URL. *)
Definition banner : string :=
  "INF |  https://quick-fox-42.trycloudflare.com  |".

Definition config : Config :=
  mkConfig 4096 "s3cret" [Workspace.mk "w1" "proj" ["/home/u/proj"] []] (Some "w1")
           (JStr "claude-cli") (JStr "") (JStr "anthropic").

Definition bins (nm : string) : option string :=
  if String.eqb nm "cloudflared" || String.eqb nm "openclaw"
  then Some ("/usr/local/bin/" +:+ nm)
  else None.

Definition noTunnelBins (nm : string) : option string :=
  if String.eqb nm "openclaw" then Some "/usr/local/bin/openclaw" else None.

Definition entropy (n : nat) : string := "r" +:+ pretty n.

Definition boot : World := initial (ConfigJson config) bins entropy 1000.

(** After [app.on('ready')]: caffeinate is process 0, the tunnel process 1,
    the gateway process 2, its settle timer 3; the next handle is 4. *)
Definition world : World := appReady boot.

Definition proxy : ProxyClosure := mkProxy 4096 "Bearer s3cret".

Definition heartbeat : Request :=
  mkRequest "POST" "/heartbeat" (Some "Bearer s3cret") Malformed.

Definition postAi : Request :=
  mkRequest "POST" "/global/ai-config" (Some "Bearer s3cret")
    (Fields (<["aiSource" := JStr "api-key"]>
               (<["apiKey" := JStr "k"]> (<["apiProvider" := JStr "openai"]> ∅)))).

Definition getAi : Request :=
  mkRequest "GET" "/global/ai-config" (Some "Bearer s3cret") Malformed.

(** No credential, no control endpoint. *)
Definition anonymous : Request :=
  mkRequest "GET" "/v1/chat/completions" None Malformed.

(** A heartbeat at 2000 starts the presence poll (timer 4); it fires at
    4000 and, after a stall, at 34000. *)
Definition silence : list (Z * Event) :=
  [(2000, Http heartbeat); (4000, TimerFires 4%nat); (34000, TimerFires 4%nat)].

Definition awayWorld : World := default world (run silence world).

(** The same heartbeat, then silence: the poll fires at 4000, at 34000
    and at 124000, which is more than 120 s after the heartbeat. *)
Definition expiry : list (Z * Event) :=
  [(2000, Http heartbeat); (4000, TimerFires 4%nat);
   (34000, TimerFires 4%nat); (124000, TimerFires 4%nat)].

(** The operator stops the gateway at 1500; the tunnel prints its URL at
    2000; at 40000 the UI reloads the config. *)
Definition stoppedThenUrl : list (Z * Event) :=
  [(1500, Ipc ServerStop);
   (2000, TunnelData 1%nat banner);
   (40000, Ipc ConfigLoad)].

(** The tunnel prints its URL at 2000.  29 resolutions fail, each after
    20 ms, each retried 1 s later; the 30th query starts 29.58 s after
    the URL was found and succeeds 3 s later, 32.58 s after it. *)
Definition lateSuccess : list (Z * Event) :=
  (2000, TunnelData 1%nat banner)
  :: failingPoll 5 (map (fun k => (2020 + 1020 * Z.of_nat k, 3020 + 1020 * Z.of_nat k))
                        (seq 0 29))
  ++ [(34580, DnsAnswers 63%nat false)].

(** A client is connected (heartbeat at 2000); at 3000 it changes the AI
    configuration, which restarts the gateway: process 2 is signalled,
    process 5 is spawned.  At 3100 the exit of process 2 is delivered. *)
Definition reconfigure : list (Z * Event) :=
  [(2000, Http heartbeat); (3000, Http postAi)].

Definition oldGatewayExits : Z * Event := (3100, GatewayExit 2%nat None).

(** The same installation without [cloudflared], before start-up. *)
Definition bare : World := initial (ConfigJson config) noTunnelBins entropy 1000.

(** The tunnel prints its URL at 2000 (DNS poll 4, query 5), the query is
    answered without error at 2500: the URL is published and health monitor
    6 starts; the next handle is 7. *)
Definition publish : list (Z * Event) :=
  [(2000, TunnelData 1%nat banner);
   (2500, DnsAnswers 5%nat false)].

Definition published : World := default world (run publish world).

End Demo.



(** ** Strings *)

(** [s.includes(c)] for one character. *)
Fixpoint hasChar (c : ascii) (s : string) : bool :=
  match s with
  | EmptyString => false
  | String a r => Ascii.eqb a c || hasChar c r
  end.

(** Every character of [s] is in the class [[a-zA-Z0-9-]]. *)
Fixpoint allHost (s : string) : bool :=
  match s with
  | EmptyString => true
  | String c r => hostChar c && allHost r
  end.

(** The URL that the tunnel pattern matches for a label. *)
Definition tunnelUrlOf (label : string) : string :=
  "https://" +:+ label +:+ ".trycloudflare.com".

(** ** Binary discovery on a host *)

(** [findBinary] above reads the installed binaries off the environment.
    Here the lookup is the code of [main.ts] over a host: its environment
    variables, its resource directory, its login shell and its file
    system.  Strings are UTF-8 text. *)
Module Discovery.

(** [process.env], [process.resourcesPath], what [execSync] returns for a
    command ([None] when it throws: the shell fails or takes more than
    5 s), and [fs.existsSync]. *)
Record Host := mkHost {
  env : gmap string string;
  resourcesPath : string;
  execSync : string -> option string;
  existsSync : string -> bool
}.

(** *** String helpers of the JavaScript runtime *)

(** [s.split(sep)] for a separator of one character. *)
Fixpoint split (sep : ascii) (s : string) : list string :=
  match s with
  | EmptyString => [EmptyString]
  | String c r =>
      if Ascii.eqb c sep then EmptyString :: split sep r
      else match split sep r with
           | piece :: rest => String c piece :: rest
           | [] => [String c EmptyString]
           end
  end.

(** [Boolean(s)] for a string. *)
Definition nonEmpty (s : string) : bool := negb (String.eqb s "").

(** White space and line terminators of ECMAScript, in UTF-8: one byte
    (TAB, LF, VT, FF, CR, SP), two bytes (U+00A0), three bytes (U+1680,
    U+2000 to U+200A, U+2028, U+2029, U+202F, U+205F, U+3000, U+FEFF). *)
Definition space1 (a : ascii) : bool :=
  let x := nat_of_ascii a in
  (Nat.leb 9 x && Nat.leb x 13) || Nat.eqb x 32.

Definition space2 (a b : ascii) : bool :=
  Nat.eqb (nat_of_ascii a) 194 && Nat.eqb (nat_of_ascii b) 160.

Definition space3 (a b c : ascii) : bool :=
  let x := nat_of_ascii a in
  let y := nat_of_ascii b in
  let z := nat_of_ascii c in
  (Nat.eqb x 225 && Nat.eqb y 154 && Nat.eqb z 128)
  || (Nat.eqb x 226 && Nat.eqb y 128
      && ((Nat.leb 128 z && Nat.leb z 138) || Nat.eqb z 168 || Nat.eqb z 169
          || Nat.eqb z 175))
  || (Nat.eqb x 226 && Nat.eqb y 129 && Nat.eqb z 159)
  || (Nat.eqb x 227 && Nat.eqb y 128 && Nat.eqb z 128)
  || (Nat.eqb x 239 && Nat.eqb y 187 && Nat.eqb z 191).

(** [s.trimStart()] *)
Fixpoint trimStart (s : string) : string :=
  match s with
  | String a r =>
      if space1 a then trimStart r
      else
        match r with
        | String b r2 =>
            if space2 a b then trimStart r2
            else
              match r2 with
              | String c r3 => if space3 a b c then trimStart r3 else s
              | EmptyString => s
              end
        | EmptyString => s
        end
  | EmptyString => EmptyString
  end.

(** The same from the end, on the reversed string. *)
Fixpoint trimStartRev (s : string) : string :=
  match s with
  | String c r =>
      if space1 c then trimStartRev r
      else
        match r with
        | String b r2 =>
            if space2 b c then trimStartRev r2
            else
              match r2 with
              | String a r3 => if space3 a b c then trimStartRev r3 else s
              | EmptyString => s
              end
        | EmptyString => s
        end
  | EmptyString => EmptyString
  end.

(** [s.trim()] *)
Definition trim (s : string) : string :=
  String.rev (trimStartRev (String.rev (trimStart s))).

(** [[...new Set(l)]]: a [Set] keeps its elements in the order in which
    they were first added. *)
Definition setOf (l : list string) : list string :=
  fold_left (fun acc x => if existsb (String.eqb x) acc then acc else acc ++ [x]) l [].

(** Every element of [l] once, at its first occurrence: what iterating
    over [new Set(l)] yields, written without the accumulator. *)
Fixpoint firstOccurrences (l : list string) : list string :=
  match l with
  | [] => []
  | x :: rest => x :: List.filter (fun y => negb (String.eqb y x)) (firstOccurrences rest)
  end.

(** *** [path.join] on POSIX *)

(** The segments that [normalize] keeps: empty segments and [.] are
    dropped, [..] removes the segment before it; at the start of a
    relative path ([allowAboveRoot]) a [..] that has nothing to remove is
    kept.  [stack] is what is kept so far, last segment first. *)
Fixpoint normalizeSegments (allowAboveRoot : bool) (stack segs : list string)
  : list string :=
  match segs with
  | [] => rev stack
  | seg :: rest =>
      if String.eqb seg "" || String.eqb seg "." then
        normalizeSegments allowAboveRoot stack rest
      else if String.eqb seg ".." then
        match stack with
        | top :: below =>
            if String.eqb top ".."
            then normalizeSegments allowAboveRoot
                   (if allowAboveRoot then ".." :: stack else stack) rest
            else normalizeSegments allowAboveRoot below rest
        | [] =>
            normalizeSegments allowAboveRoot
              (if allowAboveRoot then [".."] else []) rest
        end
      else normalizeSegments allowAboveRoot (seg :: stack) rest
  end.

Definition startsWithSlash (s : string) : bool :=
  match s with
  | String c _ => Ascii.eqb c "/"%char
  | EmptyString => false
  end.

Definition endsWithSlash (s : string) : bool := startsWithSlash (String.rev s).

(** [path.normalize(p)] *)
Definition normalize (p : string) : string :=
  if String.eqb p "" then "."
  else
    let isAbsolute := startsWithSlash p in
    let trailingSeparator := endsWithSlash p in
    let kept :=
      String.concat "/" (normalizeSegments (negb isAbsolute) [] (split "/"%char p)) in
    if String.eqb kept "" then
      (if isAbsolute then "/" else if trailingSeparator then "./" else ".")
    else
      (if isAbsolute then "/" else "") +:+ kept
      +:+ (if trailingSeparator then "/" else "").

(** [path.join(...parts)] *)
Definition join (parts : list string) : string :=
  match List.filter nonEmpty parts with
  | [] => "."
  | ps => normalize (String.concat "/" ps)
  end.

(** *** The search path *)

Definition FALLBACK_PATHS : list string :=
  ["/opt/homebrew/bin"; "/opt/homebrew/sbin"; "/usr/local/bin"; "/usr/local/sbin"].

(** The [PATH] of the user's login shell. *)
Definition resolveShellPath (h : Host) : list string :=
  let shell :=
    match env h !! "SHELL" with
    | Some s => if nonEmpty s then s else "/bin/zsh"
    | None => "/bin/zsh"
    end in
  match execSync h (shell +:+ " -l -i -c 'echo $PATH'") with
  | Some out => List.filter nonEmpty (split ":"%char (trim out))
  | None => []
  end.

(** [shellPathDirs] and [SEARCH_PATHS] are computed once, when the module
    is loaded, on the host as it is then. *)
Definition SEARCH_PATHS (h : Host) : list string :=
  setOf (FALLBACK_PATHS ++ resolveShellPath h).

Definition bundledBinDir (h : Host) : string := join [resourcesPath h; "bin"].

(** The [for] loop of [findBinary]. *)
Fixpoint firstExisting (h : Host) (name : string) (dirs : list string) : option string :=
  match dirs with
  | [] => None
  | dir :: rest =>
      let full := join [dir; name] in
      if existsSync h full then Some full else firstExisting h name rest
  end.

(** [findBinary(name)] on the host [h], with the search path [paths] that
    was computed at load time. *)
Definition findBinary (paths : list string) (h : Host) (name : string) : option string :=
  (* 1. Bundled in app resources *)
  let bundled := join [bundledBinDir h; name] in
  if existsSync h bundled then Some bundled
  (* 2. User's shell PATH + fallback paths *)
  else firstExisting h name paths.

(** Assign the properties of [extra] to [base], in order: the object
    spread [{ ...base, ...extra }]. *)
Definition spread (base : gmap string JsVal) (extra : list (string * JsVal))
  : gmap string JsVal :=
  fold_left (fun m kv => <[kv.1 := kv.2]> m) extra base.

(** [enrichedEnv(extra)] *)
Definition enrichedEnv (paths : list string) (h : Host) (extra : list (string * JsVal))
  : gmap string JsVal :=
  spread (<["PATH" := JStr (String.concat ":" paths)]> (JStr <$> env h)) extra.

(** The environment of an installation: the lookup function that the
    supervisor's [findBinary] reads, for a host that does not change after
    load. *)
Definition installed (h : Host) : string -> option string :=
  findBinary (SEARCH_PATHS h) h.

End Discovery.

(** ** The config store *)

(** The workspaces that the migration makes of [repos], with the
    identifiers [ids]. *)
Definition migrated (ids repos : list string) : list Workspace.t :=
  zip_with (fun i r => Workspace.mk i (basename r) [r] []) ids repos.

(** The next [n] strings of the entropy source of [w]. *)
Definition drawn (n : nat) (w : World) : list string :=
  map (entropy w) (seq (entropyUsed w) n).

(** An installation with no config file yet. *)
Definition firstRun : World := initial NoFile Demo.bins Demo.entropy 1000.

(** An installation whose config file is in the old format, without a
    password. *)
Definition legacyRun : World :=
  initial (LegacyFile (Some 5000) None ["/home/u/a"; "/home/u/b/"]
             JUndefined (JStr "") JNull)
          Demo.bins Demo.entropy 1000.

(** ** Notifications *)

Definition RATE_LIMITED : Sent :=
  mkSent "error" (PText "Cloudflare rate limit hit. Please wait a few minutes and retry.").

Definition ROSTER : Sent := mkSent "sessions-updated" PNoSessions.

Definition STOPPED : Sent := mkSent "status" (PText "stopped").

(** ** Vocabulary of the further properties *)

(** The process table after [p?.kill()]. *)
Definition signalled (p : option nat) (m : gmap nat Proc) : gmap nat Proc :=
  match p with
  | Some pid => alter (fun pr => mkProc (p_kind pr) (p_bin pr) true) pid m
  | None => m
  end.

(** The timer table after [if (h) clearInterval(h)]. *)
Definition cleared (h : option nat) (m : gmap nat Timer) : gmap nat Timer :=
  match h with
  | Some h => delete h m
  | None => m
  end.

(** One check of monitor [m] that passes: the interval fires at [t], the
    probe it sends (pending under handle [q]) is answered "reachable" at
    [a]. *)
Definition passedCheck (m q : nat) (t a : Z) : list (Z * Event) :=
  [(t, TimerFires m); (a, ProbeAnswers q true)].

(** The variables that [startServer] adds to the gateway's environment
    for [config]. *)
Definition gatewayEnv (config : Config) : list (string * JsVal) :=
  let env := [("OPENCLAW_GATEWAY_TOKEN", JStr (password config))] in
  if is_str (aiSource config) "api-key" && truthy (apiKey config) then
    if is_str (apiProvider config) "anthropic"
    then env ++ [("ANTHROPIC_API_KEY", apiKey config)]
    else if is_str (apiProvider config) "openai"
    then env ++ [("OPENAI_API_KEY", apiKey config)]
    else env
  else env.

(** The world in which [startServer] spawns the gateway for [config] in
    the directory [cwd]. *)
Definition starting (config : Config) (w : World) : World :=
  send "status" (PText "starting")
    (send "gateway-log" (PText CLEAR_SCREEN)
       (generateOpenClawConfig config
          (set_intentionallyStopping false (enter CallStartServer w)))).

Definition NO_OPENCLAW : Sent :=
  mkSent "error" (PText "openclaw not found. Install with: brew install openclaw-cli").

Definition NO_WORKSPACE : Sent :=
  mkSent "error" (PText "No active workspace configured. Create a workspace first.").

(** What the gateway's exit handler reports for an exit code. *)
Definition exitReport (code : option Z) : list Sent :=
  if is_zero code then [STOPPED]
  else [mkSent "status" (PText "error");
        mkSent "error" (PText ("openclaw exited with code " +:+ showCode code))].

Definition RUNNING : Sent := mkSent "status" (PText "running").

(** The workspaces without those whose identifier is [i]. *)
Definition without (i : string) (wss : list Workspace.t) : list Workspace.t :=
  List.filter (fun ws => negb (String.eqb (Workspace.id ws) i)) wss.

(** The protected paths after [picked] is added, and after [x] is
    removed. *)
Definition protect (picked : list string) (ws : Workspace.t) : Workspace.t :=
  Workspace.mk (Workspace.id ws) (Workspace.name ws) (Workspace.paths ws)
    (Workspace.protected ws
     ++ List.filter (fun p => negb (includesPath p (Workspace.protected ws))) picked).

Definition unprotect (x : string) (ws : Workspace.t) : Workspace.t :=
  Workspace.mk (Workspace.id ws) (Workspace.name ws) (Workspace.paths ws)
    (List.filter (fun p => negb (String.eqb p x)) (Workspace.protected ws)).

(** ** Invariants of the stored configuration *)

(** The active workspace, when there is one, is one of the workspaces. *)
Definition activeExists (c : Config) : Prop :=
  forall i, activeWorkspaceId c = Some i -> is_Some (findWorkspace i (workspaces c)).

(** A config with the password [pw] and the port [pt] that satisfies [Q]. *)
Definition good (pw : string) (pt : Z) (Q : Config -> Prop) (c : Config) : Prop :=
  password c = pw ∧ port c = pt ∧ Q c.

Definition bearer (pw : string) : string := "Bearer " +:+ pw.

Definition gatewayToken (pw : string) : string * JsVal :=
  ("OPENCLAW_GATEWAY_TOKEN", JStr pw).

(** What a child process must have been started with: the gateway with the
    secret [pw] as its token, the tunnel pointing at the port after [pt],
    where the proxy listens. *)
Definition tokenOf (pw : string) (pt : Z) (k : ProcKind) : Prop :=
  match k with
  | Gateway _ env => head env = Some (gatewayToken pw)
  | Tunnel proxyPort => proxyPort = pt + 1
  | Caffeinate => True
  end.

(** One secret and one port: the config file exists in the new format and
    holds them, and so does every config that an open dialog holds; the
    proxy and the setup server check the secret and agree on the port;
    every live gateway process was given the secret as its token and every
    live tunnel the port; the generated OpenClaw config names both. *)
Definition storeInv (pw : string) (pt : Z) (Q : Config -> Prop) (w : World) : Prop :=
  (exists c, configFile w = ConfigJson c ∧ good pw pt Q c)
  ∧ (forall d c i, dialogs w !! d = Some (c, i) -> good pw pt Q c)
  ∧ (forall px, proxyServer w = Some px -> px = mkProxy pt (bearer pw))
  ∧ (forall s, setupHttpServer w = Some s -> s = (pt, bearer pw))
  ∧ (forall pid pr, procs w !! pid = Some pr -> tokenOf pw pt (p_kind pr))
  ∧ (forall oc, openclawFile w = Some oc -> oc_port oc = pt ∧ oc_token oc = pw).

(** Before the first load: no dialog, no server, no generated config, and
    no child process but the sleep inhibitor. *)
Definition unstarted (w : World) : Prop :=
  dialogs w = ∅ ∧ proxyServer w = None ∧ setupHttpServer w = None
  ∧ openclawFile w = None
  ∧ (forall pid pr, procs w !! pid = Some pr -> p_kind pr = Caffeinate).

(** The config that the first [loadConfig] of a start returns. *)
Definition firstConfig (file : ConfigFile) (bins : string -> option string)
           (ent : nat -> string) (t0 : Z) : Config :=
  fst (loadConfig (initial file bins ent t0)).

(** A config file that the application can have written. *)
Definition fileOk (file : ConfigFile) : Prop :=
  match file with
  | ConfigJson raw => activeExists raw
  | _ => True
  end.

(** ** Example installations *)

(** A laptop whose login shell is bash; [openclaw] is installed in
    [/usr/local/bin] and in [/usr/bin]. *)
Definition laptop : Discovery.Host :=
  Discovery.mkHost
    (<["SHELL" := "/bin/bash"]> (<["HOME" := "/Users/u"]> ∅))
    "/Applications/Clawdaunt.app/Contents/Resources"
    (fun cmd =>
       if String.eqb cmd "/bin/bash -l -i -c 'echo $PATH'"
       then Some ("/usr/bin:/usr/local/bin:/bin" +:+ String "010"%char "")
       else None)
    (fun p => String.eqb p "/usr/local/bin/openclaw" || String.eqb p "/usr/bin/openclaw").

(** The tunnel of [Demo.world] is rate limited at 2000 and exits at 3000. *)
Definition rateLimitNotice : string :=
  "ERR failed to request quick Tunnel: 429 Too Many Requests".

(** A client is connected to [Demo.world] since 2000. *)
Definition connected : World :=
  default Demo.world (run [(2000, Http Demo.heartbeat)] Demo.world).

(** The dialog of [workspace:add-protected] is open (handle 4) while the
    AI source is changed. *)
Definition dialogThenSource : list (Z * Event) :=
  [(2000, Ipc (AddProtectedOpen "w1"));
   (3000, Ipc (SetAiSource (JStr "codex-cli") JUndefined JUndefined))].

Definition sourceChanged : World :=
  default Demo.world (run dialogThenSource Demo.world).



(** AI settings with a source that does not exist. *)
Definition postBadSource : Request :=
  mkRequest "POST" "/global/ai-config" (Some "Bearer s3cret")
    (Fields (<["aiSource" := JStr "gemini"]> ∅)).

(** After a start from the old format ([legacyRun]), the first workspace
    is deleted. *)
Definition deleteFirst : list (Z * Event) := [(2000, Ipc (WorkspaceDelete "r0"))].

(** ** An open file dialog *)

(** The dialog [d] of [workspace:add-protected] is open and holds [x], the
    config and the workspace id of its handler; handles from [d] on were
    given out. *)
Definition dialogOpen (d : nat) (x : Config * string) (w : World) : Prop :=
  dialogs w !! d = Some x ∧ (d < nextHandle w)%nat.

(** The event is the return of dialog [d]. *)
Definition closes (d : nat) (e : Event) : bool :=
  match e with
  | Ipc (AddProtectedClose d' _) => Nat.eqb d' d
  | _ => false
  end.

(** No event of the schedule is the return of dialog [d]. *)
Definition leavesOpen (d : nat) (evs : list (Z * Event)) : bool :=
  forallb (fun te => negb (closes d (snd te))) evs.

(** ** Invariants of the tunnel supervisor *)

(** A URL [https://<label>.trycloudflare.com] whose label is a non-empty
    run of the class [[a-zA-Z0-9-]]. *)
Definition tunnelUrlShaped (u : string) : Prop :=
  exists l, l ≠ "" ∧ allHost l = true ∧ u = tunnelUrlOf l.

(** What may be published as the tunnel URL: nothing, or such a URL. *)
Definition publishable (u : string) : Prop := u = "" ∨ tunnelUrlShaped u.

(** A message on the channel [tunnel-url] carries a publishable text. *)
Definition urlMessage (s : Sent) : Prop :=
  channel s = "tunnel-url" ->
  match payload s with
  | PText u => publishable u
  | _ => False
  end.

(** The published URL, every URL under resolution and every URL sent to
    the window are publishable; every health interval that is live is the
    one [tunnelHealthInterval] names. *)
Definition tunnelInv (w : World) : Prop :=
  publishable (currentTunnelURL w)
  ∧ (forall h p, dnsPolls w !! h = Some p -> tunnelUrlShaped (tunnelUrl p))
  ∧ Forall urlMessage (sent w)
  ∧ (forall h t, timers w !! h = Some t -> t_kind t = HealthPoll ->
                 tunnelHealthInterval w = Some h).


(** ** A tunnel that exits before its URL resolves *)

(** The tunnel of [Demo.world] (process 1) prints a rate-limit notice at
    2000 and its URL at 2100 (DNS poll 4, query 5), and exits at 2200: the
    exit handler arms the restart 60 s later (timer 6, due at 62200).  The
    query is answered without error at 2500: the URL is published and
    health monitor 7 starts. *)
Definition earlyExit : list (Z * Event) :=
  [(2000, TunnelData 1%nat rateLimitNotice);
   (2100, TunnelData 1%nat Demo.banner);
   (2200, TunnelExit 1%nat);
   (2500, DnsAnswers 5%nat false)].

(** Three checks of monitor 7 in a row fail, one per 10 s tick. *)
Definition threeFailures : list (Z * Event) :=
  failedCheck 7 8 12500 12600 ++ failedCheck 7 9 22500 22600
  ++ failedCheck 7 10 32500 32600.

(** * Properties *)

(** The handlers are unfolded on demand only. *)
Arguments startServer : simpl never.
Arguments stopServer : simpl never.
Arguments stopAll : simpl never.
Arguments startTunnel : simpl never.
Arguments startTunnelHealthMonitor : simpl never.
Arguments startClientPresenceMonitor : simpl never.
Arguments stopClientPresenceMonitor : simpl never.
Arguments presenceTick : simpl never.
Arguments healthTick : simpl never.
Arguments healthTickResume : simpl never.
Arguments waitForDns : simpl never.
Arguments dnsCallback : simpl never.
Arguments onData : simpl never.
Arguments tunnelExit : simpl never.
Arguments gatewayExit : simpl never.
Arguments gatewaySettle : simpl never.
Arguments generateOpenClawConfig : simpl never.
Arguments loadConfig : simpl never.
Arguments proxyRequest : simpl never.
Arguments postAiConfig : simpl never.
Arguments postActiveWorkspace : simpl never.

(** ** The config store only writes the config file and draws entropy *)

Lemma migrateRepos_shape repos w :
  exists wss e, migrateRepos repos w = (wss, set_entropyUsed e w).
Proof.
  revert w. induction repos as [|r rest IH]; intros w; simpl.
  - exists [], (entropyUsed w). by destruct w.
  - destruct (IH (set_entropyUsed (S (entropyUsed w)) w)) as (wss & e & ->).
    destruct w. by eexists _, e.
Qed.

Lemma loadConfig_shape w :
  exists cfg file e, loadConfig w = (cfg, set_entropyUsed e (set_configFile file w)).
Proof.
  unfold loadConfig. destruct (configFile w) eqn:E.
  - destruct w; simpl; repeat esplit.
  - destruct (migrateRepos_shape repos w) as (wss & e & ->).
    destruct w, rpassword; simpl; repeat esplit.
  - exists (fst (loadConfig w)), (configFile w), (entropyUsed w).
    unfold loadConfig. rewrite E. destruct w; simpl in *; by subst.
Qed.

(** Replace every [loadConfig x] of the goal by its shape. *)
Ltac load :=
  repeat match goal with
         | |- context [loadConfig ?x] =>
             let c := fresh "cfg" in
             let f := fresh "file" in
             let e := fresh "ent" in
             destruct (loadConfig_shape x) as (c & f & e & ->)
         end.

(** Unfold one handler, then decide every branch it takes. *)
Ltac branches :=
  unfold kill, stopClientPresenceMonitor, generateOpenClawConfig, closeGatewayWs,
    connectGatewayWs, setTunnelHealth;
  load; simpl; repeat (case_match; simpl); try done.

Lemma loadConfig_stored w raw :
  configFile w = ConfigJson raw -> loadConfig w = (ensureNewFields raw, w).
Proof. intros E. unfold loadConfig. by rewrite E. Qed.

(** ** Frames of the gateway supervisor *)

Lemma startServer_calls w : calls (startServer w) = calls w ++ [CallStartServer].
Proof. unfold startServer, generateOpenClawConfig. branches. Qed.

Lemma startServer_stored w raw :
  configFile w = ConfigJson raw -> configFile (startServer w) = ConfigJson raw.
Proof.
  intros E. unfold startServer, generateOpenClawConfig.
  rewrite (loadConfig_stored (enter CallStartServer w) raw) by done.
  simpl. repeat (case_match; simpl); done.
Qed.

Lemma startServer_binaries w : binaries (startServer w) = binaries w.
Proof. unfold startServer, generateOpenClawConfig. branches. Qed.

Lemma stopServer_calls b w : calls (stopServer b w) = calls w ++ [CallStopServer b].
Proof. unfold stopServer, stopClientPresenceMonitor. branches. Qed.

Lemma stopServer_configFile b w : configFile (stopServer b w) = configFile w.
Proof. unfold stopServer, stopClientPresenceMonitor, kill. branches. Qed.

Lemma stopServer_binaries b w : binaries (stopServer b w) = binaries w.
Proof. unfold stopServer, stopClientPresenceMonitor, kill. branches. Qed.

(** ** Reverse proxy: authentication *)

Lemma eqb_ne (a b : string) : a ≠ b -> String.eqb a b = false.
Proof. intros H. by apply String.eqb_neq. Qed.

(** C1, as the code has it.  For a request that is not a preflight and
    whose [Authorization] header differs from ["Bearer " + secret], the
    request listener answers 401 [{error: "Unauthorized"}] and changes
    nothing when the request addresses one of the control endpoints it
    terminates itself; any other request is handed to the backend port
    without a credential check by the proxy, and a connection upgrade is
    spliced to the backend port without one.  The placeholder backend does
    reject such a request with 401 itself. *)
Theorem proxy_checks_credential_per_control_endpoint
        (px : ProxyClosure) (r : Request) (w : World) :
  method r ≠ "OPTIONS" ->
  unauthorized (expectedAuth px) r = true ->
  proxyRequest px r w
  = (if controlEndpoint r then Unauthorized else Forward (targetPort px), w)
  ∧ proxyUpgrade px r w = (Splice (targetPort px), w)
  ∧ setupRequest (expectedAuth px) r = Unauthorized.
Proof.
  intros Hm Ha. split; [|split].
  - unfold proxyRequest, controlEndpoint.
    rewrite (eqb_ne _ _ Hm), Ha.
    destruct (String.eqb (url r) "/heartbeat") eqn:E1,
             (String.eqb (method r) "POST") eqn:E2,
             (String.eqb (method r) "GET") eqn:E3,
             (String.eqb (url r) "/global/ai-config") eqn:E4,
             (String.eqb (url r) "/global/workspaces") eqn:E5,
             (String.eqb (url r) "/global/workspaces/active") eqn:E6,
             (historyMatch (url r)) eqn:E7,
             (String.eqb (url r) "/v1/sessions") eqn:E8;
      simpl; try reflexivity.
  - reflexivity.
  - unfold setupRequest. by rewrite (eqb_ne _ _ Hm), Ha.
Qed.

Lemma proxy_checks_credential_per_control_endpoint_witness :
  proxyRequest Demo.proxy
    (mkRequest "POST" "/heartbeat" (Some "Bearer guess") Malformed) Demo.world
  = (Unauthorized, Demo.world)
  ∧ proxyRequest Demo.proxy Demo.anonymous Demo.world = (Forward 4096, Demo.world).
Proof.
  split.
  - refine (proj1 (proxy_checks_credential_per_control_endpoint
                     Demo.proxy (mkRequest "POST" "/heartbeat" (Some "Bearer guess") Malformed)
                     Demo.world _ _)); [discriminate | reflexivity].
  - refine (proj1 (proxy_checks_credential_per_control_endpoint
                     Demo.proxy Demo.anonymous Demo.world _ _));
      [discriminate | reflexivity].
Defined.

(** C1 as stated fails: a request without credential that matches no
    control endpoint is not answered 401 but forwarded to the backend port,
    and an upgrade request without credential is spliced to it. *)
Lemma unauthenticated_request_is_forwarded :
  method Demo.anonymous ≠ "OPTIONS"
  ∧ unauthorized (expectedAuth Demo.proxy) Demo.anonymous = true
  ∧ fst (proxyRequest Demo.proxy Demo.anonymous Demo.world) = Forward 4096
  ∧ fst (proxyRequest Demo.proxy Demo.anonymous Demo.world) ≠ Unauthorized
  ∧ fst (proxyUpgrade Demo.proxy Demo.anonymous Demo.world) = Splice 4096.
Proof. repeat split; try reflexivity; discriminate. Qed.

(** ** AI configuration round trip *)

Lemma send_calls ch d w : calls (send ch d w) = calls w.
Proof. reflexivity. Qed.

Lemma send_configFile ch d w : configFile (send ch d w) = configFile w.
Proof. reflexivity. Qed.

Lemma generate_calls c w : calls (generateOpenClawConfig c w) = calls w.
Proof. reflexivity. Qed.

Lemma generate_configFile c w : configFile (generateOpenClawConfig c w) = configFile w.
Proof. reflexivity. Qed.

Lemma restarted_configFile stored w0 :
  configFile (restarted stored w0) = ConfigJson stored.
Proof.
  unfold restarted. rewrite send_configFile. apply startServer_stored.
  by rewrite generate_configFile, stopServer_configFile.
Qed.

Lemma restarted_calls stored w0 :
  calls (restarted stored w0) = calls w0 ++ [CallStopServer false; CallStartServer].
Proof.
  unfold restarted.
  rewrite send_calls, startServer_calls, generate_calls, stopServer_calls.
  by rewrite <- app_assoc.
Qed.


(** What [stopServer(false)] does to the state: the gateway process is
    signalled and forgotten, the stopping flag is set, the roster and
    [status stopped] are sent; presence, timers and handles are as
    before. *)
Lemma stopServer_keeps_presence w :
  procs (stopServer false w) = signalled (gatewayProc w) (procs w)
  ∧ sent (stopServer false w) = sent w ++ [ROSTER; STOPPED]
  ∧ presence (stopServer false w) = presence w
  ∧ timers (stopServer false w) = timers w
  ∧ nextHandle (stopServer false w) = nextHandle w
  ∧ clock (stopServer false w) = clock w
  ∧ gatewayProc (stopServer false w) = None
  ∧ intentionallyStopping (stopServer false w) = true.
Proof.
  unfold stopServer, kill, closeGatewayWs, send, enter, presence.
  destruct w as [g]. destruct g; simpl; rewrite <- ?app_assoc; repeat split.
Qed.

(** What [startServer] leaves alone, whether it spawns or not. *)
Lemma startServer_keeps_presence w :
  presence (startServer w) = presence w
  ∧ intentionallyStopping (startServer w) = false
  ∧ (forall pid, pid ≠ nextHandle w -> procs (startServer w) !! pid = procs w !! pid).
Proof.
  unfold startServer, generateOpenClawConfig, setTimeout, spawn.
  destruct (loadConfig_shape (enter CallStartServer w)) as (cfg & file & e & ->).
  cbv beta iota zeta delta [fst snd].
  repeat case_match; simpl; (split; [done|]; split; [done|]); intros pid N;
    first [done|by rewrite lookup_insert_ne].
Qed.

Lemma startServer_spawns w c ws cwd bin :
  configFile w = ConfigJson c ->
  binaries w "openclaw" = Some bin ->
  activeWorkspace (ensureNewFields c) = Some ws ->
  head (Workspace.paths ws) = Some cwd ->
  startServer w
  = arm (GatewaySettle (port c) (password c)) 2000 None
      (set_gatewayProc (Some (nextHandle w))
         (launch (Gateway cwd (gatewayEnv (ensureNewFields c))) bin
            (starting (ensureNewFields c) w))).
Proof.
  intros F B A H. unfold startServer.
  rewrite (loadConfig_stored (enter CallStartServer w) c F). cbv beta iota zeta.
  unfold findBinary.
  change (binaries (set_intentionallyStopping false (enter CallStartServer w)))
    with (binaries w).
  rewrite B, A. simpl mbind. rewrite H. reflexivity.
Qed.

(** The state after the restart that follows a stored configuration
    change, when the gateway can be started. *)
Lemma restarted_state stored w0 bin ws cwd :
  ensureNewFields stored = stored ->
  binaries w0 "openclaw" = Some bin ->
  activeWorkspace stored = Some ws -> head (Workspace.paths ws) = Some cwd ->
  gatewayProc (restarted stored w0) = Some (nextHandle w0)
  ∧ procs (restarted stored w0)
    = <[nextHandle w0 := mkProc (Gateway cwd (gatewayEnv stored)) bin false]>
        (signalled (gatewayProc w0) (procs w0))
  ∧ timers (restarted stored w0)
    = <[S (nextHandle w0) := mkTimer (GatewaySettle (port stored) (password stored))
                               (clock w0 + 2000) None]> (timers w0)
  ∧ sent (restarted stored w0)
    = sent w0 ++ [ROSTER; STOPPED; mkSent "gateway-log" (PText CLEAR_SCREEN);
                  mkSent "status" (PText "starting");
                  mkSent "config-changed" (PConfig stored)].
Proof.
  intros En B A H. unfold restarted.
  destruct (stopServer_keeps_presence (saveConfig stored w0))
    as (S1 & S2 & _ & S4 & S5 & S6 & _).
  assert (F : configFile (generateOpenClawConfig stored (stopServer false (saveConfig stored w0)))
              = ConfigJson stored).
  { by rewrite generate_configFile, stopServer_configFile. }
  assert (Bx : binaries (generateOpenClawConfig stored
                           (stopServer false (saveConfig stored w0))) "openclaw"
               = Some bin).
  { assert (G : forall c y, binaries (generateOpenClawConfig c y) = binaries y)
      by reflexivity.
    assert (V : forall c y, binaries (saveConfig c y) = binaries y) by reflexivity.
    by rewrite G, stopServer_binaries, V. }
  rewrite (startServer_spawns _ stored ws cwd bin F Bx); [|by rewrite En|done].
  rewrite En. revert S1 S2 S4 S5 S6.
  generalize (stopServer false (saveConfig stored w0)). intros x S1 S2 S4 S5 S6.
  simpl in S1, S2, S4, S5, S6.
  unfold starting, generateOpenClawConfig. simpl.
  rewrite S1, S2, S4, S5, S6, <- !app_assoc. repeat split.
Qed.

(** What the restart leaves alone, whether the gateway can be started or
    not. *)
Lemma restarted_keeps stored w0 :
  presence (restarted stored w0) = presence w0
  ∧ intentionallyStopping (restarted stored w0) = false
  ∧ (forall pid, pid ≠ nextHandle w0 ->
       procs (restarted stored w0) !! pid = signalled (gatewayProc w0) (procs w0) !! pid)
  ∧ (exists started,
       sent (restarted stored w0)
       = sent w0 ++ [ROSTER; STOPPED] ++ started
         ++ [mkSent "config-changed" (PConfig stored)]).
Proof.
  unfold restarted.
  destruct (stopServer_keeps_presence (saveConfig stored w0))
    as (S1 & S2 & S3 & _ & S5 & _).
  assert (X : procs (generateOpenClawConfig stored (stopServer false (saveConfig stored w0)))
              = signalled (gatewayProc w0) (procs w0)
              ∧ sent (generateOpenClawConfig stored (stopServer false (saveConfig stored w0)))
                = sent w0 ++ [ROSTER; STOPPED]
              ∧ presence (generateOpenClawConfig stored
                            (stopServer false (saveConfig stored w0)))
                = presence w0
              ∧ nextHandle (generateOpenClawConfig stored
                              (stopServer false (saveConfig stored w0)))
                = nextHandle w0).
  { revert S1 S2 S3 S5. generalize (stopServer false (saveConfig stored w0)).
    intros y S1 S2 S3 S5. repeat split; [exact S1|exact S2|exact S3|exact S5]. }
  revert X.
  generalize (generateOpenClawConfig stored (stopServer false (saveConfig stored w0))).
  clear S1 S2 S3 S5. intros x (X1 & X2 & X3 & X4).
  destruct (startServer_keeps_presence x) as (K1 & K2 & K3).
  split; [exact (eq_trans K1 X3)|]. split; [exact K2|]. split.
  - intros pid N. cbn [send]. change (procs (send ?a ?b ?y)) with (procs y).
    rewrite K3 by by rewrite X4. by rewrite X1.
  - clear K1 K2 K3 X1 X3 X4.
    unfold startServer, generateOpenClawConfig, setTimeout, spawn.
    destruct (loadConfig_shape (enter CallStartServer x)) as (c' & file' & e' & ->).
    cbv beta iota zeta delta [fst snd].
    repeat case_match; simpl; rewrite X2, <- !app_assoc; simpl;
      first [ by exists [NO_OPENCLAW] | by exists [NO_WORKSPACE]
            | by exists [mkSent "gateway-log" (PText CLEAR_SCREEN);
                         mkSent "status" (PText "starting")] ].
Qed.

(** An accepted [POST /global/ai-config] restarts from the world that the
    load of the config left: the state of [w] but for the config file and
    the entropy drawn. *)
Lemma postAiConfig_restarts f w a :
  field f "aiSource" = a ->
  is_str a "claude-cli" || is_str a "codex-cli" || is_str a "api-key" = true ->
  exists cfg file e,
    let w0 := set_entropyUsed e (set_configFile file w) in
    let k := field f "apiKey" in
    let p := field f "apiProvider" in
    let stored := with_ai a (if defined k then k else apiKey cfg)
                          (if defined p then p else apiProvider cfg) cfg in
    let w1 := restarted stored w0 in
    postAiConfig (Fields f) w
    = (Respond 200 (AiConfigBody None a (apiProvider stored) (truthy (apiKey stored))
                      (has "claude" w1) (has "codex" w1) (has "openclaw" w1)
                      (summaries stored) (activeWorkspaceId stored)), w1).
Proof.
  intros Ha Hv. unfold postAiConfig. rewrite Ha.
  assert (Ht : truthy a = true).
  { destruct a as [| |?|?|s|]; try done. simpl in *. by destruct s. }
  rewrite Ht, Hv. cbn [negb orb].
  destruct (loadConfig_shape w) as (cfg & file & e & ->).
  by exists cfg, file, e.
Qed.

(** C8.  An authorised [POST /global/ai-config] with
    [{aiSource:'api-key', apiKey:'k', apiProvider:'openai'}] is answered 200
    with those values; it enters [stopServer(false)] once and then
    [startServer] once and nothing else of the two; the config file then
    stores the three values, and an authorised [GET /global/ai-config] that
    follows reports [aiSource] 'api-key', [hasApiKey] true and
    [apiProvider] 'openai' without entering either and without changing
    anything.  The restart, on the state: the stop signals the process
    that [gatewayProc] named and no other, sends the roster and
    [status stopped], and leaves client presence and its poll as they were;
    the start clears the stopping flag and, when the [openclaw] binary is
    found and the active workspace has a path, spawns exactly one new
    gateway process there, with the new key in [OPENAI_API_KEY], names it
    in [gatewayProc], arms its 2 s settle timer and reports
    [status starting]; the window is told the stored config last. *)
Theorem ai_config_round_trip
        (px : ProxyClosure) (post get : Request) (f : gmap string JsVal) (w : World) :
  method post = "POST" -> url post = "/global/ai-config" ->
  unauthorized (expectedAuth px) post = false ->
  body post = Fields f ->
  f !! "aiSource" = Some (JStr "api-key") ->
  f !! "apiKey" = Some (JStr "k") ->
  f !! "apiProvider" = Some (JStr "openai") ->
  method get = "GET" -> url get = "/global/ai-config" ->
  unauthorized (expectedAuth px) get = false ->
  let w1 := snd (proxyRequest px post w) in
  let w2 := snd (proxyRequest px get w1) in
  exists claude codex openclaw wss active stored,
    fst (proxyRequest px post w)
    = Respond 200 (AiConfigBody None (JStr "api-key") (JStr "openai") true
                     claude codex openclaw wss active)
    ∧ fst (proxyRequest px get w1)
      = Respond 200 (AiConfigBody (Some CLAWDAUNT_PROTOCOL_VERSION)
                       (JStr "api-key") (JStr "openai") true
                       claude codex openclaw wss active)
    ∧ calls w1 = calls w ++ [CallStopServer false; CallStartServer]
    ∧ calls w2 = calls w1
    ∧ configFile w1 = ConfigJson stored
    ∧ aiSource stored = JStr "api-key"
    ∧ apiKey stored = JStr "k"
    ∧ apiProvider stored = JStr "openai"
    ∧ w2 = w1
    ∧ presence w1 = presence w
    ∧ intentionallyStopping w1 = false
    ∧ (forall pid, pid ≠ nextHandle w ->
         procs w1 !! pid = signalled (gatewayProc w) (procs w) !! pid)
    ∧ (exists started,
         sent w1 = sent w ++ [ROSTER; STOPPED] ++ started
                   ++ [mkSent "config-changed" (PConfig stored)])
    ∧ (forall bin ws cwd,
         binaries w "openclaw" = Some bin ->
         activeWorkspace stored = Some ws -> head (Workspace.paths ws) = Some cwd ->
         gatewayProc w1 = Some (nextHandle w)
         ∧ procs w1
           = <[nextHandle w := mkProc (Gateway cwd
                                         [("OPENCLAW_GATEWAY_TOKEN", JStr (password stored));
                                          ("OPENAI_API_KEY", JStr "k")])
                                 bin false]>
               (signalled (gatewayProc w) (procs w))
         ∧ timers w1
           = <[S (nextHandle w) := mkTimer (GatewaySettle (port stored) (password stored))
                                     (clock w + 2000) None]> (timers w)
         ∧ sent w1
           = sent w ++ [ROSTER; STOPPED; mkSent "gateway-log" (PText CLEAR_SCREEN);
                        mkSent "status" (PText "starting");
                        mkSent "config-changed" (PConfig stored)]).
Proof.
  intros Pm Pu Pa Pb Fa Fk Fp Gm Gu Ga w1 w2.
  destruct (postAiConfig_restarts f w (JStr "api-key")) as (cfg & file & e & E1);
    [by unfold field; rewrite Fa | done |].
  unfold field in E1. rewrite Fk, Fp in E1. simpl in E1.
  assert (W0 : forall w0, w0 = set_entropyUsed e (set_configFile file w) ->
               calls w0 = calls w ∧ presence w0 = presence w ∧ procs w0 = procs w
               ∧ gatewayProc w0 = gatewayProc w ∧ sent w0 = sent w
               ∧ timers w0 = timers w ∧ nextHandle w0 = nextHandle w
               ∧ clock w0 = clock w ∧ binaries w0 = binaries w)
    by (intros w0 ->; by destruct w).
  revert E1 W0. generalize (set_entropyUsed e (set_configFile file w)).
  intros w0 E1 W0. destruct (W0 w0 eq_refl) as (Hc & Hp & Hpr & Hg & Hs & Ht & Hn & Hk & Hb).
  clear W0.
  set (stored := with_ai (JStr "api-key") (JStr "k") (JStr "openai") cfg) in *.
  destruct (restarted_keeps stored w0) as (RK1 & RK2 & RK3 & RK4).
  pose proof (fun bin ws cwd => restarted_state stored w0 bin ws cwd eq_refl) as RS.
  rewrite Hp in RK1. rewrite Hn, Hg, Hpr in RK3. rewrite Hs in RK4.
  set (w1' := restarted stored w0) in *.
  assert (Hw1 : w1 = w1').
  { subst w1. unfold proxyRequest. rewrite Pm, Pu, Pa, Pb. simpl. by rewrite E1. }
  assert (E0 : fst (proxyRequest px post w)
               = Respond 200 (AiConfigBody None (JStr "api-key") (JStr "openai") true
                                (has "claude" w1') (has "codex" w1') (has "openclaw" w1')
                                (summaries stored) (activeWorkspaceId stored))).
  { unfold proxyRequest. rewrite Pm, Pu, Pa, Pb. simpl. by rewrite E1. }
  clearbody w1. subst w1.
  assert (Hfile : configFile w1' = ConfigJson stored).
  { subst w1'. apply restarted_configFile. }
  assert (Hcalls : calls w1' = calls w ++ [CallStopServer false; CallStartServer]).
  { subst w1'. by rewrite restarted_calls, Hc. }
  clearbody w1'.
  assert (E2 : proxyRequest px get w1'
               = (Respond 200 (AiConfigBody (Some CLAWDAUNT_PROTOCOL_VERSION)
                                 (JStr "api-key") (JStr "openai") true
                                 (has "claude" w1') (has "codex" w1') (has "openclaw" w1')
                                 (summaries stored) (activeWorkspaceId stored)), w1')).
  { unfold proxyRequest. rewrite Gm, Gu, Ga. simpl.
    by rewrite (loadConfig_stored w1' stored Hfile). }
  exists (has "claude" w1'), (has "codex" w1'), (has "openclaw" w1'),
    (summaries stored), (activeWorkspaceId stored), stored.
  split; [exact E0|]. split; [by rewrite E2|].
  split; [exact Hcalls|].
  split; [subst w2; by rewrite E2|].
  split; [exact Hfile|]. split; [done|]. split; [done|]. split; [done|].
  split; [subst w2; by rewrite E2|].
  split; [exact RK1|]. split; [exact RK2|]. split; [exact RK3|]. split; [exact RK4|].
  intros bin ws cwd B A H.
  destruct (RS bin ws cwd) as (R1 & R2 & R3 & R4); [by rewrite Hb|done|done|].
  rewrite R1, R2, R3, R4, Hn, Hg, Hpr, Ht, Hk, Hs.
  split; [done|]. split; [|done]. reflexivity.
Qed.

Lemma ai_config_round_trip_witness :
  calls (snd (proxyRequest Demo.proxy Demo.postAi Demo.world))
  = calls Demo.world ++ [CallStopServer false; CallStartServer]
  ∧ gatewayProc (snd (proxyRequest Demo.proxy Demo.postAi Demo.world)) = Some 4%nat
  ∧ (p_signalled <$> procs (snd (proxyRequest Demo.proxy Demo.postAi Demo.world)) !! 2%nat)
    = Some true.
Proof.
  destruct (ai_config_round_trip Demo.proxy Demo.postAi Demo.getAi
              (<["aiSource" := JStr "api-key"]>
                 (<["apiKey" := JStr "k"]> (<["apiProvider" := JStr "openai"]> ∅)))
              Demo.world)
    as (? & ? & ? & ? & ? & stored & _ & _ & H & _ & F & _ & _ & _ & _ & _ & _ & P & _ & S);
    [reflexivity..|].
  split; [exact H|].
  assert (E : stored = with_ai (JStr "api-key") (JStr "k") (JStr "openai") Demo.config).
  { vm_compute in F. by injection F as <-. }
  destruct (S "/usr/local/bin/openclaw" (Workspace.mk "w1" "proj" ["/home/u/proj"] [])
              "/home/u/proj" eq_refl ltac:(by rewrite E) eq_refl) as (G & _).
  split; [exact G|]. rewrite (P 2%nat) by discriminate. reflexivity.
Defined.

(** ** The presence invariant *)

(** Unfold the runtime primitives that return a handle, replace config
    loads by their shape, and decide every branch. *)
Ltac handler :=
  unfold spawn, setTimeout, setInterval, randomBytes, kill, closeGatewayWs,
    connectGatewayWs, setTunnelHealth;
  load; cbv beta iota zeta delta [fst snd];
  repeat (case_match; simplify_eq; cbv beta iota zeta delta [fst snd]).

Lemma arm_presenceInv k d e w :
  k ≠ PresencePoll -> presenceInv w -> presenceInv (arm k d e w).
Proof.
  intros Hk [H1 H2]. split; [exact H1|].
  intros h t. unfold arm. simpl. intros Hl Ht.
  destruct (decide (h = nextHandle w)) as [->|Hne].
  - rewrite lookup_insert_eq in Hl. by simplify_eq.
  - rewrite lookup_insert_ne in Hl by done. eauto.
Qed.

Lemma rearm_presenceInv h t p w :
  timers w !! h = Some t -> presenceInv w -> presenceInv (rearm h (t_kind t) p w).
Proof.
  intros Hh [H1 H2]. split; [exact H1|].
  intros h' t'. unfold rearm. simpl. intros Hl Ht.
  destruct (decide (h' = h)) as [->|Hne].
  - rewrite lookup_insert_eq in Hl. simplify_eq. simpl in Ht. eauto.
  - rewrite lookup_insert_ne in Hl by done. eauto.
Qed.

Lemma clearTimer_presenceInv h w : presenceInv w -> presenceInv (clearTimer h w).
Proof.
  intros [H1 H2]. split; [exact H1|].
  intros h' t. unfold clearTimer. simpl. intros Hl Ht.
  destruct (decide (h = h')) as [->|Hne].
  - by rewrite lookup_delete_eq in Hl.
  - rewrite lookup_delete_ne in Hl by done. eauto.
Qed.

Lemma away_false_presenceInv w :
  presenceInv w -> presenceInv (set_clientAwayState false w).
Proof. intros [H1 H2]. split; [done|exact H2]. Qed.

Lemma connected_true_presenceInv w :
  presenceInv w -> presenceInv (set_clientConnectedState true w).
Proof. intros [H1 H2]. split; [done|exact H2]. Qed.

(** The three assignments that reset presence. *)
Lemma reset_presenceInv w :
  presenceInv w ->
  presenceInv (set_lastClientHeartbeat 0
                 (set_clientAwayState false (set_clientConnectedState false w))).
Proof. intros [H1 H2]. split; [done|exact H2]. Qed.

Lemma stopClientPresenceMonitor_presenceInv w :
  presenceInv w -> presenceInv (stopClientPresenceMonitor w).
Proof.
  intros H. unfold stopClientPresenceMonitor.
  destruct (clientPresenceInterval w) as [o|] eqn:E; [|done].
  destruct H as [H1 H2]. split; [exact H1|].
  intros h t. unfold clearTimer. simpl. intros Hl Ht.
  destruct (decide (o = h)) as [->|Hne].
  - by rewrite lookup_delete_eq in Hl.
  - rewrite lookup_delete_ne in Hl by done. specialize (H2 _ _ Hl Ht). congruence.
Qed.

Lemma startClientPresenceMonitor_presenceInv w :
  presenceInv w -> presenceInv (startClientPresenceMonitor w).
Proof.
  intros [H1 H2]. unfold startClientPresenceMonitor, setInterval.
  split.
  - by destruct (clientPresenceInterval w).
  - intros h t. destruct (clientPresenceInterval w) as [o|] eqn:E;
      unfold arm, clearTimer; simpl; intros Hl Ht.
    + destruct (decide (h = nextHandle w)) as [->|Hne]; [done|].
      rewrite lookup_insert_ne in Hl by done.
      destruct (decide (o = h)) as [->|Hne'].
      * by rewrite lookup_delete_eq in Hl.
      * rewrite lookup_delete_ne in Hl by done. specialize (H2 _ _ Hl Ht). congruence.
    + destruct (decide (h = nextHandle w)) as [->|Hne]; [done|].
      rewrite lookup_insert_ne in Hl by done. specialize (H2 _ _ Hl Ht). congruence.
Qed.

(** The invariant reads four components of the world only. *)
Lemma presenceInv_frame w w' :
  clientConnectedState w' = clientConnectedState w
  ∧ clientAwayState w' = clientAwayState w
  ∧ clientPresenceInterval w' = clientPresenceInterval w
  ∧ timers w' = timers w ->
  presenceInv w -> presenceInv w'.
Proof. intros (E1 & E2 & E3 & E4). unfold presenceInv. by rewrite E1, E2, E3, E4. Qed.

(** Handlers already shown to keep the invariant; extended below. *)
Ltac pinv_known := fail.

(** Peel one operation off the world of the goal: by its lemma when it
    touches the flags, the interval variable or the timer table, otherwise
    because the invariant does not mention what it changes. *)
Ltac pinv_step :=
  match goal with
  | H : presenceInv ?w |- presenceInv ?w => exact H
  | |- presenceInv (arm _ _ _ _) => apply arm_presenceInv; [discriminate|]
  | |- presenceInv (clearTimer _ _) => apply clearTimer_presenceInv
  | |- presenceInv (set_lastClientHeartbeat 0 (set_clientAwayState false
                      (set_clientConnectedState false _))) =>
      apply reset_presenceInv
  | |- presenceInv (set_clientAwayState false _) => apply away_false_presenceInv
  | |- presenceInv (set_clientConnectedState true _) => apply connected_true_presenceInv
  | |- presenceInv (stopClientPresenceMonitor _) =>
      apply stopClientPresenceMonitor_presenceInv
  | |- presenceInv (startClientPresenceMonitor _) =>
      apply startClientPresenceMonitor_presenceInv
  | |- _ => pinv_known
  | |- presenceInv (?F ?w) =>
      apply (presenceInv_frame w (F w));
      [generalize w; intro; repeat split; reflexivity|]
  end.

Ltac pinv := repeat pinv_step.

Lemma presenceTick_presenceInv w : presenceInv w -> presenceInv (presenceTick w).
Proof.
  intros H. unfold presenceTick.
  destruct (negb (clientConnectedState w) || (lastClientHeartbeat w <=? 0)) eqn:G; [done|].
  handler; pinv.
  destruct H as [I1 I2]. split; [|exact I2]. simpl. intros _.
  apply orb_false_elim in G as [G _]. by destruct (clientConnectedState w).
Qed.

Lemma startServer_presenceInv w : presenceInv w -> presenceInv (startServer w).
Proof. intros H. unfold startServer. handler; pinv. Qed.

Lemma stopServer_presenceInv b w : presenceInv w -> presenceInv (stopServer b w).
Proof. intros H. unfold stopServer. handler; pinv. Qed.

Lemma startTunnel_presenceInv w : presenceInv w -> presenceInv (startTunnel w).
Proof. intros H. unfold startTunnel. handler; pinv. Qed.

Lemma startTunnelHealthMonitor_presenceInv w :
  presenceInv w -> presenceInv (startTunnelHealthMonitor w).
Proof. intros H. unfold startTunnelHealthMonitor. handler; pinv. Qed.

Ltac pinv_known ::=
  match goal with
  | |- presenceInv (presenceTick _) => apply presenceTick_presenceInv
  | |- presenceInv (startServer _) => apply startServer_presenceInv
  | |- presenceInv (stopServer _ _) => apply stopServer_presenceInv
  | |- presenceInv (startTunnel _) => apply startTunnel_presenceInv
  | |- presenceInv (startTunnelHealthMonitor _) =>
      apply startTunnelHealthMonitor_presenceInv
  end.

Lemma stopAll_presenceInv w : presenceInv w -> presenceInv (stopAll w).
Proof.
  intros H. unfold stopAll, stopProxyServer, stopSetupServer.
  handler; pinv.
Qed.

Lemma healthTick_presenceInv m w : presenceInv w -> presenceInv (healthTick m w).
Proof. intros H. unfold healthTick. handler; pinv. Qed.

Lemma healthTickResume_presenceInv m ok w :
  presenceInv w -> presenceInv (healthTickResume m ok w).
Proof. intros H. unfold healthTickResume. handler; pinv. Qed.

Lemma waitForDns_presenceInv poll w : presenceInv w -> presenceInv (waitForDns poll w).
Proof. intros H. unfold waitForDns. handler; pinv. Qed.

Lemma dnsCallback_presenceInv poll err w :
  presenceInv w -> presenceInv (dnsCallback poll err w).
Proof. intros H. unfold dnsCallback. handler; pinv. Qed.

Lemma tunnelExit_presenceInv pid w : presenceInv w -> presenceInv (tunnelExit pid w).
Proof. intros H. unfold tunnelExit. handler; pinv. Qed.

Lemma gatewayExit_presenceInv code w : presenceInv w -> presenceInv (gatewayExit code w).
Proof. intros H. unfold gatewayExit. handler; pinv. Qed.

Lemma gatewaySettle_presenceInv gport token w :
  presenceInv w -> presenceInv (gatewaySettle gport token w).
Proof. intros H. unfold gatewaySettle. handler; pinv. Qed.

Ltac pinv_known ::=
  match goal with
  | |- presenceInv (presenceTick _) => apply presenceTick_presenceInv
  | |- presenceInv (startServer _) => apply startServer_presenceInv
  | |- presenceInv (stopServer _ _) => apply stopServer_presenceInv
  | |- presenceInv (startTunnel _) => apply startTunnel_presenceInv
  | |- presenceInv (startTunnelHealthMonitor _) =>
      apply startTunnelHealthMonitor_presenceInv
  | |- presenceInv (stopAll _) => apply stopAll_presenceInv
  | |- presenceInv (healthTick _ _) => apply healthTick_presenceInv
  | |- presenceInv (healthTickResume _ _ _) => apply healthTickResume_presenceInv
  | |- presenceInv (waitForDns _ _) => apply waitForDns_presenceInv
  | |- presenceInv (dnsCallback _ _ _) => apply dnsCallback_presenceInv
  | |- presenceInv (tunnelExit _ _) => apply tunnelExit_presenceInv
  | |- presenceInv (gatewayExit _ _) => apply gatewayExit_presenceInv
  | |- presenceInv (gatewaySettle _ _ _) => apply gatewaySettle_presenceInv
  end.

Lemma onData_presenceInv pid text w : presenceInv w -> presenceInv (onData pid text w).
Proof. intros H. unfold onData. handler; pinv. Qed.

Ltac pinv_known ::=
  match goal with
  | |- presenceInv (presenceTick _) => apply presenceTick_presenceInv
  | |- presenceInv (startServer _) => apply startServer_presenceInv
  | |- presenceInv (stopServer _ _) => apply stopServer_presenceInv
  | |- presenceInv (startTunnel _) => apply startTunnel_presenceInv
  | |- presenceInv (startTunnelHealthMonitor _) =>
      apply startTunnelHealthMonitor_presenceInv
  | |- presenceInv (stopAll _) => apply stopAll_presenceInv
  | |- presenceInv (healthTick _ _) => apply healthTick_presenceInv
  | |- presenceInv (healthTickResume _ _ _) => apply healthTickResume_presenceInv
  | |- presenceInv (waitForDns _ _) => apply waitForDns_presenceInv
  | |- presenceInv (dnsCallback _ _ _) => apply dnsCallback_presenceInv
  | |- presenceInv (tunnelExit _ _) => apply tunnelExit_presenceInv
  | |- presenceInv (gatewayExit _ _) => apply gatewayExit_presenceInv
  | |- presenceInv (gatewaySettle _ _ _) => apply gatewaySettle_presenceInv
  | |- presenceInv (onData _ _ _) => apply onData_presenceInv
  end.

Lemma postAiConfig_presenceInv b w :
  presenceInv w -> presenceInv (snd (postAiConfig b w)).
Proof. intros H. unfold postAiConfig. handler; pinv. Qed.

Lemma postActiveWorkspace_presenceInv b w :
  presenceInv w -> presenceInv (snd (postActiveWorkspace b w)).
Proof. intros H. unfold postActiveWorkspace. handler; pinv. Qed.

Lemma proxyRequest_presenceInv px r w :
  presenceInv w -> presenceInv (snd (proxyRequest px r w)).
Proof.
  intros H. unfold proxyRequest. load.
  repeat (case_match; simplify_eq);
    first [ by apply postAiConfig_presenceInv
          | by apply postActiveWorkspace_presenceInv
          | cbv beta iota zeta delta [fst snd]; pinv ].
Qed.

Lemma ipc_presenceInv c w w' :
  ipc c w = Some w' -> presenceInv w -> presenceInv w'.
Proof.
  intros E H. destruct c; simpl in E; repeat case_match; simplify_eq;
    unfold ipcSetAiSource, ipcWorkspaceCreate, ipcWorkspaceRename, ipcWorkspaceDelete,
      ipcWorkspaceSetActive, ipcAddProtectedOpen, ipcAddProtectedClose,
      ipcRemoveProtected, stopSetupServer;
    handler; pinv.
Qed.

Lemma appReady_presenceInv file bins ent t0 :
  presenceInv (appReady (initial file bins ent t0)).
Proof.
  assert (H : presenceInv (initial file bins ent t0)).
  { split; [done|]. intros h t. simpl. by rewrite lookup_empty. }
  revert H. generalize (initial file bins ent t0). intros w H.
  unfold appReady, startProxyServer, startSetupServer. handler; pinv.
Qed.

Lemma step_presenceInv now e w w' :
  step now e w = Some w' -> presenceInv w -> presenceInv w'.
Proof.
  unfold step. destruct (now <? clock w); [done|]. intros E H.
  assert (H' : presenceInv (set_clock now w)) by pinv.
  revert E H'. generalize (set_clock now w). clear H w. intros w E H.
  destruct e; repeat case_match; simplify_eq.
  - by apply proxyRequest_presenceInv.
  - done.
  - (* an interval that fires is re-armed under its own kind *)
    assert (presenceInv (rearm h (t_kind t) z w)) by by apply rearm_presenceInv.
    unfold timerBody. case_match; pinv.
  - assert (presenceInv (clearTimer h w)) by pinv.
    unfold timerBody. case_match; pinv.
  - unfold answered. pinv.
  - unfold resolved. pinv.
  - pinv.
  - unfold tunnelError. pinv.
  - unfold reap. pinv.
  - unfold forwardLog. pinv.
  - unfold gatewayError. pinv.
  - unfold reap. pinv.
  - pinv.
  - by eapply ipc_presenceInv.
  - unfold onSuspend. pinv.
  - unfold onResume. handler; pinv.
  - pinv.
Qed.

Lemma reachable_presenceInv w : reachable w -> presenceInv w.
Proof.
  induction 1 as [file bins ent t0|w now e w' R IH E].
  - apply appReady_presenceInv.
  - by apply (step_presenceInv now e w w' E).
Qed.

Lemma run_reachable evs w w' : reachable w -> run evs w = Some w' -> reachable w'.
Proof.
  revert w. induction evs as [|[now e] rest IH]; intros w R E; simpl in E.
  - by simplify_eq.
  - destruct (step now e w) as [w1|] eqn:S; [|done].
    apply (IH w1); [|done]. by apply (reach_step w now e w1).
Qed.

(** C4.  In every world the application can reach, [clientAwayState]
    implies [clientConnectedState]; in particular every turn of the loop
    that leaves the client marked not connected (the 120 s timeout, an
    unexpected gateway exit, a stop with presence reset, the full shutdown)
    leaves the away flag cleared as well. *)
Theorem away_implies_connected (w : World) :
  reachable w ->
  (clientAwayState w = true -> clientConnectedState w = true)
  ∧ (forall now e w', step now e w = Some w' ->
                      clientConnectedState w' = false -> clientAwayState w' = false).
Proof.
  intros R. split.
  - apply (reachable_presenceInv w R).
  - intros now e w' E Hc.
    destruct (step_presenceInv now e w w' E (reachable_presenceInv w R)) as [I _].
    destruct (clientAwayState w'); [|done]. rewrite I in Hc; done.
Qed.

Lemma away_implies_connected_witness :
  clientConnectedState Demo.awayWorld = true.
Proof.
  refine (proj1 (away_implies_connected Demo.awayWorld _) _).
  - apply (run_reachable Demo.silence Demo.world); [apply reach_ready|].
    vm_compute. reflexivity.
  - vm_compute. reflexivity.
Defined.

(** ** The presence poll when no client is connected *)

Lemma stopClientPresenceMonitor_stopped w :
  presenceInv w -> presenceStopped (stopClientPresenceMonitor w).
Proof.
  intros [_ I]. unfold stopClientPresenceMonitor, presenceStopped.
  destruct (clientPresenceInterval w) as [o|] eqn:E; simpl.
  - split; [done|]. intros h t Hl Hk.
    destruct (decide (o = h)) as [->|Hne].
    + by rewrite lookup_delete_eq in Hl.
    + rewrite lookup_delete_ne in Hl by done. specialize (I _ _ Hl Hk). congruence.
  - split; [done|]. intros h t Hl Hk. specialize (I _ _ Hl Hk). congruence.
Qed.

Lemma presenceStopped_frame w w' :
  clientPresenceInterval w' = clientPresenceInterval w ∧ timers w' = timers w ->
  presenceStopped w -> presenceStopped w'.
Proof. intros [E1 E2]. unfold presenceStopped. by rewrite E1, E2. Qed.

(** Peel an operation that leaves the interval variable and the timer
    table alone. *)
Ltac stopped_step :=
  match goal with
  | |- presenceStopped (stopClientPresenceMonitor _) =>
      apply stopClientPresenceMonitor_stopped; pinv
  | |- presenceStopped (?F ?w) =>
      apply (presenceStopped_frame w (F w));
      [generalize w; intro; split; reflexivity|]
  end.

(** C7, as the code has it.  In a reachable world with no client marked
    connected a tick of the presence poll does nothing.  An unexpected
    gateway exit, a stop with presence reset and the full shutdown stop the
    interval: afterwards the variable is [null] and the runtime holds no
    presence interval.  The poll's own 120 s transition does not: a tick
    never changes the interval variable or the timer table, so the interval
    stays armed, idle, until a heartbeat replaces it. *)
Theorem presence_poll_idle_when_disconnected (w : World) :
  reachable w ->
  (clientConnectedState w = false -> presenceTick w = w)
  ∧ (intentionallyStopping w = false -> forall code, presenceStopped (gatewayExit code w))
  ∧ presenceStopped (stopServer true w)
  ∧ presenceStopped (stopAll w)
  ∧ clientPresenceInterval (presenceTick w) = clientPresenceInterval w
  ∧ timers (presenceTick w) = timers w.
Proof.
  intros R. pose proof (reachable_presenceInv w R) as I.
  split; [|split; [|split; [|split; [|split]]]].
  - intros Hc. unfold presenceTick. by rewrite Hc.
  - intros Hs code. unfold gatewayExit. rewrite Hs.
    cbv beta iota zeta delta [negb]. case_match; repeat stopped_step.
  - unfold stopServer. handler; repeat stopped_step.
  - unfold stopAll, stopProxyServer, stopSetupServer. handler; repeat stopped_step.
  - unfold presenceTick. repeat case_match; reflexivity.
  - unfold presenceTick. repeat case_match; reflexivity.
Qed.

Lemma presence_poll_idle_when_disconnected_witness :
  presenceTick Demo.world = Demo.world.
Proof.
  refine (proj1 (presence_poll_idle_when_disconnected Demo.world _) _).
  - apply reach_ready.
  - reflexivity.
Defined.

(** C7 as stated fails: after a heartbeat at 2000 and silence, the tick at
    124000 takes the 120 s transition and clears the connected flag, yet
    the interval variable still names timer 4 and the runtime still holds
    it, due again at 126000. *)
Lemma presence_interval_survives_timeout :
  exists w,
    run Demo.expiry Demo.world = Some w
    ∧ clientConnectedState w = false
    ∧ clientPresenceInterval w = Some 4%nat
    ∧ timers w !! 4%nat = Some (mkTimer PresencePoll 126000 (Some 2000)).
Proof.
  eexists. split; [vm_compute; reflexivity|].
  repeat split; vm_compute; reflexivity.
Qed.

(** ** Tunnel health monitor *)

(** C9.  [startTunnelHealthMonitor] sets the health to [healthy] and emits
    it on [tunnel-health] at once; no probe is started by it, the first
    tick is due 10 s later.  So in the start-up run in which the tunnel
    prints its URL and DNS resolves, the health reads [healthy] for the
    published URL although no probe has been sent, let alone answered. *)
Theorem health_reported_before_first_probe (w : World) :
  let w' := startTunnelHealthMonitor w in
  tunnelHealthStatus w' = healthy
  ∧ sent w' = sent w ++ [mkSent "tunnel-health" (PHealth healthy)]
  ∧ probes w' = probes w
  ∧ tunnelHealthInterval w' = Some (nextHandle w)
  ∧ timers w' !! nextHandle w = Some (mkTimer HealthPoll (clock w + 10000) (Some 10000))
  ∧ exists w1,
      run Demo.publish Demo.world
      = Some w1
      ∧ tunnelHealthStatus w1 = healthy
      ∧ currentTunnelURL w1 = "https://quick-fox-42.trycloudflare.com"
      ∧ probes w1 = ∅.
Proof.
  split; [|split; [|split; [|split; [|split]]]];
    try (unfold startTunnelHealthMonitor; by destruct (tunnelHealthInterval w)).
  - unfold startTunnelHealthMonitor.
    destruct (tunnelHealthInterval w); simpl; apply lookup_insert_eq.
  - eexists. split; [vm_compute; reflexivity|].
    split; [|split]; vm_compute; reflexivity.
Qed.

(** ** A tunnel supervisor with nothing pending stays that way *)

Lemma tunnelQuiet_frame n w w' :
  currentTunnelURL w' = currentTunnelURL w
  ∧ probes w' = probes w
  ∧ dnsQueries w' = dnsQueries w
  ∧ timers w' = timers w
  ∧ procs w' = procs w
  ∧ calls w' = calls w ->
  tunnelQuiet n w -> tunnelQuiet n w'.
Proof.
  intros (E1 & E2 & E3 & E4 & E5 & E6). unfold tunnelQuiet, entered.
  by rewrite E1, E2, E3, E4, E5, E6.
Qed.

Lemma arm_tunnelQuiet n k d e w :
  tunnelTimer k = false -> tunnelQuiet n w -> tunnelQuiet n (arm k d e w).
Proof.
  intros Hk (Q1 & Q2 & Q3 & Q4 & Q5 & Q6). repeat split; try done.
  intros h t. unfold arm. simpl. intros Hl.
  destruct (decide (h = nextHandle w)) as [->|Hne].
  - rewrite lookup_insert_eq in Hl. by simplify_eq.
  - rewrite lookup_insert_ne in Hl by done. eauto.
Qed.

Lemma rearm_tunnelQuiet n h t p w :
  timers w !! h = Some t -> tunnelQuiet n w -> tunnelQuiet n (rearm h (t_kind t) p w).
Proof.
  intros Hh (Q1 & Q2 & Q3 & Q4 & Q5 & Q6). repeat split; try done.
  intros h' t'. unfold rearm. simpl. intros Hl.
  destruct (decide (h' = h)) as [->|Hne].
  - rewrite lookup_insert_eq in Hl. simplify_eq. simpl. eauto.
  - rewrite lookup_insert_ne in Hl by done. eauto.
Qed.

Lemma clearTimer_tunnelQuiet n h w : tunnelQuiet n w -> tunnelQuiet n (clearTimer h w).
Proof.
  intros (Q1 & Q2 & Q3 & Q4 & Q5 & Q6). repeat split; try done.
  intros h' t. unfold clearTimer. simpl. intros Hl.
  destruct (decide (h = h')) as [->|Hne].
  - by rewrite lookup_delete_eq in Hl.
  - rewrite lookup_delete_ne in Hl by done. eauto.
Qed.

Lemma launch_tunnelQuiet n k bin w :
  isTunnel (mkProc k bin false) = false -> tunnelQuiet n w -> tunnelQuiet n (launch k bin w).
Proof.
  intros Hk (Q1 & Q2 & Q3 & Q4 & Q5 & Q6). repeat split; try done.
  intros pid p. unfold launch. simpl. intros Hl.
  destruct (decide (pid = nextHandle w)) as [->|Hne].
  - rewrite lookup_insert_eq in Hl. by simplify_eq.
  - rewrite lookup_insert_ne in Hl by done. eauto.
Qed.

Lemma reap_tunnelQuiet n pid w : tunnelQuiet n w -> tunnelQuiet n (reap pid w).
Proof.
  intros (Q1 & Q2 & Q3 & Q4 & Q5 & Q6). repeat split; try done.
  intros pid' p. unfold reap. simpl. intros Hl.
  destruct (decide (pid = pid')) as [->|Hne].
  - by rewrite lookup_delete_eq in Hl.
  - rewrite lookup_delete_ne in Hl by done. eauto.
Qed.

(** [kill], unfolded: the signal keeps the kind of the process. *)
Lemma signal_tunnelQuiet n pid w :
  tunnelQuiet n w ->
  tunnelQuiet n
    (set_procs (alter (fun pr => mkProc (p_kind pr) (p_bin pr) true) pid (procs w)) w).
Proof.
  intros (Q1 & Q2 & Q3 & Q4 & Q5 & Q6). repeat split; try done.
  intros pid' p. simpl. intros Hl.
  destruct (decide (pid = pid')) as [->|Hne].
  - rewrite lookup_alter_eq in Hl. destruct (procs w !! pid') as [p0|] eqn:E; [|done].
    simpl in Hl. simplify_eq. apply (Q5 _ _ E).
  - rewrite lookup_alter_ne in Hl by done. eauto.
Qed.

Lemma enter_tunnelQuiet n c w :
  sameCall CallStartTunnel c = false -> tunnelQuiet n w -> tunnelQuiet n (enter c w).
Proof.
  intros Hc (Q1 & Q2 & Q3 & Q4 & Q5 & Q6). repeat split; try done.
  unfold entered in *. change (calls (enter c w)) with (calls w ++ [c]).
  rewrite List.filter_app, length_app. cbn [List.filter]. rewrite Hc. simpl. lia.
Qed.

Lemma unpublish_tunnelQuiet n w :
  tunnelQuiet n w -> tunnelQuiet n (set_currentTunnelURL "" w).
Proof.
  intros (Q1 & Q2 & Q3 & Q4 & Q5 & Q6).
  split; [reflexivity|]. split; [exact Q2|]. split; [exact Q3|].
  split; [exact Q4|]. split; [exact Q5|exact Q6].
Qed.

Lemma healthTick_tunnelQuiet n m w : tunnelQuiet n w -> tunnelQuiet n (healthTick m w).
Proof. intros Q. pose proof Q as (E & _). unfold healthTick. rewrite E. exact Q. Qed.

Ltac quiet_known := fail.

Ltac quiet_step :=
  match goal with
  | H : tunnelQuiet ?n ?w |- tunnelQuiet ?n ?w => exact H
  | |- tunnelQuiet _ (arm _ _ _ _) => apply arm_tunnelQuiet; [reflexivity|]
  | |- tunnelQuiet _ (clearTimer _ _) => apply clearTimer_tunnelQuiet
  | |- tunnelQuiet _ (launch _ _ _) => apply launch_tunnelQuiet; [reflexivity|]
  | |- tunnelQuiet _ (reap _ _) => apply reap_tunnelQuiet
  | |- tunnelQuiet _ (set_procs (alter _ _ (procs ?w)) ?w) => apply signal_tunnelQuiet
  | |- tunnelQuiet _ (enter _ _) => apply enter_tunnelQuiet; [reflexivity|]
  | |- tunnelQuiet _ (set_currentTunnelURL "" _) => apply unpublish_tunnelQuiet
  | |- tunnelQuiet _ (healthTick _ _) => apply healthTick_tunnelQuiet
  | |- _ => quiet_known
  | |- tunnelQuiet ?n (?F ?w) =>
      apply (tunnelQuiet_frame n w (F w));
      [generalize w; intro; repeat split; reflexivity|]
  end.

Ltac quiet := repeat quiet_step.

Lemma presenceTick_tunnelQuiet n w : tunnelQuiet n w -> tunnelQuiet n (presenceTick w).
Proof. intros Q. unfold presenceTick. handler; quiet. Qed.

Lemma startClientPresenceMonitor_tunnelQuiet n w :
  tunnelQuiet n w -> tunnelQuiet n (startClientPresenceMonitor w).
Proof. intros Q. unfold startClientPresenceMonitor. handler; quiet. Qed.

Lemma stopClientPresenceMonitor_tunnelQuiet n w :
  tunnelQuiet n w -> tunnelQuiet n (stopClientPresenceMonitor w).
Proof. intros Q. unfold stopClientPresenceMonitor. handler; quiet. Qed.

Ltac quiet_known ::=
  match goal with
  | |- tunnelQuiet _ (presenceTick _) => apply presenceTick_tunnelQuiet
  | |- tunnelQuiet _ (startClientPresenceMonitor _) =>
      apply startClientPresenceMonitor_tunnelQuiet
  | |- tunnelQuiet _ (stopClientPresenceMonitor _) =>
      apply stopClientPresenceMonitor_tunnelQuiet
  end.

Lemma startServer_tunnelQuiet n w : tunnelQuiet n w -> tunnelQuiet n (startServer w).
Proof. intros Q. unfold startServer. handler; quiet. Qed.

Lemma stopServer_tunnelQuiet n b w : tunnelQuiet n w -> tunnelQuiet n (stopServer b w).
Proof. intros Q. unfold stopServer. handler; quiet. Qed.

Lemma stopAll_tunnelQuiet n w : tunnelQuiet n w -> tunnelQuiet n (stopAll w).
Proof.
  intros Q. unfold stopAll, stopProxyServer, stopSetupServer. handler; quiet.
Qed.

Lemma gatewayExit_tunnelQuiet n code w :
  tunnelQuiet n w -> tunnelQuiet n (gatewayExit code w).
Proof. intros Q. unfold gatewayExit. handler; quiet. Qed.

Lemma gatewaySettle_tunnelQuiet n gport token w :
  tunnelQuiet n w -> tunnelQuiet n (gatewaySettle gport token w).
Proof. intros Q. unfold gatewaySettle. handler; quiet. Qed.

Ltac quiet_known ::=
  match goal with
  | |- tunnelQuiet _ (presenceTick _) => apply presenceTick_tunnelQuiet
  | |- tunnelQuiet _ (startClientPresenceMonitor _) =>
      apply startClientPresenceMonitor_tunnelQuiet
  | |- tunnelQuiet _ (stopClientPresenceMonitor _) =>
      apply stopClientPresenceMonitor_tunnelQuiet
  | |- tunnelQuiet _ (startServer _) => apply startServer_tunnelQuiet
  | |- tunnelQuiet _ (stopServer _ _) => apply stopServer_tunnelQuiet
  | |- tunnelQuiet _ (stopAll _) => apply stopAll_tunnelQuiet
  | |- tunnelQuiet _ (gatewayExit _ _) => apply gatewayExit_tunnelQuiet
  | |- tunnelQuiet _ (gatewaySettle _ _ _) => apply gatewaySettle_tunnelQuiet
  end.

Lemma postAiConfig_tunnelQuiet n b w :
  tunnelQuiet n w -> tunnelQuiet n (snd (postAiConfig b w)).
Proof. intros Q. unfold postAiConfig. handler; quiet. Qed.

Lemma postActiveWorkspace_tunnelQuiet n b w :
  tunnelQuiet n w -> tunnelQuiet n (snd (postActiveWorkspace b w)).
Proof. intros Q. unfold postActiveWorkspace. handler; quiet. Qed.

Lemma proxyRequest_tunnelQuiet n px r w :
  tunnelQuiet n w -> tunnelQuiet n (snd (proxyRequest px r w)).
Proof.
  intros Q. unfold proxyRequest. load.
  repeat (case_match; simplify_eq);
    first [ by apply postAiConfig_tunnelQuiet
          | by apply postActiveWorkspace_tunnelQuiet
          | cbv beta iota zeta delta [fst snd]; quiet ].
Qed.

Lemma ipc_tunnelQuiet n c w w' :
  ipc c w = Some w' -> tunnelQuiet n w -> tunnelQuiet n w'.
Proof.
  intros E Q. destruct c; simpl in E; repeat case_match; simplify_eq;
    unfold ipcSetAiSource, ipcWorkspaceCreate, ipcWorkspaceRename, ipcWorkspaceDelete,
      ipcWorkspaceSetActive, ipcAddProtectedOpen, ipcAddProtectedClose,
      ipcRemoveProtected, stopSetupServer;
    handler; quiet.
Qed.

Lemma step_tunnelQuiet n now e w w' :
  step now e w = Some w' -> tunnelQuiet n w -> tunnelQuiet n w'.
Proof.
  unfold step. destruct (now <? clock w); [done|]. intros E Q.
  assert (Q' : tunnelQuiet n (set_clock now w)) by quiet.
  revert E Q'. generalize (set_clock now w). clear Q w. intros w E Q.
  destruct e; repeat case_match; simplify_eq;
    pose proof Q as (Q1 & Q2 & Q3 & Q4 & Q5 & _).
  - by apply proxyRequest_tunnelQuiet.
  - done.
  - assert (tunnelQuiet n (rearm h (t_kind t) z w)) by by apply rearm_tunnelQuiet.
    pose proof (Q4 _ _ H) as Hk.
    unfold timerBody. destruct (t_kind t); try done; quiet.
  - assert (tunnelQuiet n (clearTimer h w)) by quiet.
    pose proof (Q4 _ _ H) as Hk.
    unfold timerBody. destruct (t_kind t); try done; quiet.
  - by rewrite Q2, lookup_empty in H.
  - by rewrite Q3, lookup_empty in H.
  - rewrite (Q5 _ _ H) in H0. done.
  - rewrite (Q5 _ _ H) in H0. done.
  - rewrite (Q5 _ _ H) in H0. done.
  - unfold forwardLog. quiet.
  - unfold gatewayError. quiet.
  - quiet.
  - quiet.
  - by eapply ipc_tunnelQuiet.
  - unfold onSuspend. quiet.
  - unfold onResume. handler; quiet.
  - quiet.
Qed.

Lemma run_tunnelQuiet n evs w w' :
  run evs w = Some w' -> tunnelQuiet n w -> tunnelQuiet n w'.
Proof.
  revert w. induction evs as [|[now e] rest IH]; intros w E Q; simpl in E.
  - by simplify_eq.
  - destruct (step now e w) as [w1|] eqn:S; [|done].
    apply (IH w1 E). by apply (step_tunnelQuiet n now e w w1).
Qed.

(** ** [startTunnel] without a tunnel binary *)

Lemma startTunnel_missing w :
  findBinary "cloudflared" w = None ->
  exists file e,
    startTunnel w
    = send "error" (PText CLOUDFLARED_NOT_FOUND)
        (set_entropyUsed e (set_configFile file (enter CallStartTunnel w))).
Proof.
  intros Hb. unfold startTunnel.
  destruct (loadConfig_shape (enter CallStartTunnel w)) as (cfg & file & e & ->).
  exists file, e. cbv beta iota zeta.
  change (findBinary "cloudflared"
            (set_entropyUsed e (set_configFile file (enter CallStartTunnel w))))
    with (findBinary "cloudflared" w).
  by rewrite Hb.
Qed.

Lemma startTunnel_missing_quiet n w :
  findBinary "cloudflared" w = None ->
  tunnelQuiet n w -> tunnelQuiet (S n) (startTunnel w).
Proof.
  intros Hb (Q1 & Q2 & Q3 & Q4 & Q5 & Q6).
  destruct (startTunnel_missing w Hb) as (file & e & ->).
  split; [exact Q1|]. split; [exact Q2|]. split; [exact Q3|].
  split; [exact Q4|]. split; [exact Q5|].
  unfold entered in *.
  change (calls (send "error" (PText CLOUDFLARED_NOT_FOUND)
                   (set_entropyUsed e (set_configFile file (enter CallStartTunnel w)))))
    with (calls w ++ [CallStartTunnel]).
  rewrite List.filter_app, length_app. simpl. lia.
Qed.

(** C10.  When [cloudflared] cannot be found, [startTunnel] sends one
    [error] event and returns: no process is spawned, the process variable
    and the closures are as before, and no timer is armed.  The retry
    delay (2 s, 60 s after a rate limit) is armed by the exit handler of a
    spawned process only.  So if nothing of an earlier tunnel was pending
    when [startTunnel] was entered, then whatever events follow,
    [startTunnel] is never entered again, no tunnel process ever lives and
    no retry timer is ever armed. *)
Theorem startTunnel_without_binary_is_final (w : World) (n : nat) :
  findBinary "cloudflared" w = None ->
  let w1 := startTunnel w in
  sent w1 = sent w ++ [mkSent "error" (PText CLOUDFLARED_NOT_FOUND)]
  ∧ procs w1 = procs w
  ∧ cloudflaredProc w1 = cloudflaredProc w
  ∧ tunnelClosures w1 = tunnelClosures w
  ∧ timers w1 = timers w
  ∧ (forall pid w0,
        intentionallyStopping w0 = false -> tunnelRestarting w0 = false ->
        timers (tunnelExit pid w0) !! nextHandle w0
        = Some (mkTimer RestartTunnel (clock w0 + retryDelay pid w0) None))
  ∧ (tunnelQuiet n w ->
     forall evs w2,
       run evs w1 = Some w2 ->
       entered CallStartTunnel w2 = S n
       ∧ (forall pid p, procs w2 !! pid = Some p -> isTunnel p = false)
       ∧ (forall h t, timers w2 !! h = Some t -> t_kind t ≠ RestartTunnel)).
Proof.
  intros Hb w1. subst w1.
  destruct (startTunnel_missing w Hb) as (file & e & E).
  split; [by rewrite E|]. split; [by rewrite E|]. split; [by rewrite E|].
  split; [by rewrite E|]. split; [by rewrite E|]. split.
  - intros pid w0 Hs Hr. unfold tunnelExit, retryDelay. rewrite Hs, Hr.
    cbv beta iota zeta. unfold setTimeout, arm. simpl. apply lookup_insert_eq.
  - intros Q evs w2 R.
    pose proof (run_tunnelQuiet (S n) evs _ w2 R (startTunnel_missing_quiet n w Hb Q))
      as (_ & _ & _ & Q4 & Q5 & Q6).
    split; [exact Q6|]. split; [exact Q5|].
    intros h t Hl Hk. specialize (Q4 _ _ Hl). by rewrite Hk in Q4.
Qed.

Lemma initial_tunnelQuiet file bins ent t0 : tunnelQuiet 0 (initial file bins ent t0).
Proof.
  repeat split; try reflexivity.
  - intros h t. simpl. by rewrite lookup_empty.
  - intros pid p. simpl. by rewrite lookup_empty.
Qed.

Lemma startTunnel_without_binary_is_final_witness :
  sent (startTunnel Demo.bare) = [mkSent "error" (PText CLOUDFLARED_NOT_FOUND)]
  ∧ entered CallStartTunnel
      (default Demo.bare
         (run [(1500, Ipc ServerStart); (3500, TimerFires 1%nat); (4000, Ipc ServerStop)]
              (startTunnel Demo.bare))) = 1%nat.
Proof.
  destruct (startTunnel_without_binary_is_final Demo.bare 0 eq_refl)
    as (Hs & _ & _ & _ & _ & _ & Hq).
  split; [exact Hs|].
  destruct (run [(1500, Ipc ServerStart); (3500, TimerFires 1%nat); (4000, Ipc ServerStop)]
                (startTunnel Demo.bare)) as [w2|] eqn:R.
  - exact (proj1 (Hq (initial_tunnelQuiet _ _ _ _) _ w2 R)).
  - vm_compute in R. discriminate R.
Defined.

(** ** Presence: heartbeat, then silence *)

Lemma presenceTick_timers w : timers (presenceTick w) = timers w.
Proof. unfold presenceTick. repeat case_match; reflexivity. Qed.

Lemma presenceTick_clock w : clock (presenceTick w) = clock w.
Proof. unfold presenceTick. repeat case_match; reflexivity. Qed.

(** An armed presence interval fires, runs the poll, and is armed for the
    next period. *)
Lemma tick_fires h d w :
  armed h d w ->
  let w' := presenceTick (rearm h PresencePoll 2000 (set_clock d w)) in
  step d (TimerFires h) w = Some w' ∧ armed h (d + 2000) w'.
Proof.
  intros (Hc & due & Ht & Hd). split.
  - unfold step. destruct (d <? clock w) eqn:E; [lia|].
    change (timers (set_clock d w)) with (timers w). rewrite Ht.
    cbv beta iota zeta. change (t_due _) with due. change (t_every _) with (Some 2000).
    destruct (d <? due) eqn:E'; [lia|]. reflexivity.
  - split.
    + rewrite presenceTick_clock. simpl. lia.
    + exists (d + 2000). rewrite presenceTick_timers. split; [|lia].
      unfold rearm. simpl. apply lookup_insert_eq.
Qed.

(** The poll on a world whose presence state is given. *)
Lemma poll_disconnected w :
  clientConnectedState w = false -> presenceTick w = w.
Proof. intros H. unfold presenceTick. by rewrite H. Qed.

Lemma poll_within_grace w t0 :
  clientConnectedState w = true -> lastClientHeartbeat w = t0 -> 0 < t0 ->
  clock w - t0 <= 30000 -> presenceTick w = w.
Proof.
  intros Hc Hl Hp He. unfold presenceTick, CLIENT_DISCONNECT_TIMEOUT, CLIENT_AWAY_TIMEOUT.
  rewrite Hc, Hl. simpl.
  destruct (t0 <=? 0) eqn:E1; [lia|].
  destruct (clock w - t0 >? 120000) eqn:E2; [lia|].
  destruct (clock w - t0 >? 30000) eqn:E3; [lia|]. reflexivity.
Qed.

Lemma poll_goes_away w t0 :
  clientConnectedState w = true -> clientAwayState w = false ->
  lastClientHeartbeat w = t0 -> 0 < t0 ->
  30000 < clock w - t0 <= 120000 ->
  presenceTick w = send "client-away" PTrue (set_clientAwayState true w).
Proof.
  intros Hc Ha Hl Hp He. unfold presenceTick, CLIENT_DISCONNECT_TIMEOUT, CLIENT_AWAY_TIMEOUT.
  rewrite Hc, Ha, Hl. simpl.
  destruct (t0 <=? 0) eqn:E1; [lia|].
  destruct (clock w - t0 >? 120000) eqn:E2; [lia|].
  destruct (clock w - t0 >? 30000) eqn:E3; [|lia]. reflexivity.
Qed.

Lemma poll_stays_away w t0 :
  clientConnectedState w = true -> clientAwayState w = true ->
  lastClientHeartbeat w = t0 -> 0 < t0 ->
  clock w - t0 <= 120000 -> presenceTick w = w.
Proof.
  intros Hc Ha Hl Hp He. unfold presenceTick, CLIENT_DISCONNECT_TIMEOUT, CLIENT_AWAY_TIMEOUT.
  rewrite Hc, Ha, Hl. simpl.
  destruct (t0 <=? 0) eqn:E1; [lia|].
  destruct (clock w - t0 >? 120000) eqn:E2; [lia|].
  by destruct (clock w - t0 >? 30000).
Qed.

Lemma poll_disconnects w t0 :
  clientConnectedState w = true -> lastClientHeartbeat w = t0 -> 0 < t0 ->
  120000 < clock w - t0 ->
  presenceTick w
  = send "client-disconnected" PTrue
      (set_lastClientHeartbeat 0
         (set_clientAwayState false (set_clientConnectedState false w))).
Proof.
  intros Hc Hl Hp He. unfold presenceTick, CLIENT_DISCONNECT_TIMEOUT.
  rewrite Hc, Hl. simpl.
  destruct (t0 <=? 0) eqn:E1; [lia|].
  destruct (clock w - t0 >? 120000) eqn:E2; [|lia]. reflexivity.
Qed.

(** Once disconnected, the poll keeps firing and nothing changes. *)
Lemma ticks_when_disconnected h n : forall d w,
  armed h d w -> clientConnectedState w = false ->
  exists w2,
    run (ticks h d n) w = Some w2
    ∧ clientConnectedState w2 = false
    ∧ clientAwayState w2 = clientAwayState w
    ∧ lastClientHeartbeat w2 = lastClientHeartbeat w
    ∧ sent w2 = sent w.
Proof.
  induction n as [|n IH]; intros d w Ha Hc; simpl.
  - by exists w.
  - destruct (tick_fires h d w Ha) as [-> Ha'].
    rewrite poll_disconnected in * by done.
    destruct (IH (d + 2000) _ Ha') as (w2 & -> & ? & ? & ? & ?); [done|].
    exists w2. repeat split; done.
Qed.

(** While away: nothing until the poll sees more than 120 s, then the
    reset and one [client-disconnected]. *)
Lemma ticks_when_away h t0 n : forall d w,
  armed h d w -> 0 < t0 ->
  clientConnectedState w = true -> clientAwayState w = true ->
  lastClientHeartbeat w = t0 ->
  exists w2,
    run (ticks h d n) w = Some w2
    ∧ ((n = 0%nat ∨ d + 2000 * (Z.of_nat n - 1) - t0 <= 120000) ->
       clientConnectedState w2 = true ∧ clientAwayState w2 = true
       ∧ lastClientHeartbeat w2 = t0 ∧ sent w2 = sent w)
    ∧ (n ≠ 0%nat -> 120000 < d + 2000 * (Z.of_nat n - 1) - t0 ->
       clientConnectedState w2 = false ∧ clientAwayState w2 = false
       ∧ lastClientHeartbeat w2 = 0 ∧ sent w2 = sent w ++ [DISCONNECTED]).
Proof.
  induction n as [|n IH]; intros d w Ha Hp Hc Hw Hl; simpl run.
  - exists w. split; [done|]. split; [done|]. intros []; done.
  - destruct (tick_fires h d w Ha) as [-> Ha'].
    set (w0 := rearm h PresencePoll 2000 (set_clock d w)) in *.
    destruct (Z_le_gt_dec (d - t0) 120000) as [Hle|Hgt].
    + rewrite (poll_stays_away w0 t0) in * by (try done; simpl; lia).
      destruct (IH (d + 2000) w0 Ha' Hp) as (w2 & -> & H1 & H2); try done.
      exists w2. split; [done|]. split.
      * intros [|Hn]; [done|]. apply H1. destruct n; [by left|right; lia].
      * intros _ Hn. destruct n; [simpl in Hn; lia|]. apply H2; [done|lia].
    + rewrite (poll_disconnects w0 t0) in * by (try done; simpl; lia).
      destruct (ticks_when_disconnected h n (d + 2000) _ Ha')
        as (w2 & -> & E1 & E2 & E3 & E4); [done|].
      exists w2. split; [done|]. split.
      * intros [|Hn]; [done|]. lia.
      * intros _ _. rewrite E1, E2, E3, E4. done.
Qed.

(** From a fresh heartbeat at [t0]: nothing while the poll sees at most
    30 s, then one [client-away], then as above. *)
Lemma ticks_after_heartbeat h t0 n : forall d w,
  armed h d w -> 0 < t0 -> d - t0 <= 32000 ->
  clientConnectedState w = true -> clientAwayState w = false ->
  lastClientHeartbeat w = t0 ->
  exists w2,
    run (ticks h d n) w = Some w2
    ∧ ((n = 0%nat ∨ d + 2000 * (Z.of_nat n - 1) - t0 <= 30000) ->
       clientConnectedState w2 = true ∧ clientAwayState w2 = false
       ∧ lastClientHeartbeat w2 = t0 ∧ sent w2 = sent w)
    ∧ (n ≠ 0%nat -> 30000 < d + 2000 * (Z.of_nat n - 1) - t0 <= 120000 ->
       clientConnectedState w2 = true ∧ clientAwayState w2 = true
       ∧ lastClientHeartbeat w2 = t0 ∧ sent w2 = sent w ++ [AWAY])
    ∧ (n ≠ 0%nat -> 120000 < d + 2000 * (Z.of_nat n - 1) - t0 ->
       clientConnectedState w2 = false ∧ clientAwayState w2 = false
       ∧ lastClientHeartbeat w2 = 0 ∧ sent w2 = sent w ++ [AWAY; DISCONNECTED]).
Proof.
  induction n as [|n IH]; intros d w Ha Hp Hd Hc Hw Hl; simpl run.
  - exists w. split; [done|]. split; [done|]. split; intros []; done.
  - destruct (tick_fires h d w Ha) as [-> Ha'].
    set (w0 := rearm h PresencePoll 2000 (set_clock d w)) in *.
    destruct (Z_le_gt_dec (d - t0) 30000) as [Hle|Hgt].
    + rewrite (poll_within_grace w0 t0) in * by (try done; simpl; lia).
      destruct (IH (d + 2000) w0 Ha' Hp) as (w2 & -> & H1 & H2 & H3); try done; [lia|].
      exists w2. split; [done|]. split; [|split].
      * intros [|Hn]; [done|]. apply H1. destruct n; [by left|right; lia].
      * intros _ Hn. destruct n; [simpl in Hn; lia|]. apply H2; [done|lia].
      * intros _ Hn. destruct n; [simpl in Hn; lia|]. apply H3; [done|lia].
    + rewrite (poll_goes_away w0 t0) in * by (try done; simpl; lia).
      destruct (ticks_when_away h t0 n (d + 2000) _ Ha' Hp)
        as (w2 & -> & H1 & H2); try done.
      exists w2. split; [done|]. split; [|split].
      * intros [|Hn]; [done|]. lia.
      * intros _ Hn. destruct H1 as (E1 & E2 & E3 & E4).
        { destruct n; [by left|right; lia]. }
        rewrite E1, E2, E3, E4. done.
      * intros _ Hn. destruct n; [simpl in Hn; lia|].
        destruct H2 as (E1 & E2 & E3 & E4); [done|lia|].
        rewrite E1, E2, E3, E4. simpl. by rewrite <- app_assoc.
Qed.

(** What an authorised heartbeat does. *)
Lemma heartbeat_accepted px r w :
  method r = "POST" -> url r = "/heartbeat" ->
  unauthorized (expectedAuth px) r = false ->
  proxyRequest px r w
  = (Respond 200 OkBody,
     send "client-connected" PTrue
       (set_clientAwayState false
          (let w := set_lastClientHeartbeat (clock w) w in
           if negb (clientConnectedState w)
           then startClientPresenceMonitor (set_clientConnectedState true w)
           else w))).
Proof. intros Hm Hu Ha. unfold proxyRequest. by rewrite Hm, Hu, Ha. Qed.

(** C3.  An authorised [POST /heartbeat] at time [t0] is answered 200 and
    leaves presence connected and not away, whatever it was, with [t0] as
    the last heartbeat; if the client was not connected the poll is started,
    first due at [t0 + 2000].  With no further heartbeat and the poll
    firing every 2 s from some [d] within 2 s of the heartbeat: as long as
    the poll has seen at most 30 s nothing changes and nothing is emitted;
    once it has seen more than 30 s (and at most 120 s) the client is away
    and [client-away] has been emitted exactly once, however many ticks
    followed; once it has seen more than 120 s presence is reset
    (not connected, not away, no heartbeat time) and [client-disconnected]
    has been emitted once after that single [client-away].  A poll tick on
    an away client never emits [client-away]. *)
Theorem heartbeat_then_silence
        (px : ProxyClosure) (r : Request) (w : World) :
  method r = "POST" -> url r = "/heartbeat" ->
  unauthorized (expectedAuth px) r = false ->
  0 < clock w ->
  let t0 := clock w in
  let w1 := snd (proxyRequest px r w) in
  fst (proxyRequest px r w) = Respond 200 OkBody
  ∧ clientConnectedState w1 = true
  ∧ clientAwayState w1 = false
  ∧ lastClientHeartbeat w1 = t0
  ∧ (clientConnectedState w = false -> armed (nextHandle w) (t0 + 2000) w1)
  ∧ (forall h d n,
        armed h d w1 -> d <= t0 + 2000 ->
        exists w2,
          run (ticks h d n) w1 = Some w2
          ∧ let seen := d + 2000 * (Z.of_nat n - 1) - t0 in
            ((n = 0%nat ∨ seen <= 30000) ->
             clientConnectedState w2 = true ∧ clientAwayState w2 = false
             ∧ sent w2 = sent w1)
            ∧ (n ≠ 0%nat -> 30000 < seen <= 120000 ->
               clientConnectedState w2 = true ∧ clientAwayState w2 = true
               ∧ sent w2 = sent w1 ++ [AWAY])
            ∧ (n ≠ 0%nat -> 120000 < seen ->
               clientConnectedState w2 = false ∧ clientAwayState w2 = false
               ∧ lastClientHeartbeat w2 = 0
               ∧ sent w2 = sent w1 ++ [AWAY; DISCONNECTED]))
  ∧ (forall w0, clientAwayState w0 = true ->
                emitted "client-away" PTrue (presenceTick w0)
                = emitted "client-away" PTrue w0).
Proof.
  intros Hm Hu Ha Hp t0 w1. subst w1.
  rewrite (heartbeat_accepted px r w Hm Hu Ha). cbv beta iota zeta delta [fst snd].
  set (w1 := send _ _ _).
  assert (Hc : clientConnectedState w1 = true).
  { subst w1. simpl. destruct (clientConnectedState w) eqn:E; simpl; [done|].
    unfold startClientPresenceMonitor. by destruct (clientPresenceInterval _). }
  assert (Hw : clientAwayState w1 = false) by done.
  assert (Hl : lastClientHeartbeat w1 = t0).
  { subst w1. simpl. destruct (clientConnectedState w) eqn:E; simpl; [done|].
    unfold startClientPresenceMonitor. by destruct (clientPresenceInterval _). }
  split; [done|]. split; [done|]. split; [done|]. split; [done|]. split; [|split].
  - intros E. subst w1. simpl. rewrite E. simpl.
    unfold startClientPresenceMonitor, armed.
    destruct (clientPresenceInterval _); simpl; (split; [lia|]);
      exists (clock w + 2000); (split; [apply lookup_insert_eq|subst t0; lia]).
  - intros h d n Harm Hd.
    destruct (ticks_after_heartbeat h t0 n d w1 Harm Hp) as (w2 & R & H1 & H2 & H3);
      try done; [lia|].
    exists w2. split; [done|]. cbv zeta. split; [|split].
    + intros Hn. by destruct (H1 Hn) as (? & ? & ? & ?).
    + intros Hn Hs. by destruct (H2 Hn Hs) as (? & ? & ? & ?).
    + intros Hn Hs. by destruct (H3 Hn Hs) as (? & ? & ? & ?).
  - intros w0 Hw0. unfold presenceTick, emitted.
    repeat case_match; try reflexivity.
    + simpl. rewrite List.filter_app, length_app. simpl. lia.
    + rewrite Hw0 in *. by rewrite andb_false_r in *.
Qed.

Lemma heartbeat_then_silence_witness :
  exists w2,
    run (ticks 4 4000 61) (snd (proxyRequest Demo.proxy Demo.heartbeat
                                  (set_clock 2000 Demo.world))) = Some w2
    ∧ clientConnectedState w2 = false
    ∧ emitted "client-away" PTrue w2 = 1%nat.
Proof.
  destruct (heartbeat_then_silence Demo.proxy Demo.heartbeat (set_clock 2000 Demo.world)
              eq_refl eq_refl eq_refl eq_refl)
    as (_ & _ & _ & _ & Harm & Hrun & _).
  destruct (Hrun 4%nat 4000 61%nat (Harm eq_refl) ltac:(vm_compute; discriminate))
    as (w2 & R & _ & _ & H3).
  exists w2. split; [exact R|].
  destruct H3 as (Hc & _ & _ & Hs); [discriminate|vm_compute; reflexivity|].
  split; [exact Hc|].
  unfold emitted. rewrite Hs. vm_compute. reflexivity.
Defined.

(** ** Tunnel health: three failed checks *)

Lemma health_tick_fires m t w :
  healthArmed m t w ->
  step t (TimerFires m) w = Some (healthTick m (rearm m HealthPoll 10000 (set_clock t w))).
Proof.
  intros (Hc & due & Ht & Hd).
  unfold step. destruct (t <? clock w) eqn:E; [lia|].
  change (timers (set_clock t w)) with (timers w). rewrite Ht.
  cbv beta iota zeta. change (t_due _) with due. change (t_every _) with (Some 10000).
  destruct (t <? due) eqn:E'; [lia|]. reflexivity.
Qed.

Lemma healthTick_probes m w :
  currentTunnelURL w ≠ "" -> intentionallyStopping w = false ->
  exists file e, healthTick m w = probe m (set_entropyUsed e (set_configFile file w)).
Proof.
  intros Hu Hs. unfold healthTick. rewrite (eqb_ne _ _ Hu), Hs.
  destruct (loadConfig_shape w) as (cfg & file & e & ->). by exists file, e.
Qed.

Lemma probe_answers q m ok a w :
  probes w !! q = Some m -> clock w <= a ->
  step a (ProbeAnswers q ok) w = Some (healthTickResume m ok (answered q (set_clock a w))).
Proof.
  intros Hq Hc. unfold step. destruct (a <? clock w) eqn:E; [lia|].
  change (probes (set_clock a w)) with (probes w). by rewrite Hq.
Qed.

(** A failed check: the world when the answer arrives. *)
Lemma failed_check_runs m p k t a w :
  monitoring m p k w -> healthArmed m t w -> t <= a ->
  exists file e,
    run (failedCheck m (nextHandle w) t a) w
    = Some (healthTickResume m false
              (answered (nextHandle w)
                 (set_clock a
                    (probe m (set_entropyUsed e (set_configFile file
                       (rearm m HealthPoll 10000 (set_clock t w)))))))).
Proof.
  intros (Hu & Hs & _) Ha Hta. unfold failedCheck, run.
  rewrite (health_tick_fires m t w Ha).
  destruct (healthTick_probes m (rearm m HealthPoll 10000 (set_clock t w)))
    as (file & e & ->); [done..|].
  exists file, e.
  rewrite (probe_answers (nextHandle w) m); [done| |simpl; lia].
  unfold probe. simpl. apply lookup_insert_eq.
Qed.

(** The answer "unreachable" while fewer than two failures are counted. *)
Lemma resume_early_failure m k w :
  default 0%nat (monitorFailCount w !! m) = k -> (k < 2)%nat ->
  healthTickResume m false w
  = (if Nat.eqb k 0 then setTunnelHealth checking (setFailCount m 1 w)
     else setFailCount m 2 w).
Proof.
  intros Hk Hlt. unfold healthTickResume. rewrite Hk. cbv beta iota zeta.
  destruct k as [|[|k]]; [reflexivity|reflexivity|lia].
Qed.

(** The third answer "unreachable". *)
Lemma resume_third_failure m w :
  default 0%nat (monitorFailCount w !! m) = 2%nat ->
  healthTickResume m false w
  = startTunnel
      (set_cloudflaredProc None
         (kill (cloudflaredProc w)
            (set_tunnelRestarting true
               (send "tunnel-url" (PText "")
                  (set_currentTunnelURL ""
                     (setTunnelHealth down (setFailCount m 0 (setFailCount m 3 w)))))))).
Proof. intros Hk. unfold healthTickResume. rewrite Hk. reflexivity. Qed.

(** What [startTunnel] leaves alone. *)
Lemma startTunnel_frame w :
  exists extra,
    tunnelHealthStatus (startTunnel w) = tunnelHealthStatus w
    ∧ currentTunnelURL (startTunnel w) = currentTunnelURL w
    ∧ tunnelRestarting (startTunnel w) = tunnelRestarting w
    ∧ intentionallyStopping (startTunnel w) = intentionallyStopping w
    ∧ timers (startTunnel w) = timers w
    ∧ clock (startTunnel w) = clock w
    ∧ calls (startTunnel w) = calls w ++ [CallStartTunnel]
    ∧ sent (startTunnel w) = sent w ++ extra
    ∧ Forall (fun s => channel s = "error") extra
    ∧ (forall pid, (pid < nextHandle w)%nat -> procs (startTunnel w) !! pid = procs w !! pid).
Proof.
  unfold startTunnel.
  destruct (loadConfig_shape (enter CallStartTunnel w)) as (cfg & file & e & ->).
  cbv beta iota zeta.
  destruct (findBinary "cloudflared" _) as [bin|].
  - exists []. unfold spawn. cbv beta iota zeta. simpl.
    rewrite app_nil_r. repeat split; try done.
    intros pid Hp. rewrite lookup_insert_ne; [done|lia].
  - eexists [_]. simpl. repeat split; try done. by repeat constructor.
Qed.

(** A failed check that is not the third. *)
Lemma failed_check_early m p k t a w :
  monitoring m p k w -> healthArmed m t w -> t <= a -> (k < 2)%nat ->
  exists w',
    run (failedCheck m (nextHandle w) t a) w = Some w'
    ∧ monitoring m p (S k) w'
    ∧ clock w' = a
    ∧ nextHandle w' = S (nextHandle w)
    ∧ timers w' = <[m := mkTimer HealthPoll (t + 10000) (Some 10000)]> (timers w)
    ∧ tunnelHealthStatus w' = (if Nat.eqb k 0 then checking else tunnelHealthStatus w)
    ∧ currentTunnelURL w' = currentTunnelURL w
    ∧ tunnelRestarting w' = tunnelRestarting w
    ∧ calls w' = calls w
    ∧ sent w' = sent w ++ (if Nat.eqb k 0
                           then [mkSent "tunnel-health" (PHealth checking)] else []).
Proof.
  intros M Ha Hta Hk.
  destruct (failed_check_runs m p k t a w M Ha Hta) as (file & e & ->).
  destruct M as (Hu & Hs & Hp & (pr & Hpr & Hkind) & Hlt & Hf).
  eexists. split; [reflexivity|].
  rewrite (resume_early_failure m k); [|exact Hf|exact Hk].
  destruct k as [|[|k]]; [| |lia].
  - repeat split; simpl; try done.
    + by exists pr.
    + lia.
    + by rewrite lookup_insert_eq.
  - repeat split; simpl; try done.
    + by exists pr.
    + lia.
    + by rewrite lookup_insert_eq.
    + by rewrite app_nil_r.
Qed.

(** The third failed check in a row. *)
Lemma failed_check_third m p t a w :
  monitoring m p 2 w -> healthArmed m t w -> t <= a ->
  exists w' extra,
    run (failedCheck m (nextHandle w) t a) w = Some w'
    ∧ tunnelHealthStatus w' = down
    ∧ currentTunnelURL w' = ""
    ∧ tunnelRestarting w' = true
    ∧ intentionallyStopping w' = false
    ∧ clock w' = a
    ∧ (exists pr, procs w' !! p = Some pr ∧ isTunnel pr = true ∧ p_signalled pr = true)
    ∧ timers w' = <[m := mkTimer HealthPoll (t + 10000) (Some 10000)]> (timers w)
    ∧ calls w' = calls w ++ [CallStartTunnel]
    ∧ sent w' = sent w ++ [mkSent "tunnel-health" (PHealth down); URL_CLEARED] ++ extra
    ∧ Forall (fun s => channel s = "error") extra.
Proof.
  intros M Ha Hta.
  destruct (failed_check_runs m p 2 t a w M Ha Hta) as (file & e & ->).
  destruct M as (Hu & Hs & Hp & (pr & Hpr & Hkind) & Hlt & Hf).
  rewrite (resume_third_failure m); [|exact Hf].
  match goal with |- context [kill ?c _] => change c with (cloudflaredProc w) end.
  rewrite Hp. unfold kill.
  match goal with |- context [startTunnel ?x] => set (X := x) end.
  assert (X1 : tunnelHealthStatus X = down) by reflexivity.
  assert (X2 : currentTunnelURL X = "") by reflexivity.
  assert (X3 : tunnelRestarting X = true) by reflexivity.
  assert (X4 : intentionallyStopping X = false) by (rewrite <- Hs; reflexivity).
  assert (X5 : timers X = <[m := mkTimer HealthPoll (t + 10000) (Some 10000)]> (timers w))
    by reflexivity.
  assert (X6 : clock X = a) by reflexivity.
  assert (X7 : calls X = calls w) by reflexivity.
  assert (X8 : sent X = sent w ++ [mkSent "tunnel-health" (PHealth down); URL_CLEARED]).
  { subst X. simpl. by rewrite <- app_assoc. }
  assert (X9 : procs X !! p = Some (mkProc (p_kind pr) (p_bin pr) true)).
  { subst X. simpl. by rewrite lookup_alter_eq, Hpr. }
  assert (X10 : nextHandle X = S (nextHandle w)) by reflexivity.
  clearbody X.
  destruct (startTunnel_frame X) as (extra & F1 & F2 & F3 & F4 & F5 & F6 & F7 & F8 & F9 & F10).
  exists (startTunnel X), extra. split; [reflexivity|].
  rewrite F1, F2, F3, F4, F5, F6, F7, F8, X1, X2, X3, X4, X5, X6, X7, X8.
  repeat split; try done.
  - exists (mkProc (p_kind pr) (p_bin pr) true). rewrite F10; [done|lia].
  - by rewrite <- app_assoc.
Qed.

(** The exit of the killed process, delivered while the guard is set. *)
Lemma guarded_exit p t w :
  intentionallyStopping w = false -> tunnelRestarting w = true ->
  (exists pr, procs w !! p = Some pr ∧ isTunnel pr = true) -> clock w <= t ->
  step t (TunnelExit p) w = Some (set_tunnelRestarting false (reap p (set_clock t w))).
Proof.
  intros Hs Hr (pr & Hpr & Hk) Hc.
  unfold step. destruct (t <? clock w) eqn:E; [lia|].
  change (procs (set_clock t w)) with (procs w). rewrite Hpr, Hk.
  unfold tunnelExit. simpl. by rewrite Hs, Hr.
Qed.

(** The restart by the health monitor while the tunnel process it watches
    is alive.  Monitor [m] watches a published URL served by the live tunnel
    process [p]; health is [healthy], no failure is counted, no deliberate
    stop is in progress.  Three checks in a row fail, each started by a
    tick at least 10 s after the previous one.  After the first, health is
    [checking] and the URL is still published; after the second the same,
    and [startTunnel] has not been entered; after the third, health is
    [down], the URL is cleared, the guard is set, the old process has been
    signalled, and [startTunnel] has been entered once.  When the exit of
    the old process is then delivered, the handler clears the guard and does
    nothing else: over the whole run [startTunnel] was entered exactly once,
    the empty URL was sent exactly once, and the only change to the timer
    table is the re-arming of the health interval itself, so no restart is
    scheduled. *)
Theorem three_failed_checks_restart_once
        (w : World) (m p : nat) (t1 a1 t2 a2 t3 a3 t4 : Z) :
  tunnelHealthStatus w = healthy ->
  monitoring m p 0 w ->
  healthArmed m t1 w ->
  t1 <= a1 -> a1 <= t2 -> t1 + 10000 <= t2 ->
  t2 <= a2 -> a2 <= t3 -> t2 + 10000 <= t3 ->
  t3 <= a3 -> a3 <= t4 ->
  let q := nextHandle w in
  exists w1 w2 w3 w4,
    run (failedCheck m q t1 a1) w = Some w1
    ∧ tunnelHealthStatus w1 = checking
    ∧ currentTunnelURL w1 = currentTunnelURL w
    ∧ run (failedCheck m (S q) t2 a2) w1 = Some w2
    ∧ tunnelHealthStatus w2 = checking
    ∧ currentTunnelURL w2 = currentTunnelURL w
    ∧ entered CallStartTunnel w2 = entered CallStartTunnel w
    ∧ run (failedCheck m (S (S q)) t3 a3) w2 = Some w3
    ∧ tunnelHealthStatus w3 = down
    ∧ currentTunnelURL w3 = ""
    ∧ tunnelRestarting w3 = true
    ∧ (exists pr, procs w3 !! p = Some pr ∧ p_signalled pr = true)
    ∧ entered CallStartTunnel w3 = S (entered CallStartTunnel w)
    ∧ step t4 (TunnelExit p) w3 = Some w4
    ∧ tunnelRestarting w4 = false
    ∧ tunnelHealthStatus w4 = down
    ∧ currentTunnelURL w4 = ""
    ∧ entered CallStartTunnel w4 = S (entered CallStartTunnel w)
    ∧ emitted "tunnel-url" (PText "") w4 = S (emitted "tunnel-url" (PText "") w)
    ∧ timers w4 = <[m := mkTimer HealthPoll (t3 + 10000) (Some 10000)]> (timers w).
Proof.
  intros Hh M Ha H1 H2 H3 H4 H5 H6 H7 H8 q. subst q.
  destruct (failed_check_early m p 0 t1 a1 w M Ha H1)
    as (w1 & R1 & M1 & C1 & N1 & T1 & S1 & U1 & G1 & K1 & E1); [lia|].
  assert (A1 : healthArmed m t2 w1).
  { split; [lia|]. exists (t1 + 10000). rewrite T1. split; [apply lookup_insert_eq|lia]. }
  destruct (failed_check_early m p 1 t2 a2 w1 M1 A1 H4)
    as (w2 & R2 & M2 & C2 & N2 & T2 & S2 & U2 & G2 & K2 & E2); [lia|].
  assert (A2 : healthArmed m t3 w2).
  { split; [lia|]. exists (t2 + 10000). rewrite T2. split; [apply lookup_insert_eq|lia]. }
  destruct (failed_check_third m p t3 a3 w2 M2 A2 H7)
    as (w3 & extra & R3 & S3 & U3 & G3 & I3 & C3 & (pr & P3 & Pk & Ps) & T3 & K3 & E3 & X3).
  assert (R4 := guarded_exit p t4 w3 I3 G3 (ex_intro _ pr (conj P3 Pk)) ltac:(lia)).
  exists w1, w2, w3, (set_tunnelRestarting false (reap p (set_clock t4 w3))).
  rewrite N1 in R2. rewrite N2, N1 in R3.
  simpl in S1, S2, E1, E2. rewrite app_nil_r in E2.
  assert (Hc3 : entered CallStartTunnel w3 = S (entered CallStartTunnel w)).
  { unfold entered. rewrite K3, K2, K1, List.filter_app, length_app. simpl. lia. }
  assert (He3 : emitted "tunnel-url" (PText "") w3 = S (emitted "tunnel-url" (PText "") w)).
  { unfold emitted. rewrite E3, E2, E1. rewrite !List.filter_app, !length_app.
    assert (List.filter (sameSent (mkSent "tunnel-url" (PText ""))) extra = []) as ->.
    { clear -X3. induction X3 as [|s l Hs _ IH]; [done|]. simpl.
      unfold sameSent at 1. rewrite Hs. simpl. exact IH. }
    simpl. lia. }
  rewrite S1 in S2. rewrite U1 in U2.
  assert (Hc2 : entered CallStartTunnel w2 = entered CallStartTunnel w).
  { unfold entered. by rewrite K2, K1. }
  assert (Ht4 : timers w3 = <[m := mkTimer HealthPoll (t3 + 10000) (Some 10000)]> (timers w)).
  { by rewrite T3, T2, T1, !insert_insert_eq. }
  repeat split; try done.
  by exists pr.
Qed.

Lemma three_failed_checks_restart_once_witness :
  exists w3 w4,
    tunnelHealthStatus w3 = down
    ∧ step 32700 (TunnelExit 1%nat) w3 = Some w4
    ∧ tunnelRestarting w4 = false
    ∧ entered CallStartTunnel w4 = S (entered CallStartTunnel Demo.published).
Proof.
  assert (M : monitoring 6 1 0 Demo.published).
  { split; [vm_compute; discriminate|]. split; [vm_compute; reflexivity|].
    split; [vm_compute; reflexivity|]. split.
    - eexists. split; vm_compute; reflexivity.
    - split; [vm_compute; lia|vm_compute; reflexivity]. }
  assert (A : healthArmed 6 12500 Demo.published).
  { split; [vm_compute; discriminate|].
    eexists. split; [vm_compute; reflexivity|vm_compute; discriminate]. }
  assert (H : tunnelHealthStatus Demo.published = healthy) by (vm_compute; reflexivity).
  destruct (three_failed_checks_restart_once Demo.published 6 1
              12500 12600 22500 22600 32500 32600 32700 H M A
              ltac:(lia) ltac:(lia) ltac:(lia) ltac:(lia) ltac:(lia) ltac:(lia)
              ltac:(lia) ltac:(lia))
    as (w1 & w2 & w3 & w4 & R).
  exists w3, w4. tauto.
Defined.

(** C2.  The published URL of a tunnel process that has already exited.
    In [Demo.world] the tunnel prints a rate-limit notice and then its URL,
    and exits before the hostname resolves; the resolution succeeds
    afterwards, so health is [healthy] with a published URL while the
    process that [cloudflaredProc] names is gone and the restart armed by
    its exit is pending.  Three checks in a row then fail: health goes to
    [checking] after the first and to [down] after the third, the URL is
    cleared once and [startTunnel] is entered once, as in the regular
    case.  But the signal goes to a process that has exited, so no exit
    event follows and the guard stays set; and when the pending restart
    fires, [startTunnel] is entered a second time: two tunnel processes
    are alive and [tunnelRestarting] is still set. *)
Theorem stale_url_restarts_tunnel_twice :
  exists wh w1 w3 w4,
    run earlyExit Demo.world = Some wh
    ∧ tunnelHealthStatus wh = healthy
    ∧ currentTunnelURL wh = "https://quick-fox-42.trycloudflare.com"
    ∧ cloudflaredProc wh = Some 1%nat ∧ procs wh !! 1%nat = None
    ∧ timers wh !! 6%nat = Some (mkTimer RestartTunnel 62200 None)
    ∧ run (failedCheck 7 8 12500 12600) wh = Some w1
    ∧ tunnelHealthStatus w1 = checking
    ∧ run threeFailures wh = Some w3
    ∧ tunnelHealthStatus w3 = down
    ∧ currentTunnelURL w3 = ""
    ∧ emitted "tunnel-url" (PText "") w3 = S (emitted "tunnel-url" (PText "") wh)
    ∧ entered CallStartTunnel w3 = S (entered CallStartTunnel wh)
    ∧ tunnelRestarting w3 = true
    ∧ step 62200 (TimerFires 6%nat) w3 = Some w4
    ∧ entered CallStartTunnel w4 = S (S (entered CallStartTunnel wh))
    ∧ tunnelRestarting w4 = true
    ∧ (isTunnel <$> procs w4 !! 11%nat) = Some true
    ∧ (isTunnel <$> procs w4 !! 12%nat) = Some true
    ∧ (p_signalled <$> procs w4 !! 11%nat) = Some false
    ∧ (p_signalled <$> procs w4 !! 12%nat) = Some false.
Proof.
  eexists _, _, _, _.
  repeat (split; [vm_compute; reflexivity|]). vm_compute. reflexivity.
Qed.

(** ** The DNS poll *)

Lemma dns_answers q poll err a w :
  dnsQueries w !! q = Some poll -> clock w <= a ->
  step a (DnsAnswers q err) w = Some (dnsCallback poll err (resolved q (set_clock a w))).
Proof.
  intros Hq Hc. unfold step. destruct (a <? clock w) eqn:E; [lia|].
  change (dnsQueries (set_clock a w)) with (dnsQueries w). by rewrite Hq.
Qed.

Lemma retry_fires h poll due f w :
  timers w !! h = Some (mkTimer (WaitForDns poll) due None) -> clock w <= f -> due <= f ->
  step f (TimerFires h) w = Some (waitForDns poll (clearTimer h (set_clock f w))).
Proof.
  intros Ht Hc Hd. unfold step. destruct (f <? clock w) eqn:E; [lia|].
  change (timers (set_clock f w)) with (timers w). rewrite Ht.
  cbv beta iota zeta. change (t_due _) with due.
  destruct (f <? due) eqn:E'; [lia|]. reflexivity.
Qed.

(** One failed resolution and the retry it arms: the world in which
    [waitForDns] is entered again. *)
Lemma failed_resolution poll q pid p a f w :
  polling poll q pid p w -> clock w <= a -> a + 1000 <= f ->
  run [(a, DnsAnswers q true); (f, TimerFires (S q))] w
  = Some (waitForDns poll
            (clearTimer (S q)
               (set_clock f
                  (arm (WaitForDns poll) 1000 None (resolved q (set_clock a w)))))).
Proof.
  intros (Hp & Hq & Hn & Hs & Hc & Hpr) Ha Hf. unfold run.
  rewrite (dns_answers q poll true a w Hq Ha).
  unfold dnsCallback at 1.
  change (dnsPolls (resolved q (set_clock a w))) with (dnsPolls w). rewrite Hp.
  cbv beta iota zeta. unfold setTimeout. cbv beta iota zeta delta [snd].
  rewrite (retry_fires (S q) poll (a + 1000) f); [done| |simpl; lia|lia].
  unfold arm. simpl. rewrite Hn. apply lookup_insert_eq.
Qed.

(** Entering [waitForDns] within the ceiling asks again; entering it later
    signals the tunnel process. *)
Lemma waitForDns_asks poll p w :
  dnsPolls w !! poll = Some p -> intentionallyStopping w = false ->
  clock w - dnsStart p <= 30000 ->
  waitForDns poll w = resolve4 poll w.
Proof.
  intros Hp Hs Hc. unfold waitForDns. rewrite Hp, Hs.
  destruct (clock w - dnsStart p >? 30000) eqn:E; [lia|done].
Qed.

Lemma waitForDns_gives_up poll p w :
  dnsPolls w !! poll = Some p -> intentionallyStopping w = false ->
  30000 < clock w - dnsStart p ->
  waitForDns poll w = kill (cloudflaredProc w) w.
Proof.
  intros Hp Hs Hc. unfold waitForDns. rewrite Hp, Hs.
  destruct (clock w - dnsStart p >? 30000) eqn:E; [done|lia].
Qed.

Lemma waitForDns_stopping poll w :
  intentionallyStopping w = true -> waitForDns poll w = w.
Proof. intros Hs. unfold waitForDns. rewrite Hs. by case_match. Qed.

(** A poll in which every resolution fails ends by signalling the tunnel
    process; it publishes nothing and leaves nothing of itself pending. *)
Lemma failing_poll_gives_up poll pid p rounds : forall q w,
  polling poll q pid p w ->
  givesUp (dnsStart p) (clock w) rounds ->
  exists w',
    run (failingPoll q rounds) w = Some w'
    ∧ (exists pr, procs w' !! pid = Some pr ∧ p_signalled pr = true)
    ∧ currentTunnelURL w' = currentTunnelURL w
    ∧ sent w' = sent w
    ∧ tunnelHealthInterval w' = tunnelHealthInterval w
    ∧ nothingNewPending poll q w w'.
Proof.
  induction rounds as [|[a f] rest IH]; intros q w P G; [done|].
  destruct G as (Ha & Hf & G).
  pose proof P as (Hp & Hq & Hn & Hs & Hc & (pr & Hpr)).
  change (failingPoll q ((a, f) :: rest))
    with ([(a, DnsAnswers q true); (f, TimerFires (S q))] ++ failingPoll (S (S q)) rest).
  set (w0 := clearTimer (S q)
               (set_clock f (arm (WaitForDns poll) 1000 None (resolved q (set_clock a w))))).
  assert (R : run [(a, DnsAnswers q true); (f, TimerFires (S q))] w
              = Some (waitForDns poll w0)).
  { by rewrite (failed_resolution poll q pid p a f w P Ha Hf). }
  assert (T0 : forall h t, timers w0 !! h = Some t -> timers w !! h = Some t).
  { intros h t. subst w0. unfold clearTimer, arm. simpl. rewrite Hn. intros Hl.
    destruct (decide (S q = h)) as [<-|Hne].
    - by rewrite lookup_delete_eq in Hl.
    - by rewrite lookup_delete_ne, lookup_insert_ne in Hl. }
  destruct rest as [|r rest].
  - (* the last round: over the ceiling *)
    simpl failingPoll. rewrite app_nil_r, R.
    rewrite (waitForDns_gives_up poll p w0); [|done|done|simpl; lia].
    change (cloudflaredProc w0) with (cloudflaredProc w). rewrite Hc.
    eexists. split; [reflexivity|]. split; [|split; [done|split; [done|split; [done|]]]].
    + exists (mkProc (p_kind pr) (p_bin pr) true). split; [|done].
      simpl. by rewrite lookup_alter_eq, Hpr.
    + split.
      * intros q'. simpl. intros Hl.
        destruct (decide (q = q')) as [<-|Hne].
        -- by rewrite lookup_delete_eq in Hl.
        -- by rewrite lookup_delete_ne in Hl.
      * intros h t Hl _. apply T0. exact Hl.
  - (* a round within the ceiling: the poll asks again *)
    destruct G as (Hle & G).
    assert (P1 : polling poll (S (S q)) pid p (waitForDns poll w0)).
    { rewrite (waitForDns_asks poll p w0); [|done|done|simpl; lia].
      unfold polling, resolve4. simpl. rewrite Hn.
      repeat split; try done.
      - apply lookup_insert_eq.
      - by exists pr. }
    assert (C1 : clock (waitForDns poll w0) = f).
    { by rewrite (waitForDns_asks poll p w0); [|done|done|simpl; lia]. }
    rewrite <- C1 in G.
    destruct (IH (S (S q)) _ P1 G) as (w' & R' & K & U & E & I & (N1 & N2)).
    exists w'.
    assert (Rall : run ([(a, DnsAnswers q true); (f, TimerFires (S q))]
                          ++ failingPoll (S (S q)) (r :: rest)) w = Some w').
    { revert R R'. generalize (failingPoll (S (S q)) (r :: rest)).
      intros l R R'. simpl in *.
      destruct (step a (DnsAnswers q true) w) as [wa|]; [|done].
      destruct (step f (TimerFires (S q)) wa) as [wf|]; [|done].
      by simplify_eq. }
    rewrite (waitForDns_asks poll p w0) in U, E, I, N1, N2 by (try done; simpl; lia).
    split; [exact Rall|]. split; [exact K|]. split; [exact U|].
    split; [exact E|]. split; [exact I|]. split.
    + intros q' Hl. destruct (N1 q' Hl) as [Hne Hl'].
      unfold resolve4 in Hl'. simpl in Hl'. rewrite Hn in Hl'.
      rewrite lookup_insert_ne in Hl' by done.
      destruct (decide (q = q')) as [<-|Hne'].
      * by rewrite lookup_delete_eq in Hl'.
      * by rewrite lookup_delete_ne in Hl'.
    + intros h t Hl Hk. apply T0. exact (N2 h t Hl Hk).
Qed.

Lemma givesUp_bounded start rounds : forall now,
  givesUp start now rounds ->
  1000 * (Z.of_nat (length rounds) - 1) <= Z.max 0 (30000 - (now - start)).
Proof.
  induction rounds as [|[a f] rest IH]; intros now G; [done|].
  destruct G as (Ha & Hf & G). destruct rest as [|r rest].
  - simpl. lia.
  - destruct G as (Hle & G). specialize (IH f G).
    change (length ((a, f) :: r :: rest)) with (S (length (r :: rest))). lia.
Qed.

(** [onData] on the first chunk that carries a tunnel URL. *)
Lemma onData_finds_url pid cl text label w :
  tunnelClosures w !! pid = Some cl -> urlFound cl = false ->
  includes "429" text || includes "Too Many Requests" text = false ->
  matchTunnelLabel text = Some label ->
  onData pid text w
  = waitForDns (nextHandle w)
      (newPoll (pollFor label (clock w))
         (closure pid (mkTunnelClosure true (rateLimited cl)) w)).
Proof.
  intros Hc Hu Hr Hm. unfold onData. by rewrite Hc, Hu, Hr, Hm.
Qed.

Lemma monitor_started w :
  currentTunnelURL (startTunnelHealthMonitor w) = currentTunnelURL w
  ∧ sent (startTunnelHealthMonitor w)
    = sent w ++ [mkSent "tunnel-health" (PHealth healthy)]
  ∧ tunnelHealthInterval (startTunnelHealthMonitor w) = Some (nextHandle w).
Proof. unfold startTunnelHealthMonitor. by destruct (tunnelHealthInterval w). Qed.

(** C5, as the code has it.  When [onData] finds a tunnel URL it only
    records the poll: the published URL, the events sent and the health
    monitor are as before.  If no deliberate stop is in progress a
    resolution of the hostname is under way; if one is, the poll does
    nothing at all: no resolution, no timer, no signal to the process.
    The URL is published, emitted and the health monitor started by the
    callback of a resolution that succeeds, whenever that callback runs; a
    failed resolution arms a retry 1 s later and changes nothing else.  The
    30 s ceiling is checked when a retry is about to resolve: if every
    resolution fails, the first retry later than 30 s after the URL was
    found signals the tunnel process instead, within at most 31 rounds, with
    nothing published, nothing emitted, no monitor started and nothing of
    the poll left pending. *)
Theorem url_published_after_dns_resolves
        (w : World) (pid : nat) (cl : TunnelClosure) (text label : string) :
  tunnelClosures w !! pid = Some cl -> urlFound cl = false ->
  includes "429" text || includes "Too Many Requests" text = false ->
  matchTunnelLabel text = Some label ->
  let poll := nextHandle w in
  let p := pollFor label (clock w) in
  let w1 := onData pid text w in
  (currentTunnelURL w1 = currentTunnelURL w
   ∧ sent w1 = sent w
   ∧ tunnelHealthInterval w1 = tunnelHealthInterval w
   ∧ dnsPolls w1 !! poll = Some p)
  ∧ (intentionallyStopping w = false ->
     dnsQueries w1 !! S poll = Some poll ∧ nextHandle w1 = S (S poll))
  ∧ (intentionallyStopping w = true ->
     dnsQueries w1 = dnsQueries w ∧ timers w1 = timers w ∧ procs w1 = procs w)
  ∧ (forall w2,
        dnsPolls w2 !! poll = Some p ->
        let ok := dnsCallback poll false w2 in
        let failed := dnsCallback poll true w2 in
        currentTunnelURL ok = tunnelUrl p
        ∧ sent ok = sent w2 ++ PUBLISHED (tunnelUrl p)
        ∧ tunnelHealthInterval ok = Some (nextHandle w2)
        ∧ timers failed !! nextHandle w2
          = Some (mkTimer (WaitForDns poll) (clock w2 + 1000) None)
        ∧ currentTunnelURL failed = currentTunnelURL w2
        ∧ sent failed = sent w2
        ∧ tunnelHealthInterval failed = tunnelHealthInterval w2)
  ∧ (intentionallyStopping w = false ->
     cloudflaredProc w = Some pid ->
     (exists pr, procs w !! pid = Some pr) ->
     forall rounds,
       givesUp (clock w) (clock w) rounds ->
       exists w',
         run (failingPoll (S poll) rounds) w1 = Some w'
         ∧ (length rounds <= 31)%nat
         ∧ (exists pr, procs w' !! pid = Some pr ∧ p_signalled pr = true)
         ∧ currentTunnelURL w' = currentTunnelURL w
         ∧ sent w' = sent w
         ∧ tunnelHealthInterval w' = tunnelHealthInterval w
         ∧ nothingNewPending poll (S poll) w1 w').
Proof.
  intros Hc Hu Hr Hm poll p w1. subst w1.
  rewrite (onData_finds_url pid cl text label w Hc Hu Hr Hm).
  fold poll. fold p.
  set (w0 := newPoll p (closure pid (mkTunnelClosure true (rateLimited cl)) w)).
  assert (P0 : dnsPolls w0 !! poll = Some p).
  { subst w0 poll. unfold newPoll. simpl. apply lookup_insert_eq. }
  assert (Ask : intentionallyStopping w = false -> waitForDns poll w0 = resolve4 poll w0).
  { intros Hs. apply (waitForDns_asks poll p w0 P0 Hs). subst w0 p. simpl. lia. }
  assert (Stop : intentionallyStopping w = true -> waitForDns poll w0 = w0).
  { intros Hs. by apply waitForDns_stopping. }
  split; [|split; [|split; [|split]]].
  - destruct (intentionallyStopping w) eqn:Hs.
    + by rewrite Stop.
    + rewrite Ask by done. repeat split; try done.
  - intros Hs. rewrite Ask by done. split; [|done].
    unfold resolve4. simpl. apply lookup_insert_eq.
  - intros Hs. by rewrite Stop.
  - intros w2 P2. cbv zeta. unfold dnsCallback. rewrite P2.
    cbv beta iota zeta. unfold setTimeout. cbv beta iota zeta delta [snd].
    match goal with |- context [startTunnelHealthMonitor ?x] =>
      destruct (monitor_started x) as (M1 & M2 & M3) end.
    rewrite M1, M2, M3. unfold PUBLISHED.
    split; [done|]. split; [simpl; by rewrite <- app_assoc|]. split; [done|].
    split; [unfold arm; simpl; apply lookup_insert_eq|]. done.
  - intros Hs Hp Hpr rounds G.
    assert (P1 : polling poll (S poll) pid p (waitForDns poll w0)).
    { rewrite Ask by done. unfold polling, resolve4. simpl.
      repeat split; try done. apply lookup_insert_eq. }
    assert (C1 : clock (waitForDns poll w0) = clock w) by (by rewrite Ask).
    assert (G' : givesUp (dnsStart p) (clock (waitForDns poll w0)) rounds)
      by (by rewrite C1).
    destruct (failing_poll_gives_up poll pid p rounds (S poll) _ P1 G')
      as (w' & R & K & U & E & I & N).
    exists w'. split; [exact R|]. split.
    { pose proof (givesUp_bounded _ _ _ G). lia. }
    rewrite Ask in U, E, I by done.
    split; [exact K|]. split; [exact U|]. split; [exact E|]. split; [exact I|exact N].
Qed.

Lemma url_published_after_dns_resolves_witness :
  exists w',
    run (failingPoll 5 [(4000, 31000); (31500, 32500)]) (onData 1 Demo.banner Demo.world)
    = Some w'
    ∧ (exists pr, procs w' !! 1%nat = Some pr ∧ p_signalled pr = true)
    ∧ currentTunnelURL w' = "".
Proof.
  destruct (url_published_after_dns_resolves Demo.world 1 (mkTunnelClosure false false)
              Demo.banner "quick-fox-42" eq_refl eq_refl eq_refl eq_refl)
    as (_ & _ & _ & _ & H).
  destruct (H eq_refl eq_refl (ex_intro _ _ eq_refl) [(4000, 31000); (31500, 32500)])
    as (w' & R & _ & K & U & _).
  { vm_compute. repeat split; discriminate. }
  exists w'. split; [exact R|]. split; [exact K|exact U].
Defined.

(** C5 as stated fails, twice.  While a deliberate stop is in progress
    (here the operator stopped the gateway at 1500) the URL the tunnel
    prints at 2000 starts no resolution: 38 s later no query is in flight,
    no retry is armed, the tunnel process has not been signalled and the URL
    is not published.  And with no stop in progress, a resolution that
    starts within the ceiling, 29.58 s after the URL was found, and succeeds
    32.58 s after it, publishes the URL although none succeeded within
    30 s; the process is not signalled. *)
Lemma dns_ceiling_not_enforced :
  (exists w,
      run Demo.stoppedThenUrl Demo.world = Some w
      ∧ clock w - 2000 > 30000
      ∧ (dnsStart <$> dnsPolls w !! 4%nat) = Some 2000
      ∧ dnsQueries w = ∅
      ∧ map (fun ht => t_kind (snd ht)) (map_to_list (timers w))
        = [GatewaySettle 4096 "s3cret"]
      ∧ (p_signalled <$> procs w !! 1%nat) = Some false
      ∧ currentTunnelURL w = "")
  ∧ (exists w,
        run Demo.lateSuccess Demo.world = Some w
        ∧ (dnsStart <$> dnsPolls w !! 4%nat) = Some 2000
        ∧ clock w - 2000 > 30000
        ∧ currentTunnelURL w = "https://quick-fox-42.trycloudflare.com"
        ∧ (p_signalled <$> procs w !! 1%nat) = Some false).
Proof.
  split.
  - eexists. split; [vm_compute; reflexivity|].
    repeat split; vm_compute; reflexivity.
  - eexists. split; [vm_compute; reflexivity|].
    repeat split; vm_compute; reflexivity.
Qed.

(** ** Gateway restart for a configuration change *)

Lemma startServer_not_stopping w : intentionallyStopping (startServer w) = false.
Proof. unfold startServer. branches. Qed.

Lemma gatewayExit_resets code w :
  intentionallyStopping w = false ->
  presence (gatewayExit code w) = (false, false, 0, None).
Proof.
  intros Hs. unfold gatewayExit, presence, stopClientPresenceMonitor. rewrite Hs.
  destruct (is_zero code); cbv beta iota zeta delta [negb];
    case_match; simpl in *; congruence.
Qed.

(** C6, evaluated on the code.  A client is connected; its authorised
    [POST /global/ai-config] restarts the gateway with [stopServer(false)].
    At the end of that turn presence is as before, the old gateway process
    has been signalled, and [startServer] has already set
    [intentionallyStopping] back to [false].  So when the exit event of the
    old process is delivered, its handler takes the unexpected-exit branch:
    presence is reset, the presence poll is stopped, and [status error],
    an [error] and [client-disconnected] are sent.  This holds in general:
    [startServer] always leaves the flag [false], and an exit delivered
    while the flag is [false] resets presence. *)
Theorem config_restart_loses_presence :
  (exists w2 w3,
      run Demo.reconfigure Demo.world = Some w2
      ∧ presence w2 = (true, false, 2000, Some 4%nat)
      ∧ calls w2 = [CallStartTunnel; CallStartServer; CallStopServer false; CallStartServer]
      ∧ (p_signalled <$> procs w2 !! 2%nat) = Some true
      ∧ gatewayProc w2 = Some 5%nat
      ∧ intentionallyStopping w2 = false
      ∧ step (fst Demo.oldGatewayExits) (snd Demo.oldGatewayExits) w2 = Some w3
      ∧ presence w3 = (false, false, 0, None)
      ∧ timers w3 !! 4%nat = None
      ∧ drop (length (sent w2)) (sent w3)
        = [mkSent "status" (PText "error");
           mkSent "error" (PText "openclaw exited with code null");
           DISCONNECTED])
  ∧ (forall w, intentionallyStopping (startServer w) = false)
  ∧ (forall code w, intentionallyStopping w = false ->
                    presence (gatewayExit code w) = (false, false, 0, None)).
Proof.
  split; [|split].
  - eexists _, _. split; [vm_compute; reflexivity|].
    repeat split; vm_compute; reflexivity.
  - apply startServer_not_stopping.
  - apply gatewayExit_resets.
Qed.

(** * Further properties of the code *)

(** ** Computing with worlds *)

(** Decide the branches of the goal, computing in the hypotheses met on
    the way. *)
Ltac wcases := repeat (case_match; simpl in *; simplify_eq).

(** Compute a world that is built from a constructor by setters and
    runtime primitives, leaving the finite maps alone. *)
Ltac wcbv :=
  cbv beta iota zeta delta
    [gatewayProc cloudflaredProc setupHttpServer proxyServer intentionallyStopping
     tunnelRestarting currentTunnelURL tunnelHealthInterval tunnelHealthStatus
     lastClientHeartbeat clientPresenceInterval clientConnectedState clientAwayState
     caffeinateProc clock nextHandle timers procs tunnelClosures monitorFailCount
     probes dnsPolls dnsQueries dialogs sent calls configFile openclawFile binaries
     entropy entropyUsed
     set_gatewayProc set_cloudflaredProc set_setupHttpServer set_proxyServer
     set_intentionallyStopping set_tunnelRestarting set_currentTunnelURL
     set_tunnelHealthInterval set_tunnelHealthStatus set_lastClientHeartbeat
     set_clientPresenceInterval set_clientConnectedState set_clientAwayState
     set_caffeinateProc set_clock set_nextHandle set_timers set_procs
     set_tunnelClosures set_monitorFailCount set_probes set_dnsPolls set_dnsQueries
     set_dialogs set_sent set_calls set_configFile set_openclawFile set_binaries
     set_entropy set_entropyUsed
     send enter fresh arm setTimeout setInterval rearm clearTimer launch spawn reap
     kill probe resolve4 newPoll closure setFailCount openDialog answered resolved
     closed saveConfig setTunnelHealth closeGatewayWs connectGatewayWs
     stopClientPresenceMonitor stopSetupServer stopProxyServer stopAll
     signalled cleared ROSTER STOPPED URL_CLEARED DISCONNECTED RATE_LIMITED fst snd].

(** ** Binary discovery *)

Lemma existsb_eqb_elem (x : string) (l : list string) :
  existsb (String.eqb x) l = true <-> x ∈ l.
Proof.
  rewrite existsb_exists. split.
  - intros (y & Hy & E). apply String.eqb_eq in E. subst. by apply list_elem_of_In.
  - intros H. exists x. split; [by apply list_elem_of_In|apply String.eqb_refl].
Qed.

(** Adding the elements of [l] to a [Set] that holds [acc]. *)
Lemma setOf_from l : forall acc,
  NoDup acc ->
  let r := fold_left (fun acc x => if existsb (String.eqb x) acc then acc else acc ++ [x])
                     l acc in
  NoDup r ∧ (exists rest, r = acc ++ rest) ∧ (forall x, x ∈ r <-> x ∈ acc ∨ x ∈ l).
Proof.
  induction l as [|y l IH]; intros acc N; simpl.
  - split; [done|]. split; [exists []; by rewrite app_nil_r|].
    intros x. rewrite elem_of_nil. tauto.
  - destruct (existsb (String.eqb y) acc) eqn:E.
    + apply existsb_eqb_elem in E.
      destruct (IH acc N) as (N' & P & M). split; [done|]. split; [done|].
      intros x. rewrite M, elem_of_cons. split; [tauto|].
      intros [H|[->|H]]; tauto.
    + assert (Hy : y ∉ acc).
      { intros H. apply existsb_eqb_elem in H. congruence. }
      destruct (IH (acc ++ [y])) as (N' & (rest & P) & M).
      { apply NoDup_app. split; [done|]. split; [|apply NoDup_singleton].
        intros x Hx Hx'. apply list_elem_of_singleton in Hx'. by subst. }
      split; [done|]. split; [exists (y :: rest); by rewrite P, <- app_assoc|].
      intros x. rewrite M, elem_of_app, list_elem_of_singleton, elem_of_cons. tauto.
Qed.

Lemma split_pieces sep s :
  Discovery.split sep s ≠ []
  ∧ Forall (fun p => hasChar sep p = false) (Discovery.split sep s)
  ∧ String.concat (String sep "") (Discovery.split sep s) = s.
Proof.
  induction s as [|c r (N & F & J)]; simpl.
  - split; [done|]. split; [|done]. by repeat constructor.
  - destruct (Ascii.eqb c sep) eqn:E.
    + apply Ascii.eqb_eq in E. subst c. split; [done|]. split.
      * by constructor.
      * simpl. destruct (Discovery.split sep r) eqn:S; [done|]. simpl in *. by rewrite J.
    + destruct (Discovery.split sep r) as [|piece rest] eqn:S; [done|].
      split; [done|]. apply Forall_cons in F as [F1 F2]. split.
      * constructor; [|done]. simpl. by rewrite E.
      * simpl in *. destruct rest; simpl in *; by rewrite <- J.
Qed.

Lemma split_piece sep x :
  hasChar sep x = false -> Discovery.split sep x = [x].
Proof.
  induction x as [|c x IH]; simpl; [done|]. intros F.
  apply orb_false_elim in F as [E F]. by rewrite E, IH.
Qed.

Lemma split_first sep x rest :
  hasChar sep x = false ->
  Discovery.split sep (x +:+ String sep rest) = x :: Discovery.split sep rest.
Proof.
  induction x as [|c x IH]; simpl; intros F.
  - by rewrite Ascii.eqb_refl.
  - apply orb_false_elim in F as [E F]. by rewrite E, IH.
Qed.

(** Splitting what [join] made gives the list back, when the list is not
    empty and no element holds the separator. *)
Lemma split_concat sep l :
  l ≠ [] -> Forall (fun p => hasChar sep p = false) l ->
  Discovery.split sep (String.concat (String sep "") l) = l.
Proof.
  induction l as [|x l IH]; [done|]. intros _ F.
  apply Forall_cons in F as [Fx Fl].
  destruct l as [|y l].
  - by apply split_piece.
  - change (String.concat (String sep "") (x :: y :: l))
      with (x +:+ String sep (String.concat (String sep "") (y :: l))).
    rewrite split_first by done. by rewrite IH.
Qed.

Lemma resolveShellPath_dirs h :
  Forall (fun d => d ≠ "" ∧ hasChar ":" d = false) (Discovery.resolveShellPath h).
Proof.
  unfold Discovery.resolveShellPath.
  destruct (Discovery.execSync h _) as [out|]; [|constructor].
  destruct (split_pieces ":" (Discovery.trim out)) as (_ & F & _).
  induction F as [|p l Hp F IH]; simpl; [constructor|].
  unfold Discovery.nonEmpty at 1. destruct (String.eqb_spec p ""); simpl; [done|].
  by constructor.
Qed.

Lemma SEARCH_PATHS_unfold h :
  Discovery.SEARCH_PATHS h
  = fold_left (fun acc x => if existsb (String.eqb x) acc then acc else acc ++ [x])
              (Discovery.resolveShellPath h) Discovery.FALLBACK_PATHS.
Proof. unfold Discovery.SEARCH_PATHS, Discovery.setOf. by rewrite fold_left_app. Qed.

Lemma FALLBACK_PATHS_NoDup : NoDup Discovery.FALLBACK_PATHS.
Proof. apply (bool_decide_unpack _). by vm_compute. Qed.

Lemma SEARCH_PATHS_set h :
  NoDup (Discovery.SEARCH_PATHS h)
  ∧ (exists rest, Discovery.SEARCH_PATHS h = Discovery.FALLBACK_PATHS ++ rest)
  ∧ (forall d, d ∈ Discovery.SEARCH_PATHS h
               <-> d ∈ Discovery.FALLBACK_PATHS ∨ d ∈ Discovery.resolveShellPath h).
Proof.
  rewrite SEARCH_PATHS_unfold.
  apply (setOf_from (Discovery.resolveShellPath h) Discovery.FALLBACK_PATHS
           FALLBACK_PATHS_NoDup).
Qed.

Lemma SEARCH_PATHS_dirs h :
  Forall (fun d => d ≠ "" ∧ hasChar ":" d = false) (Discovery.SEARCH_PATHS h).
Proof.
  destruct (SEARCH_PATHS_set h) as (_ & _ & M).
  apply Forall_forall. intros d Hd. apply M in Hd as [Hd|Hd].
  - unfold Discovery.FALLBACK_PATHS in Hd.
    repeat (apply elem_of_cons in Hd as [->|Hd]; [by split|]).
    by apply elem_of_nil in Hd.
  - by apply (proj1 (Forall_forall _ _) (resolveShellPath_dirs h)).
Qed.

Lemma filter_comm (p q : string -> bool) l :
  List.filter p (List.filter q l) = List.filter q (List.filter p l).
Proof.
  induction l as [|x l IH]; simpl; [done|].
  destruct (p x) eqn:P, (q x) eqn:Q; simpl; rewrite ?P, ?Q, ?IH; done.
Qed.

Lemma filter_sublist (p : string -> bool) l : sublist (List.filter p l) l.
Proof.
  induction l as [|x l IH]; simpl; [constructor|].
  destruct (p x); by constructor.
Qed.

Lemma filter_other (p : string -> bool) x l :
  p x = false ->
  List.filter p (List.filter (fun y => negb (String.eqb y x)) l) = List.filter p l.
Proof.
  intros P. induction l as [|y l IH]; simpl; [done|].
  destruct (String.eqb_spec y x) as [->|N]; simpl.
  - by rewrite P.
  - by rewrite IH.
Qed.

Lemma firstOccurrences_filter (p : string -> bool) l :
  Discovery.firstOccurrences (List.filter p l)
  = List.filter p (Discovery.firstOccurrences l).
Proof.
  induction l as [|x l IH]; simpl; [done|]. destruct (p x) eqn:P; simpl; rewrite ?P.
  - by rewrite IH, filter_comm.
  - by rewrite IH, filter_other.
Qed.

Lemma firstOccurrences_sublist l : sublist (Discovery.firstOccurrences l) l.
Proof.
  induction l as [|x l IH]; simpl; [constructor|].
  constructor. etrans; [apply filter_sublist|exact IH].
Qed.

(** The first occurrence in [l] of an element listed earlier comes before
    every occurrence of an element listed later. *)
Lemma firstOccurrences_order l : forall pre d1 mid d2 post,
  Discovery.firstOccurrences l = pre ++ (d1 :: (mid ++ (d2 :: post))) ->
  exists a b, l = a ++ (d1 :: b) ∧ (d1 ∉ a) ∧ (d2 ∉ a).
Proof.
  induction l as [|x l IH]; intros pre d1 mid d2 post E; simpl in E.
  - by destruct pre.
  - destruct pre as [|y pre]; simpl in E.
    + injection E as -> _. exists [], l. split; [done|]. split; apply not_elem_of_nil.
    + injection E as -> E.
      assert (M : forall d, d ∈ pre ++ (d1 :: (mid ++ (d2 :: post))) -> d ≠ y).
      { intros d Hd. rewrite <- E in Hd. apply list_elem_of_In, filter_In in Hd as [_ Hd].
        apply negb_true_iff, String.eqb_neq in Hd. exact Hd. }
      assert (N1 : d1 ≠ y) by (apply M; rewrite elem_of_app, elem_of_cons; tauto).
      assert (N2 : d2 ≠ y).
      { apply M. rewrite elem_of_app, elem_of_cons, elem_of_app, elem_of_cons. tauto. }
      clear M. revert E.
      generalize (Discovery.firstOccurrences l), IH. intros m IHm E.
      (* the elements other than [y] of [m] keep their order in [m] *)
      assert (X : exists pre' mid' post', m = pre' ++ d1 :: mid' ++ d2 :: post').
      { clear IHm. revert pre E. induction m as [|z m IHz]; intros pre E; simpl in E.
        - by destruct pre.
        - destruct (String.eqb_spec z y) as [->|Nz]; simpl in E.
          + destruct (IHz pre E) as (p' & m' & q' & ->). by exists (y :: p'), m', q'.
          + destruct pre as [|u pre]; simpl in E.
            * injection E as -> E. clear IHz.
              assert (Y : exists mid' post', m = mid' ++ d2 :: post').
              { revert mid E. induction m as [|v m IHv]; intros mid E; simpl in E.
                - by destruct mid.
                - destruct (String.eqb_spec v y) as [->|Nv]; simpl in E.
                  + destruct (IHv mid E) as (m' & q' & ->). by exists (y :: m'), q'.
                  + destruct mid as [|u mid]; simpl in E.
                    * injection E as -> _. by exists [], m.
                    * injection E as -> E. destruct (IHv mid E) as (m' & q' & ->).
                      by exists (u :: m'), q'. }
              destruct Y as (m' & q' & ->). by exists [], m', q'.
            * injection E as -> E. destruct (IHz pre E) as (p' & m' & q' & ->).
              by exists (u :: p'), m', q'. }
      destruct X as (pre' & mid' & post' & ->).
      destruct (IHm pre' d1 mid' d2 post' eq_refl) as (a & b & -> & A1 & A2).
      exists (y :: a), b. split; [done|].
      split; apply not_elem_of_cons; by split.
Qed.

Lemma setOf_firstOccurrences l : forall acc,
  fold_left (fun acc x => if existsb (String.eqb x) acc then acc else acc ++ [x]) l acc
  = acc ++ Discovery.firstOccurrences
             (List.filter (fun x => negb (existsb (String.eqb x) acc)) l).
Proof.
  induction l as [|x l IH]; intros acc; simpl; [by rewrite app_nil_r|].
  destruct (existsb (String.eqb x) acc) eqn:E; simpl; [apply IH|].
  rewrite IH, <- app_assoc. simpl. do 2 f_equal.
  rewrite <- firstOccurrences_filter. f_equal.
  clear IH E. induction l as [|y l IH]; simpl; [done|].
  rewrite existsb_app. simpl. rewrite orb_false_r, negb_orb.
  destruct (existsb (String.eqb y) acc); simpl; [exact IH|].
  destruct (String.eqb y x); simpl; by rewrite IH.
Qed.

Lemma filter_first (p : string -> bool) l : forall a d b,
  List.filter p l = a ++ d :: b ->
  exists a' b', l = a' ++ d :: b' ∧ List.filter p a' = a.
Proof.
  induction l as [|x l IH]; intros a d b E; simpl in E; [by destruct a|].
  destruct (p x) eqn:P.
  - destruct a as [|y a]; simpl in E.
    + injection E as -> _. by exists [], l.
    + injection E as -> E. destruct (IH a d b E) as (a' & b' & -> & F).
      exists (y :: a'), b'. split; [done|]. simpl. by rewrite P, F.
  - destruct (IH a d b E) as (a' & b' & -> & F).
    exists (x :: a'), b'. split; [done|]. simpl. by rewrite P.
Qed.

(** X1.  The search path: the four fallback directories come first, in their
    order; after them the directories of the login shell's [PATH] that are
    not among them, in the shell's order, each once, where the shell lists
    it first: of two of them, the one that comes earlier in the search
    path occurs in the shell's [PATH] before the other occurs at all.  No
    directory occurs twice, none is the empty string, none holds a
    colon. *)
Theorem SEARCH_PATHS_shape (h : Discovery.Host) :
  let shell := Discovery.resolveShellPath h in
  let rest :=
    Discovery.firstOccurrences
      (List.filter (fun d => negb (existsb (String.eqb d) Discovery.FALLBACK_PATHS)) shell) in
  Discovery.SEARCH_PATHS h = Discovery.FALLBACK_PATHS ++ rest
  ∧ sublist rest shell
  ∧ (forall pre d1 mid d2 post,
       rest = pre ++ (d1 :: (mid ++ (d2 :: post))) ->
       exists a b, shell = a ++ (d1 :: b) ∧ (d1 ∉ a) ∧ (d2 ∉ a))
  ∧ NoDup (Discovery.SEARCH_PATHS h)
  ∧ (exists rest, Discovery.SEARCH_PATHS h = Discovery.FALLBACK_PATHS ++ rest)
  ∧ (forall d, d ∈ Discovery.SEARCH_PATHS h
               <-> d ∈ Discovery.FALLBACK_PATHS ∨ d ∈ Discovery.resolveShellPath h)
  ∧ Forall (fun d => d ≠ "" ∧ hasChar ":" d = false) (Discovery.SEARCH_PATHS h).
Proof.
  intros shell rest.
  destruct (SEARCH_PATHS_set h) as (N & P & M).
  split; [rewrite SEARCH_PATHS_unfold; apply setOf_firstOccurrences|].
  split; [etrans; [apply firstOccurrences_sublist|apply filter_sublist]|].
  split.
  { intros pre d1 mid d2 post E.
    assert (In1 : d1 ∈ rest) by (rewrite E, elem_of_app, elem_of_cons; tauto).
    assert (In2 : d2 ∈ rest).
    { rewrite E, elem_of_app, elem_of_cons, elem_of_app, elem_of_cons. tauto. }
    set (p := fun d => negb (existsb (String.eqb d) Discovery.FALLBACK_PATHS)) in *.
    assert (Pr : forall d, d ∈ rest -> p d = true).
    { intros d Hd. pose proof (firstOccurrences_sublist (List.filter p shell)) as S.
      apply (elem_of_sublist _ _ _ Hd) in S as Hd'. clear Hd. rename Hd' into Hd.
      by apply list_elem_of_In, filter_In in Hd as [_ Hd]. }
    destruct (firstOccurrences_order _ _ _ _ _ _ E) as (a & b & F & A1 & A2).
    destruct (filter_first p shell a d1 b F) as (a' & b' & -> & Fa).
    exists a', b'. split; [done|]. subst a.
    split; intros Hin; [apply A1|apply A2];
      apply list_elem_of_In, filter_In; (split; [by apply list_elem_of_In|]); by apply Pr. }
  split; [exact N|]. split; [exact P|]. split; [exact M|]. apply SEARCH_PATHS_dirs.
Qed.

Lemma firstExisting_spec h name dirs :
  Discovery.firstExisting h name dirs
  = head (List.filter (Discovery.existsSync h)
            (map (fun dir => Discovery.join [dir; name]) dirs)).
Proof.
  induction dirs as [|d dirs IH]; simpl; [done|].
  by destruct (Discovery.existsSync h (Discovery.join [d; name])).
Qed.

(** X2.  [findBinary] returns the first path that exists among the bundled
    binary and the binary in each directory of the search path, in that
    order; what it returns exists; it returns [null] exactly when none of
    them exists. *)
Theorem findBinary_first_existing (paths : list string) (h : Discovery.Host)
        (name : string) :
  let candidates :=
    Discovery.join [Discovery.bundledBinDir h; name]
    :: map (fun dir => Discovery.join [dir; name]) paths in
  Discovery.findBinary paths h name
  = head (List.filter (Discovery.existsSync h) candidates)
  ∧ (forall p, Discovery.findBinary paths h name = Some p ->
               p ∈ candidates ∧ Discovery.existsSync h p = true)
  ∧ (Discovery.findBinary paths h name = None
     <-> forall p, p ∈ candidates -> Discovery.existsSync h p = false).
Proof.
  intros candidates.
  assert (E : Discovery.findBinary paths h name
              = head (List.filter (Discovery.existsSync h) candidates)).
  { unfold Discovery.findBinary, candidates. simpl.
    destruct (Discovery.existsSync h _); [done|apply firstExisting_spec]. }
  split; [exact E|]. rewrite E. clear E. split.
  - intros p Hp. apply head_Some_elem_of in Hp.
    apply list_elem_of_In, filter_In in Hp as [Hp Hx].
    by apply list_elem_of_In in Hp.
  - rewrite head_None. split.
    + intros Hn p Hp. destruct (Discovery.existsSync h p) eqn:X; [|done].
      assert (Hin : In p (List.filter (Discovery.existsSync h) candidates)).
      { apply filter_In. split; [by apply list_elem_of_In|done]. }
      rewrite Hn in Hin. destruct Hin.
    + intros Ha. destruct (List.filter (Discovery.existsSync h) candidates) as [|p l] eqn:F;
        [done|].
      assert (Hin : In p (List.filter (Discovery.existsSync h) candidates))
        by (rewrite F; by left).
      apply filter_In in Hin as [Hp Hx]. apply list_elem_of_In in Hp.
      rewrite (Ha p Hp) in Hx. discriminate.
Qed.

Lemma firstExisting_skips h name before dir after :
  (forall d, d ∈ before -> Discovery.existsSync h (Discovery.join [d; name]) = false) ->
  Discovery.existsSync h (Discovery.join [dir; name]) = true ->
  Discovery.firstExisting h name (before ++ dir :: after)
  = Some (Discovery.join [dir; name]).
Proof.
  intros Hb Hd. induction before as [|b before IH]; simpl.
  - by rewrite Hd.
  - rewrite (Hb b) by (by left). apply IH. intros d Hin. apply Hb. by right.
Qed.

(** X3.  A binary in a fallback directory shadows the login shell's [PATH]:
    when the binary is not bundled and [dir] is the first of the four
    fallback directories that holds it, [findBinary] returns the one in
    [dir], whatever the shell's [PATH] lists and in whatever order. *)
Theorem fallback_directory_shadows_shell_path
        (h : Discovery.Host) (name : string) (before : list string) (dir : string)
        (after : list string) :
  Discovery.FALLBACK_PATHS = before ++ dir :: after ->
  Discovery.existsSync h (Discovery.join [Discovery.bundledBinDir h; name]) = false ->
  (forall d, d ∈ before -> Discovery.existsSync h (Discovery.join [d; name]) = false) ->
  Discovery.existsSync h (Discovery.join [dir; name]) = true ->
  Discovery.installed h name = Some (Discovery.join [dir; name]).
Proof.
  intros F Hb Hbefore Hdir. unfold Discovery.installed, Discovery.findBinary.
  cbv zeta. rewrite Hb.
  destruct (SEARCH_PATHS_set h) as (_ & (rest & ->) & _).
  rewrite F, <- app_assoc. simpl. by apply firstExisting_skips.
Qed.

Lemma fallback_directory_shadows_shell_path_witness :
  Discovery.installed laptop "openclaw" = Some "/usr/local/bin/openclaw".
Proof.
  refine (fallback_directory_shadows_shell_path laptop "openclaw"
            ["/opt/homebrew/bin"; "/opt/homebrew/sbin"] "/usr/local/bin"
            ["/usr/local/sbin"] eq_refl eq_refl _ eq_refl).
  intros d Hd.
  apply elem_of_cons in Hd as [->|Hd]; [reflexivity|].
  apply elem_of_cons in Hd as [->|Hd]; [reflexivity|].
  by apply elem_of_nil in Hd.
Defined.

Lemma spread_lookup extra : forall base k,
  Discovery.spread base extra !! k
  = match List.find (fun kv => String.eqb kv.1 k) (rev extra) with
    | Some kv => Some kv.2
    | None => base !! k
    end.
Proof.
  unfold Discovery.spread.
  induction extra as [|[k' v'] extra IH] using rev_ind; intros base k; [done|].
  rewrite fold_left_app, rev_app_distr. simpl.
  destruct (String.eqb_spec k' k) as [->|Hne].
  - by rewrite lookup_insert_eq.
  - rewrite lookup_insert_ne by done. apply IH.
Qed.

Lemma find_absent (k : string) (l : list (string * JsVal)) :
  k ∉ l.*1 -> List.find (fun kv => String.eqb kv.1 k) l = None.
Proof.
  induction l as [|[k' v'] l IH]; simpl; [done|]. intros H.
  apply not_elem_of_cons in H as [H1 H2].
  destruct (String.eqb_spec k' k); [congruence|by apply IH].
Qed.

Lemma find_skips (k : string) (l l' : list (string * JsVal)) :
  k ∉ l.*1 ->
  List.find (fun kv => String.eqb kv.1 k) (l ++ l')
  = List.find (fun kv => String.eqb kv.1 k) l'.
Proof.
  induction l as [|[k' v'] l IH]; simpl; [done|]. intros H.
  apply not_elem_of_cons in H as [H1 H2].
  destruct (String.eqb_spec k' k); [congruence|by apply IH].
Qed.

Lemma key_absent_rev (k : string) (l : list (string * JsVal)) :
  k ∉ l.*1 -> k ∉ (rev l).*1.
Proof.
  intros H Hin. apply H. apply list_elem_of_fmap in Hin as ([k' v] & -> & Hin).
  apply list_elem_of_fmap. exists (k', v). split; [done|].
  by apply list_elem_of_In, in_rev, list_elem_of_In.
Qed.

(** X4.  The environment that [enrichedEnv] gives a child process: [PATH] is
    the search path joined with colons, so that splitting it at the colons
    gives the directories [findBinary] searches, in the same order; every
    other variable of [process.env] is passed on; a property of [extra]
    overrides both (the last one with a given key wins). *)
Theorem enrichedEnv_passes_search_path
        (h0 h : Discovery.Host) (extra : list (string * JsVal)) :
  let e := Discovery.enrichedEnv (Discovery.SEARCH_PATHS h0) h extra in
  ("PATH" ∉ extra.*1 ->
   exists p, e !! "PATH" = Some (JStr p)
             ∧ Discovery.split ":" p = Discovery.SEARCH_PATHS h0)
  ∧ (forall k, k ∉ extra.*1 -> k ≠ "PATH" -> e !! k = JStr <$> Discovery.env h !! k)
  ∧ (forall before k v after,
        extra = before ++ (k, v) :: after -> k ∉ after.*1 -> e !! k = Some v).
Proof.
  intros e. unfold e, Discovery.enrichedEnv. split; [|split].
  - intros Hk. exists (String.concat ":" (Discovery.SEARCH_PATHS h0)).
    rewrite spread_lookup, find_absent.
    + split; [by rewrite lookup_insert_eq|].
      apply split_concat.
      * destruct (SEARCH_PATHS_set h0) as (_ & (rest & ->) & _). done.
      * eapply Forall_impl; [apply SEARCH_PATHS_dirs|]. by intros d [_ H].
    + by apply key_absent_rev.
  - intros k Hk Hne. rewrite spread_lookup, find_absent.
    + rewrite lookup_insert_ne by done. by rewrite lookup_fmap.
    + by apply key_absent_rev.
  - intros before k v after -> Hk. rewrite spread_lookup, rev_app_distr. simpl.
    rewrite <- app_assoc, find_skips by (by apply key_absent_rev).
    simpl. by rewrite String.eqb_refl.
Qed.

Lemma enrichedEnv_passes_search_path_witness :
  exists p,
    Discovery.enrichedEnv (Discovery.SEARCH_PATHS laptop) laptop
      [("OPENCLAW_GATEWAY_TOKEN", JStr "s3cret")] !! "PATH" = Some (JStr p)
    ∧ Discovery.split ":" p = Discovery.SEARCH_PATHS laptop.
Proof.
  refine (proj1 (enrichedEnv_passes_search_path laptop laptop
                   [("OPENCLAW_GATEWAY_TOKEN", JStr "s3cret")]) _).
  intros Hin. apply elem_of_cons in Hin as [Hin|Hin]; [discriminate|].
  by apply elem_of_nil in Hin.
Defined.

(** ** The two patterns *)

Lemma sapp_nil (s : string) : "" +:+ s = s.
Proof. reflexivity. Qed.

Lemma sapp_cons (c : ascii) (r s : string) : String c r +:+ s = String c (r +:+ s).
Proof. reflexivity. Qed.

Lemma sapp_assoc (a b c : string) : (a +:+ b) +:+ c = a +:+ (b +:+ c).
Proof. induction a as [|x a IH]; [done|]. by rewrite !sapp_cons, IH. Qed.

(** Compute the appends whose left operand is known. *)
Ltac sapp := repeat first [rewrite sapp_cons in * | rewrite sapp_nil in *].

Lemma stripPrefix_spec p : forall s r, stripPrefix p s = Some r <-> s = p +:+ r.
Proof.
  induction p as [|a p IH]; intros s r; simpl; sapp.
  - split; [by intros [= ->]|by intros ->].
  - destruct s as [|b s].
    + split; [done|discriminate].
    + destruct (Ascii.eqb_spec a b) as [->|Hne].
      * rewrite IH. split; [by intros ->|by intros [= ->]].
      * split; [done|]. intros [= -> ->]. done.
Qed.

(** A segment without slash, followed by nothing or by a slash, is what
    [spanSegment] splits off. *)
Lemma spanSegment_run seg : forall rest,
  hasChar "/" seg = false -> (rest = "" ∨ exists r, rest = String "/" r) ->
  spanSegment (seg +:+ rest) = (seg, rest).
Proof.
  induction seg as [|b seg IH]; intros rest F R; sapp; simpl.
  - by destruct R as [->|[r ->]].
  - simpl in F. apply orb_false_elim in F as [F1 F2]. rewrite F1. by rewrite IH.
Qed.

Lemma spanSegment_parts s : forall seg rest,
  spanSegment s = (seg, rest) ->
  s = seg +:+ rest ∧ hasChar "/" seg = false
  ∧ (rest = "" ∨ exists r, rest = String "/" r).
Proof.
  induction s as [|c s IH]; intros seg rest; simpl.
  - intros [= <- <-]. split; [done|]. split; [done|by left].
  - destruct (Ascii.eqb c "/") eqn:C.
    + apply Ascii.eqb_eq in C as ->.
      intros [= <- <-]. split; [done|]. split; [done|]. right. by eexists.
    + destruct (spanSegment s) as [seg' rest'] eqn:S.
      destruct (IH seg' rest' eq_refl) as (E' & F' & R').
      intros [= <- <-]. sapp. split; [by rewrite E'|]. split; [|done]. simpl.
      by rewrite C, F'.
Qed.

(** X5.  The history route: [historyMatch] captures [key] exactly when the URL
    is [/v1/sessions/], then [key], then [/history], then anything, where
    [key] is not empty and holds no slash. *)
Theorem historyMatch_spec (u key : string) :
  historyMatch u = Some key
  <-> key ≠ "" ∧ hasChar "/" key = false
      ∧ exists rest, u = "/v1/sessions/" +:+ key +:+ "/history" +:+ rest.
Proof.
  unfold historyMatch. split.
  - destruct (stripPrefix "/v1/sessions/" u) as [r|] eqn:P; [|done].
    apply stripPrefix_spec in P. destruct (spanSegment r) as [seg rest] eqn:S.
    apply spanSegment_parts in S as (E & F & _).
    destruct seg as [|a seg]; [done|].
    destruct (stripPrefix "/history" rest) as [rest'|] eqn:P'; [|done].
    apply stripPrefix_spec in P'. intros [= <-]. split; [done|]. split; [done|].
    exists rest'. by subst.
  - intros (N & F & rest & ->).
    assert (P : stripPrefix "/v1/sessions/" ("/v1/sessions/" +:+ key +:+ "/history" +:+ rest)
                = Some (key +:+ "/history" +:+ rest)) by by apply stripPrefix_spec.
    rewrite P.
    rewrite (spanSegment_run key ("/history" +:+ rest) F) by (right; by eexists).
    destruct key; [done|].
    assert (P' : stripPrefix "/history" ("/history" +:+ rest) = Some rest)
      by by apply stripPrefix_spec.
    by rewrite P'.
Qed.

Lemma spanHost_cons c r :
  spanHost (String c r)
  = if hostChar c then let '(run, rest) := spanHost r in (String c run, rest)
    else (EmptyString, String c r).
Proof. reflexivity. Qed.

Lemma spanHost_run run : forall rest,
  allHost run = true ->
  (rest = "" ∨ exists c r, rest = String c r ∧ hostChar c = false) ->
  spanHost (run +:+ rest) = (run, rest).
Proof.
  induction run as [|b run IH]; intros rest F R; sapp.
  - destruct R as [->|(c & r & -> & C)]; [done|]. by rewrite spanHost_cons, C.
  - apply andb_prop in F as [F1 F2]. by rewrite spanHost_cons, F1, IH.
Qed.

Lemma spanHost_parts s : forall run rest,
  spanHost s = (run, rest) ->
  s = run +:+ rest ∧ allHost run = true
  ∧ (rest = "" ∨ exists c r, rest = String c r ∧ hostChar c = false).
Proof.
  induction s as [|c s IH]; intros run rest.
  - intros [= <- <-]. split; [done|]. split; [done|by left].
  - rewrite spanHost_cons. destruct (hostChar c) eqn:C.
    + destruct (spanHost s) as [run' rest'] eqn:S.
      destruct (IH run' rest' eq_refl) as (E' & F' & R').
      intros [= <- <-]. sapp. split; [by rewrite E'|]. split; [|done].
      change (allHost (String c run')) with (hostChar c && allHost run').
      by rewrite C, F'.
    + intros [= <- <-]. split; [done|]. split; [done|]. right. by eexists _, _.
Qed.

(** The pattern matches at the head of [s] with label [l]. *)
Lemma tunnelUrlHere_spec s l :
  tunnelUrlHere s = Some l
  <-> l ≠ "" ∧ allHost l = true ∧ exists post, s = tunnelUrlOf l +:+ post.
Proof.
  unfold tunnelUrlHere, tunnelUrlOf. split.
  - destruct (stripPrefix "https://" s) as [r|] eqn:P; [|done].
    apply stripPrefix_spec in P. destruct (spanHost r) as [run rest] eqn:S.
    apply spanHost_parts in S as (E & F & _).
    destruct run as [|a run]; [done|].
    destruct (stripPrefix ".trycloudflare.com" rest) as [post|] eqn:P'; [|done].
    apply stripPrefix_spec in P'. intros [= <-]. split; [done|]. split; [done|].
    exists post. subst. by rewrite !sapp_assoc.
  - intros (N & F & post & ->). rewrite !sapp_assoc.
    assert (P : stripPrefix "https://" ("https://" +:+ l +:+ ".trycloudflare.com" +:+ post)
                = Some (l +:+ ".trycloudflare.com" +:+ post)) by by apply stripPrefix_spec.
    rewrite P.
    rewrite (spanHost_run l (".trycloudflare.com" +:+ post) F)
      by (right; by eexists _, _).
    destruct l; [done|].
    assert (P' : stripPrefix ".trycloudflare.com" (".trycloudflare.com" +:+ post) = Some post)
      by by apply stripPrefix_spec.
    by rewrite P'.
Qed.

Lemma matchTunnelLabel_unfold text :
  matchTunnelLabel text
  = match tunnelUrlHere text with
    | Some l => Some l
    | None => match text with
              | EmptyString => None
              | String _ rest => matchTunnelLabel rest
              end
    end.
Proof. by destruct text. Qed.

(** X6.  The tunnel pattern
    [/https:\/\/[a-zA-Z0-9-]+\.trycloudflare\.com/]: when [matchTunnelLabel]
    finds a label, the label is a non-empty run of the class, the text
    holds [https://<label>.trycloudflare.com], and no such URL starts
    earlier in the text; it finds nothing exactly when the text holds no
    such URL. *)
Theorem tunnel_pattern_spec (text : string) :
  (forall l, matchTunnelLabel text = Some l ->
     l ≠ "" ∧ allHost l = true
     ∧ exists pre post,
         text = pre +:+ tunnelUrlOf l +:+ post
         ∧ forall pre' l' post',
             l' ≠ "" -> allHost l' = true ->
             text = pre' +:+ tunnelUrlOf l' +:+ post' ->
             (String.length pre <= String.length pre')%nat)
  ∧ (matchTunnelLabel text = None
     <-> forall pre l post,
           l ≠ "" -> allHost l = true -> text ≠ pre +:+ tunnelUrlOf l +:+ post).
Proof.
  induction text as [|c text [IH1 IH2]]; rewrite matchTunnelLabel_unfold.
  - assert (H : forall l, tunnelUrlHere "" ≠ Some l).
    { intros l H. by apply tunnelUrlHere_spec in H as (_ & _ & post & H). }
    destruct (tunnelUrlHere "") as [l|] eqn:T; [by destruct (H l)|]. split; [done|].
    split; [|done]. intros _ pre l post N F E.
    destruct pre; [|done]. sapp.
    assert (X : tunnelUrlHere "" = Some l).
    { apply tunnelUrlHere_spec. split; [done|]. split; [done|]. by exists post. }
    congruence.
  - destruct (tunnelUrlHere (String c text)) as [l0|] eqn:T.
    + split.
      * intros l [= <-]. apply tunnelUrlHere_spec in T as (N & F & post & E).
        split; [done|]. split; [done|]. exists "", post. split; [done|].
        intros. simpl. lia.
      * split; [done|]. intros H. apply tunnelUrlHere_spec in T as (N & F & post & E).
        by destruct (H "" l0 post).
    + assert (Hhead : forall l post, l ≠ "" -> allHost l = true ->
                                     String c text ≠ tunnelUrlOf l +:+ post).
      { intros l post N F E.
        assert (X : tunnelUrlHere (String c text) = Some l).
        { apply tunnelUrlHere_spec. split; [done|]. split; [done|]. by exists post. }
        congruence. }
      split.
      * intros l Hl. destruct (IH1 l Hl) as (N & F & pre & post & E & Hmin).
        split; [done|]. split; [done|]. exists (String c pre), post. split.
        { sapp. by rewrite <- E. }
        intros pre' l' post' N' F' E'. destruct pre' as [|c' pre'].
        { sapp. by destruct (Hhead l' post'). }
        sapp. injection E' as <- E'. simpl.
        specialize (Hmin pre' l' post' N' F' E'). lia.
      * rewrite IH2. split.
        { intros H pre l post N F E. destruct pre as [|c' pre].
          - sapp. by destruct (Hhead l post).
          - sapp. injection E as <- E. by destruct (H pre l post). }
        { intros H pre l post N F E. apply (H (String c pre) l post N F).
          sapp. by rewrite E. }
Qed.

(** ** The config store *)

Lemma set_entropyUsed_twice e1 e2 w :
  set_entropyUsed e2 (set_entropyUsed e1 w) = set_entropyUsed e2 w.
Proof. by destruct w. Qed.

Lemma migrateRepos_spec repos : forall w,
  migrateRepos repos w
  = (migrated (drawn (length repos) w) repos,
     set_entropyUsed (entropyUsed w + length repos)%nat w).
Proof.
  induction repos as [|r repos IH]; intros w.
  - simpl. rewrite Nat.add_0_r. by destruct w.
  - cbn [migrateRepos]. unfold randomBytes. cbv beta iota zeta.
    rewrite IH. cbv beta iota zeta. apply pair_equal_spec. split.
    + unfold migrated, drawn. reflexivity.
    + rewrite set_entropyUsed_twice. simpl. f_equal. lia.
Qed.

Lemma ensureNewFields_twice c : ensureNewFields (ensureNewFields c) = ensureNewFields c.
Proof.
  unfold ensureNewFields. simpl.
  destruct (truthy (aiSource c)) eqn:A, (truthy (apiKey c)) eqn:K,
           (truthy (apiProvider c)) eqn:P; simpl; rewrite ?A, ?K, ?P; reflexivity.
Qed.

(** X7.  The config is created or migrated at most once.  After any
    [loadConfig] the next one finds a config file in the new format: it
    returns the same port, password, workspaces and active workspace,
    draws no randomness and writes nothing.  The three AI fields are the
    same as well, unless the first load migrated a file of the old format
    (the migration keeps a field that is present but falsy, the defaults of
    the later loads replace it). *)
Theorem loadConfig_stable (w : World) (c1 : Config) (w1 : World) :
  loadConfig w = (c1, w1) ->
  exists c2,
    loadConfig w1 = (c2, w1)
    ∧ c2 = ensureNewFields c1
    ∧ port c2 = port c1 ∧ password c2 = password c1
    ∧ workspaces c2 = workspaces c1 ∧ activeWorkspaceId c2 = activeWorkspaceId c1
    ∧ ((forall p s r a k v, configFile w ≠ LegacyFile p s r a k v) -> c2 = c1).
Proof.
  intros L. exists (ensureNewFields c1).
  assert (X : loadConfig w1 = (ensureNewFields c1, w1)
              ∧ ((forall p s r a k v, configFile w ≠ LegacyFile p s r a k v) ->
                 ensureNewFields c1 = c1)).
  { unfold loadConfig in L. destruct (configFile w) as [|p s r a k v|raw] eqn:F.
    - unfold randomBytes in L. cbv beta iota zeta in L. injection L as <- <-.
      split; [by apply loadConfig_stored|done].
    - rewrite migrateRepos_spec in L. cbv beta iota zeta in L.
      destruct s as [s|]; unfold randomBytes in L; cbv beta iota zeta in L;
        injection L as <- <-;
        (split; [by apply loadConfig_stored|intros H; exfalso; by eapply H]).
    - injection L as <- <-. split; [|by rewrite ensureNewFields_twice].
      rewrite (loadConfig_stored w raw F). by rewrite ensureNewFields_twice. }
  destruct X as [X1 X2]. repeat split; done.
Qed.

Lemma loadConfig_stable_witness :
  exists c2,
    loadConfig (snd (loadConfig firstRun)) = (c2, snd (loadConfig firstRun))
    ∧ password c2 = "r0".
Proof.
  destruct (loadConfig_stable firstRun (fst (loadConfig firstRun))
              (snd (loadConfig firstRun)) eq_refl)
    as (c2 & L & _ & _ & P & _).
  exists c2. split; [exact L|]. rewrite P. reflexivity.
Defined.

Lemma migrated_paths repos : forall ids,
  length ids = length repos ->
  map Workspace.paths (migrated ids repos) = map (fun r => [r]) repos.
Proof.
  unfold migrated.
  induction repos as [|r repos IH]; intros [|i ids] E; simpl in *; try done.
  rewrite IH; [done|lia].
Qed.

Lemma drawn_length n w : length (drawn n w) = n.
Proof. unfold drawn. by rewrite length_map, length_seq. Qed.

(** X8.  Migration of a config file in the old [repos[]] format: every repo
    becomes a workspace, in order, with the repo as its only path, the
    base name of the repo as its name, nothing protected and a fresh
    identifier; the first one becomes the active workspace ([null] when
    there is no repo); port and password are kept when present, else 4096
    and a fresh password, drawn after the identifiers; the result is
    written back in the new format. *)
Theorem legacy_config_is_migrated
        (w : World) (rport : option Z) (rpassword : option string) (repos : list string)
        (a k p : JsVal) (c1 : Config) (w1 : World) :
  configFile w = LegacyFile rport rpassword repos a k p ->
  loadConfig w = (c1, w1) ->
  configFile w1 = ConfigJson c1
  ∧ workspaces c1 = migrated (drawn (length repos) w) repos
  ∧ map Workspace.paths (workspaces c1) = map (fun r => [r]) repos
  ∧ activeWorkspaceId c1 = head (drawn (length repos) w)
  ∧ port c1 = default 4096 rport
  ∧ password c1 = default (entropy w (entropyUsed w + length repos)%nat) rpassword
  ∧ entropyUsed w1
    = (entropyUsed w + length repos
       + match rpassword with Some _ => 0 | None => 1 end)%nat.
Proof.
  intros F L. unfold loadConfig in L. rewrite F, migrateRepos_spec in L.
  cbv beta iota zeta in L.
  assert (P : map Workspace.paths (migrated (drawn (length repos) w) repos)
              = map (fun r => [r]) repos)
    by (apply migrated_paths, drawn_length).
  assert (A : match migrated (drawn (length repos) w) repos with
              | ws :: _ => Some (Workspace.id ws)
              | [] => None
              end = head (drawn (length repos) w)).
  { unfold migrated, drawn. by destruct repos. }
  destruct rpassword as [s|]; unfold randomBytes in L; cbv beta iota zeta in L;
    injection L as <- <-; simpl; rewrite ?A; repeat split; try done; lia.
Qed.

Lemma legacy_config_is_migrated_witness :
  map Workspace.paths (workspaces (fst (loadConfig legacyRun)))
  = [["/home/u/a"]; ["/home/u/b/"]]
  ∧ activeWorkspaceId (fst (loadConfig legacyRun)) = Some "r0"
  ∧ password (fst (loadConfig legacyRun)) = "r2".
Proof.
  destruct (legacy_config_is_migrated legacyRun (Some 5000) None
              ["/home/u/a"; "/home/u/b/"] JUndefined (JStr "") JNull
              (fst (loadConfig legacyRun)) (snd (loadConfig legacyRun))
              eq_refl eq_refl)
    as (_ & _ & P & A & _ & S & _).
  split; [exact P|]. split; [exact A|exact S].
Defined.

(** ** The tunnel's output *)

Lemma tunnel_data pid pr text t w :
  procs w !! pid = Some pr -> isTunnel pr = true -> clock w <= t ->
  step t (TunnelData pid text) w = Some (onData pid text (set_clock t w)).
Proof.
  intros Hp Hk Hc. unfold step. destruct (t <? clock w) eqn:E; [lia|].
  change (procs (set_clock t w)) with (procs w). by rewrite Hp, Hk.
Qed.

Lemma tunnel_exits pid pr t w :
  procs w !! pid = Some pr -> isTunnel pr = true -> clock w <= t ->
  step t (TunnelExit pid) w = Some (tunnelExit pid (reap pid (set_clock t w))).
Proof.
  intros Hp Hk Hc. unfold step. destruct (t <? clock w) eqn:E; [lia|].
  change (procs (set_clock t w)) with (procs w). by rewrite Hp, Hk.
Qed.

Lemma onData_rate_limited pid cl text w :
  tunnelClosures w !! pid = Some cl -> urlFound cl = false ->
  includes "429" text || includes "Too Many Requests" text = true ->
  onData pid text w
  = send (channel RATE_LIMITED) (payload RATE_LIMITED)
      (closure pid (mkTunnelClosure (urlFound cl) true) w).
Proof. intros Hc Hu Hr. unfold onData. by rewrite Hc, Hu, Hr. Qed.

Lemma tunnelExit_unexpected pid w :
  intentionallyStopping w = false -> tunnelRestarting w = false ->
  tunnelExit pid w
  = arm RestartTunnel (retryDelay pid w) None
      (send "tunnel-url" (PText "") (set_currentTunnelURL "" w)).
Proof. intros Hs Hr. unfold tunnelExit. by rewrite Hs, Hr. Qed.

Lemma timeout_not_due h k due t w :
  timers w !! h = Some (mkTimer k due None) -> t < due ->
  step t (TimerFires h) w = None.
Proof.
  intros Ht Hd. unfold step. destruct (t <? clock w); [done|].
  change (timers (set_clock t w)) with (timers w). rewrite Ht.
  cbv beta iota zeta. change (t_due _) with due.
  destruct (t <? due) eqn:E; [done|lia].
Qed.

Lemma timeout_fires h k due t w :
  timers w !! h = Some (mkTimer k due None) -> clock w <= t -> due <= t ->
  step t (TimerFires h) w = Some (timerBody h k (clearTimer h (set_clock t w))).
Proof.
  intros Ht Hc Hd. unfold step. destruct (t <? clock w) eqn:E; [lia|].
  change (timers (set_clock t w)) with (timers w). rewrite Ht.
  cbv beta iota zeta. change (t_due _) with due.
  destruct (t <? due) eqn:E'; [lia|]. reflexivity.
Qed.

(** X9.  Rate limiting.  A chunk of tunnel output that holds [429] or [Too Many
    Requests] anywhere, also inside a tunnel URL that the same chunk
    carries, only sends the rate-limit error: no DNS poll starts and
    nothing is published.  When the process then exits (no deliberate
    stop, no restart by the health monitor in progress) the published URL
    is cleared and the restart is armed 60 s later instead of 2 s: the
    timer cannot fire before, and when it fires it enters [startTunnel]. *)
Theorem rate_limited_tunnel_retries_after_60s
        (w : World) (pid : nat) (pr : Proc) (cl : TunnelClosure) (text : string)
        (t1 t2 : Z) :
  procs w !! pid = Some pr -> isTunnel pr = true ->
  tunnelClosures w !! pid = Some cl -> urlFound cl = false ->
  includes "429" text || includes "Too Many Requests" text = true ->
  intentionallyStopping w = false -> tunnelRestarting w = false ->
  clock w <= t1 <= t2 ->
  exists w1 w2,
    step t1 (TunnelData pid text) w = Some w1
    ∧ step t2 (TunnelExit pid) w1 = Some w2
    ∧ sent w1 = sent w ++ [RATE_LIMITED]
    ∧ dnsPolls w1 = dnsPolls w ∧ dnsQueries w1 = dnsQueries w
    ∧ currentTunnelURL w1 = currentTunnelURL w
    ∧ sent w2 = sent w ++ [RATE_LIMITED; URL_CLEARED]
    ∧ currentTunnelURL w2 = ""
    ∧ timers w2 = <[nextHandle w := mkTimer RestartTunnel (t2 + 60000) None]> (timers w)
    ∧ calls w2 = calls w
    ∧ (forall t, t < t2 + 60000 -> step t (TimerFires (nextHandle w)) w2 = None)
    ∧ (forall t, t2 + 60000 <= t ->
         step t (TimerFires (nextHandle w)) w2
         = Some (startTunnel (clearTimer (nextHandle w) (set_clock t w2)))).
Proof.
  intros Hp Hk Hc Hu Hr Hs Hrs [Ht1 Ht2].
  set (w1 := send (channel RATE_LIMITED) (payload RATE_LIMITED)
               (closure pid (mkTunnelClosure (urlFound cl) true) (set_clock t1 w))).
  set (w2 := arm RestartTunnel 60000 None
               (send "tunnel-url" (PText "")
                  (set_currentTunnelURL "" (reap pid (set_clock t2 w1))))).
  assert (S1 : step t1 (TunnelData pid text) w = Some w1).
  { rewrite (tunnel_data pid pr text t1 w Hp Hk Ht1).
    by rewrite (onData_rate_limited pid cl text (set_clock t1 w) Hc Hu Hr). }
  assert (S2 : step t2 (TunnelExit pid) w1 = Some w2).
  { rewrite (tunnel_exits pid pr t2 w1 Hp Hk Ht2).
    rewrite tunnelExit_unexpected by done.
    assert (D : retryDelay pid (reap pid (set_clock t2 w1)) = 60000).
    { unfold retryDelay. subst w1. simpl. by rewrite lookup_insert_eq. }
    by rewrite D. }
  assert (T : timers w2 = <[nextHandle w := mkTimer RestartTunnel (t2 + 60000) None]> (timers w))
    by reflexivity.
  exists w1, w2.
  split; [done|]. split; [done|].
  split; [done|]. split; [done|]. split; [done|]. split; [done|].
  split; [subst w2 w1; simpl; by rewrite <- app_assoc|].
  split; [done|]. split; [exact T|]. split; [done|]. split.
  - intros t Ht. apply (timeout_not_due _ RestartTunnel (t2 + 60000)); [|done].
    rewrite T. apply lookup_insert_eq.
  - intros t Ht. apply (timeout_fires _ RestartTunnel (t2 + 60000)); [|simpl; lia|done].
    rewrite T. apply lookup_insert_eq.
Qed.

Lemma rate_limited_tunnel_retries_after_60s_witness :
  exists w2,
    run [(2000, TunnelData 1%nat rateLimitNotice); (3000, TunnelExit 1%nat)] Demo.world
    = Some w2
    ∧ timers w2 !! 4%nat = Some (mkTimer RestartTunnel 63000 None)
    ∧ step 62999 (TimerFires 4%nat) w2 = None.
Proof.
  destruct (rate_limited_tunnel_retries_after_60s Demo.world 1
              (mkProc (Tunnel 4097) "/usr/local/bin/cloudflared" false)
              (mkTunnelClosure false false) rateLimitNotice 2000 3000
              eq_refl eq_refl eq_refl eq_refl eq_refl eq_refl eq_refl
              ltac:(split; vm_compute; discriminate))
    as (w1 & w2 & S1 & S2 & _ & _ & _ & _ & _ & _ & T & _ & N & _).
  exists w2. split; [|split].
  - simpl. rewrite S1. simpl. by rewrite S2.
  - rewrite T. reflexivity.
  - apply N. reflexivity.
Defined.

(** X10.  The tunnel URL is taken once.  The first chunk of output that
    carries a tunnel URL (and no rate-limit marker) starts the one DNS poll
    of this tunnel process, for the leftmost URL of the chunk; every later
    chunk of the same process is ignored, whatever it holds: a second URL
    starts no second poll, a rate-limit marker is not reported and does
    not lengthen the restart delay. *)
Theorem tunnel_url_is_taken_once
        (w : World) (pid : nat) (cl : TunnelClosure) (text label later : string) :
  tunnelClosures w !! pid = Some cl -> urlFound cl = false ->
  includes "429" text || includes "Too Many Requests" text = false ->
  matchTunnelLabel text = Some label ->
  let w1 := onData pid text w in
  dnsPolls w1 = <[nextHandle w := pollFor label (clock w)]> (dnsPolls w)
  ∧ tunnelUrl (pollFor label (clock w)) = tunnelUrlOf label
  ∧ retryDelay pid w1 = retryDelay pid w
  ∧ onData pid later w1 = w1.
Proof.
  intros Hc Hu Hr Hm w1.
  assert (E : w1 = waitForDns (nextHandle w)
                     (newPoll (pollFor label (clock w))
                        (closure pid (mkTunnelClosure true (rateLimited cl)) w)))
    by by apply onData_finds_url.
  assert (C : tunnelClosures w1 !! pid = Some (mkTunnelClosure true (rateLimited cl))).
  { rewrite E. unfold waitForDns. repeat case_match; unfold kill; repeat case_match;
      simpl; apply lookup_insert_eq. }
  split; [|split; [|split]].
  - rewrite E. unfold waitForDns. repeat case_match; unfold kill; repeat case_match;
      reflexivity.
  - reflexivity.
  - unfold retryDelay. by rewrite C, Hc.
  - unfold onData. by rewrite C.
Qed.

Lemma tunnel_url_is_taken_once_witness :
  onData 1 rateLimitNotice (onData 1 Demo.banner Demo.world)
  = onData 1 Demo.banner Demo.world.
Proof.
  refine (proj2 (proj2 (proj2 (tunnel_url_is_taken_once Demo.world 1
                                 (mkTunnelClosure false false) Demo.banner
                                 "quick-fox-42" rateLimitNotice
                                 eq_refl eq_refl eq_refl eq_refl)))).
Defined.

(** *** A tunnel that exits while its URL is being resolved *)

Lemma url_found pid pr cl text label t w :
  procs w !! pid = Some pr -> isTunnel pr = true ->
  tunnelClosures w !! pid = Some cl -> urlFound cl = false ->
  includes "429" text || includes "Too Many Requests" text = false ->
  matchTunnelLabel text = Some label ->
  intentionallyStopping w = false -> clock w <= t ->
  step t (TunnelData pid text) w
  = Some (resolve4 (nextHandle w)
            (newPoll (pollFor label t)
               (closure pid (mkTunnelClosure true (rateLimited cl)) (set_clock t w)))).
Proof.
  intros Hp Hk Hc Hu Hr Hm Hs Ht. rewrite (tunnel_data pid pr text t w Hp Hk Ht).
  rewrite (onData_finds_url pid cl text label (set_clock t w) Hc Hu Hr Hm).
  f_equal. apply (waitForDns_asks _ (pollFor label t)).
  - apply lookup_insert_eq.
  - exact Hs.
  - simpl. lia.
Qed.

Lemma tunnel_exit_unexpected pid pr t w :
  procs w !! pid = Some pr -> isTunnel pr = true ->
  intentionallyStopping w = false -> tunnelRestarting w = false -> clock w <= t ->
  step t (TunnelExit pid) w
  = Some (arm RestartTunnel (retryDelay pid w) None
            (send "tunnel-url" (PText "")
               (set_currentTunnelURL "" (reap pid (set_clock t w))))).
Proof.
  intros Hp Hk Hs Hr Ht. rewrite (tunnel_exits pid pr t w Hp Hk Ht).
  by rewrite tunnelExit_unexpected.
Qed.

Lemma dns_resolves q poll p t w :
  dnsQueries w !! q = Some poll -> dnsPolls w !! poll = Some p -> clock w <= t ->
  step t (DnsAnswers q false) w
  = Some (startTunnelHealthMonitor
            (send "tunnel-url" (PText (tunnelUrl p))
               (set_currentTunnelURL (tunnelUrl p) (resolved q (set_clock t w))))).
Proof.
  intros Hq Hp Ht. rewrite (dns_answers q poll false t w Hq Ht).
  unfold dnsCallback. change (dnsPolls (resolved q (set_clock t w))) with (dnsPolls w).
  by rewrite Hp.
Qed.

Lemma startTunnelHealthMonitor_keeps w :
  procs (startTunnelHealthMonitor w) = procs w
  ∧ cloudflaredProc (startTunnelHealthMonitor w) = cloudflaredProc w
  ∧ tunnelHealthStatus (startTunnelHealthMonitor w) = healthy
  ∧ forall h t, tunnelHealthInterval w ≠ Some h -> timers w !! h = Some t ->
                (h < nextHandle w)%nat ->
                timers (startTunnelHealthMonitor w) !! h = Some t.
Proof.
  unfold startTunnelHealthMonitor.
  destruct (tunnelHealthInterval w) as [m|] eqn:E; simpl; repeat split.
  - intros h t N Ht L. rewrite lookup_insert_ne by lia.
    rewrite lookup_delete_ne by congruence. exact Ht.
  - intros h t N Ht L. rewrite lookup_insert_ne by lia. exact Ht.
Qed.

(** X11.  The URL of a tunnel that has exited.  The callback of the DNS
    resolution does not look at the process: when a tunnel process prints
    its URL, exits before the hostname resolves (no deliberate stop, no
    restart by the health monitor), and the resolution succeeds after
    that, the URL of the process that is gone is published and reported
    [healthy], while the restart armed by the exit (2 s after it, 60 s
    when rate limited) is still pending.  (The handle that the restart
    timer will get is not the one of the health monitor: handles are
    given out once.) *)
Theorem url_of_exited_tunnel_is_still_published
        (w : World) (pid : nat) (pr : Proc) (cl : TunnelClosure)
        (text label : string) (t1 t2 t3 : Z) :
  procs w !! pid = Some pr -> isTunnel pr = true ->
  tunnelClosures w !! pid = Some cl -> urlFound cl = false ->
  includes "429" text || includes "Too Many Requests" text = false ->
  matchTunnelLabel text = Some label ->
  intentionallyStopping w = false -> tunnelRestarting w = false ->
  tunnelHealthInterval w ≠ Some (S (S (nextHandle w))) ->
  clock w <= t1 -> t1 <= t2 -> t2 <= t3 ->
  let q := S (nextHandle w) in
  let timer := S (S (nextHandle w)) in
  exists w1 w2 w3,
    step t1 (TunnelData pid text) w = Some w1
    ∧ step t2 (TunnelExit pid) w1 = Some w2
    ∧ procs w2 !! pid = None
    ∧ currentTunnelURL w2 = ""
    ∧ step t3 (DnsAnswers q false) w2 = Some w3
    ∧ procs w3 !! pid = None
    ∧ currentTunnelURL w3 = tunnelUrlOf label
    ∧ tunnelHealthStatus w3 = healthy
    ∧ sent w3 = sent w ++ URL_CLEARED :: PUBLISHED (tunnelUrlOf label)
    ∧ timers w3 !! timer
      = Some (mkTimer RestartTunnel (t2 + (if rateLimited cl then 60000 else 2000)) None).
Proof.
  intros Hp Hk Hc Hu Hr Hm Hs Hrs Hh H1 H2 H3 q timer.
  eexists _, _, _.
  split; [by apply (url_found pid pr cl text label)|].
  split; [by apply (tunnel_exit_unexpected pid pr)|].
  split; [simpl; apply lookup_delete_eq|]. split; [reflexivity|].
  split.
  { apply (dns_resolves q (nextHandle w) (pollFor label t1)).
    - simpl. apply lookup_insert_eq.
    - simpl. apply lookup_insert_eq.
    - simpl. lia. }
  match goal with
  | |- context [startTunnelHealthMonitor ?x] =>
      destruct (startTunnelHealthMonitor_keeps x) as (K1 & K2 & K3 & K4);
      destruct (monitor_started x) as (M1 & M2 & M3)
  end.
  split; [rewrite K1; simpl; apply lookup_delete_eq|].
  split; [rewrite M1; reflexivity|]. split; [exact K3|].
  split; [rewrite M2; simpl; by rewrite <- !app_assoc|].
  rewrite (K4 timer (mkTimer RestartTunnel
                       (t2 + (if rateLimited cl then 60000 else 2000)) None)).
  - reflexivity.
  - exact Hh.
  - simpl. rewrite lookup_insert_eq. unfold retryDelay. simpl.
    rewrite lookup_insert_eq. simpl. reflexivity.
  - simpl. lia.
Qed.

Lemma url_of_exited_tunnel_is_still_published_witness :
  exists w3,
    run [(2000, TunnelData 1%nat Demo.banner); (2100, TunnelExit 1%nat);
         (2500, DnsAnswers 5%nat false)] Demo.world = Some w3
    ∧ procs w3 !! 1%nat = None
    ∧ currentTunnelURL w3 = "https://quick-fox-42.trycloudflare.com"
    ∧ timers w3 !! 6%nat = Some (mkTimer RestartTunnel 4100 None).
Proof.
  destruct (url_of_exited_tunnel_is_still_published Demo.world 1
              (mkProc (Tunnel 4097) "/usr/local/bin/cloudflared" false)
              (mkTunnelClosure false false) Demo.banner "quick-fox-42" 2000 2100 2500
              eq_refl eq_refl eq_refl eq_refl eq_refl eq_refl eq_refl eq_refl
              ltac:(discriminate) ltac:(vm_compute; discriminate)
              ltac:(vm_compute; discriminate) ltac:(vm_compute; discriminate))
    as (w1 & w2 & w3 & S1 & S2 & _ & _ & S3 & P & U & _ & _ & T).
  exists w3. split; [|split; [exact P|split; [exact U|exact T]]].
  change (S (nextHandle Demo.world)) with 5%nat in S3.
  cbn [run]. rewrite S1. cbn [run]. rewrite S2. cbn [run]. by rewrite S3.
Defined.

(** ** Stopping *)

Lemma gateway_exits pid pr code t w :
  procs w !! pid = Some pr -> isGateway pr = true -> clock w <= t ->
  step t (GatewayExit pid code) w = Some (gatewayExit code (reap pid (set_clock t w))).
Proof.
  intros Hp Hk Hc. unfold step. destruct (t <? clock w) eqn:E; [lia|].
  change (procs (set_clock t w)) with (procs w). by rewrite Hp, Hk.
Qed.

Lemma stopServer_reset w :
  let w' := stopServer true w in
  presence w' = (false, false, 0, None)
  ∧ intentionallyStopping w' = true
  ∧ gatewayProc w' = None
  ∧ clock w' = clock w
  ∧ sent w' = sent w ++ [ROSTER; STOPPED; DISCONNECTED]
  ∧ procs w' = match gatewayProc w with
               | Some pid => alter (fun pr => mkProc (p_kind pr) (p_bin pr) true) pid (procs w)
               | None => procs w
               end.
Proof.
  unfold stopServer, stopClientPresenceMonitor, closeGatewayWs, kill, presence.
  cbv zeta. wcases; rewrite <- ?app_assoc; repeat split; first [reflexivity|by f_equal].
Qed.

Lemma gatewayExit_stopping code w :
  intentionallyStopping w = true -> gatewayExit code w = w.
Proof. intros H. unfold gatewayExit. by rewrite H. Qed.

Lemma server_stops t w :
  clock w <= t -> step t (Ipc ServerStop) w = Some (stopServer true (set_clock t w)).
Proof. intros H. unfold step. destruct (t <? clock w) eqn:E; [lia|]. reflexivity. Qed.

Lemma stopped_gateway_exits w pid pr code t :
  procs w !! pid = Some pr -> isGateway pr = true -> intentionallyStopping w = true ->
  clock w <= t ->
  step t (GatewayExit pid code) w = Some (reap pid (set_clock t w)).
Proof.
  intros Hp Hk I C.
  rewrite (gateway_exits pid _ code t w Hp); [|done|lia].
  by rewrite gatewayExit_stopping.
Qed.

(** X12.  A stop by the operator is not reported as a crash.  [server:stop]
    signals the gateway process, resets presence and sends the roster,
    [status stopped] and [client-disconnected]; when the exit of the
    signalled process is delivered afterwards, with whatever exit code,
    the exit handler sends nothing and changes nothing: the process only
    leaves the process table. *)
Theorem operator_stop_is_not_reported_as_crash
        (w : World) (pid : nat) (pr : Proc) (code : option Z) (t1 t2 : Z) :
  gatewayProc w = Some pid -> procs w !! pid = Some pr -> isGateway pr = true ->
  clock w <= t1 <= t2 ->
  exists w1 w2,
    step t1 (Ipc ServerStop) w = Some w1
    ∧ step t2 (GatewayExit pid code) w1 = Some w2
    ∧ procs w1 !! pid = Some (mkProc (p_kind pr) (p_bin pr) true)
    ∧ presence w1 = (false, false, 0, None)
    ∧ sent w1 = sent w ++ [ROSTER; STOPPED; DISCONNECTED]
    ∧ w2 = reap pid (set_clock t2 w1).
Proof.
  intros Hg Hp Hk [Ht1 Ht2].
  destruct (stopServer_reset (set_clock t1 w)) as (P & I & G & C & S & Q).
  change (gatewayProc (set_clock t1 w)) with (gatewayProc w) in Q. rewrite Hg in Q.
  change (procs (set_clock t1 w)) with (procs w) in Q.
  change (clock (set_clock t1 w)) with t1 in C.
  change (sent (set_clock t1 w)) with (sent w) in S.
  assert (Hp1 : procs (stopServer true (set_clock t1 w)) !! pid
                = Some (mkProc (p_kind pr) (p_bin pr) true)).
  { rewrite Q. by rewrite lookup_alter_eq, Hp. }
  eexists _, _. split; [by apply server_stops|].
  split; [|split; [exact Hp1|split; [exact P|split; [exact S|reflexivity]]]].
  apply (stopped_gateway_exits _ pid (mkProc (p_kind pr) (p_bin pr) true));
    [exact Hp1|done|exact I|rewrite C; lia].
Qed.

Lemma operator_stop_is_not_reported_as_crash_witness :
  exists w1 w2,
    step 1500 (Ipc ServerStop) Demo.world = Some w1
    ∧ step 1600 (GatewayExit 2%nat (Some 143)) w1 = Some w2
    ∧ sent w2 = sent Demo.world ++ [ROSTER; STOPPED; DISCONNECTED].
Proof.
  destruct (operator_stop_is_not_reported_as_crash Demo.world 2
              (mkProc (Gateway "/home/u/proj" [("OPENCLAW_GATEWAY_TOKEN", JStr "s3cret")])
                 "/usr/local/bin/openclaw" false)
              (Some 143) 1500 1600 eq_refl eq_refl eq_refl
              ltac:(split; vm_compute; discriminate))
    as (w1 & w2 & S1 & S2 & _ & _ & S & E).
  exists w1, w2. split; [exact S1|]. split; [exact S2|]. rewrite E. exact S.
Defined.

(** [stopAll], field by field. *)
Lemma stopAll_fields w :
  stopAll w
  = {| gatewayProc := None; cloudflaredProc := None; setupHttpServer := None;
       proxyServer := None; intentionallyStopping := true;
       tunnelRestarting := tunnelRestarting w; currentTunnelURL := "";
       tunnelHealthInterval := None; tunnelHealthStatus := tunnelHealthStatus w;
       lastClientHeartbeat := 0; clientPresenceInterval := None;
       clientConnectedState := false; clientAwayState := false;
       caffeinateProc := None; clock := clock w; nextHandle := nextHandle w;
       timers := cleared (clientPresenceInterval w)
                   (cleared (tunnelHealthInterval w) (timers w));
       procs := signalled (gatewayProc w)
                  (signalled (cloudflaredProc w) (signalled (caffeinateProc w) (procs w)));
       tunnelClosures := tunnelClosures w; monitorFailCount := monitorFailCount w;
       probes := probes w; dnsPolls := dnsPolls w; dnsQueries := dnsQueries w;
       dialogs := dialogs w; sent := sent w ++ [ROSTER; STOPPED; URL_CLEARED];
       calls := calls w; configFile := configFile w; openclawFile := openclawFile w;
       binaries := binaries w; entropy := entropy w; entropyUsed := entropyUsed w |}.
Proof.
  destruct w as [g c s p i r u hi hs lh pi cc ca cf ck nh tm pc tc mf pb dp dq dl sn cl fl oc bn en eu].
  destruct hi, pi, cf, c, g; wcbv; rewrite <- ?app_assoc; reflexivity.
Qed.

(** X13.  Shutting down twice.  [window-all-closed] runs [stopAll] and quits,
    and quitting runs [stopAll] again from [before-quit].  The first run
    signals the three child processes and clears the three variables,
    closes both servers, stops both pollers and resets presence and the
    published URL; the second run signals no process and changes nothing:
    it only sends the roster, [status stopped] and the empty tunnel URL
    once more. *)
Theorem shutdown_twice_repeats_notifications (w : World) :
  let w1 := stopAll w in
  procs w1
  = signalled (gatewayProc w)
      (signalled (cloudflaredProc w) (signalled (caffeinateProc w) (procs w)))
  ∧ (gatewayProc w1, cloudflaredProc w1, caffeinateProc w1) = (None, None, None)
  ∧ (proxyServer w1, setupHttpServer w1) = (None, None)
  ∧ (tunnelHealthInterval w1, clientPresenceInterval w1) = (None, None)
  ∧ stopAll w1
    = send "tunnel-url" (PText "")
        (send "status" (PText "stopped") (send "sessions-updated" PNoSessions w1)).
Proof.
  cbv zeta. rewrite (stopAll_fields (stopAll w)). rewrite !(stopAll_fields w).
  repeat split. wcbv. by rewrite <- !app_assoc.
Qed.

(** ** Sleep and wake *)

Lemma suspend_step t w :
  clock w <= t -> step t Suspend w = Some (stopClientPresenceMonitor (set_clock t w)).
Proof. intros H. unfold step. destruct (t <? clock w) eqn:E; [lia|]. reflexivity. Qed.

Lemma resume_step t w :
  clock w <= t -> clientConnectedState w = true -> clientPresenceInterval w = None ->
  step t Resume w
  = Some (set_clientPresenceInterval (Some (nextHandle w))
            (arm PresencePoll 2000 (Some 2000)
               (set_lastClientHeartbeat t (set_clock t w)))).
Proof.
  intros H Hc Hi. unfold step. destruct (t <? clock w) eqn:E; [lia|].
  unfold onResume. change (clientConnectedState (set_clock t w)) with (clientConnectedState w).
  rewrite Hc. unfold startClientPresenceMonitor.
  change (clientPresenceInterval (set_lastClientHeartbeat (clock (set_clock t w))
                                    (set_clock t w)))
    with (clientPresenceInterval w).
  by rewrite Hi.
Qed.

Lemma stopClientPresenceMonitor_keeps w :
  let w' := stopClientPresenceMonitor w in
  clientConnectedState w' = clientConnectedState w
  ∧ clientAwayState w' = clientAwayState w
  ∧ lastClientHeartbeat w' = lastClientHeartbeat w
  ∧ clock w' = clock w ∧ nextHandle w' = nextHandle w ∧ sent w' = sent w.
Proof. unfold stopClientPresenceMonitor. by destruct (clientPresenceInterval w). Qed.

(** X14.  Sleep does not count as client silence.  When the machine suspends,
    the presence poll is stopped: no presence interval exists while it
    sleeps, however long.  When it resumes with a client still marked
    connected (and not away), the time of the last heartbeat is set to the
    time of resume and a new poll starts: for the next 30 s after resume
    its ticks change nothing and send nothing, so the client is not marked
    away for the time the machine was asleep. *)
Theorem sleep_does_not_count_as_silence (w : World) (t1 t2 : Z) (n : nat) :
  reachable w ->
  clientConnectedState w = true -> clientAwayState w = false ->
  clock w <= t1 <= t2 -> 0 < t2 ->
  2000 * Z.of_nat n <= 30000 ->
  exists w1 w2 w3,
    step t1 Suspend w = Some w1
    ∧ presenceStopped w1
    ∧ step t2 Resume w1 = Some w2
    ∧ lastClientHeartbeat w2 = t2
    ∧ clientPresenceInterval w2 = Some (nextHandle w)
    ∧ run (ticks (nextHandle w) (t2 + 2000) n) w2 = Some w3
    ∧ clientConnectedState w3 = true ∧ clientAwayState w3 = false
    ∧ lastClientHeartbeat w3 = t2
    ∧ sent w3 = sent w.
Proof.
  intros R Hc Ha [Ht1 Ht2] Hp Hn.
  assert (I : presenceInv (set_clock t1 w)).
  { apply (presenceInv_frame w); [by repeat split|by apply reachable_presenceInv]. }
  pose proof (stopClientPresenceMonitor_stopped _ I) as St.
  destruct (stopClientPresenceMonitor_keeps (set_clock t1 w)) as (K1 & K2 & K3 & K4 & K5 & K6).
  revert St K1 K2 K3 K4 K5 K6.
  generalize (stopClientPresenceMonitor (set_clock t1 w)) (suspend_step t1 w Ht1).
  intros w1 S1 St K1 K2 K3 K4 K5 K6. simpl in K1, K2, K3, K4, K5, K6.
  pose proof (resume_step t2 w1 ltac:(lia) ltac:(congruence) (proj1 St)) as S2.
  revert S2.
  set (w2 := set_clientPresenceInterval (Some (nextHandle w1))
               (arm PresencePoll 2000 (Some 2000)
                  (set_lastClientHeartbeat t2 (set_clock t2 w1)))).
  assert (A : armed (nextHandle w1) (t2 + 2000) w2).
  { split; [simpl; lia|]. exists (t2 + 2000). split; [|lia].
    subst w2. simpl. apply lookup_insert_eq. }
  assert (W1 : clientConnectedState w2 = true) by (subst w2; simpl; congruence).
  assert (W2 : clientAwayState w2 = false) by (subst w2; simpl; congruence).
  assert (W3 : lastClientHeartbeat w2 = t2) by reflexivity.
  assert (W4 : clientPresenceInterval w2 = Some (nextHandle w1)) by reflexivity.
  assert (W5 : sent w2 = sent w1) by reflexivity.
  clearbody w2. intros S2.
  destruct (ticks_after_heartbeat (nextHandle w1) t2 n (t2 + 2000) w2 A Hp ltac:(lia) W1 W2 W3)
    as (w3 & Rn & (E1 & E2 & E3 & E4) & _).
  { destruct n; [by left|right]. lia. }
  exists w1, w2, w3. rewrite K5 in *.
  split; [exact S1|]. split; [exact St|]. split; [exact S2|]. split; [exact W3|].
  split; [exact W4|]. split; [exact Rn|]. split; [exact E1|]. split; [exact E2|].
  split; [exact E3|congruence].
Qed.

Lemma sleep_does_not_count_as_silence_witness :
  exists w1 w2 w3,
    step 3000 Suspend connected = Some w1
    ∧ step 500000 Resume w1 = Some w2
    ∧ run (ticks 5 502000 15) w2 = Some w3
    ∧ clientAwayState w3 = false.
Proof.
  destruct (sleep_does_not_count_as_silence connected 3000 500000 15)
    as (w1 & w2 & w3 & S1 & _ & S2 & _ & _ & R & _ & A & _).
  - apply (run_reachable [(2000, Http Demo.heartbeat)] Demo.world); [apply reach_ready|].
    vm_compute. reflexivity.
  - reflexivity.
  - reflexivity.
  - split; vm_compute; discriminate.
  - reflexivity.
  - vm_compute. discriminate.
  - exists w1, w2, w3. split; [exact S1|]. split; [exact S2|]. split; [exact R|exact A].
Defined.

(** ** Tunnel health: a check that passes *)

Lemma passed_check m p k t a w :
  monitoring m p k w -> healthArmed m t w -> t <= a ->
  exists w',
    run (passedCheck m (nextHandle w) t a) w = Some w'
    ∧ monitoring m p 0 w'
    ∧ clock w' = a
    ∧ nextHandle w' = S (nextHandle w)
    ∧ timers w' = <[m := mkTimer HealthPoll (t + 10000) (Some 10000)]> (timers w)
    ∧ tunnelHealthStatus w' = healthy
    ∧ currentTunnelURL w' = currentTunnelURL w
    ∧ tunnelRestarting w' = tunnelRestarting w
    ∧ calls w' = calls w
    ∧ sent w' = sent w ++ (if is_healthy (tunnelHealthStatus w) then []
                           else [mkSent "tunnel-health" (PHealth healthy)]).
Proof.
  intros (Hu & Hs & Hp & (pr & Hpr & Hkind) & Hlt & Hf) Ha Hta.
  unfold passedCheck, run.
  rewrite (health_tick_fires m t w Ha).
  destruct (healthTick_probes m (rearm m HealthPoll 10000 (set_clock t w)))
    as (file & e & ->); [done..|].
  rewrite (probe_answers (nextHandle w) m);
    [|unfold probe; simpl; apply lookup_insert_eq|simpl; lia].
  eexists. split; [reflexivity|].
  unfold healthTickResume. cbv beta iota zeta.
  match goal with
  | |- context [is_healthy (tunnelHealthStatus ?x)] =>
      change (tunnelHealthStatus x) with (tunnelHealthStatus w)
  end.
  destruct (tunnelHealthStatus w) eqn:Hst; simpl; rewrite ?Hst;
    (split;
     [split; [done|split; [done|split; [done|split; [by exists pr|split;
        [simpl; lia|simpl; by rewrite lookup_insert_eq]]]]]|]);
    rewrite ?app_nil_r; repeat split; done.
Qed.

(** X15.  The failures that restart the tunnel must be consecutive.  From
    health [healthy] with no failure counted, two failed checks and then
    one that passes leave the monitor where it started: health is
    [healthy] again, no failure is counted, the URL is still published and
    [startTunnel] was not entered; [checking] was reported once, after the
    first failure, and [healthy] once, after the check that passed.  The
    interval is armed for the next check, so that a restart needs three
    more failures in a row. *)
Theorem failed_checks_must_be_consecutive
        (w : World) (m p : nat) (t1 a1 t2 a2 t3 a3 : Z) :
  tunnelHealthStatus w = healthy ->
  monitoring m p 0 w ->
  healthArmed m t1 w ->
  t1 <= a1 -> a1 <= t2 -> t1 + 10000 <= t2 ->
  t2 <= a2 -> a2 <= t3 -> t2 + 10000 <= t3 ->
  t3 <= a3 ->
  let q := nextHandle w in
  exists w1 w2 w3,
    run (failedCheck m q t1 a1) w = Some w1
    ∧ run (failedCheck m (S q) t2 a2) w1 = Some w2
    ∧ monitoring m p 2 w2
    ∧ tunnelHealthStatus w2 = checking
    ∧ run (passedCheck m (S (S q)) t3 a3) w2 = Some w3
    ∧ monitoring m p 0 w3
    ∧ tunnelHealthStatus w3 = healthy
    ∧ currentTunnelURL w3 = currentTunnelURL w
    ∧ calls w3 = calls w
    ∧ sent w3 = sent w ++ [mkSent "tunnel-health" (PHealth checking);
                           mkSent "tunnel-health" (PHealth healthy)]
    ∧ (forall t4, a3 <= t4 -> t3 + 10000 <= t4 -> healthArmed m t4 w3).
Proof.
  intros Hh M Ha H1 H2 H3 H4 H5 H6 H7 q. subst q.
  destruct (failed_check_early m p 0 t1 a1 w M Ha H1)
    as (w1 & R1 & M1 & C1 & N1 & T1 & S1 & U1 & G1 & K1 & E1); [lia|].
  assert (A1 : healthArmed m t2 w1).
  { split; [lia|]. exists (t1 + 10000). rewrite T1. split; [apply lookup_insert_eq|lia]. }
  destruct (failed_check_early m p 1 t2 a2 w1 M1 A1 H4)
    as (w2 & R2 & M2 & C2 & N2 & T2 & S2 & U2 & G2 & K2 & E2); [lia|].
  assert (A2 : healthArmed m t3 w2).
  { split; [lia|]. exists (t2 + 10000). rewrite T2. split; [apply lookup_insert_eq|lia]. }
  destruct (passed_check m p 2 t3 a3 w2 M2 A2 H7)
    as (w3 & R3 & M3 & C3 & N3 & T3 & S3 & U3 & G3 & K3 & E3).
  exists w1, w2, w3. rewrite N1 in R2. rewrite N2, N1 in R3.
  simpl in S1, S2, E1, E2. rewrite app_nil_r in E2. rewrite S1 in S2.
  rewrite S2 in E3. simpl in E3.
  split; [exact R1|]. split; [exact R2|]. split; [exact M2|]. split; [exact S2|].
  split; [exact R3|]. split; [exact M3|]. split; [exact S3|].
  split; [congruence|]. split; [congruence|]. split.
  { rewrite E3, E2, E1. by rewrite <- app_assoc. }
  intros t4 H8 H9. split; [lia|]. exists (t3 + 10000). rewrite T3.
  split; [apply lookup_insert_eq|lia].
Qed.

Lemma failed_checks_must_be_consecutive_witness :
  exists w1 w2 w3,
    run (failedCheck 6 7 12500 12600) Demo.published = Some w1
    ∧ run (failedCheck 6 8 22500 22600) w1 = Some w2
    ∧ run (passedCheck 6 9 32500 32600) w2 = Some w3
    ∧ monitoring 6 1 0 w3
    ∧ tunnelHealthStatus w3 = healthy.
Proof.
  assert (M : monitoring 6 1 0 Demo.published).
  { split; [vm_compute; discriminate|]. split; [vm_compute; reflexivity|].
    split; [vm_compute; reflexivity|]. split.
    - eexists. split; vm_compute; reflexivity.
    - split; [vm_compute; lia|vm_compute; reflexivity]. }
  assert (A : healthArmed 6 12500 Demo.published).
  { split; [vm_compute; discriminate|].
    eexists. split; [vm_compute; reflexivity|vm_compute; discriminate]. }
  assert (H : tunnelHealthStatus Demo.published = healthy) by (vm_compute; reflexivity).
  destruct (failed_checks_must_be_consecutive Demo.published 6 1
              12500 12600 22500 22600 32500 32600 H M A
              ltac:(lia) ltac:(lia) ltac:(lia) ltac:(lia) ltac:(lia) ltac:(lia)
              ltac:(lia))
    as (w1 & w2 & w3 & R1 & R2 & _ & _ & R3 & M3 & H3 & _).
  exists w1, w2, w3. split; [exact R1|]. split; [exact R2|]. split; [exact R3|].
  split; [exact M3|exact H3].
Defined.

(** ** Changing the AI source *)




(** ** Starting the gateway *)

Lemma startServer_fails w c :
  configFile w = ConfigJson c ->
  (binaries w "openclaw" = None ->
   startServer w
   = send (channel NO_OPENCLAW) (payload NO_OPENCLAW)
       (set_intentionallyStopping false (enter CallStartServer w)))
  ∧ (forall bin,
       binaries w "openclaw" = Some bin ->
       activeWorkspace (ensureNewFields c) ≫= (λ ws, head (Workspace.paths ws)) = None ->
       startServer w
       = send (channel NO_WORKSPACE) (payload NO_WORKSPACE)
           (set_intentionallyStopping false (enter CallStartServer w))).
Proof.
  intros F. split.
  - intros B. unfold startServer.
    rewrite (loadConfig_stored (enter CallStartServer w) c F). cbv beta iota zeta.
    unfold findBinary.
    change (binaries (set_intentionallyStopping false (enter CallStartServer w)))
      with (binaries w).
    by rewrite B.
  - intros bin B A. unfold startServer.
    rewrite (loadConfig_stored (enter CallStartServer w) c F). cbv beta iota zeta.
    unfold findBinary.
    change (binaries (set_intentionallyStopping false (enter CallStartServer w)))
      with (binaries w).
    by rewrite B, A.
Qed.

Lemma is_str_exclusive v a b : a ≠ b -> is_str v a = true -> is_str v b = false.
Proof.
  intros Hne H. destruct v; try done. simpl in *. apply String.eqb_eq in H. subst.
  by apply String.eqb_neq.
Qed.

(** The three shapes of the gateway's environment. *)
Lemma gatewayEnv_cases cur :
  let token := ("OPENCLAW_GATEWAY_TOKEN", JStr (password cur)) in
  let keyed := is_str (aiSource cur) "api-key" && truthy (apiKey cur) in
  (keyed = true ∧ is_str (apiProvider cur) "anthropic" = true
   ∧ gatewayEnv cur = [token; ("ANTHROPIC_API_KEY", apiKey cur)])
  ∨ (keyed = true ∧ is_str (apiProvider cur) "anthropic" = false
     ∧ is_str (apiProvider cur) "openai" = true
     ∧ gatewayEnv cur = [token; ("OPENAI_API_KEY", apiKey cur)])
  ∨ ((keyed = false
      ∨ (is_str (apiProvider cur) "anthropic" = false
         ∧ is_str (apiProvider cur) "openai" = false))
     ∧ gatewayEnv cur = [token]).
Proof.
  cbv zeta. unfold gatewayEnv.
  destruct (is_str (aiSource cur) "api-key" && truthy (apiKey cur)).
  - destruct (is_str (apiProvider cur) "anthropic"); [by left|].
    destruct (is_str (apiProvider cur) "openai"); [right; by left|].
    right. right. split; [by right|done].
  - right. right. split; [by left|done].
Qed.

(** X17.  The variables that [startServer] sets for the gateway, on top of the
    environment it inherits through [enrichedEnv].  When [startServer]
    spawns the gateway, the variables it sets start with the gateway
    token, which is the stored password.  They hold [ANTHROPIC_API_KEY]
    exactly when the source is [api-key], the stored key is truthy and the
    provider is [anthropic], and [OPENAI_API_KEY] exactly when the same
    holds with provider [openai]; with a CLI source they hold the token
    only.  With any other provider no key is set, although the generated
    OpenClaw config then names the Anthropic model. *)
Theorem startServer_sets_api_key_only_in_api_key_mode
        (w : World) (c : Config) (ws : Workspace.t) (cwd bin : string) :
  configFile w = ConfigJson c ->
  binaries w "openclaw" = Some bin ->
  activeWorkspace (ensureNewFields c) = Some ws ->
  head (Workspace.paths ws) = Some cwd ->
  let cur := ensureNewFields c in
  let w' := startServer w in
  exists env,
    gatewayProc w' = Some (nextHandle w)
    ∧ procs w' !! nextHandle w = Some (mkProc (Gateway cwd env) bin false)
    ∧ head env = Some ("OPENCLAW_GATEWAY_TOKEN", JStr (password c))
    ∧ (is_str (aiSource cur) "api-key" = false ->
       env = [("OPENCLAW_GATEWAY_TOKEN", JStr (password c))])
    ∧ (forall v, ("ANTHROPIC_API_KEY", v) ∈ env
                 <-> is_str (aiSource cur) "api-key" = true ∧ truthy (apiKey cur) = true
                     ∧ is_str (apiProvider cur) "anthropic" = true ∧ v = apiKey cur)
    ∧ (forall v, ("OPENAI_API_KEY", v) ∈ env
                 <-> is_str (aiSource cur) "api-key" = true ∧ truthy (apiKey cur) = true
                     ∧ is_str (apiProvider cur) "openai" = true ∧ v = apiKey cur)
    ∧ (is_str (aiSource cur) "api-key" = true ->
       is_str (apiProvider cur) "anthropic" = false ->
       is_str (apiProvider cur) "openai" = false ->
       env = [("OPENCLAW_GATEWAY_TOKEN", JStr (password c))]
       ∧ (oc_primary <$> openclawFile w') = Some "anthropic/claude-sonnet-4-20250514").
Proof.
  intros F B A H cur w'. exists (gatewayEnv cur).
  assert (E : w' = arm (GatewaySettle (port c) (password c)) 2000 None
                     (set_gatewayProc (Some (nextHandle w))
                        (launch (Gateway cwd (gatewayEnv cur)) bin (starting cur w))))
    by by apply startServer_spawns with ws.
  split; [by rewrite E|]. split.
  { rewrite E. simpl. apply lookup_insert_eq. }
  assert (G : (oc_primary <$> openclawFile w')
              = Some (if is_str (aiSource cur) "claude-cli" then "claude-cli/opus-4.6"
                      else if is_str (aiSource cur) "codex-cli" then "codex-cli/gpt-5.3-codex"
                      else if is_str (aiSource cur) "api-key" then
                        (if is_str (apiProvider cur) "openai"
                         then "openai/gpt-4o"
                         else "anthropic/claude-sonnet-4-20250514")
                      else "claude-cli/opus-4.6")) by by rewrite E.
  revert G. change (password c) with (password cur).
  generalize (openclawFile w'). generalize cur. clear. intros cur o G.
  pose proof (gatewayEnv_cases cur) as C. cbv zeta in C.
  pose proof (is_str_exclusive (apiProvider cur) "anthropic" "openai" ltac:(done)) as X.
  pose proof (is_str_exclusive (aiSource cur) "api-key" "claude-cli" ltac:(done)) as Y1.
  pose proof (is_str_exclusive (aiSource cur) "api-key" "codex-cli" ltac:(done)) as Y2.
  destruct (is_str (aiSource cur) "api-key") eqn:S1; simpl in C.
  - destruct C as [(K & P & ->)|[(K & P1 & P2 & ->)|([K|[P1 P2]] & ->)]].
    + rewrite K, P, (X P). split; [done|]. split; [done|]. split.
      { intros v. rewrite !elem_of_cons, elem_of_nil. split; [|intros (H1 & H2 & H3 & ->); first [congruence|right; by left]].
        intros [[=]|[[= ->]|[]]]. done. }
      split; [|done].
      intros v. rewrite !elem_of_cons, elem_of_nil. split; [|intros (H1 & H2 & H3 & ->); first [congruence|right; by left]].
      intros [[=]|[[=]|[]]].
    + rewrite K, P1, P2. split; [done|]. split; [done|]. split.
      { intros v. rewrite !elem_of_cons, elem_of_nil. split; [|intros (H1 & H2 & H3 & ->); first [congruence|right; by left]].
        intros [[=]|[[=]|[]]]. }
      split; [|done].
      intros v. rewrite !elem_of_cons, elem_of_nil. split; [|intros (H1 & H2 & H3 & ->); first [congruence|right; by left]].
      intros [[=]|[[= ->]|[]]]. done.
    + rewrite K. split; [done|]. split; [done|]. split.
      { intros v. rewrite !elem_of_cons, elem_of_nil. split; [|intros (H1 & H2 & H3 & ->); first [congruence|right; by left]].
        intros [[=]|[]]. }
      split.
      { intros v. rewrite !elem_of_cons, elem_of_nil. split; [|intros (H1 & H2 & H3 & ->); first [congruence|right; by left]].
        intros [[=]|[]]. }
      intros _ P1 P2. split; [done|]. by rewrite G, (Y1 eq_refl), (Y2 eq_refl), P2.
    + rewrite P1, P2. split; [done|]. split; [done|]. split.
      { intros v. rewrite !elem_of_cons, elem_of_nil. split; [|intros (H1 & H2 & H3 & ->); first [congruence|right; by left]].
        intros [[=]|[]]. }
      split.
      { intros v. rewrite !elem_of_cons, elem_of_nil. split; [|intros (H1 & H2 & H3 & ->); first [congruence|right; by left]].
        intros [[=]|[]]. }
      intros _ _ _. split; [done|]. by rewrite G, (Y1 eq_refl), (Y2 eq_refl), P2.
  - destruct C as [(K & _)|[(K & _)|(_ & ->)]]; [done|done|].
    split; [done|]. split; [done|]. split.
    { intros v. rewrite !elem_of_cons, elem_of_nil. split; [|intros (H1 & H2 & H3 & ->); first [congruence|right; by left]].
      intros [[=]|[]]. }
    split; [|done].
    intros v. rewrite !elem_of_cons, elem_of_nil. split; [|intros (H1 & H2 & H3 & ->); first [congruence|right; by left]].
    intros [[=]|[]].
Qed.

Lemma startServer_sets_api_key_only_in_api_key_mode_witness :
  exists env,
    procs (startServer Demo.boot) !! 0%nat
    = Some (mkProc (Gateway "/home/u/proj" env) "/usr/local/bin/openclaw" false)
    ∧ env = [("OPENCLAW_GATEWAY_TOKEN", JStr "s3cret")].
Proof.
  destruct (startServer_sets_api_key_only_in_api_key_mode Demo.boot Demo.config
              (Workspace.mk "w1" "proj" ["/home/u/proj"] []) "/home/u/proj"
              "/usr/local/bin/openclaw" eq_refl eq_refl eq_refl eq_refl)
    as (env & _ & P & _ & E & _).
  exists env. split; [exact P|]. by apply E.
Defined.

Lemma gatewayExit_unexpected code w :
  intentionallyStopping w = false ->
  let w' := gatewayExit code w in
  sent w' = sent w ++ exitReport code ++ [DISCONNECTED]
  ∧ timers w' = cleared (clientPresenceInterval w) (timers w)
  ∧ gatewayProc w' = gatewayProc w
  ∧ intentionallyStopping w' = false
  ∧ clock w' = clock w
  ∧ procs w' = procs w.
Proof.
  intros Hs. unfold gatewayExit, stopClientPresenceMonitor, exitReport. rewrite Hs.
  destruct (is_zero code); cbv beta iota zeta delta [negb];
    case_match; simpl in *; rewrite <- ?app_assoc; simpl;
    repeat split; try done; try congruence.
  all: by match goal with H : clientPresenceInterval ?x = _ |- _ => rewrite H end.
Qed.

(** X18.  A gateway that exits before its settle timer fires is still reported
    running.  The exit handler reports the exit and resets presence, but
    it leaves [gatewayProc] set; when the 2 s timer of [startServer] fires
    afterwards it finds the variable set and no stop in progress, so it
    sends [status running] (and the roster) although the process has left
    the process table. *)
Theorem early_gateway_exit_is_still_reported_running
        (w : World) (pid : nat) (pr : Proc) (code : option Z) (h : nat)
        (gport : Z) (token : string) (due t1 t2 : Z) :
  gatewayProc w = Some pid -> procs w !! pid = Some pr -> isGateway pr = true ->
  intentionallyStopping w = false ->
  timers w !! h = Some (mkTimer (GatewaySettle gport token) due None) ->
  clientPresenceInterval w ≠ Some h ->
  clock w <= t1 <= t2 -> due <= t2 ->
  exists w1 w2,
    step t1 (GatewayExit pid code) w = Some w1
    ∧ procs w1 !! pid = None
    ∧ gatewayProc w1 = Some pid
    ∧ sent w1 = sent w ++ exitReport code ++ [DISCONNECTED]
    ∧ step t2 (TimerFires h) w1 = Some w2
    ∧ procs w2 !! pid = None
    ∧ sent w2 = sent w1 ++ [RUNNING; ROSTER].
Proof.
  intros Hg Hp Hk Hs Ht Hi [Ht1 Ht2] Hd.
  rewrite (gateway_exits pid pr code t1 w Hp Hk Ht1).
  destruct (gatewayExit_unexpected code (reap pid (set_clock t1 w)) Hs)
    as (E1 & E2 & E3 & E4 & E5 & E6).
  revert E1 E2 E3 E4 E5 E6. generalize (gatewayExit code (reap pid (set_clock t1 w))).
  intros w1 E1 E2 E3 E4 E5 E6. simpl in E1, E2, E3, E5, E6.
  assert (T1 : timers w1 !! h = Some (mkTimer (GatewaySettle gport token) due None)).
  { rewrite E2. destruct (clientPresenceInterval w) as [h'|]; simpl; [|done].
    rewrite lookup_delete_ne; [done|congruence]. }
  exists w1, (gatewaySettle gport token (clearTimer h (set_clock t2 w1))).
  split; [done|]. split; [by rewrite E6, lookup_delete_eq|]. split; [congruence|].
  split; [done|]. split.
  { apply (timeout_fires h _ due t2 w1 T1); lia. }
  unfold gatewaySettle.
  change (gatewayProc (clearTimer h (set_clock t2 w1))) with (gatewayProc w1).
  change (intentionallyStopping (clearTimer h (set_clock t2 w1)))
    with (intentionallyStopping w1).
  rewrite E3, Hg, E4. simpl. split; [by rewrite E6, lookup_delete_eq|].
  by rewrite <- app_assoc.
Qed.

Lemma early_gateway_exit_is_still_reported_running_witness :
  exists w1 w2,
    step 1200 (GatewayExit 2%nat (Some 1)) Demo.world = Some w1
    ∧ step 3000 (TimerFires 3%nat) w1 = Some w2
    ∧ procs w2 !! 2%nat = None
    ∧ sent w2 = sent w1 ++ [RUNNING; ROSTER].
Proof.
  destruct (early_gateway_exit_is_still_reported_running Demo.world 2
              (mkProc (Gateway "/home/u/proj" [("OPENCLAW_GATEWAY_TOKEN", JStr "s3cret")])
                 "/usr/local/bin/openclaw" false)
              (Some 1) 3 4096 "s3cret" 3000 1200 3000
              eq_refl eq_refl eq_refl eq_refl eq_refl ltac:(discriminate)
              ltac:(split; vm_compute; discriminate) ltac:(vm_compute; discriminate))
    as (w1 & w2 & S1 & _ & _ & _ & S2 & P & S).
  exists w1, w2. split; [exact S1|]. split; [exact S2|]. split; [exact P|exact S].
Defined.

(** ** Workspaces *)

Lemma findWorkspace_update i j f wss :
  (forall ws, Workspace.id (f ws) = Workspace.id ws) ->
  findWorkspace j (updateWorkspace i f wss)
  = if String.eqb j i then f <$> findWorkspace i wss else findWorkspace j wss.
Proof.
  intros Hf. unfold findWorkspace.
  induction wss as [|ws wss IH]; simpl; [by destruct (String.eqb j i)|].
  destruct (String.eqb_spec (Workspace.id ws) i) as [Ei|Ni]; simpl.
  - rewrite Hf, Ei. destruct (String.eqb_spec i j) as [->|Nj].
    + by rewrite String.eqb_refl.
    + assert (String.eqb j i = false) as -> by (apply String.eqb_neq; congruence).
      done.
  - destruct (String.eqb_spec (Workspace.id ws) j) as [Ej|Nj].
    + subst j. by apply String.eqb_neq in Ni as ->.
    + exact IH.
Qed.

Lemma findWorkspace_without i j wss :
  findWorkspace j (without i wss)
  = if String.eqb j i then None else findWorkspace j wss.
Proof.
  unfold findWorkspace, without.
  induction wss as [|ws wss IH]; simpl; [by destruct (String.eqb j i)|].
  destruct (String.eqb_spec (Workspace.id ws) i) as [Ei|Ni]; simpl.
  - rewrite IH. destruct (String.eqb_spec j i) as [->|Nj]; [done|].
    destruct (String.eqb_spec (Workspace.id ws) j); [congruence|done].
  - destruct (String.eqb_spec (Workspace.id ws) j) as [Ej|Nj].
    + subst j. by apply String.eqb_neq in Ni as ->.
    + exact IH.
Qed.

Lemma findWorkspace_head wss :
  forall ws, head wss = Some ws -> is_Some (findWorkspace (Workspace.id ws) wss).
Proof.
  intros ws H. destruct wss as [|ws' wss]; [done|]. injection H as ->.
  unfold findWorkspace. simpl. rewrite String.eqb_refl. by eexists.
Qed.




Lemma includesPath_elem x l : includesPath x l = true <-> x ∈ l.
Proof. apply existsb_eqb_elem. Qed.

Lemma findWorkspace_last i wss ws :
  Workspace.id ws = i ->
  findWorkspace i (wss ++ [ws])
  = match findWorkspace i wss with Some x => Some x | None => Some ws end.
Proof.
  intros E. unfold findWorkspace. induction wss as [|x wss IH]; simpl.
  - by rewrite E, String.eqb_refl.
  - by destruct (String.eqb (Workspace.id x) i).
Qed.

Lemma ensureNewFields_with_active a c :
  ensureNewFields (with_active a c) = with_active a (ensureNewFields c).
Proof. reflexivity. Qed.

Lemma ensureNewFields_with_workspaces l c :
  ensureNewFields (with_workspaces l c) = with_workspaces l (ensureNewFields c).
Proof. reflexivity. Qed.

(** X20.  Creating a workspace.  [workspace:create] with a directory that some
    workspace already holds changes nothing, and so does a cancelled dialog.
    Otherwise one workspace is appended: its identifier is the next string
    of the entropy source, its name the base name of the directory, its
    only path the directory, nothing protected.  It becomes the active
    workspace when none was active.  When it is the first workspace it
    becomes active in any case, the setup server is closed and
    [startServer] is entered once: the gateway is spawned in the new
    directory when the [openclaw] binary is found.  When it is not the
    first, nothing is started, stopped or sent. *)
Theorem workspace_create_appends_and_autostarts
        (w : World) (c : Config) (dir : string) :
  configFile w = ConfigJson c ->
  let i := entropy w (entropyUsed w) in
  let ws := Workspace.mk i (basename dir) [dir] [] in
  let w' := ipcWorkspaceCreate (Some dir) w in
  ipcWorkspaceCreate None w = w
  ∧ (existsb (fun ws => includesPath dir (Workspace.paths ws)) (workspaces c) = true ->
     w' = w)
  ∧ (existsb (fun ws => includesPath dir (Workspace.paths ws)) (workspaces c) = false ->
     exists stored,
       configFile w' = ConfigJson stored
       ∧ workspaces stored = workspaces c ++ [ws]
       ∧ (noActive c = true -> activeWorkspaceId stored = Some i)
       ∧ (workspaces c ≠ [] ->
          (noActive c = false -> activeWorkspaceId stored = activeWorkspaceId c)
          ∧ calls w' = calls w ∧ sent w' = sent w ∧ procs w' = procs w
          ∧ setupHttpServer w' = setupHttpServer w)
       ∧ (workspaces c = [] ->
          activeWorkspaceId stored = Some i
          ∧ setupHttpServer w' = None
          ∧ calls w' = calls w ++ [CallStartServer]
          ∧ forall bin,
              binaries w "openclaw" = Some bin ->
              gatewayProc w' = Some (nextHandle w)
              ∧ procs w' !! nextHandle w
                = Some (mkProc (Gateway dir (gatewayEnv stored)) bin false))).
Proof.
  intros F i ws w'. subst w'. split; [|split].
  - unfold ipcWorkspaceCreate. by rewrite (loadConfig_stored w c F).
  - intros D. unfold ipcWorkspaceCreate. rewrite (loadConfig_stored w c F).
    change (workspaces (ensureNewFields c)) with (workspaces c). by rewrite D.
  - intros D. unfold ipcWorkspaceCreate. rewrite (loadConfig_stored w c F).
    change (workspaces (ensureNewFields c)) with (workspaces c). rewrite D.
    unfold randomBytes. cbv beta iota zeta. fold i. fold ws.
    set (c1 := with_workspaces (workspaces c ++ [ws]) (ensureNewFields c)).
    change (noActive c1) with (noActive c).
    set (c2 := if noActive c then with_active (Some i) c1 else c1).
    set (w1 := set_entropyUsed (S (entropyUsed w)) w).
    destruct (workspaces c) as [|x wss] eqn:W.
    + set (c3 := with_active (Some i) c2).
      set (x := stopSetupServer (saveConfig c3 (saveConfig c2 w1))).
      assert (W3 : workspaces c3 = [ws]).
      { subst c3 c2 c1. by destruct (noActive c). }
      assert (E3 : ensureNewFields c3 = c3).
      { subst c3 c2 c1. destruct (noActive c);
          by rewrite ?ensureNewFields_with_active, ?ensureNewFields_with_workspaces,
               ensureNewFields_twice. }
      exists c3. split; [by apply startServer_stored|]. split; [done|].
      split; [done|]. split; [done|]. intros _. split; [done|].
      split.
      { destruct (startServer_fails x c3 eq_refl) as [N1 N2].
        destruct (binaries w "openclaw") as [bin|] eqn:B.
        - rewrite (startServer_spawns x c3 ws dir bin eq_refl B); [done| |done].
          rewrite E3. unfold activeWorkspace. simpl activeWorkspaceId.
          rewrite W3. unfold findWorkspace. simpl. by rewrite String.eqb_refl.
        - by rewrite N1. }
      split; [by rewrite startServer_calls|].
      intros bin B.
      rewrite (startServer_spawns x c3 ws dir bin eq_refl B); [| |done].
      * rewrite E3. split; [done|]. simpl. apply lookup_insert_eq.
      * rewrite E3. unfold activeWorkspace. simpl activeWorkspaceId.
        rewrite W3. unfold findWorkspace. simpl. by rewrite String.eqb_refl.
    + exists c2. split; [done|]. split; [by subst c2 c1; destruct (noActive c)|].
      split; [intros N; subst c2; by rewrite N|]. split; [|done]. intros _.
      split; [intros N; subst c2; by rewrite N|]. done.
Qed.

Lemma workspace_create_appends_and_autostarts_witness :
  ipcWorkspaceCreate None Demo.world = Demo.world
  ∧ ipcWorkspaceCreate (Some "/home/u/proj") Demo.world = Demo.world.
Proof.
  destruct (workspace_create_appends_and_autostarts Demo.world Demo.config
              "/home/u/proj" eq_refl)
    as (N & D & _).
  split; [exact N|]. apply D. reflexivity.
Defined.




(** ** Protected paths *)

Lemma updateWorkspace_undo i f g wss :
  (forall ws, Workspace.id (f ws) = Workspace.id ws) ->
  (forall ws, Workspace.id ws = i -> g (f ws) = ws) ->
  updateWorkspace i g (updateWorkspace i f wss) = wss.
Proof.
  intros Hf Hg. induction wss as [|ws wss IH]; simpl; [done|].
  destruct (String.eqb_spec (Workspace.id ws) i) as [E|N]; simpl.
  - rewrite Hf. apply String.eqb_eq in E as E'. rewrite E'. by rewrite Hg.
  - apply String.eqb_neq in N as N'. by rewrite N', IH.
Qed.

Lemma filter_absent (x : string) l :
  x ∉ l -> List.filter (fun p => negb (String.eqb p x)) l = l.
Proof.
  induction l as [|y l IH]; simpl; [done|]. intros H.
  apply not_elem_of_cons in H as [H1 H2].
  assert (String.eqb y x = false) as -> by (apply String.eqb_neq; congruence).
  simpl. by rewrite IH.
Qed.

Lemma add_protected_opens i c ws w :
  configFile w = ConfigJson c -> findWorkspace i (workspaces c) = Some ws ->
  ipc (AddProtectedOpen i) w = Some (openDialog (ensureNewFields c) i w).
Proof.
  intros F H. unfold ipc, ipcAddProtectedOpen. rewrite (loadConfig_stored w c F).
  change (workspaces (ensureNewFields c)) with (workspaces c). by rewrite H.
Qed.

Lemma add_protected_closes d config i x picked w :
  dialogs w !! d = Some (config, i) ->
  ipc (AddProtectedClose d (x :: picked)) w
  = Some (saveConfig
            (with_workspaces (updateWorkspace i (protect (x :: picked)) (workspaces config))
               config)
            (closed d w)).
Proof. intros H. unfold ipc. by rewrite H. Qed.

Lemma remove_protected_saves i x c ws w :
  configFile w = ConfigJson c -> findWorkspace i (workspaces c) = Some ws ->
  ipc (RemoveProtected i x) w
  = Some (saveConfig
            (with_workspaces (updateWorkspace i (unprotect x) (workspaces c))
               (ensureNewFields c)) w).
Proof.
  intros F H. unfold ipc, ipcRemoveProtected. rewrite (loadConfig_stored w c F).
  change (workspaces (ensureNewFields c)) with (workspaces c). by rewrite H.
Qed.

(** X22.  Adding protected paths.  [workspace:add-protected] for a workspace
    that exists opens the dialog without writing anything.  When the
    dialog returns paths, those that the workspace does not protect yet
    are appended, in the dialog's order, after the ones it protects; the
    paths protected before stay, in their order, and no other workspace
    changes.  A path is protected afterwards exactly when it was protected
    before or was picked.  A cancelled dialog writes nothing, and for an
    identifier that names no workspace no dialog opens. *)
Theorem add_protected_appends_new_paths_only
        (w : World) (c : Config) (i : string) (ws : Workspace.t)
        (x : string) (picked : list string) :
  configFile w = ConfigJson c ->
  findWorkspace i (workspaces c) = Some ws ->
  let d := nextHandle w in
  exists w1 w2 stored,
    ipc (AddProtectedOpen i) w = Some w1
    ∧ configFile w1 = ConfigJson c
    ∧ ipc (AddProtectedClose d []) w1 = Some (closed d w1)
    ∧ ipc (AddProtectedClose d (x :: picked)) w1 = Some w2
    ∧ configFile w2 = ConfigJson stored
    ∧ dialogs w2 !! d = None
    ∧ findWorkspace i (workspaces stored) = Some (protect (x :: picked) ws)
    ∧ (forall j, j ≠ i ->
                 findWorkspace j (workspaces stored) = findWorkspace j (workspaces c))
    ∧ (forall p, p ∈ Workspace.protected (protect (x :: picked) ws)
                 <-> p ∈ Workspace.protected ws ∨ p ∈ x :: picked)
    ∧ (forall j, findWorkspace j (workspaces c) = None ->
                 ipc (AddProtectedOpen j) w = Some w).
Proof.
  intros F H d.
  set (w1 := openDialog (ensureNewFields c) i w).
  assert (D : dialogs w1 !! d = Some (ensureNewFields c, i)) by apply lookup_insert_eq.
  set (stored := with_workspaces
                   (updateWorkspace i (protect (x :: picked))
                      (workspaces (ensureNewFields c))) (ensureNewFields c)).
  exists w1, (saveConfig stored (closed d w1)), stored.
  split; [by apply add_protected_opens with ws|]. split; [exact F|].
  split; [unfold ipc; by rewrite D|].
  split; [by apply add_protected_closes|]. split; [done|].
  split; [simpl; apply lookup_delete_eq|]. split; [|split; [|split]].
  - change (workspaces stored)
      with (updateWorkspace i (protect (x :: picked)) (workspaces c)).
    rewrite findWorkspace_update by done. by rewrite String.eqb_refl, H.
  - intros j Hj.
    change (workspaces stored)
      with (updateWorkspace i (protect (x :: picked)) (workspaces c)).
    rewrite findWorkspace_update by done.
    by apply String.eqb_neq in Hj as ->.
  - intros p. unfold protect. cbn [Workspace.protected].
    rewrite elem_of_app. split.
    + intros [Hp|Hp]; [by left|right].
      apply list_elem_of_In, filter_In in Hp as [Hp _]. by apply list_elem_of_In.
    + intros [Hp|Hp]; [by left|].
      destruct (includesPath p (Workspace.protected ws)) eqn:I.
      * left. by apply includesPath_elem.
      * right. apply list_elem_of_In, filter_In. split; [by apply list_elem_of_In|].
        by rewrite I.
  - intros j Hj. unfold ipc, ipcAddProtectedOpen. rewrite (loadConfig_stored w c F).
    change (workspaces (ensureNewFields c)) with (workspaces c). by rewrite Hj.
Qed.

Lemma add_protected_appends_new_paths_only_witness :
  exists w1 w2 stored,
    ipc (AddProtectedOpen "w1") Demo.world = Some w1
    ∧ ipc (AddProtectedClose 4 ["/home/u/proj/.env"; "/home/u/proj/keys"]) w1 = Some w2
    ∧ configFile w2 = ConfigJson stored
    ∧ (Workspace.protected <$> findWorkspace "w1" (workspaces stored))
      = Some ["/home/u/proj/.env"; "/home/u/proj/keys"].
Proof.
  destruct (add_protected_appends_new_paths_only Demo.world Demo.config "w1"
              (Workspace.mk "w1" "proj" ["/home/u/proj"] [])
              "/home/u/proj/.env" ["/home/u/proj/keys"] eq_refl eq_refl)
    as (w1 & w2 & stored & O & _ & _ & C & F & _ & W & _).
  exists w1, w2, stored. split; [exact O|]. split; [exact C|]. split; [exact F|].
  rewrite W. reflexivity.
Defined.

(** X23.  Protecting a path and removing it again.  For a workspace that
    exists and does not protect [x] yet: after [workspace:add-protected]
    returns [x], the workspace protects its former paths and then [x];
    after [workspace:remove-protected] for [x] the stored workspaces are
    the ones stored at the start. *)
Theorem protected_path_added_then_removed
        (w : World) (c : Config) (i : string) (ws : Workspace.t) (x : string) :
  configFile w = ConfigJson c ->
  findWorkspace i (workspaces c) = Some ws ->
  x ∉ Workspace.protected ws ->
  let d := nextHandle w in
  exists w1 w2 w3 s2 s3,
    ipc (AddProtectedOpen i) w = Some w1
    ∧ ipc (AddProtectedClose d [x]) w1 = Some w2
    ∧ configFile w2 = ConfigJson s2
    ∧ (Workspace.protected <$> findWorkspace i (workspaces s2))
      = Some (Workspace.protected ws ++ [x])
    ∧ ipc (RemoveProtected i x) w2 = Some w3
    ∧ configFile w3 = ConfigJson s3
    ∧ workspaces s3 = workspaces c.
Proof.
  intros F H Hx d.
  set (w1 := openDialog (ensureNewFields c) i w).
  assert (D : dialogs w1 !! d = Some (ensureNewFields c, i)) by apply lookup_insert_eq.
  set (s2 := with_workspaces
               (updateWorkspace i (protect [x]) (workspaces c)) (ensureNewFields c)).
  set (w2 := saveConfig s2 (closed d w1)).
  assert (P : Workspace.protected (protect [x] ws) = Workspace.protected ws ++ [x]).
  { unfold protect. cbn [Workspace.protected List.filter].
    destruct (includesPath x (Workspace.protected ws)) eqn:I; [|done].
    by apply includesPath_elem in I. }
  assert (H2 : findWorkspace i (workspaces s2) = Some (protect [x] ws)).
  { change (workspaces s2) with (updateWorkspace i (protect [x]) (workspaces c)).
    rewrite findWorkspace_update by done. by rewrite String.eqb_refl, H. }
  set (s3 := with_workspaces
               (updateWorkspace i (unprotect x) (workspaces s2)) (ensureNewFields s2)).
  exists w1, w2, (saveConfig s3 w2), s2, s3.
  split; [by apply add_protected_opens with ws|].
  split; [by apply (add_protected_closes d (ensureNewFields c) i x [] w1 D)|].
  split; [done|]. split; [by rewrite H2, <- P|].
  split; [by apply remove_protected_saves with (protect [x] ws)|].
  split; [done|].
  change (workspaces s3)
    with (updateWorkspace i (unprotect x)
            (updateWorkspace i (protect [x]) (workspaces c))).
  (* only the workspace found is touched, and for it the two updates cancel *)
  clear -H Hx. unfold findWorkspace in H.
  induction (workspaces c) as [|y wss IH]; simpl in *; [done|].
  destruct (String.eqb_spec (Workspace.id y) i) as [E|N]; simpl.
  - injection H as ->. rewrite E, String.eqb_refl. f_equal.
    unfold unprotect, protect. cbn [Workspace.id Workspace.name Workspace.paths
                                    Workspace.protected List.filter].
    destruct (includesPath x (Workspace.protected ws)) eqn:I.
    { by apply includesPath_elem in I. }
    cbn [negb]. rewrite List.filter_app. simpl. rewrite String.eqb_refl. simpl.
    rewrite app_nil_r, filter_absent by done. by destruct ws.
  - apply String.eqb_neq in N as N'. rewrite N'. f_equal. by apply IH.
Qed.

Lemma protected_path_added_then_removed_witness :
  exists w1 w2 w3 s3,
    ipc (AddProtectedOpen "w1") Demo.world = Some w1
    ∧ ipc (AddProtectedClose 4 ["/home/u/proj/.env"]) w1 = Some w2
    ∧ ipc (RemoveProtected "w1" "/home/u/proj/.env") w2 = Some w3
    ∧ configFile w3 = ConfigJson s3
    ∧ workspaces s3 = workspaces Demo.config.
Proof.
  destruct (protected_path_added_then_removed Demo.world Demo.config "w1"
              (Workspace.mk "w1" "proj" ["/home/u/proj"] []) "/home/u/proj/.env"
              eq_refl eq_refl)
    as (w1 & w2 & w3 & s2 & s3 & O & C & _ & _ & R & F & W).
  - simpl. apply not_elem_of_nil.
  - exists w1, w2, w3, s3. split; [exact O|]. split; [exact C|]. split; [exact R|].
    split; [exact F|exact W].
Defined.

(** ** The proxy's own routes *)



Lemma route_ai_config px r w :
  method r = "POST" -> url r = "/global/ai-config" ->
  unauthorized (expectedAuth px) r = false ->
  proxyRequest px r w = postAiConfig (body r) w.
Proof. intros Hm Hu Ha. unfold proxyRequest. by rewrite Hm, Hu, Ha. Qed.



(** X25.  Rejected AI settings change nothing.  An authorised
    [POST /global/ai-config] whose body is not JSON, or whose [aiSource] is
    missing, falsy or none of [claude-cli], [codex-cli] and [api-key], is
    answered 400 and leaves the whole state as it was: the config file is
    not read or written and the gateway is not restarted, whatever else
    the body holds. *)
Theorem rejected_ai_config_changes_nothing
        (px : ProxyClosure) (r : Request) (w : World) :
  method r = "POST" -> url r = "/global/ai-config" ->
  unauthorized (expectedAuth px) r = false ->
  (body r = Malformed ->
   proxyRequest px r w = (Respond 400 (ErrorBody "Invalid JSON body"), w))
  ∧ (forall f,
       body r = Fields f ->
       field f "aiSource" ≠ JStr "claude-cli" ->
       field f "aiSource" ≠ JStr "codex-cli" ->
       field f "aiSource" ≠ JStr "api-key" ->
       proxyRequest px r w = (Respond 400 (ErrorBody "Invalid aiSource"), w)).
Proof.
  intros Hm Hu Ha. rewrite (route_ai_config px r w Hm Hu Ha). split.
  - by intros ->.
  - intros f -> N1 N2 N3. unfold postAiConfig.
    assert (is_str (field f "aiSource") "claude-cli" || is_str (field f "aiSource") "codex-cli"
            || is_str (field f "aiSource") "api-key" = false) as ->; [|by rewrite orb_true_r].
    destruct (field f "aiSource") as [| | | |s|]; try done. simpl.
    rewrite !orb_false_iff. repeat split; apply String.eqb_neq; congruence.
Qed.

Lemma rejected_ai_config_changes_nothing_witness :
  proxyRequest Demo.proxy postBadSource Demo.world
  = (Respond 400 (ErrorBody "Invalid aiSource"), Demo.world).
Proof.
  refine (proj2 (rejected_ai_config_changes_nothing Demo.proxy postBadSource Demo.world
                   eq_refl eq_refl eq_refl)
            (<["aiSource" := JStr "gemini"]> ∅) eq_refl _ _ _);
    vm_compute; discriminate.
Defined.

(** ** One secret, one port *)

Section Store.

Variables (pw : string) (pt : Z) (Q : Config -> Prop).

Hypothesis Q_ensure : forall c, Q c -> Q (ensureNewFields c).
Hypothesis Q_ai : forall a k p c, Q c -> Q (with_ai a k p c).
Hypothesis Q_active :
  forall i c, Q c -> is_Some (findWorkspace i (workspaces c)) -> Q (with_active (Some i) c).
Hypothesis Q_update :
  forall i f c, (forall ws, Workspace.id (f ws) = Workspace.id ws) -> Q c ->
                Q (with_workspaces (updateWorkspace i f (workspaces c)) c).
Hypothesis Q_append :
  forall ws c, Q c -> Q (with_workspaces (workspaces c ++ [ws]) c).
Hypothesis Q_without :
  forall i c, Q c -> activeWorkspaceId c ≠ Some i ->
              Q (with_workspaces (without i (workspaces c)) c).
Hypothesis Q_delete :
  forall i c, Q c ->
              Q (with_active (Workspace.id <$> head (without i (workspaces c)))
                   (with_workspaces (without i (workspaces c)) c)).

Lemma storeInv_frame w w' :
  configFile w' = configFile w ∧ dialogs w' = dialogs w
  ∧ proxyServer w' = proxyServer w ∧ setupHttpServer w' = setupHttpServer w
  ∧ procs w' = procs w ∧ openclawFile w' = openclawFile w ->
  storeInv pw pt Q w -> storeInv pw pt Q w'.
Proof.
  intros (E1 & E2 & E3 & E4 & E5 & E6). unfold storeInv.
  by rewrite E1, E2, E3, E4, E5, E6.
Qed.

(** Rebuild the invariant from its parts [I1] to [I6], leaving the part
    that changed. *)
Ltac parts :=
  split; [try eassumption|split; [try eassumption|split; [try eassumption|
  split; [try eassumption|split; [try eassumption|try eassumption]]]]].

Lemma saveConfig_storeInv c w :
  good pw pt Q c -> storeInv pw pt Q w -> storeInv pw pt Q (saveConfig c w).
Proof. intros G (_ & I2 & I3 & I4 & I5 & I6). parts. by exists c. Qed.

Lemma openDialog_storeInv c i w :
  good pw pt Q c -> storeInv pw pt Q w -> storeInv pw pt Q (openDialog c i w).
Proof.
  intros G (I1 & I2 & I3 & I4 & I5 & I6). parts.
  clear I1 I3 I4 I5 I6. intros d c' i'. unfold openDialog. simpl.
  destruct (decide (d = nextHandle w)) as [->|Hne].
  - rewrite lookup_insert_eq. by intros [= <- <-].
  - rewrite lookup_insert_ne by done. apply I2.
Qed.

Lemma closed_storeInv d w : storeInv pw pt Q w -> storeInv pw pt Q (closed d w).
Proof.
  intros (I1 & I2 & I3 & I4 & I5 & I6). parts.
  clear I1 I3 I4 I5 I6. intros d' c' i'. unfold closed. simpl.
  destruct (decide (d = d')) as [->|Hne].
  - by rewrite lookup_delete_eq.
  - rewrite lookup_delete_ne by done. apply I2.
Qed.

Lemma launch_storeInv k bin w :
  tokenOf pw pt k -> storeInv pw pt Q w -> storeInv pw pt Q (launch k bin w).
Proof.
  intros T (I1 & I2 & I3 & I4 & I5 & I6). parts.
  clear I1 I2 I3 I4 I6. intros pid pr. unfold launch. simpl.
  destruct (decide (pid = nextHandle w)) as [->|Hne].
  - rewrite lookup_insert_eq. by intros [= <-].
  - rewrite lookup_insert_ne by done. apply I5.
Qed.

Lemma signal_storeInv pid w :
  storeInv pw pt Q w ->
  storeInv pw pt Q
    (set_procs (alter (fun pr => mkProc (p_kind pr) (p_bin pr) true) pid (procs w)) w).
Proof.
  intros (I1 & I2 & I3 & I4 & I5 & I6). parts.
  clear I1 I2 I3 I4 I6. intros pid' pr. simpl.
  destruct (decide (pid = pid')) as [->|Hne].
  - rewrite lookup_alter_eq. destruct (procs w !! pid') as [pr'|] eqn:E; [|done].
    simpl. intros [= <-]. simpl. by apply (I5 pid' pr').
  - rewrite lookup_alter_ne by done. apply I5.
Qed.

Lemma reap_storeInv pid w : storeInv pw pt Q w -> storeInv pw pt Q (reap pid w).
Proof.
  intros (I1 & I2 & I3 & I4 & I5 & I6). parts.
  clear I1 I2 I3 I4 I6. intros pid' pr. unfold reap. simpl.
  destruct (decide (pid = pid')) as [->|Hne].
  - by rewrite lookup_delete_eq.
  - rewrite lookup_delete_ne by done. apply I5.
Qed.

Lemma proxy_storeInv o w :
  (forall px, o = Some px -> px = mkProxy pt (bearer pw)) ->
  storeInv pw pt Q w -> storeInv pw pt Q (set_proxyServer o w).
Proof. intros H (I1 & I2 & I3 & I4 & I5 & I6). parts; exact H. Qed.

Lemma setup_storeInv o w :
  (forall s, o = Some s -> s = (pt, bearer pw)) ->
  storeInv pw pt Q w -> storeInv pw pt Q (set_setupHttpServer o w).
Proof. intros H (I1 & I2 & I3 & I4 & I5 & I6). parts; exact H. Qed.

Lemma generate_storeInv c w :
  good pw pt Q c -> storeInv pw pt Q w -> storeInv pw pt Q (generateOpenClawConfig c w).
Proof.
  intros (G1 & G2 & _) (I1 & I2 & I3 & I4 & I5 & I6). parts.
  unfold generateOpenClawConfig. simpl. by intros oc [= <-].
Qed.

(** Under the invariant a load reads the file and changes nothing. *)
Lemma loadConfig_storeInv w :
  storeInv pw pt Q w -> exists raw, good pw pt Q (ensureNewFields raw) ∧ loadConfig w = (ensureNewFields raw, w).
Proof.
  intros ((c & F & G1 & G2 & G3) & _). exists c. split.
  - split; [done|]. split; [done|]. by apply Q_ensure.
  - by apply loadConfig_stored.
Qed.

(** Handlers already shown to keep the invariant; extended below. *)
Ltac sinv_known := fail.

(** Peel one operation off the world of the goal. *)
Ltac sinv_step :=
  match goal with
  | H : storeInv ?a ?b ?c ?w |- storeInv ?a ?b ?c ?w => exact H
  | |- storeInv _ _ _ (saveConfig _ _) => apply saveConfig_storeInv
  | |- storeInv _ _ _ (openDialog _ _ _) => apply openDialog_storeInv
  | |- storeInv _ _ _ (closed _ _) => apply closed_storeInv
  | |- storeInv _ _ _ (launch _ _ _) => apply launch_storeInv
  | |- storeInv _ _ _ (set_procs (alter _ _ _) _) => apply signal_storeInv
  | |- storeInv _ _ _ (reap _ _) => apply reap_storeInv
  | |- storeInv _ _ _ (set_proxyServer _ _) => apply proxy_storeInv
  | |- storeInv _ _ _ (set_setupHttpServer _ _) => apply setup_storeInv
  | |- storeInv _ _ _ (generateOpenClawConfig _ _) => apply generate_storeInv
  | |- _ => sinv_known
  | |- storeInv _ _ _ (?F ?w) =>
      apply (storeInv_frame w (F w));
      [generalize w; intro; repeat split; reflexivity|]
  end.

Ltac sinv := repeat sinv_step.

(** Replace every [loadConfig x] of the goal by what it reads. *)
Ltac sload :=
  repeat match goal with
         | |- context [loadConfig ?x] =>
             let I := fresh "I" in
             assert (I : storeInv pw pt Q x) by sinv;
             let raw := fresh "raw" in
             let G := fresh "G" in
             destruct (loadConfig_storeInv x I) as (raw & G & ->); clear I
         end.

Ltac shandler :=
  unfold spawn, setTimeout, setInterval, randomBytes, kill, closeGatewayWs,
    connectGatewayWs, setTunnelHealth;
  cbv beta iota zeta delta [fst snd]; sload; cbv beta iota zeta delta [fst snd];
  repeat (case_match; simplify_eq; cbv beta iota zeta delta [fst snd]).

(** The password and the port of a config that was changed by the
    setters of the handlers. *)
Ltac sgood :=
  match goal with
  | G : good _ _ _ ?c |- good _ _ _ _ =>
      split; [exact (proj1 G)|split; [exact (proj1 (proj2 G))|]];
      pose proof (proj2 (proj2 G))
  end.

(** The gateway is given the password as its token. *)
Ltac stoken :=
  unfold tokenOf, gatewayToken; simpl;
  match goal with
  | G : good _ _ _ _ |- _ =>
      first [do 3 f_equal; exact (proj1 G) | f_equal; exact (proj1 (proj2 G))]
  end.

Lemma startServer_storeInv w : storeInv pw pt Q w -> storeInv pw pt Q (startServer w).
Proof.
  intros H. unfold startServer. shandler; sinv; first [done|stoken].
Qed.

Lemma stopServer_storeInv b w : storeInv pw pt Q w -> storeInv pw pt Q (stopServer b w).
Proof. intros H. unfold stopServer, stopClientPresenceMonitor. shandler; sinv. Qed.

Lemma startTunnel_storeInv w : storeInv pw pt Q w -> storeInv pw pt Q (startTunnel w).
Proof. intros H. unfold startTunnel. shandler; sinv. stoken. Qed.

Lemma startTunnelHealthMonitor_storeInv w :
  storeInv pw pt Q w -> storeInv pw pt Q (startTunnelHealthMonitor w).
Proof. intros H. unfold startTunnelHealthMonitor. shandler; sinv. Qed.

Lemma startClientPresenceMonitor_storeInv w :
  storeInv pw pt Q w -> storeInv pw pt Q (startClientPresenceMonitor w).
Proof. intros H. unfold startClientPresenceMonitor. shandler; sinv. Qed.

Lemma stopClientPresenceMonitor_storeInv w :
  storeInv pw pt Q w -> storeInv pw pt Q (stopClientPresenceMonitor w).
Proof. intros H. unfold stopClientPresenceMonitor. shandler; sinv. Qed.

Lemma presenceTick_storeInv w :
  storeInv pw pt Q w -> storeInv pw pt Q (presenceTick w).
Proof. intros H. unfold presenceTick. shandler; sinv. Qed.

Ltac sinv_known ::=
  match goal with
  | |- storeInv _ _ _ (startServer _) => apply startServer_storeInv
  | |- storeInv _ _ _ (stopServer _ _) => apply stopServer_storeInv
  | |- storeInv _ _ _ (startTunnel _) => apply startTunnel_storeInv
  | |- storeInv _ _ _ (startTunnelHealthMonitor _) => apply startTunnelHealthMonitor_storeInv
  | |- storeInv _ _ _ (startClientPresenceMonitor _) =>
      apply startClientPresenceMonitor_storeInv
  | |- storeInv _ _ _ (stopClientPresenceMonitor _) =>
      apply stopClientPresenceMonitor_storeInv
  | |- storeInv _ _ _ (presenceTick _) => apply presenceTick_storeInv
  end.

Lemma stopAll_storeInv w : storeInv pw pt Q w -> storeInv pw pt Q (stopAll w).
Proof.
  intros H. unfold stopAll, stopProxyServer, stopSetupServer. shandler; sinv; done.
Qed.

Lemma healthTick_storeInv m w :
  storeInv pw pt Q w -> storeInv pw pt Q (healthTick m w).
Proof. intros H. unfold healthTick. shandler; sinv. Qed.

Lemma healthTickResume_storeInv m ok w :
  storeInv pw pt Q w -> storeInv pw pt Q (healthTickResume m ok w).
Proof. intros H. unfold healthTickResume. shandler; sinv. Qed.

Lemma waitForDns_storeInv poll w :
  storeInv pw pt Q w -> storeInv pw pt Q (waitForDns poll w).
Proof. intros H. unfold waitForDns. shandler; sinv. Qed.

Lemma dnsCallback_storeInv poll err w :
  storeInv pw pt Q w -> storeInv pw pt Q (dnsCallback poll err w).
Proof. intros H. unfold dnsCallback. shandler; sinv. Qed.

Lemma tunnelExit_storeInv pid w :
  storeInv pw pt Q w -> storeInv pw pt Q (tunnelExit pid w).
Proof. intros H. unfold tunnelExit. shandler; sinv. Qed.

Lemma gatewayExit_storeInv code w :
  storeInv pw pt Q w -> storeInv pw pt Q (gatewayExit code w).
Proof. intros H. unfold gatewayExit. shandler; sinv. Qed.

Lemma gatewaySettle_storeInv gport token w :
  storeInv pw pt Q w -> storeInv pw pt Q (gatewaySettle gport token w).
Proof. intros H. unfold gatewaySettle. shandler; sinv. Qed.

Ltac sinv_known ::=
  match goal with
  | |- storeInv _ _ _ (startServer _) => apply startServer_storeInv
  | |- storeInv _ _ _ (stopServer _ _) => apply stopServer_storeInv
  | |- storeInv _ _ _ (startTunnel _) => apply startTunnel_storeInv
  | |- storeInv _ _ _ (startTunnelHealthMonitor _) => apply startTunnelHealthMonitor_storeInv
  | |- storeInv _ _ _ (startClientPresenceMonitor _) =>
      apply startClientPresenceMonitor_storeInv
  | |- storeInv _ _ _ (stopClientPresenceMonitor _) =>
      apply stopClientPresenceMonitor_storeInv
  | |- storeInv _ _ _ (presenceTick _) => apply presenceTick_storeInv
  | |- storeInv _ _ _ (stopAll _) => apply stopAll_storeInv
  | |- storeInv _ _ _ (healthTick _ _) => apply healthTick_storeInv
  | |- storeInv _ _ _ (healthTickResume _ _ _) => apply healthTickResume_storeInv
  | |- storeInv _ _ _ (waitForDns _ _) => apply waitForDns_storeInv
  | |- storeInv _ _ _ (dnsCallback _ _ _) => apply dnsCallback_storeInv
  | |- storeInv _ _ _ (tunnelExit _ _) => apply tunnelExit_storeInv
  | |- storeInv _ _ _ (gatewayExit _ _) => apply gatewayExit_storeInv
  | |- storeInv _ _ _ (gatewaySettle _ _ _) => apply gatewaySettle_storeInv
  end.

Lemma onData_storeInv pid text w :
  storeInv pw pt Q w -> storeInv pw pt Q (onData pid text w).
Proof. intros H. unfold onData. shandler; sinv. Qed.

Lemma postAiConfig_storeInv b w :
  storeInv pw pt Q w -> storeInv pw pt Q (snd (postAiConfig b w)).
Proof.
  intros H. unfold postAiConfig. shandler; sinv.
  all: sgood; by apply Q_ai.
Qed.

Lemma postActiveWorkspace_storeInv b w :
  storeInv pw pt Q w -> storeInv pw pt Q (snd (postActiveWorkspace b w)).
Proof.
  intros H. unfold postActiveWorkspace. shandler; sinv.
  all: sgood; apply Q_active; [done|]; by eexists.
Qed.

Lemma proxyRequest_storeInv px r w :
  storeInv pw pt Q w -> storeInv pw pt Q (snd (proxyRequest px r w)).
Proof.
  intros H. unfold proxyRequest. sload.
  repeat (case_match; simplify_eq);
    first [ by apply postAiConfig_storeInv
          | by apply postActiveWorkspace_storeInv
          | cbv beta iota zeta delta [fst snd]; sinv ].
Qed.

Ltac sinv_known ::=
  match goal with
  | |- storeInv _ _ _ (startServer _) => apply startServer_storeInv
  | |- storeInv _ _ _ (stopServer _ _) => apply stopServer_storeInv
  | |- storeInv _ _ _ (startTunnel _) => apply startTunnel_storeInv
  | |- storeInv _ _ _ (startTunnelHealthMonitor _) => apply startTunnelHealthMonitor_storeInv
  | |- storeInv _ _ _ (startClientPresenceMonitor _) =>
      apply startClientPresenceMonitor_storeInv
  | |- storeInv _ _ _ (stopClientPresenceMonitor _) =>
      apply stopClientPresenceMonitor_storeInv
  | |- storeInv _ _ _ (presenceTick _) => apply presenceTick_storeInv
  | |- storeInv _ _ _ (stopAll _) => apply stopAll_storeInv
  | |- storeInv _ _ _ (healthTick _ _) => apply healthTick_storeInv
  | |- storeInv _ _ _ (healthTickResume _ _ _) => apply healthTickResume_storeInv
  | |- storeInv _ _ _ (waitForDns _ _) => apply waitForDns_storeInv
  | |- storeInv _ _ _ (dnsCallback _ _ _) => apply dnsCallback_storeInv
  | |- storeInv _ _ _ (tunnelExit _ _) => apply tunnelExit_storeInv
  | |- storeInv _ _ _ (gatewayExit _ _) => apply gatewayExit_storeInv
  | |- storeInv _ _ _ (gatewaySettle _ _ _) => apply gatewaySettle_storeInv
  | |- storeInv _ _ _ (onData _ _ _) => apply onData_storeInv
  end.

Lemma ipcSetAiSource_storeInv a k p w :
  storeInv pw pt Q w -> storeInv pw pt Q (ipcSetAiSource a k p w).
Proof.
  intros H. unfold ipcSetAiSource. shandler; sinv.
  all: sgood; by apply Q_ai.
Qed.

Lemma ipcWorkspaceCreate_storeInv picked w :
  storeInv pw pt Q w -> storeInv pw pt Q (ipcWorkspaceCreate picked w).
Proof.
  intros H. unfold ipcWorkspaceCreate, stopSetupServer, randomBytes.
  destruct picked as [dirPath|]; cbv beta iota zeta delta [fst snd]; sload;
    cbv beta iota zeta delta [fst snd]; [|exact H].
  destruct (existsb _ _); [exact H|].
  generalize (match workspaces (ensureNewFields raw) with [] => true | _ :: _ => false end).
  intros wasEmpty.
  set (i := entropy w (entropyUsed w)).
  set (ws := Workspace.mk i (basename dirPath) [dirPath] []).
  set (c1 := with_workspaces (workspaces (ensureNewFields raw) ++ [ws]) (ensureNewFields raw)).
  assert (F : is_Some (findWorkspace i (workspaces c1))).
  { simpl. rewrite findWorkspace_last by reflexivity. by case_match. }
  assert (G1 : good pw pt Q c1).
  { sgood. by apply Q_append. }
  assert (G2 : good pw pt Q (with_active (Some i) c1)).
  { clear G. sgood. by apply Q_active. }
  set (c2 := if noActive c1 then with_active (Some i) c1 else c1).
  assert (G3 : good pw pt Q c2) by (subst c2; by destruct (noActive c1)).
  assert (G4 : good pw pt Q (with_active (Some i) c2)).
  { subst c2. destruct (noActive c1); [|exact G2].
    clear G G1. sgood. by apply Q_active. }
  clearbody c2. clear G G1 G2 F. clearbody c1 ws i.
  destruct wasEmpty; sinv; done.
Qed.

Lemma ipcWorkspaceRename_storeInv i newName w :
  storeInv pw pt Q w -> storeInv pw pt Q (ipcWorkspaceRename i newName w).
Proof.
  intros H. unfold ipcWorkspaceRename. shandler; sinv.
  sgood. by apply Q_update.
Qed.

Lemma ipcWorkspaceDelete_storeInv i w :
  storeInv pw pt Q w -> storeInv pw pt Q (ipcWorkspaceDelete i w).
Proof.
  intros H. unfold ipcWorkspaceDelete. shandler; sinv.
  all: sgood.
  all: match goal with
       | G : good _ _ _ ?c, K : Q ?c |- _ =>
           first [ exact (Q_delete i c K)
                 | refine (Q_without i c K _); intros E; simpl in *;
                   repeat match goal with
                          | N : String.eqb _ _ = false |- _ => apply String.eqb_neq in N
                          end; congruence ]
       end.
Qed.

Lemma ipcWorkspaceSetActive_storeInv i w :
  storeInv pw pt Q w -> storeInv pw pt Q (ipcWorkspaceSetActive i w).
Proof.
  intros H. unfold ipcWorkspaceSetActive. shandler; sinv.
  sgood. apply Q_active; [done|]. by eexists.
Qed.

Lemma ipcAddProtectedOpen_storeInv i w :
  storeInv pw pt Q w -> storeInv pw pt Q (ipcAddProtectedOpen i w).
Proof. intros H. unfold ipcAddProtectedOpen. shandler; sinv. done. Qed.

Lemma ipcAddProtectedClose_storeInv c i picked w :
  good pw pt Q c -> storeInv pw pt Q w ->
  storeInv pw pt Q (ipcAddProtectedClose c i picked w).
Proof.
  intros G H. unfold ipcAddProtectedClose. shandler; sinv.
  sgood. by apply Q_update.
Qed.

Lemma ipcRemoveProtected_storeInv i x w :
  storeInv pw pt Q w -> storeInv pw pt Q (ipcRemoveProtected i x w).
Proof.
  intros H. unfold ipcRemoveProtected. shandler; sinv.
  sgood. by apply Q_update.
Qed.

Lemma ipc_storeInv c w w' :
  storeInv pw pt Q w -> ipc c w = Some w' -> storeInv pw pt Q w'.
Proof.
  intros H E. destruct c; simpl in E.
  - injection E as <-. destruct (loadConfig_storeInv w H) as (raw & _ & ->). exact H.
  - injection E as <-. by apply startServer_storeInv.
  - injection E as <-. by apply stopServer_storeInv.
  - injection E as <-. by apply ipcSetAiSource_storeInv.
  - injection E as <-. by apply ipcWorkspaceCreate_storeInv.
  - injection E as <-. by apply ipcWorkspaceRename_storeInv.
  - injection E as <-. by apply ipcWorkspaceDelete_storeInv.
  - injection E as <-. by apply ipcWorkspaceSetActive_storeInv.
  - injection E as <-. by apply ipcAddProtectedOpen_storeInv.
  - destruct (dialogs w !! dialog) as [[c i]|] eqn:D; [|done]. injection E as <-.
    apply ipcAddProtectedClose_storeInv; [|by apply closed_storeInv].
    destruct H as (_ & I2 & _). by apply (I2 dialog c i).
  - injection E as <-. by apply ipcRemoveProtected_storeInv.
Qed.

Lemma startProxyServer_storeInv listen w :
  storeInv pw pt Q w -> storeInv pw pt Q (startProxyServer pt listen w).
Proof.
  intros H. unfold startProxyServer. shandler; sinv.
  intros px [= <-]. unfold bearer. f_equal. f_equal. exact (proj1 G).
Qed.

Lemma startSetupServer_storeInv w :
  storeInv pw pt Q w -> storeInv pw pt Q (startSetupServer w).
Proof.
  intros H. unfold startSetupServer. shandler; sinv.
  intros s [= <-]. unfold bearer. f_equal; [exact (proj1 (proj2 G))|].
  f_equal. exact (proj1 G).
Qed.

Lemma step_storeInv now e w w' :
  step now e w = Some w' -> storeInv pw pt Q w -> storeInv pw pt Q w'.
Proof.
  unfold step. destruct (now <? clock w); [done|]. intros E H.
  assert (H' : storeInv pw pt Q (set_clock now w)) by sinv.
  revert E H'. generalize (set_clock now w). clear H w. intros w E H.
  destruct e; repeat case_match; simplify_eq.
  - by apply proxyRequest_storeInv.
  - done.
  - assert (storeInv pw pt Q (rearm h (t_kind t) z w)) by (unfold rearm; sinv).
    unfold timerBody. case_match; sinv.
  - assert (storeInv pw pt Q (clearTimer h w)) by (unfold clearTimer; sinv).
    unfold timerBody. case_match; sinv.
  - unfold answered. sinv.
  - unfold resolved. sinv.
  - sinv.
  - unfold tunnelError. sinv.
  - sinv.
  - unfold forwardLog. sinv.
  - unfold gatewayError. sinv.
  - sinv.
  - sinv.
  - by eapply ipc_storeInv.
  - unfold onSuspend. sinv.
  - unfold onResume. shandler; sinv.
  - sinv.
Qed.

Lemma run_storeInv evs : forall w w',
  run evs w = Some w' -> storeInv pw pt Q w -> storeInv pw pt Q w'.
Proof.
  induction evs as [|[now e] rest IH]; intros w w' E H; simpl in E.
  - by simplify_eq.
  - destruct (step now e w) as [w1|] eqn:S; [|done].
    apply (IH w1 w' E). by apply (step_storeInv now e w w1).
Qed.

(** The first load of a start establishes the invariant. *)
Lemma loadConfig_first w :
  unstarted w ->
  good pw pt Q (fst (loadConfig w)) ->
  (forall raw, configFile w = ConfigJson raw -> Q raw) ->
  storeInv pw pt Q (snd (loadConfig w)).
Proof.
  intros (U1 & U2 & U3 & U4 & U5) G R.
  assert (I : forall w', dialogs w' = dialogs w ∧ proxyServer w' = proxyServer w
                ∧ setupHttpServer w' = setupHttpServer w ∧ procs w' = procs w
                ∧ openclawFile w' = openclawFile w ->
              forall c, configFile w' = ConfigJson c -> good pw pt Q c ->
              storeInv pw pt Q w').
  { intros w' (E1 & E2 & E3 & E4 & E5) c F Gc. unfold storeInv.
    rewrite E1, E2, E3, E4, E5, U1, U2, U3, U4. split; [by exists c|].
    split; [intros d c' i; by rewrite lookup_empty|].
    split; [done|]. split; [done|]. split; [|done].
    intros pid pr P. by rewrite (U5 pid pr P). }
  unfold loadConfig in *. destruct (configFile w) as [|rport rpassword repos a k p|raw] eqn:F.
  - unfold randomBytes in *. cbv beta iota zeta in *. simpl fst in G. simpl snd.
    eapply I; [|reflexivity|exact G]. generalize w; intro; repeat split; reflexivity.
  - rewrite migrateRepos_spec in *. cbv beta iota zeta in *.
    destruct rpassword; unfold randomBytes in *; cbv beta iota zeta in *;
      simpl fst in G; simpl snd;
      (eapply I; [|reflexivity|exact G]); generalize w; intro; repeat split; reflexivity.
  - simpl in *. apply (I w ltac:(done) raw F).
    destruct G as (G1 & G2 & _). split; [exact G1|]. split; [exact G2|]. by apply R.
Qed.

(** What a load returns depends on the file and the entropy source only. *)
Lemma loadConfig_frame w w' :
  configFile w' = configFile w -> entropy w' = entropy w ->
  entropyUsed w' = entropyUsed w ->
  fst (loadConfig w') = fst (loadConfig w).
Proof.
  intros E1 E2 E3. unfold loadConfig. rewrite E1.
  destruct (configFile w) as [|rport rpassword repos a k p|raw]; [| |done].
  - unfold randomBytes. simpl. by rewrite E2, E3.
  - rewrite !migrateRepos_spec. cbv beta iota zeta.
    assert (D : drawn (length repos) w' = drawn (length repos) w).
    { unfold drawn. by rewrite E2, E3. }
    rewrite D. destruct rpassword; unfold randomBytes; simpl; [done|].
    by rewrite E2, E3.
Qed.

Lemma appReady_storeInv file bins ent t0 :
  good pw pt Q (firstConfig file bins ent t0) ->
  (forall raw, file = ConfigJson raw -> Q raw) ->
  storeInv pw pt Q (appReady (initial file bins ent t0)).
Proof.
  intros G R. unfold firstConfig in G. unfold appReady, spawn.
  cbv beta iota zeta delta [fst snd].
  set (w0 := initial file bins ent t0) in *.
  set (w1 := set_caffeinateProc _ (launch Caffeinate "caffeinate" w0)).
  assert (U : unstarted w1).
  { repeat split. intros pid pr. subst w1 w0. unfold launch. simpl.
    destruct (decide (pid = 0%nat)) as [->|N].
    - rewrite lookup_insert_eq. by intros [= <-].
    - rewrite lookup_insert_ne by done. by rewrite lookup_empty. }
  assert (E : fst (loadConfig w1) = fst (loadConfig w0)) by by apply loadConfig_frame.
  rewrite <- E in G.
  assert (I : storeInv pw pt Q (snd (loadConfig w1))).
  { apply loadConfig_first; [exact U|exact G|]. intros raw F. by apply R. }
  clearbody w1. clear U E R. destruct (loadConfig w1) as [config w2].
  simpl in G, I. destruct G as (G1 & G2 & G3).
  assert (J : storeInv pw pt Q (startTunnel (startProxyServer (port config) (port config + 1) w2))).
  { rewrite G2. apply startTunnel_storeInv. by apply startProxyServer_storeInv. }
  revert J. generalize (startTunnel (startProxyServer (port config) (port config + 1) w2)).
  intros w3 J. repeat case_match; first [by apply startServer_storeInv|by apply startSetupServer_storeInv].
Qed.

Lemma started_storeInv file bins ent t0 evs w :
  good pw pt Q (firstConfig file bins ent t0) ->
  (forall raw, file = ConfigJson raw -> Q raw) ->
  run evs (appReady (initial file bins ent t0)) = Some w ->
  storeInv pw pt Q w.
Proof.
  intros G R E. apply (run_storeInv evs _ w E). by apply appReady_storeInv.
Qed.

End Store.

Lemma findWorkspace_id i wss ws : findWorkspace i wss = Some ws -> Workspace.id ws = i.
Proof.
  unfold findWorkspace. intros H. apply find_some in H as [_ H].
  by apply String.eqb_eq.
Qed.

Lemma findWorkspace_app i wss ws :
  is_Some (findWorkspace i wss) -> is_Some (findWorkspace i (wss ++ [ws])).
Proof.
  intros [x H]. unfold findWorkspace in *. induction wss as [|y wss IH]; [done|].
  simpl in *. destruct (String.eqb (Workspace.id y) i); [by eexists|by apply IH].
Qed.

(** A load in a world that satisfies the invariant. *)
Lemma storeInv_load pw pt Q w :
  storeInv pw pt Q w ->
  exists raw, configFile w = ConfigJson raw ∧ good pw pt Q raw
              ∧ loadConfig w = (ensureNewFields raw, w).
Proof.
  intros ((c & F & G) & _). exists c. split; [exact F|]. split; [exact G|].
  by apply loadConfig_stored.
Qed.

(** X26.  The secret and the port are fixed by the first load.  Whatever the
    config file was at start (absent, in the old format, in the new one),
    and whatever events follow, the password and the port that the first
    [loadConfig] of [app.on('ready')] returned stay in force: the config
    file exists in the new format and holds them, and so does every config
    that an open [workspace:add-protected] dialog will write back; the proxy
    compares the Authorization header with "Bearer " followed by that
    password and forwards to that port; the setup server, when it runs,
    listens on that port and expects the same header; every live gateway
    process was started with that password as OPENCLAW_GATEWAY_TOKEN, the
    first entry of its environment; every live tunnel process points at
    the port after it; the generated OpenClaw config, once written, names
    both.  Every later load returns them and writes nothing. *)
Theorem secret_and_port_are_fixed_by_first_load file bins ent t0 evs w :
  run evs (appReady (initial file bins ent t0)) = Some w ->
  let c := firstConfig file bins ent t0 in
  storeInv (password c) (port c) (fun _ => True) w
  ∧ password (fst (loadConfig w)) = password c
  ∧ port (fst (loadConfig w)) = port c
  ∧ snd (loadConfig w) = w.
Proof.
  intros E c.
  assert (I : storeInv (password c) (port c) (fun _ => True) w).
  { by refine (started_storeInv (password c) (port c) (fun _ => True) _ _ _ _ _ _ _
                 file bins ent t0 evs w _ _ E). }
  split; [exact I|].
  destruct (storeInv_load _ _ _ w I) as (raw & _ & (G1 & G2 & _) & ->). by simpl.
Qed.

Lemma secret_and_port_are_fixed_by_first_load_witness :
  storeInv "s3cret" 4096 (fun _ => True)
    (default Demo.world (run Demo.reconfigure Demo.world)).
Proof.
  refine (proj1 (secret_and_port_are_fixed_by_first_load
                   (ConfigJson Demo.config) Demo.bins Demo.entropy 1000
                   Demo.reconfigure _ _)).
  vm_compute. reflexivity.
Defined.

Lemma activeExists_first file bins ent t0 :
  fileOk file -> activeExists (firstConfig file bins ent t0).
Proof.
  intros F. unfold firstConfig, loadConfig.
  set (w0 := initial file bins ent t0).
  assert (F0 : configFile w0 = file) by reflexivity.
  clearbody w0. rewrite F0.
  destruct file as [|rport rpassword repos a k p|raw].
  - simpl. by intros i.
  - rewrite migrateRepos_spec. cbv beta iota zeta.
    destruct rpassword; unfold randomBytes; cbv beta iota zeta; simpl;
      intros i; (destruct (migrated _ _) as [|ws wss]; [done|]);
      intros [= <-]; unfold findWorkspace; simpl; rewrite String.eqb_refl; by eexists.
  - exact F.
Qed.

(** X27.  The active workspace always exists.  If the config file found at start
    was written by the application (its active workspace, if any, is one of
    its workspaces; a missing file or one in the old format will do), then
    after any schedule of events the stored config names as active workspace
    either none or the identifier of a workspace it holds: no deletion,
    creation, rename, activation over IPC or HTTP, protected-path edit or
    stale write-back of a file dialog leaves the identifier dangling. *)
Theorem active_workspace_always_exists file bins ent t0 evs w :
  fileOk file ->
  run evs (appReady (initial file bins ent t0)) = Some w ->
  let c := fst (loadConfig w) in
  forall i, activeWorkspaceId c = Some i ->
            exists ws, activeWorkspace c = Some ws ∧ Workspace.id ws = i.
Proof.
  intros F E c.
  pose (pc := firstConfig file bins ent t0).
  assert (I : storeInv (password pc) (port pc) activeExists w).
  { refine (started_storeInv (password pc) (port pc) activeExists _ _ _ _ _ _ _
              file bins ent t0 evs w _ _ E).
    - intros x Hx. exact Hx.
    - intros a k p x Hx. exact Hx.
    - intros i x Hx Hi j [= <-]. exact Hi.
    - intros i f x Hf Hx j Hj. simpl in *. rewrite findWorkspace_update by done.
      destruct (String.eqb_spec j i) as [->|N]; [|by apply Hx].
      destruct (Hx i Hj) as [ws ->]. by eexists.
    - intros ws x Hx j Hj. simpl in *. apply findWorkspace_app. by apply Hx.
    - intros i x Hx N j Hj. simpl in *. rewrite findWorkspace_without.
      destruct (String.eqb_spec j i) as [->|N']; [by destruct N|by apply Hx].
    - intros i x Hx j Hj. simpl in *.
      destruct (head (without i (workspaces x))) as [ws|] eqn:Hd; [|done].
      injection Hj as <-. by apply findWorkspace_head.
    - split; [done|]. split; [done|]. by apply activeExists_first.
    - intros raw ->. exact F. }
  destruct (storeInv_load _ _ _ w I) as (raw & _ & (_ & _ & A) & L).
  subst c. rewrite L. simpl. intros i Hi. unfold activeWorkspace.
  simpl. rewrite Hi. destruct (A i Hi) as [ws Hws]. exists ws. split; [exact Hws|].
  by apply (findWorkspace_id i (workspaces raw)).
Qed.

Lemma active_workspace_always_exists_witness :
  exists w ws,
    run deleteFirst (appReady legacyRun) = Some w
    ∧ activeWorkspace (fst (loadConfig w)) = Some ws
    ∧ Workspace.id ws = "r1".
Proof.
  exists (default legacyRun (run deleteFirst (appReady legacyRun))).
  destruct (active_workspace_always_exists
              (LegacyFile (Some 5000) None ["/home/u/a"; "/home/u/b/"]
                 JUndefined (JStr "") JNull)
              Demo.bins Demo.entropy 1000 deleteFirst
              (default legacyRun (run deleteFirst (appReady legacyRun)))
              I ltac:(vm_compute; reflexivity) "r1" ltac:(vm_compute; reflexivity))
    as (ws & A & E).
  exists ws. split; [vm_compute; reflexivity|]. split; [exact A|exact E].
Defined.

(** ** While a file dialog is open *)

Section Dialog.

Variables (d : nat) (x : Config * string).

Lemma dialogOpen_frame w w' :
  dialogs w' = dialogs w ∧ nextHandle w' = nextHandle w ->
  dialogOpen d x w -> dialogOpen d x w'.
Proof. intros (E1 & E2). unfold dialogOpen. by rewrite E1, E2. Qed.

Lemma fresh_dialogOpen w : dialogOpen d x w -> dialogOpen d x (fresh w).
Proof. intros (D & L). split; [exact D|]. simpl. lia. Qed.

Lemma openDialog_dialogOpen c i w :
  dialogOpen d x w -> dialogOpen d x (openDialog c i w).
Proof.
  intros (D & L). split; [|simpl; lia]. unfold openDialog. simpl.
  rewrite lookup_insert_ne by lia. exact D.
Qed.

Lemma closed_dialogOpen d' w :
  d' ≠ d -> dialogOpen d x w -> dialogOpen d x (closed d' w).
Proof.
  intros N (D & L). split; [|exact L]. unfold closed. simpl.
  by rewrite lookup_delete_ne.
Qed.

(** Handlers already shown to leave the dialog open; extended below. *)
Ltac dinv_known := fail.

Ltac dinv_step :=
  match goal with
  | H : dialogOpen ?a ?b ?w |- dialogOpen ?a ?b ?w => exact H
  | |- dialogOpen _ _ (fresh _) => apply fresh_dialogOpen
  | |- dialogOpen _ _ (openDialog _ _ _) => apply openDialog_dialogOpen
  | |- _ => dinv_known
  | |- dialogOpen _ _ (?F ?w) =>
      apply (dialogOpen_frame w (F w));
      [generalize w; intro; repeat split; reflexivity|]
  end.

Ltac dinv := repeat dinv_step.

Ltac dhandler :=
  unfold spawn, launch, setTimeout, setInterval, arm, probe, resolve4, newPoll,
    randomBytes, kill, closeGatewayWs, connectGatewayWs, setTunnelHealth,
    generateOpenClawConfig, stopSetupServer, stopProxyServer;
  cbv beta iota zeta delta [fst snd]; load; cbv beta iota zeta delta [fst snd];
  repeat (case_match; simplify_eq; cbv beta iota zeta delta [fst snd]).

Lemma startServer_dialogOpen w : dialogOpen d x w -> dialogOpen d x (startServer w).
Proof. intros H. unfold startServer. dhandler; dinv. Qed.

Lemma stopClientPresenceMonitor_dialogOpen w :
  dialogOpen d x w -> dialogOpen d x (stopClientPresenceMonitor w).
Proof. intros H. unfold stopClientPresenceMonitor, clearTimer. dhandler; dinv. Qed.

Lemma startClientPresenceMonitor_dialogOpen w :
  dialogOpen d x w -> dialogOpen d x (startClientPresenceMonitor w).
Proof. intros H. unfold startClientPresenceMonitor, clearTimer. dhandler; dinv. Qed.

Ltac dinv_known ::=
  match goal with
  | |- dialogOpen _ _ (startServer _) => apply startServer_dialogOpen
  | |- dialogOpen _ _ (stopClientPresenceMonitor _) =>
      apply stopClientPresenceMonitor_dialogOpen
  | |- dialogOpen _ _ (startClientPresenceMonitor _) =>
      apply startClientPresenceMonitor_dialogOpen
  end.

Lemma stopServer_dialogOpen b w : dialogOpen d x w -> dialogOpen d x (stopServer b w).
Proof. intros H. unfold stopServer. dhandler; dinv. Qed.

Lemma startTunnel_dialogOpen w : dialogOpen d x w -> dialogOpen d x (startTunnel w).
Proof. intros H. unfold startTunnel, closure. dhandler; dinv. Qed.

Lemma startTunnelHealthMonitor_dialogOpen w :
  dialogOpen d x w -> dialogOpen d x (startTunnelHealthMonitor w).
Proof. intros H. unfold startTunnelHealthMonitor, clearTimer. dhandler; dinv. Qed.

Lemma presenceTick_dialogOpen w : dialogOpen d x w -> dialogOpen d x (presenceTick w).
Proof. intros H. unfold presenceTick. dhandler; dinv. Qed.

Ltac dinv_known ::=
  match goal with
  | |- dialogOpen _ _ (startServer _) => apply startServer_dialogOpen
  | |- dialogOpen _ _ (stopClientPresenceMonitor _) =>
      apply stopClientPresenceMonitor_dialogOpen
  | |- dialogOpen _ _ (startClientPresenceMonitor _) =>
      apply startClientPresenceMonitor_dialogOpen
  | |- dialogOpen _ _ (stopServer _ _) => apply stopServer_dialogOpen
  | |- dialogOpen _ _ (startTunnel _) => apply startTunnel_dialogOpen
  | |- dialogOpen _ _ (startTunnelHealthMonitor _) =>
      apply startTunnelHealthMonitor_dialogOpen
  | |- dialogOpen _ _ (presenceTick _) => apply presenceTick_dialogOpen
  end.

Lemma stopAll_dialogOpen w : dialogOpen d x w -> dialogOpen d x (stopAll w).
Proof. intros H. unfold stopAll, clearTimer. dhandler; dinv. Qed.

Lemma healthTick_dialogOpen m w : dialogOpen d x w -> dialogOpen d x (healthTick m w).
Proof. intros H. unfold healthTick. dhandler; dinv. Qed.

Lemma healthTickResume_dialogOpen m ok w :
  dialogOpen d x w -> dialogOpen d x (healthTickResume m ok w).
Proof. intros H. unfold healthTickResume, setFailCount. dhandler; dinv. Qed.

Lemma waitForDns_dialogOpen poll w :
  dialogOpen d x w -> dialogOpen d x (waitForDns poll w).
Proof. intros H. unfold waitForDns. dhandler; dinv. Qed.

Lemma dnsCallback_dialogOpen poll err w :
  dialogOpen d x w -> dialogOpen d x (dnsCallback poll err w).
Proof. intros H. unfold dnsCallback. dhandler; dinv. Qed.

Lemma tunnelExit_dialogOpen pid w :
  dialogOpen d x w -> dialogOpen d x (tunnelExit pid w).
Proof. intros H. unfold tunnelExit. dhandler; dinv. Qed.

Lemma gatewayExit_dialogOpen code w :
  dialogOpen d x w -> dialogOpen d x (gatewayExit code w).
Proof. intros H. unfold gatewayExit. dhandler; dinv. Qed.

Lemma gatewaySettle_dialogOpen gport token w :
  dialogOpen d x w -> dialogOpen d x (gatewaySettle gport token w).
Proof. intros H. unfold gatewaySettle. dhandler; dinv. Qed.

Lemma onData_dialogOpen pid text w :
  dialogOpen d x w -> dialogOpen d x (onData pid text w).
Proof.
  intros H. unfold onData, closure. dhandler; dinv.
  all: apply waitForDns_dialogOpen; dinv.
Qed.

Ltac dinv_known ::=
  match goal with
  | |- dialogOpen _ _ (startServer _) => apply startServer_dialogOpen
  | |- dialogOpen _ _ (stopClientPresenceMonitor _) =>
      apply stopClientPresenceMonitor_dialogOpen
  | |- dialogOpen _ _ (startClientPresenceMonitor _) =>
      apply startClientPresenceMonitor_dialogOpen
  | |- dialogOpen _ _ (stopServer _ _) => apply stopServer_dialogOpen
  | |- dialogOpen _ _ (startTunnel _) => apply startTunnel_dialogOpen
  | |- dialogOpen _ _ (startTunnelHealthMonitor _) =>
      apply startTunnelHealthMonitor_dialogOpen
  | |- dialogOpen _ _ (presenceTick _) => apply presenceTick_dialogOpen
  | |- dialogOpen _ _ (stopAll _) => apply stopAll_dialogOpen
  | |- dialogOpen _ _ (healthTick _ _) => apply healthTick_dialogOpen
  | |- dialogOpen _ _ (healthTickResume _ _ _) => apply healthTickResume_dialogOpen
  | |- dialogOpen _ _ (waitForDns _ _) => apply waitForDns_dialogOpen
  | |- dialogOpen _ _ (dnsCallback _ _ _) => apply dnsCallback_dialogOpen
  | |- dialogOpen _ _ (tunnelExit _ _) => apply tunnelExit_dialogOpen
  | |- dialogOpen _ _ (gatewayExit _ _) => apply gatewayExit_dialogOpen
  | |- dialogOpen _ _ (gatewaySettle _ _ _) => apply gatewaySettle_dialogOpen
  | |- dialogOpen _ _ (onData _ _ _) => apply onData_dialogOpen
  end.

Lemma proxyRequest_dialogOpen px r w :
  dialogOpen d x w -> dialogOpen d x (snd (proxyRequest px r w)).
Proof.
  intros H. unfold proxyRequest, postAiConfig, postActiveWorkspace. dhandler; dinv.
Qed.

Lemma ipc_dialogOpen c w w' :
  closes d (Ipc c) = false ->
  dialogOpen d x w -> ipc c w = Some w' -> dialogOpen d x w'.
Proof.
  intros N H E. destruct c; simpl in E.
  - injection E as <-. dhandler; dinv.
  - injection E as <-. dinv.
  - injection E as <-. dinv.
  - injection E as <-. unfold ipcSetAiSource. dhandler; dinv.
  - injection E as <-. unfold ipcWorkspaceCreate. dhandler; dinv.
  - injection E as <-. unfold ipcWorkspaceRename. dhandler; dinv.
  - injection E as <-. unfold ipcWorkspaceDelete. dhandler; dinv.
  - injection E as <-. unfold ipcWorkspaceSetActive. dhandler; dinv.
  - injection E as <-. unfold ipcAddProtectedOpen. dhandler; dinv.
  - destruct (dialogs w !! dialog) as [[c i]|] eqn:D; [|done]. injection E as <-.
    simpl in N. apply Nat.eqb_neq in N.
    assert (dialogOpen d x (closed dialog w)) by by apply closed_dialogOpen.
    unfold ipcAddProtectedClose. dhandler; dinv.
  - injection E as <-. unfold ipcRemoveProtected. dhandler; dinv.
Qed.

Lemma step_dialogOpen now e w w' :
  closes d e = false ->
  step now e w = Some w' -> dialogOpen d x w -> dialogOpen d x w'.
Proof.
  intros N. unfold step. destruct (now <? clock w); [done|]. intros E H.
  assert (H' : dialogOpen d x (set_clock now w)) by dinv.
  revert E H'. generalize (set_clock now w). clear H w. intros w E H.
  destruct e; repeat case_match; simplify_eq.
  - by apply proxyRequest_dialogOpen.
  - done.
  - assert (dialogOpen d x (rearm h (t_kind t) z w)) by (unfold rearm; dinv).
    unfold timerBody. case_match; dinv.
  - assert (dialogOpen d x (clearTimer h w)) by (unfold clearTimer; dinv).
    unfold timerBody. case_match; dinv.
  - unfold answered. dinv.
  - unfold resolved. dinv.
  - dinv.
  - unfold tunnelError. dinv.
  - unfold reap. dinv.
  - unfold forwardLog. dinv.
  - unfold gatewayError. dinv.
  - unfold reap. dinv.
  - dinv.
  - by eapply ipc_dialogOpen.
  - unfold onSuspend. dinv.
  - unfold onResume. dhandler; dinv.
  - dinv.
Qed.

Lemma run_dialogOpen evs : forall w w',
  leavesOpen d evs = true ->
  run evs w = Some w' -> dialogOpen d x w -> dialogOpen d x w'.
Proof.
  induction evs as [|[now e] rest IH]; intros w w' N E H; simpl in E.
  - by simplify_eq.
  - destruct (step now e w) as [w1|] eqn:S; [|done].
    simpl in N. apply andb_true_iff in N as [N1 N2]. apply negb_true_iff in N1.
    apply (IH w1 w' N2 E). by apply (step_dialogOpen now e w w1).
Qed.

End Dialog.

(** X28.  The add-protected dialog writes back the config it loaded before it
    opened.  [workspace:add-protected] loads the config, then waits for the
    file dialog.  Whatever events are handled while the dialog is open
    (any schedule that does not hold the return of this dialog), the dialog
    stays pending with that config; when it returns paths, the config file
    is replaced by the config loaded before the dialog opened, with the
    picked paths added to the workspace: the AI source, the active
    workspace and the workspaces are those of before, so every change of
    them that was stored in between is lost from the file.  No process is
    started or signalled and the gateway is not restarted. *)
Theorem add_protected_writes_back_the_config_it_loaded
        (w : World) (c : Config) (i : string) (ws : Workspace.t)
        (t0 : Z) (evs : list (Z * Event)) (w2 : World) (t : Z)
        (x : string) (picked : list string) :
  configFile w = ConfigJson c ->
  findWorkspace i (workspaces c) = Some ws ->
  let d := nextHandle w in
  run ((t0, Ipc (AddProtectedOpen i)) :: evs) w = Some w2 ->
  leavesOpen d evs = true ->
  clock w2 <= t ->
  exists w3 stored,
    step t (Ipc (AddProtectedClose d (x :: picked))) w2 = Some w3
    ∧ configFile w3 = ConfigJson stored
    ∧ (aiSource stored, apiKey stored, apiProvider stored)
      = (aiSource (ensureNewFields c), apiKey (ensureNewFields c),
         apiProvider (ensureNewFields c))
    ∧ activeWorkspaceId stored = activeWorkspaceId c
    ∧ workspaces stored = updateWorkspace i (protect (x :: picked)) (workspaces c)
    ∧ calls w3 = calls w2 ∧ procs w3 = procs w2.
Proof.
  intros F H d R N Ht. simpl in R.
  destruct (step t0 (Ipc (AddProtectedOpen i)) w) as [w1|] eqn:S1; [|done].
  assert (D1 : dialogOpen d (ensureNewFields c, i) w1).
  { unfold step in S1. destruct (t0 <? clock w); [done|].
    rewrite (add_protected_opens i c ws (set_clock t0 w) F H) in S1.
    injection S1 as <-. split; [apply lookup_insert_eq|simpl; lia]. }
  pose proof (run_dialogOpen d (ensureNewFields c, i) evs w1 w2 N R D1) as [D2 _].
  unfold step. destruct (t <? clock w2) eqn:E; [lia|].
  rewrite (add_protected_closes d (ensureNewFields c) i x picked (set_clock t w2) D2).
  eexists _, _. split; [reflexivity|]. split; [reflexivity|]. repeat split.
Qed.

Lemma add_protected_writes_back_the_config_it_loaded_witness :
  aiSource (fst (loadConfig sourceChanged)) = JStr "codex-cli"
  ∧ exists w3 stored,
      step 4000 (Ipc (AddProtectedClose 4 ["/home/u/proj/.env"])) sourceChanged = Some w3
      ∧ configFile w3 = ConfigJson stored
      ∧ aiSource stored = JStr "claude-cli".
Proof.
  split; [vm_compute; reflexivity|].
  destruct (add_protected_writes_back_the_config_it_loaded Demo.world Demo.config "w1"
              (Workspace.mk "w1" "proj" ["/home/u/proj"] []) 2000
              [(3000, Ipc (SetAiSource (JStr "codex-cli") JUndefined JUndefined))]
              sourceChanged 4000 "/home/u/proj/.env" [] eq_refl eq_refl)
    as (w3 & stored & C & F & A & _).
  - vm_compute. reflexivity.
  - reflexivity.
  - vm_compute. discriminate.
  - exists w3, stored. split; [exact C|]. split; [exact F|].
    injection A as A _ _. rewrite A. reflexivity.
Defined.

(** ** What the tunnel supervisor publishes, and its one health monitor *)

Lemma tunnelInv_frame w w' :
  currentTunnelURL w' = currentTunnelURL w ∧ dnsPolls w' = dnsPolls w
  ∧ sent w' = sent w ∧ timers w' = timers w
  ∧ tunnelHealthInterval w' = tunnelHealthInterval w ->
  tunnelInv w -> tunnelInv w'.
Proof.
  intros (E1 & E2 & E3 & E4 & E5). unfold tunnelInv. by rewrite E1, E2, E3, E4, E5.
Qed.

Lemma send_tunnelInv ch d w :
  urlMessage (mkSent ch d) -> tunnelInv w -> tunnelInv (send ch d w).
Proof.
  intros M (I1 & I2 & I3 & I4). split; [exact I1|]. split; [exact I2|].
  split; [|exact I4]. unfold send. simpl. apply Forall_app. split; [exact I3|].
  by apply Forall_cons.
Qed.

Lemma arm_tunnelInv k delay every w :
  k ≠ HealthPoll -> tunnelInv w -> tunnelInv (arm k delay every w).
Proof.
  intros N (I1 & I2 & I3 & I4). split; [exact I1|]. split; [exact I2|].
  split; [exact I3|]. intros h t. unfold arm. simpl.
  destruct (decide (h = nextHandle w)) as [->|Hne].
  - rewrite lookup_insert_eq. intros [= <-]. simpl. congruence.
  - rewrite lookup_insert_ne by done. apply I4.
Qed.

Lemma rearm_tunnelInv h t p w :
  timers w !! h = Some t -> tunnelInv w -> tunnelInv (rearm h (t_kind t) p w).
Proof.
  intros Hh (I1 & I2 & I3 & I4). split; [exact I1|]. split; [exact I2|].
  split; [exact I3|]. intros h' t'. unfold rearm. simpl.
  destruct (decide (h' = h)) as [->|Hne].
  - rewrite lookup_insert_eq. intros [= <-]. simpl. by apply I4.
  - rewrite lookup_insert_ne by done. apply I4.
Qed.

Lemma clearTimer_tunnelInv h w : tunnelInv w -> tunnelInv (clearTimer h w).
Proof.
  intros (I1 & I2 & I3 & I4). split; [exact I1|]. split; [exact I2|].
  split; [exact I3|]. intros h' t. unfold clearTimer. simpl.
  destruct (decide (h = h')) as [->|Hne].
  - by rewrite lookup_delete_eq.
  - rewrite lookup_delete_ne by done. apply I4.
Qed.

Lemma newPoll_tunnelInv p w :
  tunnelUrlShaped (tunnelUrl p) -> tunnelInv w -> tunnelInv (newPoll p w).
Proof.
  intros S (I1 & I2 & I3 & I4). split; [exact I1|]. split; [|split; [exact I3|exact I4]].
  intros h p'. unfold newPoll. simpl.
  destruct (decide (h = nextHandle w)) as [->|Hne].
  - rewrite lookup_insert_eq. by intros [= <-].
  - rewrite lookup_insert_ne by done. apply I2.
Qed.

Lemma url_tunnelInv u w :
  publishable u -> tunnelInv w -> tunnelInv (set_currentTunnelURL u w).
Proof.
  intros P (I1 & I2 & I3 & I4). split; [exact P|]. split; [exact I2|].
  split; [exact I3|exact I4].
Qed.

(** Stopping the health monitor, as [stopAll] does. *)
Lemma stopHealth_tunnelInv h w :
  tunnelHealthInterval w = Some h ->
  tunnelInv w -> tunnelInv (set_tunnelHealthInterval None (clearTimer h w)).
Proof.
  intros E (I1 & I2 & I3 & I4).
  split; [exact I1|]. split; [exact I2|]. split; [exact I3|].
  intros h' t. simpl. destruct (decide (h = h')) as [->|Hne].
  - by rewrite lookup_delete_eq.
  - rewrite lookup_delete_ne by done. intros Ht Hk.
    specialize (I4 h' t Ht Hk). congruence.
Qed.

Lemma startTunnelHealthMonitor_tunnelInv w :
  tunnelInv w -> tunnelInv (startTunnelHealthMonitor w).
Proof.
  intros (I1 & I2 & I3 & I4). unfold startTunnelHealthMonitor.
  split; [|split; [|split]].
  - by destruct (tunnelHealthInterval w).
  - by destruct (tunnelHealthInterval w).
  - destruct (tunnelHealthInterval w); simpl; apply Forall_app; (split; [exact I3|]);
      apply Forall_cons; (split; [|done]); intros [=].
  - intros h t.
    destruct (tunnelHealthInterval w) as [m|] eqn:E; simpl.
    + destruct (decide (h = nextHandle w)) as [->|Hne]; [done|].
      rewrite lookup_insert_ne by done.
      destruct (decide (m = h)) as [->|Hm]; [by rewrite lookup_delete_eq|].
      rewrite lookup_delete_ne by done. intros Ht Hk.
      specialize (I4 h t Ht Hk). congruence.
    + destruct (decide (h = nextHandle w)) as [->|Hne]; [done|].
      rewrite lookup_insert_ne by done. intros Ht Hk.
      specialize (I4 h t Ht Hk). congruence.
Qed.

Lemma matchTunnelLabel_shaped text : forall l,
  matchTunnelLabel text = Some l -> tunnelUrlShaped (tunnelUrlOf l).
Proof.
  induction text as [|c text IH]; intros l; rewrite matchTunnelLabel_unfold.
  - destruct (tunnelUrlHere "") as [l'|] eqn:H; [|done].
    intros [= <-]. apply tunnelUrlHere_spec in H as (N & A & _). by exists l'.
  - destruct (tunnelUrlHere (String c text)) as [l'|] eqn:H.
    + intros [= <-]. apply tunnelUrlHere_spec in H as (N & A & _). by exists l'.
    + apply IH.
Qed.

(** Handlers already shown to keep the invariant; extended below. *)
Ltac tinv_known := fail.

Ltac tinv_step :=
  match goal with
  | H : tunnelInv ?w |- tunnelInv ?w => exact H
  | |- tunnelInv (send _ _ _) => apply send_tunnelInv
  | |- tunnelInv (arm _ _ _ _) => apply arm_tunnelInv
  | |- tunnelInv (clearTimer _ _) => apply clearTimer_tunnelInv
  | |- tunnelInv (newPoll _ _) => apply newPoll_tunnelInv
  | |- tunnelInv (set_currentTunnelURL _ _) => apply url_tunnelInv
  | |- tunnelInv (startTunnelHealthMonitor _) => apply startTunnelHealthMonitor_tunnelInv
  | |- tunnelInv (set_tunnelHealthInterval None (clearTimer _ _)) =>
      apply stopHealth_tunnelInv
  | |- _ => tinv_known
  | |- tunnelInv (?F ?w) =>
      apply (tunnelInv_frame w (F w));
      [generalize w; intro; repeat split; reflexivity|]
  end.

(** The side conditions: a channel other than [tunnel-url], a timer other
    than the health poll, the empty URL. *)
Ltac tside :=
  match goal with
  | |- urlMessage (mkSent _ _) =>
      first [ by intros [=] | intros _; simpl; first [by left|idtac] ]
  | |- _ ≠ HealthPoll => discriminate
  | |- publishable "" => by left
  | |- tunnelHealthInterval _ = Some _ => eassumption
  | |- _ => idtac
  end.

Ltac tinv := repeat tinv_step; tside.

Ltac thandler :=
  unfold spawn, launch, setTimeout, setInterval, probe, resolve4, randomBytes, kill,
    connectGatewayWs, closeGatewayWs, setTunnelHealth, generateOpenClawConfig,
    stopSetupServer, stopProxyServer, setFailCount, closure;
  cbv beta iota zeta delta [fst snd]; load; cbv beta iota zeta delta [fst snd];
  repeat (case_match; simplify_eq; cbv beta iota zeta delta [fst snd]).

Lemma startServer_tunnelInv w : tunnelInv w -> tunnelInv (startServer w).
Proof. intros H. unfold startServer. thandler; tinv. Qed.

Lemma stopClientPresenceMonitor_tunnelInv w :
  tunnelInv w -> tunnelInv (stopClientPresenceMonitor w).
Proof. intros H. unfold stopClientPresenceMonitor. thandler; tinv. Qed.

Lemma startClientPresenceMonitor_tunnelInv w :
  tunnelInv w -> tunnelInv (startClientPresenceMonitor w).
Proof. intros H. unfold startClientPresenceMonitor. thandler; tinv. Qed.

Ltac tinv_known ::=
  match goal with
  | |- tunnelInv (startServer _) => apply startServer_tunnelInv
  | |- tunnelInv (stopClientPresenceMonitor _) => apply stopClientPresenceMonitor_tunnelInv
  | |- tunnelInv (startClientPresenceMonitor _) =>
      apply startClientPresenceMonitor_tunnelInv
  end.

Lemma stopServer_tunnelInv b w : tunnelInv w -> tunnelInv (stopServer b w).
Proof. intros H. unfold stopServer. thandler; tinv. Qed.

Lemma startTunnel_tunnelInv w : tunnelInv w -> tunnelInv (startTunnel w).
Proof. intros H. unfold startTunnel. thandler; tinv. Qed.

Lemma presenceTick_tunnelInv w : tunnelInv w -> tunnelInv (presenceTick w).
Proof. intros H. unfold presenceTick. thandler; tinv. Qed.

Ltac tinv_known ::=
  match goal with
  | |- tunnelInv (startServer _) => apply startServer_tunnelInv
  | |- tunnelInv (stopClientPresenceMonitor _) => apply stopClientPresenceMonitor_tunnelInv
  | |- tunnelInv (startClientPresenceMonitor _) =>
      apply startClientPresenceMonitor_tunnelInv
  | |- tunnelInv (stopServer _ _) => apply stopServer_tunnelInv
  | |- tunnelInv (startTunnel _) => apply startTunnel_tunnelInv
  | |- tunnelInv (presenceTick _) => apply presenceTick_tunnelInv
  end.

Lemma stopAll_tunnelInv w : tunnelInv w -> tunnelInv (stopAll w).
Proof. intros H. unfold stopAll. thandler; tinv. Qed.

Lemma healthTick_tunnelInv m w : tunnelInv w -> tunnelInv (healthTick m w).
Proof. intros H. unfold healthTick. thandler; tinv. Qed.

Lemma healthTickResume_tunnelInv m ok w :
  tunnelInv w -> tunnelInv (healthTickResume m ok w).
Proof. intros H. unfold healthTickResume. thandler; tinv. Qed.

Lemma waitForDns_tunnelInv poll w : tunnelInv w -> tunnelInv (waitForDns poll w).
Proof. intros H. unfold waitForDns. thandler; tinv. Qed.

Lemma dnsCallback_tunnelInv poll err w :
  tunnelInv w -> tunnelInv (dnsCallback poll err w).
Proof.
  intros H. unfold dnsCallback.
  destruct (dnsPolls w !! poll) as [p|] eqn:P; [|exact H].
  assert (S : tunnelUrlShaped (tunnelUrl p)) by (destruct H as (_ & I2 & _); eauto).
  destruct err; thandler; tinv; by right.
Qed.

Lemma tunnelExit_tunnelInv pid w : tunnelInv w -> tunnelInv (tunnelExit pid w).
Proof. intros H. unfold tunnelExit. thandler; tinv. Qed.

Lemma gatewayExit_tunnelInv code w : tunnelInv w -> tunnelInv (gatewayExit code w).
Proof. intros H. unfold gatewayExit. thandler; tinv. Qed.

Lemma gatewaySettle_tunnelInv gport token w :
  tunnelInv w -> tunnelInv (gatewaySettle gport token w).
Proof. intros H. unfold gatewaySettle. thandler; tinv. Qed.

Ltac tinv_known ::=
  match goal with
  | |- tunnelInv (startServer _) => apply startServer_tunnelInv
  | |- tunnelInv (stopClientPresenceMonitor _) => apply stopClientPresenceMonitor_tunnelInv
  | |- tunnelInv (startClientPresenceMonitor _) =>
      apply startClientPresenceMonitor_tunnelInv
  | |- tunnelInv (stopServer _ _) => apply stopServer_tunnelInv
  | |- tunnelInv (startTunnel _) => apply startTunnel_tunnelInv
  | |- tunnelInv (presenceTick _) => apply presenceTick_tunnelInv
  | |- tunnelInv (stopAll _) => apply stopAll_tunnelInv
  | |- tunnelInv (healthTick _ _) => apply healthTick_tunnelInv
  | |- tunnelInv (healthTickResume _ _ _) => apply healthTickResume_tunnelInv
  | |- tunnelInv (waitForDns _ _) => apply waitForDns_tunnelInv
  | |- tunnelInv (dnsCallback _ _ _) => apply dnsCallback_tunnelInv
  | |- tunnelInv (tunnelExit _ _) => apply tunnelExit_tunnelInv
  | |- tunnelInv (gatewayExit _ _) => apply gatewayExit_tunnelInv
  | |- tunnelInv (gatewaySettle _ _ _) => apply gatewaySettle_tunnelInv
  end.

Lemma onData_tunnelInv pid text w : tunnelInv w -> tunnelInv (onData pid text w).
Proof.
  intros H. unfold onData.
  destruct (tunnelClosures w !! pid) as [cl|]; [|exact H].
  destruct (urlFound cl); [exact H|].
  destruct (includes "429" text || includes "Too Many Requests" text).
  { thandler; tinv. }
  destruct (matchTunnelLabel text) as [label|] eqn:M; [|exact H].
  apply matchTunnelLabel_shaped in M. thandler; tinv. exact M.
Qed.

Ltac tinv_known ::=
  match goal with
  | |- tunnelInv (startServer _) => apply startServer_tunnelInv
  | |- tunnelInv (stopClientPresenceMonitor _) => apply stopClientPresenceMonitor_tunnelInv
  | |- tunnelInv (startClientPresenceMonitor _) =>
      apply startClientPresenceMonitor_tunnelInv
  | |- tunnelInv (stopServer _ _) => apply stopServer_tunnelInv
  | |- tunnelInv (startTunnel _) => apply startTunnel_tunnelInv
  | |- tunnelInv (presenceTick _) => apply presenceTick_tunnelInv
  | |- tunnelInv (stopAll _) => apply stopAll_tunnelInv
  | |- tunnelInv (healthTick _ _) => apply healthTick_tunnelInv
  | |- tunnelInv (healthTickResume _ _ _) => apply healthTickResume_tunnelInv
  | |- tunnelInv (waitForDns _ _) => apply waitForDns_tunnelInv
  | |- tunnelInv (dnsCallback _ _ _) => apply dnsCallback_tunnelInv
  | |- tunnelInv (tunnelExit _ _) => apply tunnelExit_tunnelInv
  | |- tunnelInv (gatewayExit _ _) => apply gatewayExit_tunnelInv
  | |- tunnelInv (gatewaySettle _ _ _) => apply gatewaySettle_tunnelInv
  | |- tunnelInv (onData _ _ _) => apply onData_tunnelInv
  end.

Lemma proxyRequest_tunnelInv px r w :
  tunnelInv w -> tunnelInv (snd (proxyRequest px r w)).
Proof.
  intros H. unfold proxyRequest, postAiConfig, postActiveWorkspace. thandler; tinv.
Qed.

Lemma ipc_tunnelInv c w w' : tunnelInv w -> ipc c w = Some w' -> tunnelInv w'.
Proof.
  intros H E. destruct c; simpl in E.
  - injection E as <-. thandler; tinv.
  - injection E as <-. tinv.
  - injection E as <-. tinv.
  - injection E as <-. unfold ipcSetAiSource. thandler; tinv.
  - injection E as <-. unfold ipcWorkspaceCreate. thandler; tinv.
  - injection E as <-. unfold ipcWorkspaceRename. thandler; tinv.
  - injection E as <-. unfold ipcWorkspaceDelete. thandler; tinv.
  - injection E as <-. unfold ipcWorkspaceSetActive. thandler; tinv.
  - injection E as <-. unfold ipcAddProtectedOpen, openDialog. thandler; tinv.
  - destruct (dialogs w !! dialog) as [[c i]|] eqn:D; [|done]. injection E as <-.
    unfold ipcAddProtectedClose, closed. thandler; tinv.
  - injection E as <-. unfold ipcRemoveProtected. thandler; tinv.
Qed.

Lemma step_tunnelInv now e w w' :
  step now e w = Some w' -> tunnelInv w -> tunnelInv w'.
Proof.
  unfold step. destruct (now <? clock w); [done|]. intros E H.
  assert (H' : tunnelInv (set_clock now w)) by tinv.
  revert E H'. generalize (set_clock now w). clear H w. intros w E H.
  destruct e; repeat case_match; simplify_eq.
  - by apply proxyRequest_tunnelInv.
  - done.
  - assert (tunnelInv (rearm h (t_kind t) z w)) by by apply rearm_tunnelInv.
    unfold timerBody. case_match; tinv.
  - assert (tunnelInv (clearTimer h w)) by tinv.
    unfold timerBody. case_match; tinv.
  - unfold answered. tinv.
  - unfold resolved. tinv.
  - tinv.
  - unfold tunnelError. tinv.
  - unfold reap. tinv.
  - unfold forwardLog. tinv.
  - unfold gatewayError. tinv.
  - unfold reap. tinv.
  - tinv.
  - by eapply ipc_tunnelInv.
  - unfold onSuspend. tinv.
  - unfold onResume. thandler; tinv.
  - tinv.
Qed.

Lemma appReady_tunnelInv file bins ent t0 :
  tunnelInv (appReady (initial file bins ent t0)).
Proof.
  assert (H : tunnelInv (initial file bins ent t0)).
  { split; [by left|]. split; [intros h p; simpl; by rewrite lookup_empty|].
    split; [by apply Forall_nil|]. intros h t. simpl. by rewrite lookup_empty. }
  revert H. generalize (initial file bins ent t0). intros w H.
  unfold appReady, startProxyServer, startSetupServer. thandler; tinv.
Qed.

Lemma reachable_tunnelInv w : reachable w -> tunnelInv w.
Proof.
  induction 1 as [file bins ent t0|w now e w' R IH E].
  - apply appReady_tunnelInv.
  - by apply (step_tunnelInv now e w w' E).
Qed.

(** X29.  Only tunnel URLs are published.  In every state the application can
    reach, the published tunnel URL is either empty or of the form
    [https://<label>.trycloudflare.com] with a non-empty label of letters,
    digits and hyphens, and so was every text ever sent to the window on
    the channel [tunnel-url]: whatever the tunnel process prints, nothing
    else of its output becomes the URL that the window shows. *)
Theorem published_url_is_a_tunnel_url (w : World) :
  reachable w ->
  (currentTunnelURL w = ""
   ∨ exists l, l ≠ "" ∧ allHost l = true ∧ currentTunnelURL w = tunnelUrlOf l)
  ∧ forall d, mkSent "tunnel-url" d ∈ sent w ->
      exists u, d = PText u
                ∧ (u = "" ∨ exists l, l ≠ "" ∧ allHost l = true ∧ u = tunnelUrlOf l).
Proof.
  intros R. destruct (reachable_tunnelInv w R) as (I1 & _ & I3 & _).
  split; [exact I1|]. intros d Hd.
  pose proof (proj1 (Forall_forall _ _) I3 _ Hd eq_refl) as P. simpl in P.
  destruct d; try done. by exists s.
Qed.

Lemma published_url_is_a_tunnel_url_witness :
  currentTunnelURL Demo.published = ""
  ∨ exists l, l ≠ "" ∧ allHost l = true ∧ currentTunnelURL Demo.published = tunnelUrlOf l.
Proof.
  refine (proj1 (published_url_is_a_tunnel_url Demo.published _)).
  apply (run_reachable Demo.publish Demo.world); [apply reach_ready|].
  vm_compute. reflexivity.
Defined.


